(* ===== verification/_CoqProject ===== *)
-Q . S2P
Prelude.v
Util.v
Bitset.v
NbdTypes.v
IoUtil.v
SockUtil.v
Parse.v
ReadWrite.v
Client.v
Killswitch.v
Acl.v
Prefetch.v
Proxy.v
Serve.v
Mirror.v
MirrorLive.v
Writers.v
Mbox.v
Text.v
Status.v
Control.v
Handover.v
Retry.v
Ledger.v
Lifetime.v
Resources.v
Remote.v
Flexnbd.v
Threads.v
Process.v
Getopt.v
Options.v
Mode.v
ProxyMain.v
