(* ===== verification/Prelude.v ===== *)
(** * flexnbd: a verification library

    flexnbd is an NBD server for one file, with live migration of that file to a
    listening server, and a proxy that keeps one client connected across restarts of
    the server. This library translates the C code under src/src/ to Rocq functions
    and proves what makes it correct. This file holds what the components share;
    each other file opens with a note of its own.

    ** The program and the files

    - A client thread reads requests from its socket and serves them from a mapped
      file (client.c: Client.v). Writes to blocks that are not allocated skip zeroes,
      guided by the allocation map (bitset.h: Bitset.v), which FIEMAP fills
      (ioutil.c: IoUtil.v) and which reports every range written to an event stream.
      A timer cuts off a client that stalls (Killswitch.v).
    - The server thread accepts clients under an access list, keeps a table of their
      threads, audits it when the list changes and closes down (serve.c,
      flexthread.c: Serve.v; acl.c: Acl.v; parse.c: Parse.v).
    - The mirror copies the file to a listener while clients go on writing: one pass
      over the file, then the event stream until it is empty and the clients are
      closed (mirror.c: Mirror.v; that it can always finish: MirrorLive.v; that the
      client threads are the clients it reckons with: Writers.v). A supervisor starts it
      and starts it again when it fails (Handover.v, Retry.v). It uses the
      client side of the protocol (readwrite.c: ReadWrite.v).
    - The control thread takes commands over a UNIX socket: the access list, starting,
      stopping and limiting a mirror, a status report (control.c: Control.v; status.c:
      Status.v). It learns how a mirror started through a mailbox (mbox.c: Mbox.v). The
      program that sends the commands is remote.c: Remote.v.
    - The server process is the server thread and the control thread (flexnbd.c:
      Flexnbd.v, Threads.v; from start to end: Process.v); its command line is mode.c and
      main.c: Mode.v, with the tables of options and help texts in Options.v and
      [getopt_long] in Getopt.v. The proxy's is proxy-main.c: ProxyMain.v.
    - The proxy relays requests to an upstream server, reconnects and sends the
      request again when the connection breaks, and can read ahead into a cache
      (proxy.c: Proxy.v; prefetch.c: Prefetch.v).
    - All use the wire structs (nbdtypes.c: NbdTypes.v), the I/O loops and buffers
      (ioutil.c: IoUtil.v), the socket helpers and self-pipes (sockutil.c,
      self_pipe.c: SockUtil.v), text and numbers (Text.v), and errors, logging and the
      clock (util.c: Util.v).
    - What the objects of all these parts hold, memory, descriptors, locks, timers and
      mappings, is kept in a ledger (util.c: Ledger.v), on which their creation and
      destruction (Lifetime.v) and the commands of the control socket (Resources.v) are
      written once more; these definitions have the C names with [_l].

    ** How the code is translated

    A C struct is a record, an enum an inductive type, and a function keeps its name.
    Integers are [Z] with the wrap-around of their width written out ([+64], [-64],
    [u32], [s32]); buffers are lists of bytes, an access outside one is [Stop SFault].
    [error()], [fatal()] and waiting are the other outcomes of [res]. Code that
    changes a struct takes and returns it; where a thread can be cut short by
    [error()] the monad [M] keeps the state at that point, since the file and the
    allocation map outlive the thread. What the kernel answers is input: for reads
    the bytes that arrive and how they are cut, for other calls lists of results.
    Other threads are input too: a join is a function from threads to results, and
    what another thread does to a shared server while it is waited for is a function
    on the server. [inet_pton], [rand] and the clock are arguments.

    Loops that C writes with [while] recurse on a count that bounds them: bytes or
    bits left, entries of the table, answers of the kernel still to come, queued
    events. [write_not_zeroes] has fuel [len + 1], [dequeue_events] the number of
    queued events plus one, [build_allocation_map] and the loops of sessions an
    argument; running out is [SHang], and the theorems prove the result for enough
    fuel, so that hanging is excluded. A list of kernel answers that has run out means
    a call that has not returned, [SBlock].

    ** What is proved

    - Bitset.v: setting, clearing and counting runs of bits by words is the loop over
      single bits; the ring buffer of the stream is a bounded queue whose byte counts
      are the totals of what is queued; [bitset_run_count] gives maximal runs.
    - NbdTypes.v, ReadWrite.v: requests, replies and the hello survive the wire, the
      hello under any segmentation; a remote read returns the server's bytes, by
      [splice] when nothing follows them; the
      range check of the read and write modes.
    - IoUtil.v, SockUtil.v: the loops deliver exactly the bytes asked for however the
      kernel cuts them; the FIEMAP walk marks every block with data, for files whose
      extents end within the map; the retry loops.
    - Client.v: the sparse write path equals a plain copy and keeps the map and the
      event stream sound, and a whole session of requests that do not wrap and, until
      the map is built, write something refines an abstract NBD server; the cleanup
      runs on every way out.
    - Killswitch.v: a client that stops in the middle of a request that is not refused is
      ended by its timer, through the socket that the signal handler shuts down, with the requests before it answered, nothing more sent and everything closed.
    - Parse.v, Acl.v: ports; an access list decides by comparing address prefixes.
    - Proxy.v: a session stays inside its buffers through every interleaving of
      readiness, time-outs and reconnections; requests that the cache has no part in are
      relayed unchanged; the cache is filled with, and hands out, only bytes the upstream
      has, for reads that do not wrap.
    - Serve.v: a round of the accept loop keeps the client table sound and lets a
      connection in exactly when it should; the audit stops exactly the clients the
      new list refuses; the cleanup leaves nothing running.
    - Mirror.v: in any interleaving of the mirror with its clients and its listener, a
      migration that completes has copied the file, but for bytes of writes that were
      cut off before they were acknowledged; every transfer shortens the work left.
    - MirrorLive.v: from every state the event loop reaches, once the clients have
      paused there is a way on to a completed migration.
    - Writers.v: whatever requests the client threads serve, in whatever order and
      however they end, act on the file and the map as the clients of Mirror.v do, with
      at most one range left unmarked for each thread that ended.
    - Handover.v: mirror thread, supervisor and control thread, in any order, do what the
      attempts do one after the other; they end, the user is told the state of the first
      attempt, and both mailboxes are left empty.
    - Retry.v: once an attempt has ended in [error()], no retry can complete the
      migration or send a byte of data, because the file is not mapped any more.
    - Mbox.v: in every interleaving a mailbox hands over what was posted, in order, and
      every run ends with all of it received, as long as waits only return on a signal.
    - Status.v: a report can be made of every sound server, and the line that status.c
      prints can be read back without loss.
    - Control.v, Remote.v: every command that exists, with lines of fewer than 64
      characters, is handled to its end with one line of answer and both locks free, and the program that sent it prints the line and
      exits with its status, however the bytes are cut; the effect of [acl] in full.
    - Flexnbd.v: an [acl] command stops exactly the connected clients that the new list
      refuses, through the two threads, the lock and the self-pipe between them.
    - Threads.v: any rounds of the two threads, in any order, run to their end on the
      server they share and leave it sound, for commands as above and as long as its pipes
      have room.
    - Process.v: a process that starts with its sockets and its file runs to its end when
      it is told to stop, with both sockets closed and no thread, mirror or lock left.
    - Lifetime.v, Resources.v: creating and destroying an object is balanced but for what
      is listed; a control command frees nothing twice and gives back all it took but for
      what is listed. The triples of Ledger.v have a frame built in, so that they also
      say that nothing else is touched.
    - Getopt.v, Options.v, Mode.v: options are understood in every spelling that
      [getopt_long] takes and in any order; commands are told apart by their exact names,
      and another word prints help; from what [flexnbd mirror] sends the control socket
      reads the mirror its options describe; the parameters of [read] and [write] fit
      their C types.

    The properties whose doc comments describe a defect (an overflow of a range check,
    a write past a buffer, a wait that cannot end) are proved of the same definitions:
    they say what the code does on such an input.

    Theorems without a number in the same files are of this kind too, or are facts
    about one function that others build on.

    ** What is not modelled

    The text of the log, the [longjmp] itself (Util.v has its effect), and the options of
    sockets (TCP_CORK of the mirror, the blocking mode, keep-alive): nothing the code does
    depends on what these calls answer. The ledger does not hold threads and the sockets
    of clients and of the mirror. Time passes only
    through the arguments that carry a clock. Concurrency is by interleaving of whole
    callbacks, whole rounds of a thread and whole operations on the map, which the code
    runs under the map's lock; the threads that the control socket's commands start or
    wait for are arguments. In Mode.v the log level is parsed but nothing is logged, and
    what [getopt_long] prints itself is not part of the outcome.

    ** Left to do

    The client threads and the mirror as parts of the run of Threads.v and Process.v,
    where they are only bound to keep its invariant. *)

From Stdlib Require Import ZArith Lia Btauto.
From stdpp Require Export base numbers list list_numbers option tactics.

#[export] Set Default Goal Selector "!".

Declare Scope flex_scope.
Delimit Scope flex_scope with flex.
Open Scope Z_scope.

(** ** Machine integers

    A w-bit unsigned C integer is a [Z] kept in [0, 2^w) by writing out the
    wrap-around where the source computes. *)

Definition u8 (z : Z) : Z := z mod 2 ^ 8.
Definition u16 (z : Z) : Z := z mod 2 ^ 16.
Definition u32 (z : Z) : Z := z mod 2 ^ 32.
Definition u64 (z : Z) : Z := z mod 2 ^ 64.

(** A value converted to a 32-bit signed [int]. *)
Definition s32 (z : Z) : Z := (z + 2 ^ 31) mod 2 ^ 32 - 2 ^ 31.

Notation "a '+64' b" := (u64 (a + b)) (at level 50, left associativity) : flex_scope.
Notation "a '-64' b" := (u64 (a - b)) (at level 50, left associativity) : flex_scope.
Open Scope flex_scope.

Definition UINT64_MAX : Z := 2 ^ 64 - 1.

(** ** Outcomes of C code

    [SError] is the [error()] macro (the thread runs its cleanup handler and
    exits), [SFatal] the [fatal()] macro (the process aborts), [SBlock] a call
    that waits for another thread or for the peer, [SFault] an access outside
    the object the pointer points into, [SHang] a loop whose fuel ran out. *)
Inductive stop := SError | SFatal | SBlock | SFault | SHang.

Inductive res (A : Type) :=
| Ok (a : A)
| Stop (s : stop).
Arguments Ok {A} a.
Arguments Stop {A} s.

#[export] Instance stop_eq_dec : EqDecision stop.
Proof. solve_decision. Defined.

#[export] Instance res_ret : MRet res := fun A a => Ok a.
#[export] Instance res_bind : MBind res := fun A B f m =>
  match m with Ok a => f a | Stop s => Stop s end.

Definition of_opt {A} (s : stop) (o : option A) : res A :=
  match o with Some a => Ok a | None => Stop s end.

(** Computations on a C state: the state survives an [error()]. *)
Definition M (S A : Type) : Type := S -> res A * S.

#[export] Instance M_ret {S} : MRet (M S) := fun A a s => (Ok a, s).
#[export] Instance M_bind {S} : MBind (M S) := fun A B f m s =>
  match m s with
  | (Ok a, s') => f a s'
  | (Stop e, s') => (Stop e, s')
  end.

Definition get {S} : M S S := fun s => (Ok s, s).
Definition gets {S A} (f : S -> A) : M S A := fun s => (Ok (f s), s).
Definition modify {S} (f : S -> S) : M S unit := fun s => (Ok tt, f s).
Definition stopM {S A} (e : stop) : M S A := fun s => (Stop e, s).
Definition liftR {S A} (r : res A) : M S A := fun s => (r, s).

(** ** Field assignment

    [x <| f := v |>] is the record [x] with its field [f] assigned, as the C code
    writes [x->f = v]. A record is [Settable] when its fields are listed once. *)
Class Settable (T : Type) := eta_fields : T -> T.
Class Setter {T A : Type} (proj : T -> A) := set_field : (A -> A) -> T -> T.

Ltac solve_setter :=
  match goal with
  | |- @Setter ?T ?A ?proj =>
      let e := constr:(_ : Settable T) in
      let f := fresh "f" in
      let x := fresh "x" in
      refine (fun (f : A -> A) (x : T) => _);
      let b := eval hnf in (@eta_fields T e x) in
      let p := eval pattern (proj x) in b in
      match p with
      | ?g _ => let r := eval cbv beta in (g (f (proj x))) in exact r
      end
  end.
#[export] Hint Extern 0 (Setter _) => solve_setter : typeclass_instances.

Notation "x <| proj := v |>" := (set_field (proj := proj) (fun _ => v) x)
  (at level 1, left associativity, proj at level 9, format "x  <| proj  :=  v |>") : flex_scope.

(** ** Bytes and byte order *)

Definition is_byte (z : Z) : Prop := 0 <= z < 256.
Definition bytes (l : list Z) : Prop := Forall is_byte l.

(** Little-endian images of an integer (the host is little-endian). *)
Fixpoint le_bytes (n : nat) (z : Z) : list Z :=
  match n with
  | O => []
  | S n' => z mod 256 :: le_bytes n' (z / 256)
  end.

Fixpoint le_value (l : list Z) : Z :=
  match l with
  | [] => 0
  | b :: t => b + 256 * le_value t
  end.

Definition be_bytes (n : nat) (z : Z) : list Z := reverse (le_bytes n z).
Definition be_value (l : list Z) : Z := le_value (reverse l).

(** [htobe]/[betoh] on a little-endian host: the bytes of the object reversed. *)
Definition bswap (n : nat) (z : Z) : Z := le_value (reverse (le_bytes n z)).
Definition htobe16 : Z -> Z := bswap 2.
Definition htobe32 : Z -> Z := bswap 4.
Definition htobe64 : Z -> Z := bswap 8.
Definition be16toh : Z -> Z := bswap 2.
Definition be32toh : Z -> Z := bswap 4.
Definition be64toh : Z -> Z := bswap 8.

(** ** Memory objects

    A C object of [n] bytes is a list of [n] bytes; an access that is not
    inside it faults, an access of no bytes touches nothing. *)
Definition zlen {A} (l : list A) : Z := Z.of_nat (length l).

Definition in_range (m off len : Z) : bool :=
  (len =? 0) || ((0 <=? off) && (0 <=? len) && (off + len <=? m)).

Definition mem_load (m : list Z) (off len : Z) : res (list Z) :=
  if in_range (zlen m) off len
  then Ok (take (Z.to_nat len) (drop (Z.to_nat off) m))
  else Stop SFault.

Definition mem_store (m : list Z) (off : Z) (bs : list Z) : res (list Z) :=
  if in_range (zlen m) off (zlen bs)
  then Ok (if zlen bs =? 0 then m else
             take (Z.to_nat off) m ++ bs ++ drop (Z.to_nat off + length bs) m)
  else Stop SFault.

(** The byte at offset [i] of an object (0 outside it). *)
Definition byte_at (m : list Z) (i : Z) : Z :=
  if (0 <=? i) then default 0 (m !! Z.to_nat i) else 0.

(** The [len] bytes of an object from [off] on. *)
Definition slice (m : list Z) (off len : Z) : list Z := take (Z.to_nat len) (drop (Z.to_nat off) m).

(** * Lemmas *)

(** ** Integers *)

Lemma u64_id z : 0 <= z < 2 ^ 64 -> u64 z = z.
Proof. apply Z.mod_small. Qed.

Lemma u32_id z : 0 <= z < 2 ^ 32 -> u32 z = z.
Proof. apply Z.mod_small. Qed.

Lemma u64_range z : 0 <= u64 z < 2 ^ 64.
Proof. apply Z.mod_pos_bound. lia. Qed.

Lemma u32_range z : 0 <= u32 z < 2 ^ 32.
Proof. apply Z.mod_pos_bound. lia. Qed.

Lemma u64_wrap a : 2 ^ 64 <= a < 2 * 2 ^ 64 -> u64 a = a - 2 ^ 64.
Proof.
  intros H. unfold u64. symmetry. apply Z.mod_unique with 1; [left; lia | lia].
Qed.

Lemma land_63 z : Z.land z 63 = z mod 64.
Proof. change 63 with (Z.ones 6). rewrite Z.land_ones by lia. done. Qed.

Lemma testbit_high w n i : 0 <= w < 2 ^ n -> 0 <= n <= i -> Z.testbit w i = false.
Proof.
  intros Hw Hn. rewrite <- (Z.mod_small w (2 ^ n)) by lia.
  apply Z.mod_pow2_bits_high. lia.
Qed.

Lemma testbit_u64 z i : 0 <= i -> Z.testbit (u64 z) i = (i <? 64) && Z.testbit z i.
Proof.
  intros Hi. unfold u64. destruct (i <? 64) eqn:E; simpl.
  - apply Z.mod_pow2_bits_low. lia.
  - apply Z.mod_pow2_bits_high. lia.
Qed.

Lemma testbit_one i : 0 <= i -> Z.testbit 1 i = (i =? 0).
Proof.
  intros Hi. destruct (Z.eqb_spec i 0) as [-> | Hne]; [done |].
  apply testbit_high with 1; lia.
Qed.

(** Distinct offsets below [n] are distinct modulo [n] from any base. *)
Lemma mod_add_inj n o i j :
  0 <= i < n -> 0 <= j < n -> (o + i) mod n = (o + j) mod n -> i = j.
Proof.
  intros Hi Hj H. assert (Hn : n <> 0) by lia.
  pose proof (Z.div_mod (o + i) n Hn) as Ei. pose proof (Z.div_mod (o + j) n Hn) as Ej.
  rewrite H in Ei. revert Ei Ej.
  generalize ((o + i) / n) as q1. generalize ((o + j) / n) as q2.
  generalize ((o + j) mod n) as r. intros r q2 q1 Ei Ej. clear H Hn.
  assert (i - j = n * (q1 - q2)) by lia.
  assert (q1 - q2 = 0) by nia. nia.
Qed.

(** Two 64-bit words with the same low 64 bits are equal. *)
Lemma word_eq_bits a b :
  0 <= a < 2 ^ 64 -> 0 <= b < 2 ^ 64 ->
  (forall i, 0 <= i < 64 -> Z.testbit a i = Z.testbit b i) -> a = b.
Proof.
  intros Ha Hb H. apply Z.bits_inj'. intros i Hi.
  destruct (Z_lt_le_dec i 64) as [Hlt | Hge]; [apply H; lia |].
  rewrite !(testbit_high _ 64 i) by lia. done.
Qed.

(** ** Lists and memory *)

Lemma zlen_nonneg {A} (l : list A) : 0 <= zlen l.
Proof. unfold zlen. lia. Qed.

Lemma zlen_app {A} (l k : list A) : zlen (l ++ k) = zlen l + zlen k.
Proof. unfold zlen. rewrite length_app. lia. Qed.

Lemma zlen_nil_inv {A} (l : list A) : zlen l = 0 -> l = [].
Proof. unfold zlen. destruct l; simpl; [done | lia]. Qed.

Lemma zlen_take {A} (l : list A) n :
  0 <= n <= zlen l -> zlen (take (Z.to_nat n) l) = n.
Proof. unfold zlen. intros H. rewrite length_take. lia. Qed.

Lemma zlen_drop {A} (l : list A) n :
  0 <= n <= zlen l -> zlen (drop (Z.to_nat n) l) = zlen l - n.
Proof. unfold zlen. intros H. rewrite length_drop. lia. Qed.

Lemma in_range_true m off len :
  in_range m off len = true <-> len = 0 \/ (0 <= off /\ 0 <= len /\ off + len <= m).
Proof. unfold in_range. rewrite orb_true_iff, !andb_true_iff. lia. Qed.

Lemma mem_store_ok m off bs :
  0 <= off -> off + zlen bs <= zlen m ->
  mem_store m off bs =
    Ok (take (Z.to_nat off) m ++ bs ++ drop (Z.to_nat off + length bs) m).
Proof.
  intros H1 H2. unfold mem_store. rewrite (proj2 (in_range_true _ _ _)).
  2:{ right. pose proof (zlen_nonneg bs). lia. }
  destruct (zlen bs =? 0) eqn:E; [| done].
  apply Z.eqb_eq, zlen_nil_inv in E as ->. simpl.
  rewrite Nat.add_0_r, take_drop. done.
Qed.

Lemma mem_store_zlen m off bs m' : mem_store m off bs = Ok m' -> zlen m' = zlen m.
Proof.
  unfold mem_store. destruct (in_range _ _ _) eqn:E; [| done].
  apply in_range_true in E. destruct (zlen bs =? 0) eqn:E0; intros H; simplify_eq; [done |].
  apply Z.eqb_neq in E0. destruct E as [E | E]; [done |].
  rewrite !zlen_app. unfold zlen in *. rewrite length_take, length_drop. lia.
Qed.

(** The object up to the end of what was stored. *)
Lemma mem_store_prefix m off bs m' :
  0 <= off -> off + zlen bs <= zlen m -> mem_store m off bs = Ok m' ->
  take (Z.to_nat (off + zlen bs)) m' = take (Z.to_nat off) m ++ bs.
Proof.
  intros Ho Hl. rewrite mem_store_ok by done. intros [= <-]. unfold zlen in *.
  rewrite app_assoc. apply take_app_length'. rewrite length_app, length_take. lia.
Qed.

Lemma byte_at_store m off bs m' i :
  mem_store m off bs = Ok m' ->
  byte_at m' i =
    if (off <=? i) && (i <? off + zlen bs) then byte_at bs (i - off) else byte_at m i.
Proof.
  unfold mem_store. destruct (in_range _ _ _) eqn:E; [| done].
  apply in_range_true in E. pose proof (zlen_nonneg bs) as Hb.
  destruct (zlen bs =? 0) eqn:E0; intros H; simplify_eq.
  { apply Z.eqb_eq in E0. rewrite E0.
    destruct ((off <=? i) && (i <? off + 0)) eqn:E1; [lia | done]. }
  apply Z.eqb_neq in E0. destruct E as [E | (E1 & E2 & E3)]; [done |].
  unfold byte_at, zlen in *.
  destruct (0 <=? i) eqn:Hi.
  2:{ replace (off <=? i) with false by lia. done. }
  destruct ((off <=? i) && (i <? off + Z.of_nat (length bs))) eqn:Hin.
  - replace (0 <=? i - off) with true by lia.
    rewrite lookup_app_r by (rewrite length_take; lia).
    rewrite lookup_app_l by (rewrite length_take; lia).
    rewrite length_take. f_equal. f_equal. lia.
  - destruct (decide (i < off)) as [Hlt | Hge].
    + rewrite lookup_app_l by (rewrite length_take; lia).
      rewrite lookup_take_lt by lia. done.
    + rewrite lookup_app_r by (rewrite length_take; lia).
      rewrite lookup_app_r by (rewrite length_take; lia).
      rewrite lookup_drop, length_take. f_equal. f_equal. lia.
Qed.

Lemma byte_at_app l k i :
  byte_at (l ++ k) i = if i <? zlen l then byte_at l i else byte_at k (i - zlen l).
Proof.
  unfold byte_at, zlen. pose proof (Nat2Z.is_nonneg (length l)) as Hl.
  destruct (i <? Z.of_nat (length l)) eqn:E.
  - destruct (0 <=? i) eqn:Hi; [| done]. rewrite lookup_app_l by lia. done.
  - replace (0 <=? i) with true by lia.
    replace (0 <=? i - Z.of_nat (length l)) with true by lia.
    rewrite lookup_app_r by lia. f_equal. f_equal. lia.
Qed.

Lemma byte_at_outside m i : ~ (0 <= i < zlen m) -> byte_at m i = 0.
Proof.
  unfold byte_at, zlen. intros H. destruct (0 <=? i) eqn:E; [| done].
  rewrite lookup_ge_None_2 by lia. done.
Qed.

Lemma zlen_slice m off len : 0 <= off -> 0 <= len -> off + len <= zlen m -> zlen (slice m off len) = len.
Proof. intros. unfold slice. rewrite zlen_take; [done |]. rewrite zlen_drop; lia. Qed.

(** A slice of a slice. *)
Lemma slice_slice m a n b k :
  0 <= a -> 0 <= b -> 0 <= k -> b + k <= n -> slice (slice m a n) b k = slice m (a + b) k.
Proof.
  intros. unfold slice. rewrite skipn_firstn_comm, drop_drop, take_take. f_equal; [lia |]. f_equal. lia.
Qed.

(** Two objects of the same size are equal when their bytes are. *)
Lemma mem_ext m m' :
  zlen m = zlen m' -> (forall i, 0 <= i < zlen m -> byte_at m i = byte_at m' i) -> m = m'.
Proof.
  unfold zlen, byte_at. intros Hl H. apply list_eq_same_length with (length m); [lia | done |].
  intros i x y Hi Hx Hy. specialize (H (Z.of_nat i) ltac:(lia)).
  replace (0 <=? Z.of_nat i) with true in H by lia.
  rewrite Nat2Z.id, Hx, Hy in H. done.
Qed.

(** ** Outcomes *)

Lemma bind_Ok {A B} (m : res A) (f : A -> res B) b :
  m ≫= f = Ok b <-> exists a, m = Ok a /\ f a = Ok b.
Proof.
  destruct m as [a | s]; simpl; split; [eauto | | done |].
  - intros (? & [= ->] & ?). done.
  - intros (? & [=] & _).
Qed.

Lemma bindM_eq {S A B} (m : M S A) (f : A -> M S B) s r s' :
  m s = (r, s') ->
  (m ≫= f) s = match r with Ok a => f a s' | Stop e => (Stop e, s') end.
Proof. unfold mbind, M_bind. intros ->. destruct r; done. Qed.

Lemma bind_gets {S A B} (f : S -> A) (k : A -> M S B) s : (gets f ≫= k) s = k (f s) s.
Proof. done. Qed.

Lemma bind_modify {S B} (f : S -> S) (k : unit -> M S B) s : (modify f ≫= k) s = k tt (f s).
Proof. done. Qed.

Lemma bind_mret {S A B} (a : A) (k : A -> M S B) s : ((mret a : M S A) ≫= k) s = k a s.
Proof. done. Qed.

Lemma bind_liftR {S A B} (r : res A) a (k : A -> M S B) s : r = Ok a -> (liftR r ≫= k) s = k a s.
Proof. by intros ->. Qed.

(** ** Byte order *)

Lemma length_le_bytes n z : length (le_bytes n z) = n.
Proof. revert z. induction n; intros z; simpl; [done | by rewrite IHn]. Qed.

Lemma bytes_le_bytes n z : bytes (le_bytes n z).
Proof.
  revert z. induction n; intros z; simpl; constructor.
  - apply Z.mod_pos_bound. lia.
  - apply IHn.
Qed.

Lemma le_value_bytes n z : le_value (le_bytes n z) = z mod 256 ^ Z.of_nat n.
Proof.
  revert z. induction n; intros z; cbn [le_bytes le_value].
  - rewrite Z.mod_1_r. done.
  - rewrite IHn, Nat2Z.inj_succ, Z.pow_succ_r, Z.rem_mul_r by lia. done.
Qed.

Lemma le_value_range l : bytes l -> 0 <= le_value l < 256 ^ zlen l.
Proof.
  unfold zlen. induction 1 as [| b l Hb Hl IH]; cbn [le_value length]; [lia |].
  rewrite Nat2Z.inj_succ, Z.pow_succ_r by lia. unfold is_byte in Hb. lia.
Qed.

Lemma le_bytes_value l : bytes l -> le_bytes (length l) (le_value l) = l.
Proof.
  induction 1 as [| b l Hb Hl IH]; cbn [le_bytes le_value length]; [done |].
  unfold is_byte in Hb. rewrite Z.mul_comm, Z.mod_add, Z.div_add by lia.
  rewrite Z.mod_small, Z.div_small, Z.add_0_l, IH by lia. done.
Qed.

Lemma bytes_reverse l : bytes l -> bytes (reverse l).
Proof. apply Forall_reverse. Qed.

Lemma le_bytes_mod n z : le_bytes n (z mod 256 ^ Z.of_nat n) = le_bytes n z.
Proof.
  rewrite <- le_value_bytes. rewrite <- (length_le_bytes n z) at 1.
  apply le_bytes_value, bytes_le_bytes.
Qed.

Lemma le_bytes_bswap n z : le_bytes n (bswap n z) = be_bytes n z.
Proof.
  unfold bswap, be_bytes. rewrite <- (length_le_bytes n z) at 1.
  rewrite <- length_reverse. apply le_bytes_value, bytes_reverse, bytes_le_bytes.
Qed.

Lemma bswap_range n z : 0 <= bswap n z < 256 ^ Z.of_nat n.
Proof.
  pose proof (le_value_range _ (bytes_reverse _ (bytes_le_bytes n z))) as H.
  unfold zlen in H. rewrite length_reverse, length_le_bytes in H. done.
Qed.

(** Byte swapping twice is the identity on an [n]-byte integer. *)
Lemma bswap_involutive n z : 0 <= z < 256 ^ Z.of_nat n -> bswap n (bswap n z) = z.
Proof.
  intros Hz. unfold bswap at 1. rewrite le_bytes_bswap. unfold be_bytes.
  rewrite reverse_involutive, le_value_bytes. apply Z.mod_small. done.
Qed.

Create HintDb flex discriminated.
#[export] Hint Resolve u64_range u32_range zlen_nonneg bytes_le_bytes bytes_reverse : flex.
Create Rewrite HintDb flex.
#[export] Hint Rewrite @zlen_app length_le_bytes @length_reverse @length_app : flex.

(** Case analysis on the boolean tests the source branches on. *)
Ltac bool_cases :=
  repeat match goal with
  | H : context [if ?b then _ else _] |- _ => destruct b eqn:?
  | |- context [if ?b then _ else _] => destruct b eqn:?
  end.

(** Take apart a successful sequence of outcomes. *)
Ltac res_inv :=
  repeat match goal with
  | H : _ ≫= _ = Ok _ |- _ => apply bind_Ok in H as (? & ? & ?)
  | H : Ok _ = Ok _ |- _ => injection H as H
  | H : Stop _ = Ok _ |- _ => discriminate H
  | H : Ok _ = Stop _ |- _ => discriminate H
  end.

(** Close a closed decidable goal by evaluating it. *)
Ltac by_decide :=
  match goal with |- ?P => apply (bool_decide_eq_true_1 P); vm_compute; reflexivity end.

#[global] Arguments le_bytes : simpl never.
#[global] Arguments le_value : simpl never.
#[global] Arguments bswap : simpl never.
#[global] Arguments u64 : simpl never.
#[global] Arguments u32 : simpl never.
#[global] Arguments zlen : simpl never.
#[global] Arguments mem_store : simpl never.
#[global] Arguments mem_load : simpl never.
