(* ===== verification/Util.v ===== *)
(** * Errors, logging and time

    Models src/src/common/util.c and util.h: the error handler of a thread, which
    [error()] and [fatal()] jump to, the log, and the clock. Allocation is in Ledger.v. *)

From S2P Require Import Prelude.

Open Scope Z_scope.

(** ** Errors *)

(** How a thread ends by [error_handler]: with the process, or alone. *)
Inductive ending := ProcessAborted | ThreadExited.

(** [error_handler(fatal)] with the handler that [error_set_handler] has set in this
    thread, if any, on the data [d] it was set with: [longjmp] with 1 goes to the
    [abort()] of the macro, with 2 to the call of the handler. *)
Definition error_handler {D} (context : option (D -> D)) (fatal : bool) (d : D) : ending * D :=
  match context with
  | Some handler => if fatal then (ProcessAborted, d) else (ThreadExited, handler d)
  | None => if fatal then (ProcessAborted, d) else (ThreadExited, d)
  end.

(** [error_set_handler]: the handler set last counts. *)
Definition error_set_handler {D} (handler : D -> D) (old : option (D -> D)) : option (D -> D) := Some handler.

(** A thread that runs [m] with a handler set: its data at the end, and its result or
    how it ended; [None] for a wait, a fault or an endless loop. *)
Definition run_thread {D A} (handler : D -> D) (m : M D A) (d : D) : option (A + ending) * D :=
  let context := error_set_handler handler None in
  match m d with
  | (Ok a, d') => (Some (inl a), d')
  | (Stop SError, d') => let '(e, d'') := error_handler context false d' in (Some (inr e), d'')
  | (Stop SFatal, d') => let '(e, d'') := error_handler context true d' in (Some (inr e), d'')
  | (Stop _, d') => (None, d')
  end.

(** ** Logging *)

(** The letter of a level. *)
Definition levstr (i : Z) : Z :=
  if i =? 0 then 68 else if i =? 1 then 73 else if i =? 2 then 87 else if i =? 3 then 69 else 70.

(** Whether a line of this level is printed. *)
Definition mylog (log_level line_level : Z) : bool := negb (line_level <? log_level).

(** ** Time *)

(** A [struct timespec]. *)
Record timespec := { tv_sec : Z; tv_nsec : Z }.

(** What [clock_gettime] answers, and the time. *)
Definition monotonic_time_ms (ret : Z) (ts : timespec) : res Z :=
  if ret <? 0 then Stop SFatal
  else
    let seconds_ms := u64 (u64 (tv_sec ts) * 1000) in
    let nanoseconds_ms := u64 (tv_nsec ts) / 1000000 in
    Ok (u64 (seconds_ms + nanoseconds_ms)).

(** * Properties *)

(** [error()] always runs the handler that was set, on the data as the failed
    operation left it, and ends the thread only; [fatal()] never runs it, and ends the
    process with the data as it is. *)
Lemma handler_runs_on_error {D A} (handler : D -> D) (m : M D A) d d' st :
  m d = (Stop st, d') ->
  (st = SError -> run_thread handler m d = (Some (inr ThreadExited), handler d')) /\
  (st = SFatal -> run_thread handler m d = (Some (inr ProcessAborted), d')).
Proof. intros H. unfold run_thread. rewrite H. by split; intros ->. Qed.

(** The clock in milliseconds never goes back: of two readings of a clock that does
    not go back, below 2^50 seconds, the later one is not the smaller number, and the
    difference is the time between them to the millisecond. *)
Theorem monotonic_time_monotone t1 t2 :
  0 <= tv_sec t1 -> tv_sec t2 < 2 ^ 50 -> 0 <= tv_nsec t1 < 10 ^ 9 -> 0 <= tv_nsec t2 < 10 ^ 9 ->
  tv_sec t1 * 10 ^ 9 + tv_nsec t1 <= tv_sec t2 * 10 ^ 9 + tv_nsec t2 ->
  exists m1 m2, monotonic_time_ms 0 t1 = Ok m1 /\ monotonic_time_ms 0 t2 = Ok m2 /\ m1 <= m2 /\
    (m2 - m1) * 10 ^ 6 < tv_sec t2 * 10 ^ 9 + tv_nsec t2 - (tv_sec t1 * 10 ^ 9 + tv_nsec t1) + 10 ^ 6 /\
    tv_sec t2 * 10 ^ 9 + tv_nsec t2 - (tv_sec t1 * 10 ^ 9 + tv_nsec t1) < (m2 - m1) * 10 ^ 6 + 10 ^ 6.
Proof.
  intros H1 H2 N1 N2 Hle. unfold monotonic_time_ms. cbn [Z.ltb Z.compare].
  assert (Hs : tv_sec t1 <= tv_sec t2) by lia.
  pose proof (Z.div_mod (tv_nsec t1) 1000000 ltac:(lia)) as D1. pose proof (Z.mod_pos_bound (tv_nsec t1) 1000000 ltac:(lia)).
  pose proof (Z.div_mod (tv_nsec t2) 1000000 ltac:(lia)) as D2. pose proof (Z.mod_pos_bound (tv_nsec t2) 1000000 ltac:(lia)).
  rewrite !(u64_id (tv_sec _)), !(u64_id (tv_nsec _)) by lia. rewrite !(u64_id (tv_sec _ * 1000)) by lia.
  rewrite !u64_id by lia. eexists _, _. split; [reflexivity |]. split; [reflexivity |]. lia.
Qed.
