(* ===== verification/Bitset.v ===== *)
(** * The bitset: bit fields, the allocation map and its event stream

    Models src/src/server/bitset.h. A [bitfield_p] is a list of 64-bit words;
    an access outside it is [SFault]. The stream is the ring buffer of
    [struct bitset_stream]; an operation that waits on a condition variable is
    [SBlock] (not enabled until another thread moves). *)

From S2P Require Import Prelude.

(** ** Bit fields *)

Definition BITFIELD_WORD_SIZE : Z := 8.
Definition BITS_PER_WORD : Z := BITFIELD_WORD_SIZE * 8.

Definition BIT_MASK (idx : Z) : Z := u64 (Z.shiftl 1 (Z.land idx (BITS_PER_WORD - 1))).

(** The word that holds bit [idx]. *)
Definition BIT_WORD (b : list Z) (idx : Z) : res Z :=
  if 0 <=? idx then of_opt SFault (b !! Z.to_nat (idx / BITS_PER_WORD)) else Stop SFault.

Definition BIT_WORDS_FOR_SIZE (n : Z) : Z :=
  (n +64 (BITFIELD_WORD_SIZE - 1)) / BITFIELD_WORD_SIZE.

Definition bit_get (b : list Z) (idx : Z) : res Z :=
  w ← BIT_WORD b idx;
  Ok (Z.land (Z.shiftr w (Z.land idx (BITS_PER_WORD - 1))) 1).

Definition bit_is_set (b : list Z) (idx : Z) : res bool :=
  v ← bit_get b idx; Ok (negb (v =? 0)).

Definition bit_is_clear (b : list Z) (idx : Z) : res bool :=
  v ← bit_get b idx; Ok (v =? 0).

Definition bit_has_value (b : list Z) (idx value : Z) : res bool :=
  v ← bit_get b idx; Ok (v =? (if value =? 0 then 0 else 1)).

Definition bit_set (b : list Z) (idx : Z) : res (list Z) :=
  w ← BIT_WORD b idx;
  Ok (<[Z.to_nat (idx / BITS_PER_WORD) := Z.lor w (BIT_MASK idx)]> b).

Definition bit_clear (b : list Z) (idx : Z) : res (list Z) :=
  w ← BIT_WORD b idx;
  Ok (<[Z.to_nat (idx / BITS_PER_WORD) := Z.land w (u64 (Z.lnot (BIT_MASK idx)))]> b).

(** [memset(p, c, n)] on the words seen as bytes, [p] being byte [k] of the
    field: byte [k mod 8] of word [k / 8], least significant first. *)
Definition set_byte (b : list Z) (k c : Z) : res (list Z) :=
  w ← BIT_WORD b (k * 8);
  let sh := 8 * (k mod 8) in
  Ok (<[Z.to_nat (k / 8) := Z.lor (Z.land w (u64 (Z.lnot (Z.shiftl 255 sh)))) (Z.shiftl c sh)]> b).

Fixpoint memset (b : list Z) (k c : Z) (n : nat) : res (list Z) :=
  match n with
  | O => Ok b
  | S n' => b' ← set_byte b k c; memset b' (k + 1) c n'
  end.

(** [for (; (from % BITS_PER_WORD) != 0 && len > 0; len--) op(b, from++);] *)
Fixpoint head_loop (op : list Z -> Z -> res (list Z)) (len : nat) (b : list Z) (from : Z)
    : res (list Z * Z * nat) :=
  match len with
  | O => Ok (b, from, O)
  | S len' =>
      if from mod BITS_PER_WORD =? 0 then Ok (b, from, len)
      else b' ← op b from; head_loop op len' b' (from +64 1)
  end.

(** [for (; len > 0; len--) op(b, from++);] *)
Fixpoint tail_loop (op : list Z -> Z -> res (list Z)) (len : nat) (b : list Z) (from : Z)
    : res (list Z) :=
  match len with
  | O => Ok b
  | S len' => b' ← op b from; tail_loop op len' b' (from +64 1)
  end.

(** The common body of [bit_set_range] and [bit_clear_range]. *)
Definition range_loop (op : list Z -> Z -> res (list Z)) (c : Z)
    (b : list Z) (from len : Z) : res (list Z) :=
  '(b1, from1, n1) ← head_loop op (Z.to_nat len) b from;
  let len1 := Z.of_nat n1 in
  if BITS_PER_WORD <=? len1 then
    b2 ← memset b1 (from1 / BITS_PER_WORD * BITFIELD_WORD_SIZE) c (Z.to_nat (len1 / 8));
    let len2 := len1 mod BITS_PER_WORD in
    tail_loop op (Z.to_nat len2) b2 ((from1 +64 len1) -64 len2)
  else tail_loop op n1 b1 from1.

Definition bit_set_range (b : list Z) (from len : Z) : res (list Z) :=
  range_loop bit_set 255 b from len.

Definition bit_clear_range (b : list Z) (from len : Z) : res (list Z) :=
  range_loop bit_clear 0 b from len.

(** First loop of [bit_run_count]: [inl] is its [return count]. *)
Fixpoint run_head (b : list Z) (from v : Z) (len : nat) (count : Z) : res (Z + Z * nat) :=
  match len with
  | O => Ok (inr (count, O))
  | S len' =>
      if (from +64 count) mod BITS_PER_WORD =? 0 then Ok (inr (count, len))
      else
        h ← bit_has_value b (from +64 count) v;
        if (h : bool) then run_head b from v len' (count +64 1) else Ok (inl count)
  end.

(** Second loop: whole words ([len] counts the words that still fit). *)
Fixpoint run_words (b : list Z) (from word_match : Z) (len : Z) (fuel : nat) (count : Z)
    : res (Z * Z) :=
  match fuel with
  | O => Stop SHang
  | S fuel' =>
      if BITS_PER_WORD <=? len then
        w ← BIT_WORD b (from +64 count);
        if w =? word_match
        then run_words b from word_match (len - BITS_PER_WORD) fuel' (count +64 BITS_PER_WORD)
        else Ok (count, len)
      else Ok (count, len)
  end.

(** Third loop: it does not leave at the first mismatch, but stays on that bit. *)
Fixpoint run_tail (b : list Z) (from v : Z) (len : nat) (count : Z) : res Z :=
  match len with
  | O => Ok count
  | S len' =>
      h ← bit_has_value b (from +64 count) v;
      run_tail b from v len' (if (h : bool) then count +64 1 else count)
  end.

(** The count, and the value left in [*run_is_set]. *)
Definition bit_run_count (b : list Z) (from len : Z) : res (Z * Z) :=
  first_value ← bit_get b from;
  let word_match := if first_value =? 0 then 0 else u64 (-1) in
  r ← run_head b from first_value (Z.to_nat len) 0;
  match r with
  | inl count => Ok (count, first_value)
  | inr (count, n) =>
      '(count2, len2) ← run_words b from word_match (Z.of_nat n) (S n) count;
      count3 ← run_tail b from first_value (Z.to_nat len2) count2;
      Ok (count3, first_value)
  end.

(** ** The event stream *)

Inductive bitset_stream_events :=
| BITSET_STREAM_UNSET | BITSET_STREAM_SET | BITSET_STREAM_ON | BITSET_STREAM_OFF.

#[export] Instance bitset_stream_events_eq_dec : EqDecision bitset_stream_events.
Proof. solve_decision. Defined.

Definition event_index (e : bitset_stream_events) : nat :=
  match e with
  | BITSET_STREAM_UNSET => 0
  | BITSET_STREAM_SET => 1
  | BITSET_STREAM_ON => 2
  | BITSET_STREAM_OFF => 3
  end%nat.

Definition BITSET_STREAM_EVENTS_ENUM_SIZE : nat := 4.

Record bitset_stream_entry := {
  event : bitset_stream_events;
  e_from : Z;
  e_len : Z
}.

#[export] Instance bitset_stream_entry_eq_dec : EqDecision bitset_stream_entry.
Proof. solve_decision. Defined.

(** 1 MiB over [sizeof(struct bitset_stream_entry)], which is 24. *)
Definition BITSET_STREAM_SIZE : Z := (1024 * 1024) / 24.

Record bitset_stream := {
  entries : list bitset_stream_entry;
  s_in : Z;
  s_out : Z;
  s_size : Z;
  queued_bytes : list Z
}.

Definition no_entry : bitset_stream_entry :=
  {| event := BITSET_STREAM_UNSET; e_from := 0; e_len := 0 |}.

(** [xmalloc] clears the memory. *)
Definition stream_alloc : bitset_stream :=
  {| entries := replicate (Z.to_nat BITSET_STREAM_SIZE) no_entry;
     s_in := 0; s_out := 0; s_size := 0;
     queued_bytes := replicate BITSET_STREAM_EVENTS_ENUM_SIZE 0 |}.

Definition add_queued (q : list Z) (e : bitset_stream_events) (d : Z) : list Z :=
  alter (fun z => u64 (z + d)) (event_index e) q.

Definition stream_enqueue (s : bitset_stream) (ev : bitset_stream_events) (from len : Z)
    : res bitset_stream :=
  if s_size s =? BITSET_STREAM_SIZE then Stop SBlock
  else
    _ ← of_opt SFault (entries s !! Z.to_nat (s_in s));
    Ok {| entries := <[Z.to_nat (s_in s) := {| event := ev; e_from := from; e_len := len |}]>
                       (entries s);
          s_in := (s_in s + 1) mod BITSET_STREAM_SIZE;
          s_out := s_out s;
          s_size := s_size s + 1;
          queued_bytes := add_queued (queued_bytes s) ev len |}.

Definition stream_dequeue (s : bitset_stream) : res (bitset_stream_entry * bitset_stream) :=
  if s_size s =? 0 then Stop SBlock
  else
    dequeued ← of_opt SFault (entries s !! Z.to_nat (s_out s));
    Ok (dequeued,
        {| entries := entries s;
           s_in := s_in s;
           s_out := (s_out s + 1) mod BITSET_STREAM_SIZE;
           s_size := s_size s - 1;
           queued_bytes := add_queued (queued_bytes s) (event dequeued) (- e_len dequeued) |}).

(** ** The bitset *)

Record bitset := {
  bs_size : Z;
  resolution : Z;
  stream : bitset_stream;
  stream_enabled : bool;
  bits : list Z
}.

Definition with_stream (set : bitset) (s : bitset_stream) : bitset :=
  {| bs_size := bs_size set; resolution := resolution set; stream := s;
     stream_enabled := stream_enabled set; bits := bits set |}.

Definition with_enabled (set : bitset) (b : bool) : bitset :=
  {| bs_size := bs_size set; resolution := resolution set; stream := stream set;
     stream_enabled := b; bits := bits set |}.

Definition with_bits (set : bitset) (b : list Z) : bitset :=
  {| bs_size := bs_size set; resolution := resolution set; stream := stream set;
     stream_enabled := stream_enabled set; bits := b |}.

(** Bytes [xmalloc] gets for the flexible array [bits]. *)
Definition bitset_alloc_bytes (size resolution : Z) : Z :=
  (BIT_WORDS_FOR_SIZE ((u64 (size + resolution - 1)) / resolution) * BITFIELD_WORD_SIZE) / 8.

(** The field gets the words the allocation reaches into. *)
Definition bitset_alloc (size resolution : Z) : bitset :=
  {| bs_size := size;
     resolution := resolution;
     stream := stream_alloc;
     stream_enabled := false;
     bits := replicate
       (Z.to_nat ((bitset_alloc_bytes size resolution + (BITFIELD_WORD_SIZE - 1)) / BITFIELD_WORD_SIZE)) 0 |}.

(** The macro INT_FIRST_AND_LAST: [first] and [bitlen]. *)
Definition INT_FIRST_AND_LAST (set : bitset) (from len : Z) : Z * Z :=
  let first := from / resolution set in
  let last := ((from +64 len) -64 1) / resolution set in
  (first, (last -64 first) +64 1).

Definition bitset_stream_enqueue (set : bitset) (ev : bitset_stream_events) (from len : Z)
    : res bitset :=
  s ← stream_enqueue (stream set) ev from len; Ok (with_stream set s).

Definition bitset_stream_dequeue (set : bitset) : res (bitset_stream_entry * bitset) :=
  '(e, s) ← stream_dequeue (stream set); Ok (e, with_stream set s).

Definition bitset_stream_size (set : bitset) : Z := s_size (stream set).

Definition bitset_stream_queued_bytes (set : bitset) (ev : bitset_stream_events) : Z :=
  default 0 (queued_bytes (stream set) !! event_index ev).

Definition bitset_enable_stream (set : bitset) : res bitset :=
  bitset_stream_enqueue (with_enabled set true) BITSET_STREAM_ON 0 (bs_size set).

Definition bitset_disable_stream (set : bitset) : res bitset :=
  set' ← bitset_stream_enqueue set BITSET_STREAM_OFF 0 (bs_size set);
  Ok (with_enabled set' false).

Definition bitset_set_range (set : bitset) (from len : Z) : res bitset :=
  let '(first, bitlen) := INT_FIRST_AND_LAST set from len in
  b ← bit_set_range (bits set) first bitlen;
  let set' := with_bits set b in
  if stream_enabled set then bitset_stream_enqueue set' BITSET_STREAM_SET from len
  else Ok set'.

Definition bitset_set (set : bitset) : res bitset := bitset_set_range set 0 (bs_size set).

Definition bitset_clear_range (set : bitset) (from len : Z) : res bitset :=
  let '(first, bitlen) := INT_FIRST_AND_LAST set from len in
  b ← bit_clear_range (bits set) first bitlen;
  let set' := with_bits set b in
  if stream_enabled set then bitset_stream_enqueue set' BITSET_STREAM_UNSET from len
  else Ok set'.

Definition bitset_clear (set : bitset) : res bitset := bitset_clear_range set 0 (bs_size set).

(** The run length in bytes, and the value of [*run_is_set] ([None]: untouched). *)
Definition bitset_run_count_ex (set : bitset) (from len : Z) : res (Z * option Z) :=
  if bs_size set <? from then Ok (0, None)
  else
    let len := if bs_size set <? (len +64 from) then bs_size set -64 from else len in
    let '(first, bitlen) := INT_FIRST_AND_LAST set from len in
    '(count, v) ← bit_run_count (bits set) first bitlen;
    Ok (u64 (count * resolution set) -64 (from mod resolution set), Some v).

Definition bitset_run_count (set : bitset) (from len : Z) : res Z :=
  '(run, _) ← bitset_run_count_ex set from len; Ok run.

Definition bitset_is_clear_at (set : bitset) (at_ : Z) : res bool :=
  bit_is_clear (bits set) (at_ / resolution set).

Definition bitset_is_set_at (set : bitset) (at_ : Z) : res bool :=
  bit_is_set (bits set) (at_ / resolution set).

(** * Bit fields: lemmas *)

Definition nbits (b : list Z) : Z := BITS_PER_WORD * zlen b.

(** A field of 64-bit words, small enough for every bit index to be a uint64_t. *)
Definition words_ok (b : list Z) : Prop :=
  Forall (fun w => 0 <= w < 2 ^ 64) b /\ nbits b < 2 ^ 64.

(** Bit [i] of the field. *)
Definition bitv (b : list Z) (i : Z) : bool :=
  Z.testbit (default 0 (b !! Z.to_nat (i / 64))) (i mod 64).

(** [b'] is [b] with the bits [lo, hi) made [v]. *)
Definition fills (b b' : list Z) (lo hi : Z) (v : bool) : Prop :=
  zlen b' = zlen b /\ words_ok b' /\
  forall j, 0 <= j -> bitv b' j = if (lo <=? j) && (j <? hi) then v else bitv b j.

Lemma nbits_eq b : nbits b = 64 * zlen b.
Proof. done. Qed.

Lemma div64_lt b i : 0 <= i < nbits b -> (Z.to_nat (i / 64) < length b)%nat.
Proof.
  rewrite nbits_eq. unfold zlen. intros H.
  assert (i / 64 < Z.of_nat (length b)) by (apply Z.div_lt_upper_bound; lia).
  assert (0 <= i / 64) by (apply Z.div_pos; lia). lia.
Qed.

Lemma word_lookup b i :
  0 <= i < nbits b -> exists w, b !! Z.to_nat (i / 64) = Some w /\ BIT_WORD b i = Ok w.
Proof.
  intros H. destruct (lookup_lt_is_Some_2 b (Z.to_nat (i / 64))) as [w Hw].
  { by apply div64_lt. }
  exists w. split; [done |]. unfold BIT_WORD.
  replace (0 <=? i) with true by lia. change BITS_PER_WORD with 64. rewrite Hw. done.
Qed.

Lemma words_ok_lookup b k w : words_ok b -> b !! k = Some w -> 0 <= w < 2 ^ 64.
Proof. intros [H _] Hk. by eapply (Forall_lookup_1 _ _ _ _ H). Qed.

Lemma words_ok_insert b k w :
  words_ok b -> 0 <= w < 2 ^ 64 -> words_ok (<[k := w]> b).
Proof.
  intros [H Hn] Hw. split; [by apply Forall_insert |].
  unfold nbits, zlen in *. rewrite length_insert. done.
Qed.

(** Replacing one word changes the bits of that word only. *)
Lemma bitv_insert b i w j :
  0 <= i < nbits b -> 0 <= j ->
  bitv (<[Z.to_nat (i / 64) := w]> b) j =
    if j / 64 =? i / 64 then Z.testbit w (j mod 64) else bitv b j.
Proof.
  intros Hi Hj. unfold bitv. destruct (Z.eqb_spec (j / 64) (i / 64)) as [-> | Hne].
  - rewrite list_lookup_insert_eq; [done | by apply div64_lt].
  - rewrite list_lookup_insert_ne; [done |].
    assert (0 <= i / 64) by (apply Z.div_pos; lia).
    assert (0 <= j / 64) by (apply Z.div_pos; lia). lia.
Qed.

Lemma bit_get_spec b i : 0 <= i < nbits b -> bit_get b i = Ok (Z.b2z (bitv b i)).
Proof.
  intros H. destruct (word_lookup b i H) as (w & Hw & E).
  unfold bit_get. rewrite E. simpl. f_equal.
  change (BITS_PER_WORD - 1) with 63. rewrite land_63.
  unfold bitv. rewrite Hw. simpl.
  change 1 with (Z.ones 1) at 1. rewrite Z.land_ones by lia.
  rewrite <- Z.bit0_mod, Z.shiftr_spec, Z.add_0_l by lia. done.
Qed.

Lemma bit_has_value_spec b i v :
  0 <= i < nbits b ->
  bit_has_value b i (Z.b2z v) = Ok (Bool.eqb (bitv b i) v).
Proof.
  intros H. unfold bit_has_value. rewrite bit_get_spec by done. simpl.
  destruct (bitv b i), v; done.
Qed.

Lemma testbit_BIT_MASK i k :
  0 <= k < 64 -> Z.testbit (BIT_MASK i) k = (k =? i mod 64).
Proof.
  intros Hk. unfold BIT_MASK. change (BITS_PER_WORD - 1) with 63.
  rewrite land_63, testbit_u64, Z.shiftl_spec by lia.
  replace (k <? 64) with true by lia. cbn [andb].
  pose proof (Z.mod_pos_bound i 64 ltac:(lia)).
  destruct (decide (k < i mod 64)).
  - rewrite Z.testbit_neg_r by lia. lia.
  - rewrite testbit_one by lia. lia.
Qed.

Lemma BIT_MASK_range i : 0 <= BIT_MASK i < 2 ^ 64.
Proof. apply u64_range. Qed.

Lemma lor_word a b : 0 <= a < 2 ^ 64 -> 0 <= b < 2 ^ 64 -> 0 <= Z.lor a b < 2 ^ 64.
Proof.
  intros Ha Hb. assert (0 <= Z.lor a b) by (apply Z.lor_nonneg; lia). split; [done |].
  destruct (decide (Z.lor a b = 0)) as [-> | Hne]; [lia |].
  apply Z.log2_lt_pow2; [lia |]. rewrite Z.log2_lor by lia.
  apply Z.max_lub_lt.
  - destruct (decide (a = 0)) as [-> | ?]; [done |]. apply Z.log2_lt_pow2; lia.
  - destruct (decide (b = 0)) as [-> | ?]; [done |]. apply Z.log2_lt_pow2; lia.
Qed.

Lemma land_word a b : 0 <= a < 2 ^ 64 -> 0 <= b -> 0 <= Z.land a b < 2 ^ 64.
Proof.
  intros Ha Hb. assert (0 <= Z.land a b) by (apply Z.land_nonneg; lia). split; [done |].
  destruct (decide (Z.land a b = 0)) as [-> | Hne]; [lia |].
  apply Z.log2_lt_pow2; [lia |]. pose proof (Z.log2_land a b ltac:(lia) Hb).
  assert (a <> 0) by (intros ->; rewrite Z.land_0_l in Hne; done).
  pose proof (proj1 (Z.log2_lt_pow2 a 64 ltac:(lia)) ltac:(lia)). lia.
Qed.

Lemma div_mod_64_eq i j : (j / 64 =? i / 64) && (j mod 64 =? i mod 64) = (j =? i).
Proof.
  pose proof (Z.div_mod i 64 ltac:(lia)). pose proof (Z.div_mod j 64 ltac:(lia)).
  pose proof (Z.mod_pos_bound i 64 ltac:(lia)). pose proof (Z.mod_pos_bound j 64 ltac:(lia)).
  lia.
Qed.

(** The specification of a one-bit update. *)
Definition bit_op_spec (op : list Z -> Z -> res (list Z)) (v : bool) : Prop :=
  forall b i, words_ok b -> 0 <= i < nbits b ->
  exists b', op b i = Ok b' /\ fills b b' i (i + 1) v.

Lemma bit_update_spec b i w' v :
  words_ok b -> 0 <= i < nbits b -> 0 <= w' < 2 ^ 64 ->
  (forall k, 0 <= k < 64 -> Z.testbit w' k =
     if k =? i mod 64 then v else bitv b (64 * (i / 64) + k)) ->
  fills b (<[Z.to_nat (i / 64) := w']> b) i (i + 1) v.
Proof.
  intros Hb Hi Hw Hk. split; [unfold zlen; by rewrite length_insert |].
  split; [by apply words_ok_insert |]. intros j Hj.
  rewrite bitv_insert by done. pose proof (Z.mod_pos_bound j 64 ltac:(lia)).
  replace ((i <=? j) && (j <? i + 1)) with (j =? i) by lia.
  rewrite <- (div_mod_64_eq i j).
  destruct (Z.eqb_spec (j / 64) (i / 64)) as [E | E]; [| done]. cbn [andb].
  rewrite Hk by lia. rewrite <- E. rewrite <- (Z.div_mod j 64) by lia. done.
Qed.

Lemma bitv_word b i w k :
  b !! Z.to_nat (i / 64) = Some w -> 0 <= k < 64 -> bitv b (64 * (i / 64) + k) = Z.testbit w k.
Proof.
  intros Hw Hk. unfold bitv.
  rewrite (Z.mul_comm 64), Z.div_add_l, (Z.div_small k), Z.add_0_r, Hw by lia.
  rewrite Z.add_comm, Z.mod_add, Z.mod_small by lia. done.
Qed.

Lemma bit_set_spec : bit_op_spec bit_set true.
Proof.
  intros b i Hb Hi. destruct (word_lookup b i Hi) as (w & Hw & E).
  unfold bit_set. rewrite E. eexists. split; [done |].
  pose proof (words_ok_lookup _ _ _ Hb Hw).
  apply bit_update_spec; [done | done | by apply lor_word, BIT_MASK_range |].
  intros k Hk. rewrite Z.lor_spec, testbit_BIT_MASK, (bitv_word _ _ w) by done.
  destruct (k =? _); [by rewrite orb_true_r | by rewrite orb_false_r].
Qed.

Lemma bit_clear_spec : bit_op_spec bit_clear false.
Proof.
  intros b i Hb Hi. destruct (word_lookup b i Hi) as (w & Hw & E).
  unfold bit_clear. rewrite E. eexists. split; [done |].
  pose proof (words_ok_lookup _ _ _ Hb Hw).
  apply bit_update_spec; [done | done | apply land_word; [done | apply u64_range] |].
  intros k Hk. rewrite Z.land_spec, testbit_u64, Z.lnot_spec, testbit_BIT_MASK,
    (bitv_word _ _ w) by lia || done.
  replace (k <? 64) with true by lia.
  destruct (k =? _); [by rewrite andb_false_r | by rewrite andb_true_r].
Qed.

Lemma fills_refl b lo hi v : words_ok b -> hi <= lo -> fills b b lo hi v.
Proof.
  intros Hb H. split; [done |]. split; [done |]. intros j _.
  replace ((lo <=? j) && (j <? hi)) with false by lia. done.
Qed.

(** Filling two overlapping or adjacent intervals fills their union. *)
Lemma fills_union b b1 b2 lo1 hi1 lo2 hi2 v :
  fills b b1 lo1 hi1 v -> fills b1 b2 lo2 hi2 v ->
  lo1 <= lo2 <= hi1 -> hi1 <= hi2 -> fills b b2 lo1 hi2 v.
Proof.
  intros (L1 & _ & H1) (L2 & W & H2) Hlo Hhi. split; [congruence |]. split; [done |].
  intros j Hj. rewrite H2, H1 by done.
  destruct ((lo2 <=? j) && (j <? hi2)) eqn:E2, ((lo1 <=? j) && (j <? hi1)) eqn:E1,
    ((lo1 <=? j) && (j <? hi2)) eqn:E; lia || done.
Qed.

Lemma fills_nbits b b' lo hi v : fills b b' lo hi v -> nbits b' = nbits b.
Proof. intros (H & _). unfold nbits. by rewrite H. Qed.

Lemma fills_ok b b' lo hi v : fills b b' lo hi v -> words_ok b'.
Proof. by intros (_ & H & _). Qed.

(** A byte pattern of all ones or all zeroes. *)
Definition byte_of (v : bool) : Z := if v then 255 else 0.

Lemma testbit_byte_of v k : 0 <= k < 8 -> Z.testbit (byte_of v) k = v.
Proof.
  intros Hk. destruct v; simpl; [| by rewrite Z.bits_0].
  change 255 with (Z.ones 8). apply Z.ones_spec_low. lia.
Qed.

Lemma testbit_shiftl_byte v sh k :
  0 <= k -> 0 <= sh ->
  Z.testbit (Z.shiftl (byte_of v) sh) k = (sh <=? k) && (k <? sh + 8) && v.
Proof.
  intros Hk Hs. rewrite Z.shiftl_spec by done.
  destruct (sh <=? k) eqn:E1; [| rewrite Z.testbit_neg_r by lia; done].
  destruct (k <? sh + 8) eqn:E2; simpl.
  - apply testbit_byte_of. lia.
  - apply testbit_high with 8; [| lia]. destruct v; simpl; lia.
Qed.

Lemma shiftl_byte_range v sh : 0 <= sh <= 56 -> 0 <= Z.shiftl (byte_of v) sh < 2 ^ 64.
Proof.
  intros H. rewrite Z.shiftl_mul_pow2 by lia.
  assert (0 <= byte_of v < 2 ^ 8) by (destruct v; simpl; lia).
  assert (0 < 2 ^ sh <= 2 ^ 56) by (split; [lia | apply Z.pow_le_mono_r; lia]). nia.
Qed.

(** The word after one byte of it is replaced. *)
Lemma testbit_byte_update w sh v k :
  0 <= sh <= 56 -> 0 <= k < 64 ->
  Z.testbit (Z.lor (Z.land w (u64 (Z.lnot (Z.shiftl 255 sh)))) (Z.shiftl (byte_of v) sh)) k =
    if (sh <=? k) && (k <? sh + 8) then v else Z.testbit w k.
Proof.
  intros Hs Hk. rewrite Z.lor_spec, Z.land_spec, testbit_u64, Z.lnot_spec by lia.
  rewrite (testbit_shiftl_byte true) by lia. rewrite testbit_shiftl_byte by lia.
  replace (k <? 64) with true by lia.
  destruct ((sh <=? k) && (k <? sh + 8)); simpl; [by rewrite andb_false_r |].
  by rewrite andb_true_r, orb_false_r.
Qed.

Lemma set_byte_spec b k v :
  words_ok b -> 0 <= k -> 8 * k + 8 <= nbits b ->
  exists b', set_byte b k (byte_of v) = Ok b' /\ fills b b' (8 * k) (8 * k + 8) v.
Proof.
  intros Hb Hk Hn. destruct (word_lookup b (k * 8) ltac:(lia)) as (w & Hw & E).
  unfold set_byte. rewrite E. eexists. split; [done |].
  pose proof (words_ok_lookup _ _ _ Hb Hw) as Hww.
  pose proof (Z.div_mod k 8 ltac:(lia)) as Hdm.
  pose proof (Z.mod_pos_bound k 8 ltac:(lia)) as Hm.
  assert (Hq : k * 8 / 64 = k / 8) by (change 64 with (8 * 8); by rewrite Z.div_mul_cancel_r).
  rewrite <- Hq. split; [unfold zlen; by rewrite length_insert |].
  split.
  { apply words_ok_insert; [done |]. apply lor_word.
    - apply land_word; [done | apply u64_range].
    - apply shiftl_byte_range. lia. }
  intros j Hj. rewrite bitv_insert by lia.
  pose proof (Z.div_mod j 64 ltac:(lia)). pose proof (Z.mod_pos_bound j 64 ltac:(lia)).
  destruct (Z.eqb_spec (j / 64) (k * 8 / 64)) as [Ej | Ej].
  - rewrite testbit_byte_update by lia.
    replace ((8 * (k mod 8) <=? j mod 64) && (j mod 64 <? 8 * (k mod 8) + 8))
      with ((8 * k <=? j) && (j <? 8 * k + 8)) by lia.
    destruct (_ && _); [done |]. unfold bitv. rewrite Ej, Hw. done.
  - replace ((8 * k <=? j) && (j <? 8 * k + 8)) with false by lia. done.
Qed.

Lemma memset_spec v n b k :
  words_ok b -> 0 <= k -> 8 * (k + Z.of_nat n) <= nbits b ->
  exists b', memset b k (byte_of v) n = Ok b' /\ fills b b' (8 * k) (8 * (k + Z.of_nat n)) v.
Proof.
  revert b k. induction n as [| n IH]; intros b k Hb Hk Hn; simpl.
  { exists b. split; [done | apply fills_refl; [done | lia]]. }
  destruct (set_byte_spec b k v Hb Hk ltac:(lia)) as (b1 & -> & F1). simpl.
  destruct (IH b1 (k + 1) (fills_ok _ _ _ _ _ F1) ltac:(lia)) as (b2 & -> & F2).
  { rewrite (fills_nbits _ _ _ _ _ F1). lia. }
  exists b2. split; [done |].
  replace (8 * (k + Z.of_nat (S n))) with (8 * (k + 1 + Z.of_nat n)) by lia.
  eapply fills_union; [exact F1 | exact F2 | lia | lia].
Qed.

Section Range.
Context (op : list Z -> Z -> res (list Z)) (v : bool) (op_ok : bit_op_spec op v).

Lemma tail_loop_spec n b from :
  words_ok b -> 0 <= from -> from + Z.of_nat n <= nbits b ->
  exists b', tail_loop op n b from = Ok b' /\ fills b b' from (from + Z.of_nat n) v.
Proof.
  revert b from. induction n as [| n IH]; intros b from Hb Hf Hn; simpl.
  { exists b. split; [done | apply fills_refl; [done | lia]]. }
  destruct (op_ok b from Hb ltac:(lia)) as (b1 & -> & F1). simpl.
  pose proof (proj2 Hb).
  rewrite u64_id by lia.
  destruct (IH b1 (from + 1) (fills_ok _ _ _ _ _ F1) ltac:(lia)) as (b2 & -> & F2).
  { rewrite (fills_nbits _ _ _ _ _ F1). lia. }
  exists b2. split; [done |].
  replace (from + Z.of_nat (S n)) with (from + 1 + Z.of_nat n) by lia.
  eapply fills_union; [exact F1 | exact F2 | lia | lia].
Qed.

Lemma head_loop_spec n b from :
  words_ok b -> 0 <= from -> from + Z.of_nat n <= nbits b ->
  exists b' from' n', head_loop op n b from = Ok (b', from', n') /\
    from <= from' /\ from' + Z.of_nat n' = from + Z.of_nat n /\
    (n' = O \/ from' mod 64 = 0) /\ fills b b' from from' v.
Proof.
  revert b from. induction n as [| n IH]; intros b from Hb Hf Hn; simpl.
  { exists b, from, O. split_and!; [done | lia | done | by left | apply fills_refl; [done | lia]]. }
  change BITS_PER_WORD with 64. destruct (Z.eqb_spec (from mod 64) 0) as [E | E].
  { exists b, from, (S n).
    split_and!; [done | lia | done | by right | apply fills_refl; [done | lia]]. }
  destruct (op_ok b from Hb ltac:(lia)) as (b1 & -> & F1). simpl.
  pose proof (proj2 Hb). rewrite u64_id by lia.
  destruct (IH b1 (from + 1) (fills_ok _ _ _ _ _ F1) ltac:(lia))
    as (b2 & f2 & n2 & -> & L & Hs & Ha & F2).
  { rewrite (fills_nbits _ _ _ _ _ F1). lia. }
  exists b2, f2, n2. split_and!; [done | lia | lia | done |].
  eapply fills_union; [exact F1 | exact F2 | lia | lia].
Qed.

(** Head bits, whole words by [memset], tail bits: together exactly the range. *)
Lemma range_loop_spec b from len :
  words_ok b -> 0 <= from -> 0 <= len -> from + len <= nbits b ->
  exists b', range_loop op (byte_of v) b from len = Ok b' /\ fills b b' from (from + len) v.
Proof.
  intros Hb Hf Hl Hn. unfold range_loop.
  destruct (head_loop_spec (Z.to_nat len) b from Hb Hf ltac:(lia))
    as (b1 & f1 & n1 & -> & L & Hs & Ha & F1).
  cbn [mbind res_bind]. change BITS_PER_WORD with 64. change BITFIELD_WORD_SIZE with 8.
  pose proof (fills_ok _ _ _ _ _ F1) as Hb1. pose proof (fills_nbits _ _ _ _ _ F1) as N1.
  pose proof (proj2 Hb). rewrite Z2Nat.id in Hs by lia.
  destruct (Z.leb_spec 64 (Z.of_nat n1)) as [Hbig | Hsmall].
  2:{ destruct (tail_loop_spec n1 b1 f1 Hb1 ltac:(lia) ltac:(lia)) as (b2 & -> & F2).
      exists b2. split; [done |]. rewrite Hs in F2.
      eapply fills_union; [exact F1 | exact F2 | lia | lia]. }
  destruct Ha as [-> | Ha]; [lia |].
  set (m := Z.of_nat n1) in *.
  pose proof (Z.div_mod f1 64 ltac:(lia)). pose proof (Z.div_mod m 8 ltac:(lia)).
  pose proof (Z.mod_pos_bound m 8 ltac:(lia)).
  pose proof (Z.div_mod m 64 ltac:(lia)). pose proof (Z.mod_pos_bound m 64 ltac:(lia)).
  assert (0 <= m / 8) by (apply Z.div_pos; lia).
  destruct (memset_spec v (Z.to_nat (m / 8)) b1 (f1 / 64 * 8) Hb1) as (b2 & -> & F2);
    [lia | lia |]. cbn [mbind res_bind].
  pose proof (fills_ok _ _ _ _ _ F2) as Hb2. pose proof (fills_nbits _ _ _ _ _ F2) as N2.
  rewrite (u64_id (f1 + m)), u64_id by lia.
  destruct (tail_loop_spec (Z.to_nat (m mod 64)) b2 (f1 + m - m mod 64) Hb2 ltac:(lia) ltac:(lia))
    as (b3 & -> & F3).
  exists b3. split; [done |].
  rewrite Z2Nat.id in F2, F3 by lia.
  replace (8 * (f1 / 64 * 8)) with f1 in F2 by lia.
  replace (8 * (f1 / 64 * 8 + m / 8)) with (f1 + 8 * (m / 8)) in F2 by lia.
  replace (f1 + m - m mod 64 + m mod 64) with (from + len) in F3 by lia.
  pose proof (fills_union _ _ _ _ _ _ _ _ F2 F3 ltac:(lia) ltac:(lia)) as F23.
  eapply fills_union; [exact F1 | exact F23 | lia | lia].
Qed.
End Range.

Lemma bit_set_range_spec b from len :
  words_ok b -> 0 <= from -> 0 <= len -> from + len <= nbits b ->
  exists b', bit_set_range b from len = Ok b' /\ fills b b' from (from + len) true.
Proof. apply (range_loop_spec bit_set true bit_set_spec). Qed.

Lemma bit_clear_range_spec b from len :
  words_ok b -> 0 <= from -> 0 <= len -> from + len <= nbits b ->
  exists b', bit_clear_range b from len = Ok b' /\ fills b b' from (from + len) false.
Proof. apply (range_loop_spec bit_clear false bit_clear_spec). Qed.

(** ** Runs: the reference definition and the three loops *)

(** How many bits from [from] on, at most [n], have the value [v]. *)
Fixpoint run_length (b : list Z) (v : bool) (from : Z) (n : nat) : Z :=
  match n with
  | O => 0
  | S n' => if Bool.eqb (bitv b from) v then 1 + run_length b v (from + 1) n' else 0
  end.

Lemma run_length_range b v from n : 0 <= run_length b v from n <= Z.of_nat n.
Proof.
  revert from. induction n as [| n IH]; intros from; cbn [run_length]; [lia |].
  destruct (Bool.eqb _ _); [| lia]. specialize (IH (from + 1)). lia.
Qed.

(** A prefix of [k] equal bits is counted in full. *)
Lemma run_length_skip b v from k m :
  (forall j, from <= j < from + Z.of_nat k -> bitv b j = v) ->
  run_length b v from (k + m) = Z.of_nat k + run_length b v (from + Z.of_nat k) m.
Proof.
  revert from. induction k as [| k IH]; intros from H; cbn [Nat.add run_length].
  { rewrite Z.add_0_r. lia. }
  rewrite (H from) by lia. rewrite Bool.eqb_reflx, IH.
  - replace (from + Z.of_nat (S k)) with (from + 1 + Z.of_nat k) by lia. lia.
  - intros j Hj. apply H. lia.
Qed.

(** The run really is a run, and it is maximal. *)
Lemma run_length_run b v from n j :
  from <= j < from + run_length b v from n -> bitv b j = v.
Proof.
  revert from. induction n as [| n IH]; intros from H; cbn [run_length] in H; [lia |].
  destruct (Bool.eqb (bitv b from) v) eqn:E; [| lia].
  destruct (decide (j = from)) as [-> | Hne]; [by apply Bool.eqb_prop |].
  apply (IH (from + 1)). lia.
Qed.

Lemma run_length_maximal b v from n :
  run_length b v from n < Z.of_nat n -> bitv b (from + run_length b v from n) = negb v.
Proof.
  revert from. induction n as [| n IH]; intros from H; cbn [run_length] in *; [lia |].
  destruct (Bool.eqb (bitv b from) v) eqn:E.
  - replace (from + (1 + run_length b v (from + 1) n))
      with (from + 1 + run_length b v (from + 1) n) by lia.
    apply IH. lia.
  - rewrite Z.add_0_r. destruct (bitv b from), v; done.
Qed.

Section Run.
Context (b : list Z) (from : Z) (v : bool).
Context (b_ok : words_ok b) (from_ok : 0 <= from).

Lemma pos_id k : 0 <= k -> from + k <= nbits b -> from +64 k = from + k.
Proof. intros H1 H2. apply u64_id. destruct b_ok. lia. Qed.

Lemma count_id k : 0 <= k -> from + k <= nbits b -> u64 k = k.
Proof. intros H1 H2. apply u64_id. destruct b_ok. lia. Qed.

Lemma run_head_spec n count :
  0 <= count -> from + count + Z.of_nat n <= nbits b ->
  let r := run_length b v (from + count) n in
  run_head b from (Z.b2z v) n count = Ok (inl (count + r)) \/
  exists count' n', run_head b from (Z.b2z v) n count = Ok (inr (count', n')) /\
    count <= count' /\ count' + Z.of_nat n' = count + Z.of_nat n /\
    (n' = O \/ (from + count') mod 64 = 0) /\
    count + r = count' + run_length b v (from + count') n'.
Proof.
  revert count. induction n as [| n IH]; intros count Hc Hn r; subst r;
    cbn [run_head run_length].
  { right. exists count, O. split_and!; [done | lia | done | by left | done]. }
  rewrite pos_id by lia. change BITS_PER_WORD with 64.
  destruct (Z.eqb_spec ((from + count) mod 64) 0) as [E | E].
  { right. exists count, (S n). split_and!; [done | lia | done | by right | done]. }
  rewrite bit_has_value_spec by lia. cbn [mbind res_bind].
  destruct (Bool.eqb (bitv b (from + count)) v) eqn:Ev.
  2:{ left. by rewrite Z.add_0_r. }
  rewrite (count_id (count + 1)) by lia.
  destruct (IH (count + 1) ltac:(lia) ltac:(lia)) as [Hl | (c' & n' & Hr & L & S & A & R)];
    rewrite (Z.add_assoc from count 1) in *.
  - left. rewrite Hl. do 2 f_equal. lia.
  - right. exists c', n'. split_and!; [done | lia | lia | done | lia].
Qed.

Lemma word_match_bits pos w :
  0 <= pos -> pos mod 64 = 0 -> b !! Z.to_nat (pos / 64) = Some w ->
  w = (if v then u64 (-1) else 0) ->
  forall j, pos <= j < pos + 64 -> bitv b j = v.
Proof.
  intros Hp Ha Hw Hm j Hj. unfold bitv.
  pose proof (Z.div_mod pos 64 ltac:(lia)). pose proof (Z.div_mod j 64 ltac:(lia)).
  pose proof (Z.mod_pos_bound j 64 ltac:(lia)).
  assert (j / 64 = pos / 64) as -> by lia. rewrite Hw, Hm. cbn [from_option id].
  destruct v; [| apply Z.bits_0].
  rewrite testbit_u64, Z.bits_m1 by lia. lia.
Qed.

Lemma run_words_spec fuel n count :
  0 <= count -> from + count + Z.of_nat n <= nbits b -> (n < fuel)%nat ->
  (n = O \/ (from + count) mod 64 = 0) ->
  exists count' n',
    run_words b from (if v then u64 (-1) else 0) (Z.of_nat n) fuel count =
      Ok (count', Z.of_nat n') /\
    count <= count' /\ count' + Z.of_nat n' = count + Z.of_nat n /\
    count + run_length b v (from + count) n = count' + run_length b v (from + count') n'.
Proof.
  revert n count. induction fuel as [| fuel IH]; intros n count Hc Hn Hf Ha; [lia |].
  cbn [run_words]. change BITS_PER_WORD with 64.
  destruct (Z.leb_spec 64 (Z.of_nat n)) as [Hbig | Hsmall].
  2:{ exists count, n. split_and!; [done | lia | done | done]. }
  destruct Ha as [-> | Ha]; [lia |]. rewrite pos_id by lia.
  destruct (word_lookup b (from + count) ltac:(lia)) as (w & Hw & ->). cbn [mbind res_bind].
  destruct (Z.eqb_spec w (if v then u64 (-1) else 0)) as [Hm | Hm].
  2:{ exists count, n. split_and!; [done | lia | done | done]. }
  assert (exists m, n = (64 + m)%nat) as [m ->] by (exists (n - 64)%nat; lia).
  rewrite (count_id (count + 64)) by lia.
  replace (Z.of_nat (64 + m) - 64) with (Z.of_nat m) by lia.
  destruct (IH m (count + 64) ltac:(lia) ltac:(lia) ltac:(lia)) as (c' & n' & -> & L & S & R).
  { right. replace (from + (count + 64)) with (from + count + 1 * 64) by lia.
    by rewrite Z.mod_add. }
  exists c', n'. split_and!; [done | lia | lia |].
  rewrite (run_length_skip b v (from + count) 64 m).
  2:{ intros j Hj. eapply word_match_bits; [| done | done | done | lia]. lia. }
  change (Z.of_nat 64) with 64. rewrite <- Z.add_assoc in *. lia.
Qed.

Lemma run_tail_stuck n count :
  0 <= count -> from + count < nbits b -> bitv b (from + count) <> v ->
  run_tail b from (Z.b2z v) n count = Ok count.
Proof.
  intros Hc Hn Hv. induction n as [| n IH]; cbn [run_tail]; [done |].
  rewrite pos_id, bit_has_value_spec by lia. cbn [mbind res_bind].
  destruct (Bool.eqb (bitv b (from + count)) v) eqn:E; [| done].
  by apply Bool.eqb_prop in E.
Qed.

Lemma run_tail_spec n count :
  0 <= count -> from + count + Z.of_nat n <= nbits b ->
  run_tail b from (Z.b2z v) n count = Ok (count + run_length b v (from + count) n).
Proof.
  revert count. induction n as [| n IH]; intros count Hc Hn; cbn [run_tail run_length].
  { by rewrite Z.add_0_r. }
  rewrite pos_id, bit_has_value_spec by lia. cbn [mbind res_bind].
  destruct (Bool.eqb (bitv b (from + count)) v) eqn:E.
  - rewrite (count_id (count + 1)), IH by lia. f_equal. rewrite Z.add_assoc. lia.
  - rewrite Z.add_0_r. apply run_tail_stuck; [lia | lia |].
    intros Hv. by rewrite Hv, Bool.eqb_reflx in E.
Qed.
End Run.

(** The three loops compute the reference run length. *)
Lemma bit_run_count_spec b from len :
  words_ok b -> 0 <= from < nbits b -> 0 <= len -> from + len <= nbits b ->
  bit_run_count b from len =
    Ok (run_length b (bitv b from) from (Z.to_nat len), Z.b2z (bitv b from)).
Proof.
  intros Hb Hf Hl Hn. unfold bit_run_count. rewrite bit_get_spec by done.
  set (v := bitv b from). cbn [mbind res_bind].
  replace (if Z.b2z v =? 0 then 0 else u64 (-1)) with (if v then u64 (-1) else 0)
    by (destruct v; done).
  destruct (run_head_spec b from v Hb ltac:(lia) (Z.to_nat len) 0 ltac:(lia) ltac:(lia))
    as [-> | (c1 & n1 & -> & L1 & S1 & A1 & R1)]; rewrite ?Z.add_0_r in *; [done |].
  cbn [mbind res_bind].
  destruct (run_words_spec b from v Hb ltac:(lia) (S n1) n1 c1 ltac:(lia) ltac:(lia) ltac:(lia) A1)
    as (c2 & n2 & -> & L2 & S2 & R2).
  cbn [mbind res_bind]. rewrite Nat2Z.id.
  rewrite (run_tail_spec b from v Hb ltac:(lia)) by lia. cbn [mbind res_bind].
  do 2 f_equal. lia.
Qed.

(** * The stream: a bounded queue *)

Lemma BITSET_STREAM_SIZE_pos : 0 < BITSET_STREAM_SIZE.
Proof. done. Qed.

Lemma BITSET_STREAM_SIZE_value : BITSET_STREAM_SIZE = 43690.
Proof. done. Qed.

#[global] Opaque BITSET_STREAM_SIZE.

Definition slot (s : bitset_stream) (k : Z) : bitset_stream_entry :=
  default no_entry (entries s !! Z.to_nat ((s_out s + k) mod BITSET_STREAM_SIZE)).

(** The queued entries, oldest first. *)
Definition contents (s : bitset_stream) : list bitset_stream_entry :=
  slot s <$> seqZ 0 (s_size s).

(** Bytes the queued events of one kind cover. *)
Definition event_bytes (ev : bitset_stream_events) (l : list bitset_stream_entry) : Z :=
  foldr (fun e acc => if decide (event e = ev) then e_len e + acc else acc) 0 l.

Record stream_ok (s : bitset_stream) : Prop := {
  so_entries : zlen (entries s) = BITSET_STREAM_SIZE;
  so_out : 0 <= s_out s < BITSET_STREAM_SIZE;
  so_size : 0 <= s_size s <= BITSET_STREAM_SIZE;
  so_in : s_in s = (s_out s + s_size s) mod BITSET_STREAM_SIZE;
  so_queued : queued_bytes s =
    (fun ev => u64 (event_bytes ev (contents s))) <$>
      [BITSET_STREAM_UNSET; BITSET_STREAM_SET; BITSET_STREAM_ON; BITSET_STREAM_OFF]
}.

Lemma length_contents s : 0 <= s_size s -> zlen (contents s) = s_size s.
Proof. intros H. unfold contents, zlen. rewrite length_fmap, length_seqZ. lia. Qed.

Lemma event_bytes_app ev l k : event_bytes ev (l ++ k) = event_bytes ev l + event_bytes ev k.
Proof.
  induction l as [| e l IH]; simpl; [lia |]. rewrite IH. destruct (decide _); lia.
Qed.

Lemma u64_add_l a b : u64 (u64 a + b) = u64 (a + b).
Proof. unfold u64. apply Zplus_mod_idemp_l. Qed.

(** Adding to one counter of the four. *)
Lemma add_queued_map (f : bitset_stream_events -> Z) ev d :
  add_queued
    ((fun e => u64 (f e)) <$>
       [BITSET_STREAM_UNSET; BITSET_STREAM_SET; BITSET_STREAM_ON; BITSET_STREAM_OFF]) ev d =
  (fun e => u64 (f e + if decide (ev = e) then d else 0)) <$>
    [BITSET_STREAM_UNSET; BITSET_STREAM_SET; BITSET_STREAM_ON; BITSET_STREAM_OFF].
Proof.
  destruct ev; cbn; rewrite ?u64_add_l, ?Z.add_0_r; done.
Qed.

Lemma stream_alloc_ok : stream_ok stream_alloc.
Proof.
  pose proof BITSET_STREAM_SIZE_pos. constructor; simpl; try lia.
  - unfold zlen. rewrite length_replicate. lia.
  - rewrite Z.mod_0_l by lia. done.
  - done.
Qed.

Lemma contents_alloc : contents stream_alloc = [].
Proof. done. Qed.

Lemma stream_enqueue_spec s ev from len :
  stream_ok s -> s_size s < BITSET_STREAM_SIZE ->
  exists s', stream_enqueue s ev from len = Ok s' /\ stream_ok s' /\
    contents s' = contents s ++ [{| event := ev; e_from := from; e_len := len |}].
Proof.
  intros [He Ho Hs Hi Hq] Hlt. pose proof BITSET_STREAM_SIZE_pos as Hpos.
  unfold stream_enqueue. replace (s_size s =? BITSET_STREAM_SIZE) with false by lia.
  pose proof (Z.mod_pos_bound (s_out s + s_size s) _ Hpos) as Hin.
  destruct (lookup_lt_is_Some_2 (entries s) (Z.to_nat (s_in s))) as [x Hx].
  { unfold zlen in He. lia. }
  rewrite Hx. simpl. eexists. split; [done |].
  set (e := {| event := ev; e_from := from; e_len := len |}).
  set (s' := {| entries := _ |}).
  assert (Hc : contents s' = contents s ++ [e]).
  { unfold contents. simpl. rewrite seqZ_app by lia. rewrite fmap_app. f_equal.
    - apply list_fmap_ext. intros i k Hk. apply lookup_seqZ in Hk as [-> Hk].
      unfold slot. simpl. rewrite list_lookup_insert_ne; [done |].
      pose proof (Z.mod_pos_bound (s_out s + (0 + Z.of_nat i)) _ Hpos).
      intros Heq. apply (f_equal Z.of_nat) in Heq. rewrite !Z2Nat.id, Hi in Heq by lia.
      apply mod_add_inj in Heq; lia.
    - cbn. unfold slot. simpl. rewrite !Z.add_0_l, <- Hi, list_lookup_insert_eq; [done |].
      unfold zlen in He. lia. }
  split; [| done]. constructor; cbn [s' entries s_in s_out s_size queued_bytes].
  - unfold zlen. by rewrite length_insert.
  - done.
  - lia.
  - rewrite Hi, Zplus_mod_idemp_l. f_equal. lia.
  - fold s'. rewrite Hc, Hq, add_queued_map. apply list_fmap_ext. intros _ e' _.
    rewrite event_bytes_app. f_equal. simpl. destruct (decide _); lia.
Qed.

Lemma stream_dequeue_spec s e r :
  stream_ok s -> contents s = e :: r ->
  exists s', stream_dequeue s = Ok (e, s') /\ stream_ok s' /\ contents s' = r.
Proof.
  intros [He Ho Hs Hi Hq] Hc. pose proof BITSET_STREAM_SIZE_pos as Hpos.
  pose proof (length_contents s ltac:(lia)) as Hl. rewrite Hc in Hl. unfold zlen in Hl. simpl in Hl.
  unfold stream_dequeue. replace (s_size s =? 0) with false by lia.
  assert (Hcs : contents s = slot s 0 :: (slot s <$> seqZ 1 (s_size s - 1))).
  { unfold contents. rewrite seqZ_cons by lia. simpl. do 2 f_equal; lia. }
  rewrite Hcs in Hc. injection Hc as He0 Hr.
  assert (He' : entries s !! Z.to_nat (s_out s) = Some e).
  { unfold slot in He0. rewrite Z.add_0_r, Z.mod_small in He0 by lia.
    destruct (lookup_lt_is_Some_2 (entries s) (Z.to_nat (s_out s))) as [x Hx].
    { unfold zlen in He. lia. }
    rewrite Hx in *. simpl in He0. by subst. }
  rewrite He'. simpl. eexists. split; [done |].
  set (s' := {| entries := _ |}).
  assert (Hc' : contents s' = r).
  { subst r. unfold contents. simpl. 
    replace (seqZ 1 (s_size s - 1)) with (Z.add 1 <$> seqZ 0 (s_size s - 1))
      by (by rewrite fmap_add_seqZ).
    rewrite <- list_fmap_compose.
    apply list_fmap_ext. intros _ k _. unfold slot, compose. simpl.
    rewrite Zplus_mod_idemp_l. do 3 f_equal. f_equal. lia. }
  split; [| done]. pose proof (Z.mod_pos_bound (s_out s + 1) _ Hpos).
  constructor; cbn [s' entries s_in s_out s_size queued_bytes]; [done | done | lia | |].
  - rewrite Hi, Zplus_mod_idemp_l. f_equal. lia.
  - fold s'. rewrite Hc', Hq, add_queued_map. apply list_fmap_ext. intros _ ev _. f_equal.
    rewrite Hcs, He0, Hr. simpl. destruct (decide _); lia.
Qed.

(** * The bitset: lemmas *)

Record bitset_ok (set : bitset) : Prop := {
  bo_res : 0 < resolution set;
  bo_size : 0 <= bs_size set /\ bs_size set + resolution set < 2 ^ 64;
  bo_words : words_ok (bits set);
  bo_cover : bs_size set <= resolution set * nbits (bits set);
  bo_stream : stream_ok (stream set)
}.

(** The bit of the chunk that holds byte [off] of the file. *)
Definition bit_at (set : bitset) (off : Z) : bool := bitv (bits set) (off / resolution set).

(** Room in the stream for [n] more events. *)
Definition room (set : bitset) (n : Z) : Prop :=
  stream_enabled set = true -> s_size (stream set) + n <= BITSET_STREAM_SIZE.

(** Chunk [off] falls in is one that [from, from+len) touches. *)
Definition touches (set : bitset) (from len off : Z) : bool :=
  (from / resolution set <=? off / resolution set) &&
  (off / resolution set <=? (from + len - 1) / resolution set).

Section BitsetFacts.
Context (set : bitset) (ok : bitset_ok set).
Let r := resolution set.

Lemma first_last_spec from len :
  0 <= from -> 0 < len -> from + len <= bs_size set ->
  let first := from / r in
  let bitlen := (from + len - 1) / r - first + 1 in
  INT_FIRST_AND_LAST set from len = (first, bitlen) /\
  0 <= first /\ 0 < bitlen /\ first + bitlen <= nbits (bits set) /\
  (first + bitlen) * r < 2 ^ 64.
Proof using ok.
  destruct ok as [Hr [Hs0 Hs] Hw Hc _]. fold r in Hr, Hs, Hc. intros Hf Hl Hn first bitlen.
  assert (0 <= first) by (apply Z.div_pos; lia).
  assert (first <= (from + len - 1) / r) by (apply Z.div_le_mono; lia).
  assert (Hlast : (from + len - 1) / r < nbits (bits set)).
  { apply Z.div_lt_upper_bound; lia. }
  pose proof (proj2 Hw).
  assert (r * ((from + len - 1) / r) <= from + len - 1) by (apply Z.mul_div_le; lia).
  unfold INT_FIRST_AND_LAST. fold r.
  rewrite (u64_id (from + len)), (u64_id (from + len - 1)) by lia. fold first.
  rewrite (u64_id (_ - first)), u64_id by lia.
  split_and!; [done | lia | lia | lia | nia].
Qed.

Lemma bit_range_touches from len off :
  (from / r <=? off / r) && (off / r <? from / r + ((from + len - 1) / r - from / r + 1)) =
  touches set from len off.
Proof. unfold touches. fold r. lia. Qed.

Lemma bitset_set_range_spec from len :
  0 <= from -> 0 < len -> from + len <= bs_size set -> room set 1 ->
  exists set', bitset_set_range set from len = Ok set' /\ bitset_ok set' /\
    bs_size set' = bs_size set /\ resolution set' = resolution set /\
    stream_enabled set' = stream_enabled set /\
    contents (stream set') = contents (stream set) ++
      (if stream_enabled set
       then [{| event := BITSET_STREAM_SET; e_from := from; e_len := len |}] else []) /\
    forall off, 0 <= off ->
      bit_at set' off = if touches set from len off then true else bit_at set off.
Proof using ok.
  intros Hf Hl Hn Hroom.
  destruct (first_last_spec from len Hf Hl Hn) as (E & H1 & H2 & H3 & _).
  destruct ok as [Hr Hs Hw Hc Hst].
  unfold bitset_set_range. rewrite E.
  destruct (bit_set_range_spec (bits set) _ _ Hw H1 (Z.lt_le_incl _ _ H2) H3) as (b & -> & F).
  cbn [mbind res_bind].
  assert (Hok : bitset_ok (with_bits set b)).
  { constructor; simpl; [done | done | apply (fills_ok _ _ _ _ _ F) | | done].
    rewrite (fills_nbits _ _ _ _ _ F). done. }
  assert (Hbits : forall off, 0 <= off ->
    bitv b (off / r) = if touches set from len off then true else bit_at set off).
  { intros off Ho. destruct F as (_ & _ & F).
    rewrite F by (apply Z.div_pos; unfold r in *; lia).
    rewrite bit_range_touches. done. }
  destruct (stream_enabled set) eqn:En.
  2:{ exists (with_bits set b). split_and!; try done. by rewrite app_nil_r. }
  unfold bitset_stream_enqueue.
  destruct (stream_enqueue_spec (stream set) BITSET_STREAM_SET from len Hst) as (s' & E' & Hs' & Hc').
  { specialize (Hroom En). lia. }
  simpl. rewrite E'. eexists. split; [done |].
  destruct Hok. split; [by constructor |]. split_and!; done.
Qed.

(** A run ends at a chunk boundary (or runs past the clipped request). *)
Lemma bitset_run_count_spec from len :
  0 <= from -> 0 < len -> from + len <= bs_size set ->
  exists run, bitset_run_count set from len = Ok run /\ 0 < run /\
    (from + run) mod r = 0 /\
    (forall off, from <= off < from + run -> bit_at set off = bit_at set from) /\
    (run < len -> bit_at set (from + run) = negb (bit_at set from)).
Proof using ok.
  intros Hf Hl Hn.
  destruct (first_last_spec from len Hf Hl Hn) as (E & H1 & H2 & H3 & H4).
  destruct ok as [Hr [Hs0 Hs] Hw Hc Hst]. fold r in Hr, Hs, Hc.
  unfold bitset_run_count, bitset_run_count_ex.
  replace (bs_size set <? from) with false by lia.
  rewrite (u64_id (len + from)) by lia.
  replace (bs_size set <? len + from) with false by lia.
  rewrite E, bit_run_count_spec by (lia || done). cbn [mbind res_bind]. fold r.
  set (n := Z.to_nat _) in *. set (c := run_length _ _ _ n) in *. set (q := from / r) in *.
  pose proof (run_length_range (bits set) (bitv (bits set) q) q n) as Hrange. fold c in Hrange.
  assert (Hc1 : 0 < c).
  { subst c n. destruct (Z.to_nat _) as [| n'] eqn:En; [lia |]. cbn [run_length].
    rewrite Bool.eqb_reflx. pose proof (run_length_range (bits set) (bitv (bits set) q) (q + 1) n').
    lia. }
  pose proof (Z.div_mod from r ltac:(lia)) as Hdm. fold q in Hdm.
  pose proof (Z.mod_pos_bound from r Hr) as Hm.
  assert (Hcb : (q + c) * r < 2 ^ 64) by nia.
  assert (0 <= q * r) by nia. assert (r <= c * r) by nia.
  rewrite (u64_id (c * r)), u64_id by nia.
  exists (c * r - from mod r). split; [done |]. split; [lia |].
  assert (Hend : from + (c * r - from mod r) = (q + c) * r) by lia.
  rewrite Hend. split; [apply Z.mod_mul; lia |]. split.
  - intros off Ho. unfold bit_at. fold r. fold q.
    apply (run_length_run _ _ q n). fold c. split.
    + apply Z.div_le_lower_bound; lia.
    + apply Z.div_lt_upper_bound; lia.
  - intros Hlt. unfold bit_at. fold r. fold q. rewrite Z.div_mul by lia.
    apply run_length_maximal. fold c.
    destruct (decide (c < Z.of_nat n)); [done |]. exfalso.
    assert (c = Z.of_nat n) as Hcn by lia. subst n. rewrite Z2Nat.id in Hcn by lia.
    assert (q + c = (from + len - 1) / r + 1) as Hq by lia.
    pose proof (Z.mul_succ_div_gt (from + len - 1) r Hr). nia.
Qed.

Lemma bitset_is_set_at_spec off :
  0 <= off < bs_size set -> bitset_is_set_at set off = Ok (bit_at set off).
Proof using ok.
  destruct ok as [Hr Hs Hw Hc Hst]. intros Ho. unfold bitset_is_set_at, bit_is_set.
  rewrite bit_get_spec.
  - simpl. unfold bit_at. by destruct (bitv _ _).
  - split; [apply Z.div_pos; lia | apply Z.div_lt_upper_bound; lia].
Qed.
End BitsetFacts.

(** Outside the field, [memset] faults. *)
Lemma set_byte_fault b k c : nbits b <= 8 * k -> 0 <= k -> set_byte b k c = Stop SFault.
Proof.
  intros H Hk. unfold set_byte, BIT_WORD. replace (0 <=? k * 8) with true by lia.
  rewrite lookup_ge_None_2; [done |]. rewrite nbits_eq in H. unfold zlen in H.
  assert (Z.of_nat (length b) <= k * 8 / BITS_PER_WORD).
  { change BITS_PER_WORD with 64. apply Z.div_le_lower_bound; lia. }
  lia.
Qed.

Lemma memset_fault v n b k :
  words_ok b -> 0 <= k -> nbits b < 8 * (k + Z.of_nat n) -> 8 * k <= nbits b ->
  memset b k (byte_of v) n = Stop SFault.
Proof.
  revert b k. induction n as [| n IH]; intros b k Hb Hk Hn Hle; cbn [memset]; [lia |].
  destruct (decide (8 * k = nbits b)) as [E | E].
  { rewrite set_byte_fault by lia. done. }
  pose proof (nbits_eq b).
  destruct (set_byte_spec b k v Hb Hk ltac:(lia)) as (b1 & -> & F). cbn [mbind res_bind].
  pose proof (fills_nbits _ _ _ _ _ F). apply IH; [apply (fills_ok _ _ _ _ _ F) | lia | lia | lia].
Qed.

#[export] Instance words_ok_dec b : Decision (words_ok b).
Proof. unfold words_ok. apply _. Defined.

#[export] Instance stream_ok_dec s : Decision (stream_ok s).
Proof.
  destruct (decide (zlen (entries s) = BITSET_STREAM_SIZE /\
    0 <= s_out s < BITSET_STREAM_SIZE /\ 0 <= s_size s <= BITSET_STREAM_SIZE /\
    s_in s = (s_out s + s_size s) mod BITSET_STREAM_SIZE /\
    queued_bytes s = (fun ev => u64 (event_bytes ev (contents s))) <$>
      [BITSET_STREAM_UNSET; BITSET_STREAM_SET; BITSET_STREAM_ON; BITSET_STREAM_OFF]))
    as [(? & ? & ? & ? & ?) | H].
  - left. by constructor.
  - right. intros []. apply H. done.
Defined.

(** ** The queue the stream implements *)

Inductive stream_op :=
| Enqueue (ev : bitset_stream_events) (from len : Z)
| Dequeue.

(** The ring buffer run on a sequence of operations, with what it hands out. *)
Fixpoint stream_run (s : bitset_stream) (ops : list stream_op)
    : res (list bitset_stream_entry * bitset_stream) :=
  match ops with
  | [] => Ok ([], s)
  | Enqueue ev from len :: ops' => s' ← stream_enqueue s ev from len; stream_run s' ops'
  | Dequeue :: ops' =>
      '(e, s') ← stream_dequeue s;
      '(out, s'') ← stream_run s' ops'; Ok (e :: out, s'')
  end.

(** The specification: a list of at most [BITSET_STREAM_SIZE] entries. *)
Fixpoint fifo_run (q : list bitset_stream_entry) (ops : list stream_op)
    : res (list bitset_stream_entry * list bitset_stream_entry) :=
  match ops with
  | [] => Ok ([], q)
  | Enqueue ev from len :: ops' =>
      if zlen q =? BITSET_STREAM_SIZE then Stop SBlock
      else fifo_run (q ++ [{| event := ev; e_from := from; e_len := len |}]) ops'
  | Dequeue :: ops' =>
      match q with
      | [] => Stop SBlock
      | e :: q' => '(out, q'') ← fifo_run q' ops'; Ok (e :: out, q'')
      end
  end.

Lemma stream_run_refines ops s :
  stream_ok s ->
  match fifo_run (contents s) ops with
  | Ok (out, q) => exists s', stream_run s ops = Ok (out, s') /\ contents s' = q /\ stream_ok s'
  | Stop e => stream_run s ops = Stop e
  end.
Proof.
  revert s. induction ops as [| [ev from len |] ops IH]; intros s Hs; cbn [fifo_run stream_run].
  - by exists s.
  - rewrite length_contents by apply so_size, Hs. destruct (Z.eqb_spec (s_size s) BITSET_STREAM_SIZE) as [E | E].
    { unfold stream_enqueue. by rewrite (proj2 (Z.eqb_eq _ _) E). }
    destruct (stream_enqueue_spec s ev from len Hs) as (s' & -> & Hs' & <-).
    { pose proof (so_size _ Hs). lia. }
    cbn [mbind res_bind]. by apply IH.
  - destruct (contents s) as [| e q] eqn:Hc.
    { unfold stream_dequeue. pose proof (length_contents s ltac:(apply so_size, Hs)) as Hl.
      rewrite Hc in Hl. rewrite <- Hl. done. }
    destruct (stream_dequeue_spec s e q Hs Hc) as (s' & -> & Hs' & <-).
    cbn [mbind res_bind]. specialize (IH s' Hs').
    destruct (fifo_run (contents s') ops) as [[out q'] | x]; cbn [mbind res_bind].
    + destruct IH as (s'' & -> & Hc'' & Hs''). eauto.
    + by rewrite IH.
Qed.

(** * Properties *)

(** C19: [bit_set_range] and [bit_clear_range] touch only memory of the field
    and change exactly the bits [from, from+len): the unaligned head, the
    [memset] over whole words and the tail together are the naive loop. *)
Theorem bit_range_correct b from len :
  words_ok b -> 0 <= from -> 0 <= len -> from + len <= nbits b ->
  exists bs bc,
    bit_set_range b from len = Ok bs /\ bit_clear_range b from len = Ok bc /\
    zlen bs = zlen b /\ zlen bc = zlen b /\
    forall j, 0 <= j < nbits b ->
      bit_get bs j = (if (from <=? j) && (j <? from + len) then Ok 1 else bit_get b j) /\
      bit_get bc j = (if (from <=? j) && (j <? from + len) then Ok 0 else bit_get b j).
Proof.
  intros Hb Hf Hl Hn.
  destruct (bit_set_range_spec b from len Hb Hf Hl Hn) as (bs & Es & Fs).
  destruct (bit_clear_range_spec b from len Hb Hf Hl Hn) as (bc & Ec & Fc).
  exists bs, bc. split_and!; [done | done | apply Fs | apply Fc |]. intros j Hj.
  pose proof (fills_nbits _ _ _ _ _ Fs). pose proof (fills_nbits _ _ _ _ _ Fc).
  destruct Fs as (_ & _ & Fs), Fc as (_ & _ & Fc).
  rewrite !bit_get_spec, Fs, Fc by lia. by destruct (_ && _).
Qed.

Lemma bit_range_correct_witness :
  words_ok [0; 0; 0] /\
  exists bs bc,
    bit_set_range [0; 0; 0] 60 70 = Ok bs /\ bit_clear_range [0; 0; 0] 60 70 = Ok bc /\
    zlen bs = 3 /\ zlen bc = 3 /\
    forall j, 0 <= j < 192 ->
      bit_get bs j = (if (60 <=? j) && (j <? 130) then Ok 1 else bit_get [0; 0; 0] j) /\
      bit_get bc j = (if (60 <=? j) && (j <? 130) then Ok 0 else bit_get [0; 0; 0] j).
Proof.
  assert (H : words_ok [0; 0; 0]) by (by_decide).
  split; [exact H |]. apply (bit_range_correct [0; 0; 0] 60 70 H).
  - lia.
  - lia.
  - apply Z.leb_le. reflexivity.
Defined.

(** C18: [bit_run_count], which compares whole words where it can, returns the
    length of the run of equal bits that starts at [from], clipped to [len], and
    the value of its first bit. *)
Theorem bit_run_count_correct b from len :
  words_ok b -> 0 <= from < nbits b -> 0 <= len -> from + len <= nbits b ->
  bit_run_count b from len =
    Ok (run_length b (bitv b from) from (Z.to_nat len), Z.b2z (bitv b from)).
Proof. apply bit_run_count_spec. Qed.

Lemma bit_run_count_correct_witness :
  bit_run_count [2 ^ 64 - 8; 2 ^ 64 - 1; 7] 3 150 = Ok (128, 1).
Proof.
  rewrite (bit_run_count_correct [2 ^ 64 - 8; 2 ^ 64 - 1; 7] 3 150).
  - vm_compute. reflexivity.
  - by_decide.
  - vm_compute. split; [discriminate | reflexivity].
  - lia.
  - apply Z.leb_le. vm_compute. reflexivity.
Defined.

(** C17: the ring buffer behind the event stream is a bounded FIFO queue: from a
    freshly allocated stream, any sequence of enqueues and dequeues hands out the
    entries, blocks and keeps the entries exactly as the list specification does,
    and the [queued_bytes] counters are the totals (mod 2^64) of what is queued. *)
Theorem stream_refines_fifo ops :
  match fifo_run [] ops with
  | Ok (out, q) => exists s, stream_run stream_alloc ops = Ok (out, s) /\ contents s = q /\
      forall ev, queued_bytes s !! event_index ev = Some (u64 (event_bytes ev q))
  | Stop e => stream_run stream_alloc ops = Stop e
  end.
Proof.
  pose proof (stream_run_refines ops stream_alloc stream_alloc_ok) as H.
  rewrite contents_alloc in H. destruct (fifo_run [] ops) as [[out q] | e]; [| done].
  destruct H as (s & E & <- & Hs). exists s. split_and!; [done | done |].
  intros ev. rewrite (so_queued _ Hs). by destruct ev.
Qed.

(** [bitset_run_count] on a range inside the file returns a positive number
    of bytes up to a chunk boundary, all the bytes in it are in chunks with the
    bit of the first one, and the run is maximal: if it is shorter than the
    request, the next chunk's bit differs. *)
Theorem bitset_run_count_correct set from len :
  bitset_ok set -> 0 <= from -> 0 < len -> from + len <= bs_size set ->
  exists run, bitset_run_count set from len = Ok run /\ 0 < run /\
    (from + run) mod resolution set = 0 /\
    (forall off, from <= off < from + run -> bit_at set off = bit_at set from) /\
    (run < len -> bit_at set (from + run) = negb (bit_at set from)).
Proof. intros Hok. apply (bitset_run_count_spec set Hok). Qed.

(** A 12 KiB file with 4 KiB chunks, the middle one set. *)
Definition example_map : bitset :=
  {| bs_size := 12288; resolution := 4096; stream := stream_alloc; stream_enabled := false;
     bits := [2] |}.

Lemma example_map_ok : bitset_ok example_map.
Proof.
  constructor; cbn [example_map resolution bs_size bits stream].
  - lia.
  - lia.
  - by_decide.
  - apply Z.leb_le; vm_compute; reflexivity.
  - apply stream_alloc_ok.
Qed.

Lemma bitset_run_count_correct_witness :
  bitset_ok example_map /\
  exists run, bitset_run_count example_map 100 8192 = Ok run /\ 0 < run /\
    (100 + run) mod 4096 = 0 /\
    (forall off, 100 <= off < 100 + run -> bit_at example_map off = bit_at example_map 100) /\
    (run < 8192 -> bit_at example_map (100 + run) = negb (bit_at example_map 100)).
Proof.
  split; [exact example_map_ok |].
  apply (bitset_run_count_correct example_map 100 8192 example_map_ok); cbn; lia.
Defined.

(** The bytes [bitset_alloc] gets for the bit field are the chunk count
    divided by eight and rounded up, so the last word of the field lies inside
    the allocation only when the chunk count modulo 64 is 0 or more than 56. *)
Theorem bitset_alloc_word_aligned size resolution :
  0 < resolution < 2 ^ 31 -> 0 < size < 2 ^ 63 ->
  let chunks := (size + resolution - 1) / resolution in
  bitset_alloc_bytes size resolution = (chunks + 7) / 8 /\
  (8 * ((chunks + 63) / 64) <= bitset_alloc_bytes size resolution <->
   chunks mod 64 = 0 \/ 56 < chunks mod 64).
Proof.
  intros Hr Hs chunks.
  assert (0 <= chunks <= size + resolution - 1).
  { split; [apply Z.div_pos; lia |]. apply Z.div_le_upper_bound; [lia | nia]. }
  assert (E : bitset_alloc_bytes size resolution = (chunks + 7) / 8).
  { unfold bitset_alloc_bytes, BIT_WORDS_FOR_SIZE. change BITFIELD_WORD_SIZE with 8.
    rewrite (u64_id (size + resolution - 1)) by lia. fold chunks.
    change (8 - 1) with 7. rewrite u64_id by lia. apply Z.div_mul. lia. }
  split; [done |]. rewrite E.
  pose proof (Z.div_mod (chunks + 7) 8 ltac:(lia)). pose proof (Z.mod_pos_bound (chunks + 7) 8 ltac:(lia)).
  pose proof (Z.div_mod (chunks + 63) 64 ltac:(lia)). pose proof (Z.mod_pos_bound (chunks + 63) 64 ltac:(lia)).
  pose proof (Z.div_mod chunks 64 ltac:(lia)). pose proof (Z.mod_pos_bound chunks 64 ltac:(lia)). lia.
Qed.

Lemma bitset_alloc_word_aligned_witness :
  bitset_alloc_bytes 4096 4096 = 1 /\
  ~ (8 * ((1 + 63) / 64) <= bitset_alloc_bytes 4096 4096).
Proof.
  destruct (bitset_alloc_word_aligned 4096 4096) as [E H]; [lia | lia |].
  split; [exact E |]. intros Hle. apply (proj1 H) in Hle. vm_compute in Hle.
  destruct Hle as [Hle | Hle]; discriminate.
Defined.

#[global] Arguments bitset_set_range : simpl never.
#[global] Arguments bitset_clear_range : simpl never.
#[global] Arguments bitset_run_count : simpl never.
#[global] Arguments bitset_is_set_at : simpl never.
#[global] Arguments bitset_stream_enqueue : simpl never.
#[global] Arguments bitset_stream_dequeue : simpl never.
