(* ===== verification/NbdTypes.v ===== *)
(** * The NBD wire types

    Models src/src/common/nbdtypes.h and nbdtypes.c. A [_raw] record holds its
    fields as the host sees them in memory (a [__be32] is the integer a
    little-endian load gives), and the class [WireStruct] gives the bytes of the
    struct as they lie in memory and travel on a socket. *)

From S2P Require Import Prelude.

Definition INIT_PASSWD : list Z := [78; 66; 68; 77; 65; 71; 73; 67]. (* NBDMAGIC *)
Definition INIT_MAGIC : Z := 0x0000420281861253.
Definition REQUEST_MAGIC : Z := 0x25609513.
Definition REPLY_MAGIC : Z := 0x67446698.

Definition REQUEST_READ : Z := 0.
Definition REQUEST_WRITE : Z := 1.
Definition REQUEST_DISCONNECT : Z := 2.
Definition REQUEST_FLUSH : Z := 3.

Definition FLAG_HAS_FLAGS : Z := Z.shiftl 1 0.
Definition FLAG_SEND_FLUSH : Z := Z.shiftl 1 2.
Definition FLAG_SEND_FUA : Z := Z.shiftl 1 3.
Definition CMD_FLAG_FUA : Z := Z.shiftl 1 0.

Definition NBD_MAX_SIZE : Z := 32 * 1024 * 1024.
Definition NBD_REQUEST_SIZE : Z := 28.
Definition NBD_REPLY_SIZE : Z := 16.
Definition NBD_INIT_SIZE : Z := 152.

(** [union nbd_handle_t]: the 64-bit view; [handle_b] is the byte view. *)
Definition nbd_handle_t : Type := Z.
Definition handle_b (h : nbd_handle_t) : list Z := le_bytes 8 h.
Definition handle_of_b (l : list Z) : nbd_handle_t := le_value l.

Record nbd_init_raw := {
  ir_passwd : list Z;
  ir_magic : Z;
  ir_size : Z;
  ir_flags : Z;
  ir_reserved : list Z
}.

Record nbd_request_raw := {
  qr_magic : Z;
  qr_flags : Z;
  qr_type : Z;
  qr_handle : nbd_handle_t;
  qr_from : Z;
  qr_len : Z
}.

Record nbd_reply_raw := {
  pr_magic : Z;
  pr_error : Z;
  pr_handle : nbd_handle_t
}.

Record nbd_init := {
  i_passwd : list Z;
  i_magic : Z;
  i_size : Z;
  i_flags : Z;
  i_reserved : list Z
}.

Record nbd_request := {
  q_magic : Z;
  q_flags : Z;
  q_type : Z;
  q_handle : nbd_handle_t;
  q_from : Z;
  q_len : Z
}.

Record nbd_reply := {
  p_magic : Z;
  p_error : Z;
  p_handle : nbd_handle_t
}.

(** The conversions of nbdtypes.c. Those of the init struct leave the
    [reserved] bytes of their destination alone, so they take it. *)
Definition nbd_r2h_init (from : nbd_init_raw) (to : nbd_init) : nbd_init :=
  {| i_passwd := ir_passwd from;
     i_magic := be64toh (ir_magic from);
     i_size := be64toh (ir_size from);
     i_flags := be32toh (ir_flags from);
     i_reserved := i_reserved to |}.

Definition nbd_h2r_init (from : nbd_init) (to : nbd_init_raw) : nbd_init_raw :=
  {| ir_passwd := i_passwd from;
     ir_magic := htobe64 (i_magic from);
     ir_size := htobe64 (i_size from);
     ir_flags := htobe32 (i_flags from);
     ir_reserved := ir_reserved to |}.

Definition nbd_r2h_request (from : nbd_request_raw) : nbd_request :=
  {| q_magic := be32toh (qr_magic from);
     q_flags := be16toh (qr_flags from);
     q_type := be16toh (qr_type from);
     q_handle := qr_handle from;
     q_from := be64toh (qr_from from);
     q_len := be32toh (qr_len from) |}.

Definition nbd_h2r_request (from : nbd_request) : nbd_request_raw :=
  {| qr_magic := htobe32 (q_magic from);
     qr_flags := htobe16 (q_flags from);
     qr_type := htobe16 (q_type from);
     qr_handle := q_handle from;
     qr_from := htobe64 (q_from from);
     qr_len := htobe32 (q_len from) |}.

Definition nbd_r2h_reply (from : nbd_reply_raw) : nbd_reply :=
  {| p_magic := be32toh (pr_magic from);
     p_error := be32toh (pr_error from);
     p_handle := pr_handle from |}.

Definition nbd_h2r_reply (from : nbd_reply) : nbd_reply_raw :=
  {| pr_magic := htobe32 (p_magic from);
     pr_error := htobe32 (p_error from);
     pr_handle := p_handle from |}.

(** ** Structs in memory *)

Definition sub_bytes (l : list Z) (off n : nat) : list Z := take n (drop off l).
#[global] Arguments sub_bytes : simpl never.

(** What the code relies on when it sends [&s, sizeof(s)] or reads into it. *)
Class WireStruct (A : Type) := {
  wire_size : nat;
  to_wire : A -> list Z;
  of_wire : list Z -> A;
  wire_wf : A -> Prop;
  to_wire_length : forall a, wire_wf a -> length (to_wire a) = wire_size;
  to_wire_bytes : forall a, wire_wf a -> bytes (to_wire a);
  of_to_wire : forall a, wire_wf a -> of_wire (to_wire a) = a;
  to_of_wire : forall l, bytes l -> length l = wire_size -> to_wire (of_wire l) = l;
  of_wire_wf : forall l, bytes l -> length l = wire_size -> wire_wf (of_wire l)
}.

Definition request_raw_wf (r : nbd_request_raw) : Prop :=
  0 <= qr_magic r < 2 ^ 32 /\ 0 <= qr_flags r < 2 ^ 16 /\ 0 <= qr_type r < 2 ^ 16 /\
  0 <= qr_handle r < 2 ^ 64 /\ 0 <= qr_from r < 2 ^ 64 /\ 0 <= qr_len r < 2 ^ 32.

Definition request_to_wire (r : nbd_request_raw) : list Z :=
  le_bytes 4 (qr_magic r) ++ le_bytes 2 (qr_flags r) ++ le_bytes 2 (qr_type r) ++
  le_bytes 8 (qr_handle r) ++ le_bytes 8 (qr_from r) ++ le_bytes 4 (qr_len r).

Definition request_of_wire (l : list Z) : nbd_request_raw :=
  {| qr_magic := le_value (sub_bytes l 0 4);
     qr_flags := le_value (sub_bytes l 4 2);
     qr_type := le_value (sub_bytes l 6 2);
     qr_handle := le_value (sub_bytes l 8 8);
     qr_from := le_value (sub_bytes l 16 8);
     qr_len := le_value (sub_bytes l 24 4) |}.

Definition reply_raw_wf (r : nbd_reply_raw) : Prop :=
  0 <= pr_magic r < 2 ^ 32 /\ 0 <= pr_error r < 2 ^ 32 /\ 0 <= pr_handle r < 2 ^ 64.

Definition reply_to_wire (r : nbd_reply_raw) : list Z :=
  le_bytes 4 (pr_magic r) ++ le_bytes 4 (pr_error r) ++ le_bytes 8 (pr_handle r).

Definition reply_of_wire (l : list Z) : nbd_reply_raw :=
  {| pr_magic := le_value (sub_bytes l 0 4);
     pr_error := le_value (sub_bytes l 4 4);
     pr_handle := le_value (sub_bytes l 8 8) |}.

Definition init_raw_wf (r : nbd_init_raw) : Prop :=
  (bytes (ir_passwd r) /\ length (ir_passwd r) = 8%nat) /\
  0 <= ir_magic r < 2 ^ 64 /\ 0 <= ir_size r < 2 ^ 64 /\ 0 <= ir_flags r < 2 ^ 32 /\
  bytes (ir_reserved r) /\ length (ir_reserved r) = 124%nat.

Definition init_to_wire (r : nbd_init_raw) : list Z :=
  ir_passwd r ++ le_bytes 8 (ir_magic r) ++ le_bytes 8 (ir_size r) ++
  le_bytes 4 (ir_flags r) ++ ir_reserved r.

Definition init_of_wire (l : list Z) : nbd_init_raw :=
  {| ir_passwd := sub_bytes l 0 8;
     ir_magic := le_value (sub_bytes l 8 8);
     ir_size := le_value (sub_bytes l 16 8);
     ir_flags := le_value (sub_bytes l 24 4);
     ir_reserved := sub_bytes l 28 124 |}.

(** ** Lemmas *)

Lemma bytes_app l k : bytes (l ++ k) <-> bytes l /\ bytes k.
Proof. apply Forall_app. Qed.

Lemma bytes_sub l off n : bytes l -> bytes (sub_bytes l off n).
Proof. intros H. unfold sub_bytes. by apply Forall_take, Forall_drop. Qed.

Lemma length_sub l off n : (off + n <= length l)%nat -> length (sub_bytes l off n) = n.
Proof. intros H. unfold sub_bytes. rewrite length_take, length_drop. lia. Qed.

(** A field at the front, or behind a field of known length. *)
Lemma sub_app_here l k n : length l = n -> sub_bytes (l ++ k) 0 n = l.
Proof. intros <-. unfold sub_bytes. rewrite drop_0. apply take_app_length. Qed.

Lemma sub_app_later l k off n :
  (length l <= off)%nat -> sub_bytes (l ++ k) off n = sub_bytes k (off - length l) n.
Proof. intros H. unfold sub_bytes. rewrite drop_app_ge by done. done. Qed.

Lemma sub_all l n : length l = n -> sub_bytes l 0 n = l.
Proof. intros <-. unfold sub_bytes. rewrite drop_0. by apply take_ge. Qed.

(** Consecutive fields add up to the whole. *)
Lemma sub_join l off n off' m :
  off' = (off + n)%nat -> sub_bytes l off n ++ sub_bytes l off' m = sub_bytes l off (n + m).
Proof. intros ->. unfold sub_bytes. rewrite <- drop_drop. by rewrite take_take_drop. Qed.

Lemma le_value_le_bytes n z : 0 <= z < 256 ^ Z.of_nat n -> le_value (le_bytes n z) = z.
Proof. intros H. rewrite le_value_bytes. by apply Z.mod_small. Qed.

Lemma le_bytes_sub l off n :
  bytes l -> (off + n <= length l)%nat ->
  le_bytes n (le_value (sub_bytes l off n)) = sub_bytes l off n.
Proof.
  intros Hb Hn. rewrite <- (length_sub l off n Hn) at 1. by apply le_bytes_value, bytes_sub.
Qed.

Lemma le_value_sub_range l off n :
  bytes l -> (off + n <= length l)%nat ->
  0 <= le_value (sub_bytes l off n) < 256 ^ Z.of_nat n.
Proof.
  intros Hb Hn. pose proof (le_value_range _ (bytes_sub l off n Hb)) as H.
  unfold zlen in H. by rewrite length_sub in H.
Qed.

(** Peel the fields of a struct image. *)
Ltac fields :=
  repeat first
    [ rewrite sub_app_here by (rewrite ?length_le_bytes; done)
    | rewrite sub_all by (rewrite ?length_le_bytes; done)
    | rewrite sub_app_later by (rewrite ?length_le_bytes; lia);
      rewrite ?length_le_bytes; cbn [Nat.sub] ].

(** Glue the fields of an image back together. *)
Ltac join_fields := repeat (rewrite sub_join by done; cbn [Nat.add]); by apply sub_all.

#[export, refine] Instance request_wire : WireStruct nbd_request_raw := {
  wire_size := 28; to_wire := request_to_wire; of_wire := request_of_wire;
  wire_wf := request_raw_wf }.
Proof.
  - intros r _. unfold request_to_wire. by rewrite !length_app, !length_le_bytes.
  - intros r _. unfold request_to_wire. rewrite !bytes_app. split_and!; apply bytes_le_bytes.
  - intros [m f t h fr l] (? & ? & ? & ? & ? & ?). unfold request_to_wire, request_of_wire. cbn in *.
    fields. rewrite !le_value_le_bytes; done.
  - intros l Hb Hl. unfold request_to_wire, request_of_wire. cbn.
    rewrite !le_bytes_sub by (done || lia).
    join_fields.
  - intros l Hb Hl. split_and!; apply le_value_sub_range; done || lia.
Defined.

#[export, refine] Instance reply_wire : WireStruct nbd_reply_raw := {
  wire_size := 16; to_wire := reply_to_wire; of_wire := reply_of_wire;
  wire_wf := reply_raw_wf }.
Proof.
  - intros r _. unfold reply_to_wire. by rewrite !length_app, !length_le_bytes.
  - intros r _. unfold reply_to_wire. rewrite !bytes_app. split_and!; apply bytes_le_bytes.
  - intros [m e h] (? & ? & ?). unfold reply_to_wire, reply_of_wire. cbn in *.
    fields. rewrite !le_value_le_bytes; done.
  - intros l Hb Hl. unfold reply_to_wire, reply_of_wire. cbn.
    rewrite !le_bytes_sub by (done || lia). join_fields.
  - intros l Hb Hl. split_and!; apply le_value_sub_range; done || lia.
Defined.

#[export, refine] Instance init_wire : WireStruct nbd_init_raw := {
  wire_size := 152; to_wire := init_to_wire; of_wire := init_of_wire;
  wire_wf := init_raw_wf }.
Proof.
  - intros r ([_ Hp] & _ & _ & _ & _ & Hr). unfold init_to_wire.
    by rewrite !length_app, !length_le_bytes, Hp, Hr.
  - intros r ([Hp _] & _ & _ & _ & Hr & _). unfold init_to_wire.
    rewrite !bytes_app. split_and!; done || apply bytes_le_bytes.
  - intros [p m s f r] ([? Hp] & ? & ? & ? & ? & Hr). unfold init_to_wire, init_of_wire. cbn in *.
    rewrite sub_app_here by done. rewrite !(sub_app_later p) by lia. rewrite Hp. cbn [Nat.sub].
    fields. rewrite !le_value_le_bytes; done.
  - intros l Hb Hl. unfold init_to_wire, init_of_wire. cbn.
    rewrite !le_bytes_sub by (done || lia). join_fields.
  - intros l Hb Hl. split_and!; try (apply le_value_sub_range; done || lia);
      try (apply bytes_sub; done); cbn; rewrite length_sub; done || lia.
Defined.

Definition request_wf (r : nbd_request) : Prop :=
  0 <= q_magic r < 2 ^ 32 /\ 0 <= q_flags r < 2 ^ 16 /\ 0 <= q_type r < 2 ^ 16 /\
  0 <= q_handle r < 2 ^ 64 /\ 0 <= q_from r < 2 ^ 64 /\ 0 <= q_len r < 2 ^ 32.

Definition reply_wf (r : nbd_reply) : Prop :=
  0 <= p_magic r < 2 ^ 32 /\ 0 <= p_error r < 2 ^ 32 /\ 0 <= p_handle r < 2 ^ 64.

Definition init_wf (r : nbd_init) : Prop :=
  (bytes (i_passwd r) /\ length (i_passwd r) = 8%nat) /\
  0 <= i_magic r < 2 ^ 64 /\ 0 <= i_size r < 2 ^ 64 /\ 0 <= i_flags r < 2 ^ 32.

Lemma bswap_back n z : 0 <= z < 2 ^ (8 * Z.of_nat n) -> bswap n (bswap n z) = z.
Proof. intros H. apply bswap_involutive. by rewrite Z.pow_mul_r in H by lia. Qed.

Lemma bswap_bits n z : 0 <= bswap n z < 2 ^ (8 * Z.of_nat n).
Proof. rewrite Z.pow_mul_r by lia. apply bswap_range. Qed.

Lemma h2r_request_wf r : 0 <= q_handle r < 2 ^ 64 -> request_raw_wf (nbd_h2r_request r).
Proof. intros H. split_and!; try apply bswap_bits; apply H. Qed.

Lemma h2r_reply_wf r : 0 <= p_handle r < 2 ^ 64 -> reply_raw_wf (nbd_h2r_reply r).
Proof. intros H. split_and!; try apply bswap_bits; apply H. Qed.

Lemma r2h_h2r_request r : request_wf r -> nbd_r2h_request (nbd_h2r_request r) = r.
Proof.
  destruct r. intros (? & ? & ? & ? & ? & ?). unfold nbd_r2h_request, nbd_h2r_request.
  cbn in *. f_equal; by apply bswap_back.
Qed.

Lemma r2h_h2r_reply r : reply_wf r -> nbd_r2h_reply (nbd_h2r_reply r) = r.
Proof.
  destruct r. intros (? & ? & ?). unfold nbd_r2h_reply, nbd_h2r_reply.
  cbn in *. f_equal; by apply bswap_back.
Qed.

Lemma h2r_r2h_request r : request_raw_wf r -> nbd_h2r_request (nbd_r2h_request r) = r.
Proof.
  destruct r. intros (? & ? & ? & ? & ? & ?). unfold nbd_r2h_request, nbd_h2r_request.
  cbn in *. f_equal; by apply bswap_back.
Qed.

(** The image of a host reply on the wire. *)
Lemma reply_image r :
  to_wire (nbd_h2r_reply r) =
    be_bytes 4 (p_magic r) ++ be_bytes 4 (p_error r) ++ handle_b (p_handle r).
Proof. cbn. unfold reply_to_wire. cbn. unfold htobe32. by rewrite !le_bytes_bswap. Qed.

Lemma request_image r :
  to_wire (nbd_h2r_request r) =
    be_bytes 4 (q_magic r) ++ be_bytes 2 (q_flags r) ++ be_bytes 2 (q_type r) ++
    handle_b (q_handle r) ++ be_bytes 8 (q_from r) ++ be_bytes 4 (q_len r).
Proof.
  cbn. unfold request_to_wire. cbn. unfold htobe32, htobe16, htobe64. by rewrite !le_bytes_bswap.
Qed.

#[export] Instance bytes_dec l : Decision (bytes l).
Proof. unfold bytes, is_byte. apply _. Defined.
#[export] Instance request_wf_dec r : Decision (request_wf r).
Proof. unfold request_wf. apply _. Defined.
#[export] Instance reply_wf_dec r : Decision (reply_wf r).
Proof. unfold reply_wf. apply _. Defined.
#[export] Instance init_wf_dec r : Decision (init_wf r).
Proof. unfold init_wf. apply _. Defined.


(** * Properties *)

(** C35: a request sent with [nbd_h2r_request] is the 28 big-endian bytes of the
    NBD protocol, reading them back into a raw struct and through
    [nbd_r2h_request] gives the request, and any 28 bytes received decode to a
    request that encodes to the same bytes. *)
Theorem request_roundtrip r l :
  request_wf r -> bytes l -> length l = 28%nat ->
  to_wire (nbd_h2r_request r) =
    be_bytes 4 (q_magic r) ++ be_bytes 2 (q_flags r) ++ be_bytes 2 (q_type r) ++
    handle_b (q_handle r) ++ be_bytes 8 (q_from r) ++ be_bytes 4 (q_len r) /\
  nbd_r2h_request (of_wire (to_wire (nbd_h2r_request r))) = r /\
  to_wire (nbd_h2r_request (nbd_r2h_request (of_wire l))) = l.
Proof.
  intros Hr Hb Hl. split; [apply request_image |].
  rewrite of_to_wire by apply h2r_request_wf, Hr.
  split; [by apply r2h_h2r_request |].
  rewrite h2r_r2h_request by exact (of_wire_wf (A := nbd_request_raw) l Hb Hl).
  by apply to_of_wire.
Qed.

(** A write of 512 bytes at 4096. *)
Definition sample_request : nbd_request :=
  {| q_magic := REQUEST_MAGIC; q_flags := 0; q_type := REQUEST_WRITE;
     q_handle := 0x1122334455667788; q_from := 4096; q_len := 512 |}.

Lemma request_roundtrip_witness :
  request_wf sample_request /\
  nbd_r2h_request (of_wire (to_wire (nbd_h2r_request sample_request))) = sample_request /\
  to_wire (nbd_h2r_request (nbd_r2h_request (of_wire (replicate 28 37)))) = replicate 28 37.
Proof.
  assert (H : request_wf sample_request) by by_decide. split; [exact H |].
  apply (request_roundtrip sample_request (replicate 28 37) H).
  - by_decide.
  - reflexivity.
Defined.

(** The reply and the hello survive the trip over the wire: a reply decodes
    to what was encoded and starts with the big-endian magic and error, and
    the hello's password, magic, size and flags come back whatever the
    reserved bytes on either side are. *)
Theorem reply_init_roundtrip p i raw host :
  reply_wf p -> init_wf i -> bytes (ir_reserved raw) -> length (ir_reserved raw) = 124%nat ->
  to_wire (nbd_h2r_reply p) =
    be_bytes 4 (p_magic p) ++ be_bytes 4 (p_error p) ++ handle_b (p_handle p) /\
  nbd_r2h_reply (of_wire (to_wire (nbd_h2r_reply p))) = p /\
  nbd_r2h_init (of_wire (to_wire (nbd_h2r_init i raw))) host =
    {| i_passwd := i_passwd i; i_magic := i_magic i; i_size := i_size i; i_flags := i_flags i;
       i_reserved := i_reserved host |}.
Proof.
  intros Hp Hi Hb Hl. split; [apply reply_image |].
  rewrite of_to_wire by apply h2r_reply_wf, Hp. split; [by apply r2h_h2r_reply |].
  destruct Hi as (Hpw & Hm & Hs & Hf).
  rewrite of_to_wire by (split_and!; try apply bswap_bits; apply Hpw || done).
  unfold nbd_r2h_init, nbd_h2r_init. cbn. f_equal; by apply bswap_back.
Qed.

Definition zero_init_raw : nbd_init_raw :=
  {| ir_passwd := replicate 8 0; ir_magic := 0; ir_size := 0; ir_flags := 0;
     ir_reserved := replicate 124 0 |}.

Definition zero_init : nbd_init :=
  {| i_passwd := replicate 8 0; i_magic := 0; i_size := 0; i_flags := 0;
     i_reserved := replicate 124 0 |}.

Lemma reply_init_roundtrip_witness :
  let p := {| p_magic := REPLY_MAGIC; p_error := 28; p_handle := 7 |} in
  let i := {| i_passwd := INIT_PASSWD; i_magic := INIT_MAGIC; i_size := 8192; i_flags := 13;
              i_reserved := replicate 124 0 |} in
  reply_wf p /\ init_wf i /\
  nbd_r2h_reply (of_wire (to_wire (nbd_h2r_reply p))) = p /\
  nbd_r2h_init (of_wire (to_wire (nbd_h2r_init i zero_init_raw))) zero_init = i.
Proof.
  intros p i. assert (Hp : reply_wf p) by by_decide. assert (Hi : init_wf i) by by_decide.
  split; [exact Hp |]. split; [exact Hi |].
  apply (reply_init_roundtrip p i zero_init_raw zero_init Hp Hi).
  - by_decide.
  - reflexivity.
Defined.
