(* ===== verification/IoUtil.v ===== *)
(** * I/O helpers

    Models src/src/common/ioutil.c and ioutil.h. What the kernel will answer to
    the successive [read()]s of a descriptor is a list of [rd_event]s: bytes that
    have arrived (a [read] takes as many as it asked for and leaves the rest),
    end of file (which stays), or an error. The answers to [write()],
    [sendfile()] and the FIEMAP ioctl are lists or functions of the same kind.
    [errno] is threaded, since several callers test it after a failure. *)

From S2P Require Import Prelude Bitset.

(** ** errno *)

Definition ESRCH : Z := 3.
Definition EINTR : Z := 4.
Definition EFAULT : Z := 14.
Definition EBADF : Z := 9.
Definition EAGAIN : Z := 11.
Definition EWOULDBLOCK : Z := EAGAIN.
Definition EBUSY : Z := 16.
Definition EINVAL : Z := 22.
Definition ENOSPC : Z := 28.
Definition EPIPE : Z := 32.
Definition ERANGE : Z := 34.
Definition EBADMSG : Z := 74.
Definition EADDRINUSE : Z := 98.
Definition EADDRNOTAVAIL : Z := 99.
Definition ECONNRESET : Z := 104.
Definition ETIMEDOUT : Z := 110.
Definition EINPROGRESS : Z := 115.

(** Errors [readloop] and [writeloop] retry on. *)
Definition io_transient (e : Z) : bool :=
  (e =? EINTR) || (e =? EAGAIN) || (e =? EWOULDBLOCK).

Definition io_errno_permanent (errno : Z) : bool :=
  negb (errno =? EAGAIN) && negb (errno =? EWOULDBLOCK) && negb (errno =? EINTR).

(** ** read() and write() *)

Inductive rd_event :=
| RdBytes (bs : list Z)
| RdEof
| RdErr (e : Z).

#[export] Instance rd_event_eq_dec : EqDecision rd_event.
Proof. solve_decision. Defined.

(** One [read(fd, p, n)] answered by [ev]: the result, the bytes, what stays
    readable, and errno. *)
Definition deliver (ev : rd_event) (errno n : Z) : Z * list Z * list rd_event * Z :=
  match ev with
  | RdBytes bs =>
      if zlen bs <=? n then (zlen bs, bs, [], errno)
      else (n, take (Z.to_nat n) bs, [RdBytes (drop (Z.to_nat n) bs)], errno)
  | RdEof => (0, [], [RdEof], errno)
  | RdErr e => (-1, [], [], e)
  end.

(** [IoDone] is the return value 0, [IoFail] is -1, [IoBlock] a read that waits
    for a peer that sends nothing more. *)
Inductive io_result := IoDone | IoFail | IoBlock.

Record rd_out := {
  ro_res : io_result;
  ro_bytes : list Z;           (* what was stored from the start of the buffer on *)
  ro_rx : list rd_event;
  ro_errno : Z
}.

Definition rd_prepend (bs : list Z) (o : rd_out) : rd_out :=
  {| ro_res := ro_res o; ro_bytes := bs ++ ro_bytes o; ro_rx := ro_rx o; ro_errno := ro_errno o |}.

(** [size] is what is still wanted, [size - readden] in the source. *)
Fixpoint readloop (rx : list rd_event) (errno size : Z) : rd_out :=
  if size <=? 0 then {| ro_res := IoDone; ro_bytes := []; ro_rx := rx; ro_errno := errno |}
  else
    match rx with
    | [] => {| ro_res := IoBlock; ro_bytes := []; ro_rx := []; ro_errno := errno |}
    | ev :: rx' =>
        let '(result, bs, rest, errno') := deliver ev errno size in
        if result =? 0 then
          {| ro_res := IoFail; ro_bytes := []; ro_rx := rest ++ rx'; ro_errno := errno' |}
        else if result =? -1 then
          if io_transient errno' then readloop rx' errno' size
          else {| ro_res := IoFail; ro_bytes := []; ro_rx := rest ++ rx'; ro_errno := errno' |}
        else if size <=? result then
          {| ro_res := IoDone; ro_bytes := bs; ro_rx := rest ++ rx'; ro_errno := errno' |}
        else rd_prepend bs (readloop rx' errno' (size - result))
    end.

Inductive wr_event :=
| WrAccept (n : Z)    (* takes at most [n] bytes *)
| WrErr (e : Z).

Record wr_out := {
  wo_res : io_result;
  wo_bytes : list Z;           (* what the peer gets *)
  wo_wq : list wr_event;
  wo_errno : Z
}.

Definition wr_prepend (bs : list Z) (o : wr_out) : wr_out :=
  {| wo_res := wo_res o; wo_bytes := bs ++ wo_bytes o; wo_wq := wo_wq o; wo_errno := wo_errno o |}.

(** [buffer] is what is still to be written. Past the list of answers the
    descriptor takes everything. *)
Fixpoint writeloop (wq : list wr_event) (errno : Z) (buffer : list Z) : wr_out :=
  if zlen buffer =? 0 then {| wo_res := IoDone; wo_bytes := []; wo_wq := wq; wo_errno := errno |}
  else
    match wq with
    | [] => {| wo_res := IoDone; wo_bytes := buffer; wo_wq := []; wo_errno := errno |}
    | WrErr e :: wq' =>
        if io_transient e then writeloop wq' e buffer
        else {| wo_res := IoFail; wo_bytes := []; wo_wq := wq'; wo_errno := e |}
    | WrAccept n :: wq' =>
        let result := Z.to_nat (Z.min (Z.max 0 n) (zlen buffer)) in
        wr_prepend (take result buffer) (writeloop wq' errno (drop result buffer))
    end.

(** ** sendfile, splice *)

Inductive sf_event :=
| SfAccept (n : Z)
| SfErr (e : Z).

Record sf_out := {
  so_result : res io_result;
  so_bytes : list Z;
  so_offset : Z
}.

(** [sendfile64(out_fd, in_fd, &offset, count - sent)]: it sends at most what is
    left of the file behind [offset], advances [offset], and returns 0 at the
    end of the file, on which the loop keeps calling it. *)
Fixpoint sendfileloop (script : list sf_event) (file : list Z) (offset count : Z) : sf_out :=
  if count <=? 0 then {| so_result := Ok IoDone; so_bytes := []; so_offset := offset |}
  else
    let avail := Z.max 0 (Z.min count (zlen file - offset)) in
    let send n := take (Z.to_nat n) (drop (Z.to_nat offset) file) in
    match script with
    | [] =>
        if avail =? count
        then {| so_result := Ok IoDone; so_bytes := send count; so_offset := offset + count |}
        else {| so_result := Stop SHang; so_bytes := send avail; so_offset := offset + avail |}
    | SfErr e :: _ => {| so_result := Ok IoFail; so_bytes := []; so_offset := offset |}
    | SfAccept k :: script' =>
        let result := Z.min (Z.max 0 k) avail in
        let o := sendfileloop script' file (offset + result) (count - result) in
        {| so_result := so_result o; so_bytes := send result ++ so_bytes o; so_offset := so_offset o |}
    end.

(** [spliceloop] into an unbounded sink. Every call asks for [len] bytes, not for
    what is missing. The result is the return value ([-1] on an error). *)
Fixpoint spliceloop (rx : list rd_event) (len : Z) (nonblock : bool) (spliced : Z)
    : res (Z * list Z * list rd_event) :=
  if len <=? spliced then Ok (spliced, [], rx)
  else
    match rx with
    | [] => if nonblock then Ok (spliced, [], []) else Stop SBlock
    | ev :: rx' =>
        let '(result, bs, rest, errno') := deliver ev 0 len in
        if result <? 0 then
          if (errno' =? EAGAIN) && nonblock then Ok (spliced, [], rest ++ rx') else Ok (-1, [], rest ++ rx')
        else if result =? 0 then Stop SHang
        else if len <=? spliced + result then Ok (spliced + result, bs, rest ++ rx')
        else
          '(r, bs', rx'') ← spliceloop rx' len nonblock (spliced + result);
          Ok (r, bs ++ bs', rx'')
    end.

(** [splice_via_pipe_loop]: the pipe takes what the first [spliceloop] gives, the
    second one drains it to the sink. [fuel] bounds the rounds. *)
Fixpoint splice_via_pipe_loop (fuel : nat) (rx : list rd_event) (len spliced : Z)
    : res (Z * list Z * list rd_event) :=
  match fuel with
  | O => Stop SHang
  | S fuel' =>
      if len <=? spliced then Ok (0, [], rx)
      else
        '(s1, bs, rx') ← spliceloop rx (len - spliced) true 0;
        if s1 <? 0 then Ok (-1, bs, rx')
        else
          '(s2, bs2, _) ← spliceloop (if zlen bs =? 0 then [] else [RdBytes bs]) s1 false 0;
          if s2 <? 0 then Ok (-1, bs2, rx')
          else
            '(r, out, rx'') ← splice_via_pipe_loop fuel' rx' len (spliced + s2);
            Ok (r, bs2 ++ out, rx'')
  end.

(** ** Lines *)

Definition LF : Z := 10.

(** One byte at a time, no retry: the return value, the line, what stays. *)
Fixpoint read_until_newline (bufsize : nat) (rx : list rd_event) (cur : Z)
    : res (Z * list Z * list rd_event) :=
  match bufsize with
  | O => Ok (cur + 1, [], rx)
  | S n =>
      match rx with
      | [] => Stop SBlock
      | ev :: rx' =>
          let '(result, bs, rest, _) := deliver ev 0 1 in
          if result <=? 0 then Ok (-1, [], rest ++ rx')
          else
            match bs with
            | b :: _ =>
                if b =? LF then Ok (cur + 1, [], rest ++ rx')
                else
                  '(r, line, rx'') ← read_until_newline n (rest ++ rx') (cur + 1);
                  Ok (r, b :: line, rx'')
            | [] => Ok (-1, [], rest ++ rx')
            end
      end
  end.

(** A C string: up to the first NUL. *)
Fixpoint c_str (l : list Z) : list Z :=
  match l with
  | [] => []
  | b :: l' => if b =? 0 then [] else b :: c_str l'
  end.

(** The [while (1)] loop; [fuel] bounds the lines. *)
Fixpoint read_lines_until_blankline (fuel : nat) (max_line_length : nat) (rx : list rd_event)
    : res (list (list Z) * list rd_event) :=
  match fuel with
  | O => Stop SHang
  | S fuel' =>
      '(readden, line, rx') ← read_until_newline max_line_length rx 0;
      if readden <=? 1 then Ok ([], rx')
      else
        match c_str line with
        | [] => Ok ([], rx')
        | s =>
            '(lines, rx'') ← read_lines_until_blankline fuel' max_line_length rx';
            Ok (s :: lines, rx'')
        end
  end.

(** ** Buffers of the proxy *)

Record iobuf := {
  buf : list Z;
  ib_size : Z;
  needle : Z
}.

(** A [read] on a non-blocking descriptor. *)
Definition read_nonblock (rx : list rd_event) (errno n : Z) : Z * list Z * list rd_event * Z :=
  match rx with
  | [] => if n =? 0 then (0, [], [], errno) else (-1, [], [], EAGAIN)
  | ev :: rx' =>
      let '(result, bs, rest, errno') := deliver ev errno n in (result, bs, rest ++ rx', errno')
  end.

Definition write_nonblock (wq : list wr_event) (errno : Z) (data : list Z)
    : Z * list Z * list wr_event * Z :=
  match wq with
  | [] => (zlen data, data, [], errno)
  | WrErr e :: wq' => (-1, [], wq', e)
  | WrAccept n :: wq' =>
      let k := Z.min (Z.max 0 n) (zlen data) in (k, take (Z.to_nat k) data, wq', errno)
  end.

Definition iobuf_read (rx : list rd_event) (errno : Z) (b : iobuf) (default_size : Z)
    : res (Z * iobuf * list rd_event * Z) :=
  let size := if needle b =? 0 then default_size else ib_size b in
  let left := size -64 needle b in
  let '(count, bs, rx', errno') := read_nonblock rx errno left in
  buf' ← mem_store (buf b) (needle b) bs;
  if 0 <? count then
    Ok (count, {| buf := buf'; ib_size := size; needle := needle b +64 count |}, rx', errno')
  else
    let b' := {| buf := buf'; ib_size := size; needle := needle b |} in
    if count =? 0 then Ok (-1, b', rx', 0)
    else if io_errno_permanent errno' then Ok (count, b', rx', errno')
    else Ok (0, b', rx', errno').

Definition iobuf_write (wq : list wr_event) (errno : Z) (b : iobuf)
    : res (Z * list Z * iobuf * list wr_event * Z) :=
  let left := ib_size b -64 needle b in
  data ← mem_load (buf b) (needle b) left;
  let '(count, bs, wq', errno') := write_nonblock wq errno data in
  if 0 <=? count then
    Ok (count, bs, {| buf := buf b; ib_size := ib_size b; needle := needle b +64 count |}, wq', errno')
  else if io_errno_permanent errno' then Ok (count, bs, b, wq', errno')
  else Ok (0, bs, b, wq', errno').

(** ** Files *)

(** Sizes are rounded down to 512-byte sectors. *)
Definition sector_round (size : Z) : Z := Z.land size (Z.lnot 0x1ff).

(** [open_and_mmap]: the answers of [open], [lseek64] and [mmap64] ([out_map]: a
    pointer was passed for the mapping); the result is the return value and what
    goes to [*out_size]. *)
Definition open_and_mmap (open_fd lseek_size : Z) (out_map : bool) (mmap_result : Z)
    : Z * option Z :=
  if open_fd <? 1 then (open_fd, None)
  else if lseek_size <? 0 then (lseek_size, None)
  else
    let size := if lseek_size =? sector_round lseek_size then lseek_size
                else sector_round lseek_size in
    if out_map && (mmap_result =? -1) then (-1, Some size) else (0, Some size).

(** An extent: [fe_logical], [fe_length]. *)
Definition fiemap_extent : Type := Z * Z.

Fixpoint set_extents (map : bitset) (extents : list fiemap_extent) : res bitset :=
  match extents with
  | [] => Ok map
  | (fe_logical, fe_length) :: rest =>
      map' ← bitset_set_range map fe_logical fe_length; set_extents map' rest
  end.

Definition fiemap_max_length : Z := 100 * 1024 * 1024.

(** [build_allocation_map]: [ioctl start length] are the mapped extents, [None]
    for a failed ioctl; [fuel] bounds the calls. *)
Fixpoint build_allocation_map (ioctl : Z -> Z -> option (list fiemap_extent))
    (fuel : nat) (allocation_map : bitset) (offset : Z) : res (bool * bitset) :=
  match fuel with
  | O => Stop SHang
  | S fuel' =>
      if offset <? bs_size allocation_map then
        let fm_length := if bs_size allocation_map <? offset +64 fiemap_max_length
                         then bs_size allocation_map - offset else fiemap_max_length in
        match ioctl offset fm_length with
        | None => Ok (false, allocation_map)
        | Some extents =>
            map' ← set_extents allocation_map extents;
            let offset' := match head (reverse extents) with
                           | Some (l, n) => l +64 n
                           | None => offset +64 fm_length
                           end in
            build_allocation_map ioctl fuel' map' offset'
        end
      else Ok (true, allocation_map)
  end.

(** * Lemmas *)

(** ** readloop *)

(** What the descriptor has to give before it ends or fails for good. *)
Fixpoint incoming (rx : list rd_event) : list Z :=
  match rx with
  | [] => []
  | RdBytes bs :: rx' => if zlen bs =? 0 then [] else bs ++ incoming rx'
  | RdEof :: _ => []
  | RdErr e :: rx' => if io_transient e then incoming rx' else []
  end.

Lemma readloop_zero rx e n :
  n <= 0 -> readloop rx e n = {| ro_res := IoDone; ro_bytes := []; ro_rx := rx; ro_errno := e |}.
Proof. intros H. destruct rx; simpl; by replace (n <=? 0) with true by lia. Qed.

Lemma rd_prepend_app a b o : rd_prepend a (rd_prepend b o) = rd_prepend (a ++ b) o.
Proof. unfold rd_prepend. simpl. by rewrite app_assoc. Qed.

Lemma rd_prepend_nil o : rd_prepend [] o = o.
Proof. by destruct o. Qed.

(** One call on bytes that have arrived. *)
Lemma readloop_bytes bs rx e n :
  0 < n -> 0 < zlen bs ->
  readloop (RdBytes bs :: rx) e n =
    if zlen bs <=? n then rd_prepend bs (readloop rx e (n - zlen bs))
    else {| ro_res := IoDone; ro_bytes := take (Z.to_nat n) bs;
            ro_rx := RdBytes (drop (Z.to_nat n) bs) :: rx; ro_errno := e |}.
Proof.
  intros Hn Hb. cbn [readloop deliver]. replace (n <=? 0) with false by lia.
  destruct (zlen bs <=? n) eqn:E.
  - replace (zlen bs =? 0) with false by lia. replace (zlen bs =? -1) with false by lia.
    destruct (n <=? zlen bs) eqn:E2; [| done].
    rewrite readloop_zero by lia. unfold rd_prepend. simpl. by rewrite app_nil_r.
  - replace (n =? 0) with false by lia. replace (n =? -1) with false by lia.
    replace (n <=? n) with true by lia. done.
Qed.

(** Reading [n + m] bytes is reading [n] and then [m]. *)
Lemma readloop_split rx e n m :
  0 <= n -> 0 <= m ->
  readloop rx e (n + m) =
    let o := readloop rx e n in
    match ro_res o with
    | IoDone => rd_prepend (ro_bytes o) (readloop (ro_rx o) (ro_errno o) m)
    | _ => o
    end.
Proof.
  revert e n. induction rx as [| ev rx IH]; intros e n Hn Hm.
  { destruct (decide (n = 0)) as [-> | Hne].
    - rewrite (readloop_zero _ _ 0) by lia. simpl. by rewrite rd_prepend_nil.
    - simpl. replace (n <=? 0) with false by lia. by replace (n + m <=? 0) with false by lia. }
  destruct (decide (n = 0)) as [-> | Hne].
  { rewrite (readloop_zero _ _ 0) by lia. simpl. by rewrite rd_prepend_nil. }
  destruct ev as [bs | | er].
  - destruct (decide (zlen bs = 0)) as [Hz | Hz].
    { simpl. replace (n + m <=? 0) with false by lia. replace (n <=? 0) with false by lia.
      rewrite Hz. replace (0 <=? n) with true by lia. by replace (0 <=? n + m) with true by lia. }
    pose proof (zlen_nonneg bs). rewrite !readloop_bytes by lia.
    destruct (zlen bs <=? n) eqn:E.
    + replace (zlen bs <=? n + m) with true by lia.
      replace (n + m - zlen bs) with ((n - zlen bs) + m) by lia.
      rewrite IH by lia. cbn zeta. cbn [rd_prepend ro_res ro_bytes ro_rx ro_errno].
      destruct (ro_res (readloop rx e (n - zlen bs))); by rewrite ?rd_prepend_app.
    + cbn [ro_res ro_bytes ro_rx ro_errno].
      destruct (decide (m = 0)) as [-> | Hm0].
      { rewrite (readloop_zero _ _ 0) by lia. rewrite Z.add_0_r, E. unfold rd_prepend. simpl.
        by rewrite app_nil_r. }
      rewrite readloop_bytes by (rewrite ?zlen_drop; lia). rewrite zlen_drop by lia.
      destruct (zlen bs <=? n + m) eqn:E2.
      * replace (zlen bs - n <=? m) with true by lia.
        rewrite rd_prepend_app, take_drop. f_equal. f_equal. lia.
      * replace (zlen bs - n <=? m) with false by lia. unfold rd_prepend. simpl. f_equal.
        -- rewrite <- (Nat2Z.id (Z.to_nat n)) at 1. rewrite Z2Nat.inj_add by lia.
           rewrite Nat2Z.id. by rewrite take_take_drop.
        -- rewrite drop_drop, Z2Nat.inj_add by lia. done.
  - simpl. replace (n + m <=? 0) with false by lia. by replace (n <=? 0) with false by lia.
  - simpl. replace (n + m <=? 0) with false by lia. replace (n <=? 0) with false by lia.
    destruct (io_transient er); [by apply IH | done].
Qed.

Lemma readloop_spec rx e n :
  0 <= n ->
  let o := readloop rx e n in
  if n <=? zlen (incoming rx)
  then ro_res o = IoDone /\ ro_bytes o = take (Z.to_nat n) (incoming rx) /\
       incoming (ro_rx o) = drop (Z.to_nat n) (incoming rx)
  else ro_res o <> IoDone /\ ro_bytes o = incoming rx.
Proof.
  revert e n. induction rx as [| ev rx IH]; intros e n Hn; cbn zeta.
  { destruct (decide (n = 0)) as [-> | Hne]; [done |]. simpl.
    replace (n <=? 0) with false by lia. change (zlen []) with 0.
    by replace (n <=? 0) with false by lia. }
  destruct (decide (n = 0)) as [-> | Hne].
  { rewrite readloop_zero by lia. pose proof (zlen_nonneg (incoming (ev :: rx))).
    replace (0 <=? _) with true by lia. by rewrite take_0, drop_0. }
  destruct ev as [bs | | er].
  - destruct (decide (zlen bs = 0)) as [Hz | Hz].
    { simpl. rewrite Hz. cbn [Z.eqb]. change (zlen []) with 0.
      replace (n <=? 0) with false by lia. by replace (0 <=? n) with true by lia. }
    pose proof (zlen_nonneg bs). rewrite readloop_bytes by lia. cbn [incoming].
    replace (zlen bs =? 0) with false by lia. rewrite zlen_app.
    destruct (zlen bs <=? n) eqn:E.
    + specialize (IH e (n - zlen bs) ltac:(lia)). cbn zeta in IH.
      cbn [rd_prepend ro_res ro_bytes ro_rx ro_errno].
      assert (Hs : Z.to_nat n = (length bs + Z.to_nat (n - zlen bs))%nat).
      { unfold zlen in *. lia. }
      destruct (n - zlen bs <=? zlen (incoming rx)) eqn:E2.
      * replace (n <=? zlen bs + zlen (incoming rx)) with true by lia.
        destruct IH as (H1 & H2 & H3). rewrite Hs, take_app_add, drop_app_add.
        by rewrite H2, H3.
      * replace (n <=? zlen bs + zlen (incoming rx)) with false by lia.
        destruct IH as (H1 & H2). by rewrite H2.
    + pose proof (zlen_nonneg (incoming rx)).
      replace (n <=? zlen bs + zlen (incoming rx)) with true by lia.
      cbn [ro_res ro_bytes ro_rx ro_errno incoming]. rewrite zlen_drop by lia.
      replace (zlen bs - n =? 0) with false by lia.
      unfold zlen in *. rewrite take_app_le, drop_app_le by lia. done.
  - simpl. replace (n <=? 0) with false by lia. change (zlen []) with 0.
    by replace (n <=? 0) with false by lia.
  - simpl. replace (n <=? 0) with false by lia.
    destruct (io_transient er); [apply (IH er n Hn) |]. simpl. change (zlen []) with 0.
    by replace (n <=? 0) with false by lia.
Qed.

Lemma readloop_done_zlen rx e n :
  0 <= n -> ro_res (readloop rx e n) = IoDone -> zlen (ro_bytes (readloop rx e n)) = n.
Proof.
  intros Hn Hd. pose proof (readloop_spec rx e n Hn) as H. cbn zeta in H.
  destruct (n <=? zlen (incoming rx)) eqn:E; [| by destruct H].
  destruct H as (_ & -> & _). apply zlen_take. lia.
Qed.

(** ** writeloop, sendfileloop *)

Lemma writeloop_spec wq e buffer :
  exists rest, buffer = wo_bytes (writeloop wq e buffer) ++ rest /\
    match wo_res (writeloop wq e buffer) with
    | IoDone => rest = []
    | IoFail => rest <> [] /\ exists er, WrErr er ∈ wq /\ io_transient er = false
    | IoBlock => False
    end.
Proof.
  revert e buffer. induction wq as [| ev wq IH]; intros e buffer; simpl.
  { destruct (zlen buffer =? 0) eqn:E.
    - apply Z.eqb_eq, zlen_nil_inv in E as ->. by exists [].
    - exists []. by rewrite app_nil_r. }
  destruct (zlen buffer =? 0) eqn:E.
  { apply Z.eqb_eq, zlen_nil_inv in E as ->. by exists []. }
  destruct ev as [n | er].
  - set (k := Z.to_nat _). destruct (IH e (drop k buffer)) as (rest & H1 & H2).
    exists rest. cbn [wr_prepend wo_bytes wo_res]. split.
    { rewrite <- app_assoc, <- H1. by rewrite take_drop. }
    destruct (wo_res _); [done | | done]. destruct H2 as (? & er & ? & ?).
    split; [done |]. exists er. by split; [right |].
  - destruct (io_transient er) eqn:Et.
    + destruct (IH er buffer) as (rest & H1 & H2). exists rest. split; [done |].
      destruct (wo_res _); [done | | done]. destruct H2 as (? & er' & ? & ?).
      split; [done |]. exists er'. by split; [right |].
    + exists buffer. simpl. split; [done |]. split.
      * intros ->. done.
      * exists er. by split; [left |].
Qed.

Definition sf_error (ev : sf_event) : bool := match ev with SfErr _ => true | _ => false end.

Lemma take_zadd {A} (l : list A) off a b :
  0 <= off -> 0 <= a -> 0 <= b ->
  take (Z.to_nat a) (drop (Z.to_nat off) l) ++
    take (Z.to_nat b) (drop (Z.to_nat (off + a)) l) =
  take (Z.to_nat (a + b)) (drop (Z.to_nat off) l).
Proof.
  intros. rewrite !Z2Nat.inj_add, <- drop_drop by lia. apply take_take_drop.
Qed.

Lemma sendfileloop_spec script file offset count :
  0 <= offset -> 0 <= count -> offset + count <= zlen file ->
  let o := sendfileloop script file offset count in
  exists sent, 0 <= sent <= count /\ so_offset o = offset + sent /\
    so_bytes o = take (Z.to_nat sent) (drop (Z.to_nat offset) file) /\
    (so_result o = Ok IoDone /\ sent = count \/
     so_result o = Ok IoFail /\ existsb sf_error script = true).
Proof.
  revert offset count. induction script as [| ev script IH]; intros offset count Ho Hc Hf; cbn zeta.
  { simpl. destruct (count <=? 0) eqn:E.
    - exists 0. replace count with 0 by lia. simpl. split_and!; [lia | lia | lia | done | by left].
    - replace (_ =? count) with true by lia.
      exists count. simpl. split_and!; [lia | lia | done | done | by left]. }
  simpl. destruct (count <=? 0) eqn:E.
  { exists 0. replace count with 0 by lia. simpl. split_and!; [lia | lia | lia | done | by left]. }
  destruct ev as [k | er]; simpl.
  - set (r := Z.min (Z.max 0 k) _).
    destruct (IH (offset + r) (count - r)) as (sent & H1 & H2 & H3 & H4); [lia | lia | lia |].
    exists (r + sent). rewrite H2, H3. split_and!; [lia | lia | lia | apply take_zadd; lia |].
    destruct H4 as [[-> ->] | ?]; [left; split; [done | lia] | by right].
  - exists 0. split_and!; [lia | lia | lia | done | by right].
Qed.

(** ** Lines *)

(** Only data is to come, in pieces of any size. *)
Definition data_event (ev : rd_event) : Prop :=
  match ev with RdBytes bs => bs <> [] | _ => False end.

Lemma incoming_data bs rx : bs <> [] -> incoming (RdBytes bs :: rx) = bs ++ incoming rx.
Proof.
  destruct bs; [done |]. intros _. cbn [incoming]. unfold zlen. cbn [length].
  by rewrite (proj2 (Z.eqb_neq _ 0)) by lia.
Qed.

(** One byte is taken from the front. *)
Lemma deliver_one b bs rx :
  exists rest, deliver (RdBytes (b :: bs)) 0 1 = (1, [b], rest, 0) /\
    (Forall data_event rx -> Forall data_event (rest ++ rx)) /\
    incoming (rest ++ rx) = bs ++ incoming rx.
Proof.
  destruct bs as [| c bs].
  - exists []. by split_and!.
  - exists [RdBytes (c :: bs)]. split_and!.
    + unfold deliver, zlen. cbn [length]. rewrite (proj2 (Z.leb_gt _ 1)) by lia. done.
    + intros H. by constructor.
    + simpl app at 1. by rewrite incoming_data.
Qed.

Lemma read_until_newline_spec n rx cur line rest :
  Forall data_event rx -> LF ∉ line -> (length line < n)%nat ->
  incoming rx = line ++ LF :: rest ->
  exists rx', read_until_newline n rx cur = Ok (cur + zlen line + 1, line, rx') /\
    Forall data_event rx' /\ incoming rx' = rest.
Proof.
  revert rx cur line. induction n as [| n IH]; intros rx cur line Hd Hn Hl Hi; [lia |].
  destruct rx as [| ev rx]; [by destruct line |]. inversion_clear Hd as [| ? ? He Hd'].
  destruct ev as [[| b bs] | |]; try done. rewrite incoming_data in Hi by done.
  destruct (deliver_one b bs rx) as (r & Hdel & Hr & Hinc). specialize (Hr Hd').
  cbn [read_until_newline]. rewrite Hdel. cbn [Z.leb Z.compare].
  destruct line as [| c line]; simpl in Hi; injection Hi as -> Hi.
  - rewrite Z.eqb_refl. exists (r ++ rx). change (zlen []) with 0. rewrite Z.add_0_r, Hinc. done.
  - rewrite not_elem_of_cons in Hn. destruct Hn as [Hc Hn].
    destruct (Z.eqb_spec c LF); [congruence |].
    simpl length in Hl.
    destruct (IH (r ++ rx) (cur + 1) line Hr Hn) as (rx' & E & ? & ?);
      [lia | by rewrite Hinc |].
    rewrite E. exists rx'. split; [| done]. simpl. do 3 f_equal.
    unfold zlen. simpl length. lia.
Qed.

Lemma data_event_pos bs : data_event (RdBytes bs) -> 0 < zlen bs.
Proof. cbn. intros H. unfold zlen. destruct bs; [done | simpl length; lia]. Qed.

Lemma readloop_data rx e n :
  Forall data_event rx -> Forall data_event (ro_rx (readloop rx e n)) /\ ro_errno (readloop rx e n) = e.
Proof.
  intros H. revert n. induction H as [| ev rx Hev Hrx IH]; intros n.
  { cbn. by destruct (n <=? 0). }
  destruct (decide (n <= 0)); [rewrite readloop_zero by done; cbn; split; [by constructor | done] |].
  destruct ev as [bs | |]; [| done ..].
  rewrite readloop_bytes by (lia || by apply data_event_pos).
  destruct (zlen bs <=? n) eqn:E; cbn; [apply IH |]. split; [| done]. constructor; [| done]. cbn.
  intros Hd. apply (f_equal zlen) in Hd. rewrite zlen_drop in Hd by lia.
  change (zlen []) with 0 in Hd. lia.
Qed.

(** [spliceloop] takes what is there when that is what was asked for. *)
Lemma spliceloop_exact rx : forall len nonblock spliced,
  Forall data_event rx -> 0 <= spliced -> zlen (incoming rx) = len - spliced ->
  spliceloop rx len nonblock spliced = Ok (len, incoming rx, []).
Proof.
  induction rx as [| ev rx IH]; intros len nonblock spliced Hd Hs Hz.
  { change (zlen (incoming [])) with 0 in Hz. cbn. replace (len <=? spliced) with true by lia. do 3 f_equal. lia. }
  apply Forall_cons_1 in Hd as [Hev Hd]. destruct ev as [bs | |]; [| done ..]. pose proof (data_event_pos bs Hev).
  rewrite incoming_data in * by done. rewrite zlen_app in Hz. pose proof (zlen_nonneg (incoming rx)).
  cbn [spliceloop deliver]. replace (len <=? spliced) with false by lia. replace (zlen bs <=? len) with true by lia.
  replace (zlen bs <? 0) with false by lia. replace (zlen bs =? 0) with false by lia.
  destruct (len <=? spliced + zlen bs) eqn:E.
  - assert (Hn : incoming rx = []) by (apply zlen_nil_inv; lia).
    assert (rx = []) as ->.
    { destruct rx as [| ev' rx]; [done |]. apply Forall_cons_1 in Hd as [Hev' Hd]. destruct ev' as [bs' | |]; [| done ..].
      rewrite incoming_data in Hn by done. apply app_eq_nil in Hn as [-> _]. pose proof (data_event_pos [] Hev'). done. }
    change (zlen (incoming [])) with 0 in *. assert (spliced + zlen bs = len) as -> by lia. by rewrite Hn, !app_nil_r.
  - rewrite (IH len nonblock (spliced + zlen bs)) by (done || lia). done.
Qed.

Lemma splice_via_pipe_exact fuel rx len :
  Forall data_event rx -> (2 <= fuel)%nat -> zlen (incoming rx) = len ->
  splice_via_pipe_loop fuel rx len 0 = Ok (0, incoming rx, []).
Proof.
  intros Hd Hf Hz. pose proof (zlen_nonneg (incoming rx)). destruct fuel as [| [| fuel]]; [lia | lia |].
  cbn [splice_via_pipe_loop]. destruct (len <=? 0) eqn:E.
  { assert (len = 0) as -> by lia. apply zlen_nil_inv in Hz. rewrite Hz. do 3 f_equal.
    destruct rx as [| ev rx]; [done |]. apply Forall_cons_1 in Hd as [Hev Hd]. destruct ev as [bs | |]; [| done ..].
    rewrite incoming_data in Hz by done. apply app_eq_nil in Hz as [-> _]. pose proof (data_event_pos [] Hev). done. }
  rewrite Z.sub_0_r, (spliceloop_exact rx len true 0) by (done || lia). cbn [mbind res_bind].
  replace (len <? 0) with false by lia. replace (zlen (incoming rx) =? 0) with false by lia.
  assert (Hev : data_event (RdBytes (incoming rx))) by (cbn; intros Hn; rewrite Hn in Hz; change (zlen []) with 0 in Hz; lia).
  rewrite (spliceloop_exact [RdBytes (incoming rx)] len false 0).
  - cbn [mbind res_bind]. replace (len <? 0) with false by lia. replace (len <=? 0 + len) with true by lia.
    cbn [mbind res_bind]. rewrite app_nil_r, incoming_data by done. change (incoming []) with (@nil Z). by rewrite app_nil_r.
  - by repeat constructor.
  - lia.
  - rewrite incoming_data by done. change (incoming []) with (@nil Z). rewrite app_nil_r. lia.
Qed.

(** A line that can be sent: not empty, shorter than the buffer, no NUL, no LF. *)
Definition line_ok (max : nat) (line : list Z) : Prop :=
  line <> [] /\ (LF ∉ line) /\ (0 ∉ line) /\ (length line < max)%nat.

Definition send_lines (lines : list (list Z)) : list Z :=
  concat ((fun l => l ++ [LF]) <$> lines) ++ [LF].

Lemma c_str_id l : 0 ∉ l -> c_str l = l.
Proof.
  induction l as [| b l IH]; [done |]. rewrite not_elem_of_cons. intros [H1 H2]. simpl.
  destruct (Z.eqb_spec b 0); [congruence |]. by rewrite IH.
Qed.

Lemma read_lines_spec max lines fuel rx rest :
  (0 < max)%nat -> (length lines < fuel)%nat -> Forall (line_ok max) lines ->
  Forall data_event rx -> incoming rx = send_lines lines ++ rest ->
  exists rx', read_lines_until_blankline fuel max rx = Ok (lines, rx') /\
    Forall data_event rx' /\ incoming rx' = rest.
Proof.
  intros Hm. revert fuel rx. induction lines as [| l lines IH]; intros fuel rx Hf Hok Hd Hi.
  - destruct fuel as [| fuel]; [simpl in Hf; lia |]. cbn [read_lines_until_blankline].
    destruct (read_until_newline_spec max rx 0 [] rest Hd) as (rx' & -> & ? & ?);
      [by apply not_elem_of_nil | exact Hm | exact Hi |].
    simpl. exists rx'. done.
  - destruct fuel as [| fuel]; [simpl in Hf; lia |]. cbn [read_lines_until_blankline].
    apply Forall_cons_1 in Hok as [(Hne & Hlf & H0 & Hlen) Hok'].
    destruct (read_until_newline_spec max rx 0 l (send_lines lines ++ rest) Hd) as (rx' & -> & Hd' & Hi');
      [done | done | rewrite Hi; unfold send_lines; simpl; by rewrite <- !app_assoc |].
    cbn [mbind res_bind]. rewrite (c_str_id l H0).
    assert (0 < zlen l). { unfold zlen. destruct l; [done | simpl length; lia]. }
    replace (0 + zlen l + 1 <=? 1) with false by lia.
    destruct (IH fuel rx') as (rx'' & -> & ? & ?); [simpl in Hf; lia | done | done | done |].
    exists rx''. simpl. by destruct l.
Qed.

(** ** The allocation map *)

(** The invariant of sparse writing: no data where no block is allocated. *)
Definition sparse (map : bitset) (data : list Z) : Prop :=
  forall off, 0 <= off < bs_size map -> bit_at map off = false -> byte_at data off = 0.

Definition in_extent (off : Z) (e : fiemap_extent) : Prop := e.1 <= off < e.1 + e.2.

(** What FIEMAP documents: extents that mirror the blocks on disk, so that they need not be cut to the range asked for nor to the end of the
    file, the last ending behind [start]; data lies in the reported extents, up to
    the end of the last one or, when there are none, to the end of the range asked
    for. *)
Record fiemap_ok (ioctl : Z -> Z -> option (list fiemap_extent)) (data : list Z) : Prop := {
  fm_shape start len es : ioctl start len = Some es -> Forall (fun e => 0 <= e.1 /\ 0 < e.2) es;
  fm_progress start len es l n : ioctl start len = Some es ->
    head (reverse es) = Some (l, n) -> start < l + n;
  fm_covers start len es off : ioctl start len = Some es ->
    start <= off < match head (reverse es) with Some (l, n) => l + n | None => start + len end ->
    byte_at data off <> 0 -> Exists (in_extent off) es
}.

(** The end of the last chunk of the map: the file's size rounded up to whole
    chunks. *)
Definition map_end (map : bitset) : Z :=
  resolution map * ((bs_size map + resolution map - 1) / resolution map).

(** No reported extent ends behind [limit]: with the limit [map_end] this is a file
    system that allocates in units of at most one chunk (4096 bytes) and has nothing
    preallocated behind the end of the file. *)
Definition extents_within (ioctl : Z -> Z -> option (list fiemap_extent)) (limit : Z) : Prop :=
  forall start len es, ioctl start len = Some es -> Forall (fun e => e.1 + e.2 <= limit) es.

(** The map seen with another size; the range operations do not look at it. *)
Definition resize (size : Z) (map : bitset) : bitset :=
  {| bs_size := size; resolution := resolution map; stream := stream map;
     stream_enabled := stream_enabled map; bits := bits map |}.

Lemma map_end_range map :
  0 < resolution map -> bs_size map <= map_end map < bs_size map + resolution map.
Proof.
  intros Hr. unfold map_end.
  pose proof (Z.div_mod (bs_size map + resolution map - 1) (resolution map) ltac:(lia)).
  pose proof (Z.mod_pos_bound (bs_size map + resolution map - 1) (resolution map) Hr). lia.
Qed.

Lemma resize_ok map :
  bitset_ok map -> bs_size map + 2 * resolution map < 2 ^ 64 ->
  bitset_ok (resize (map_end map) map).
Proof.
  intros Hok Hs. pose proof (bo_res _ Hok) as Hr. pose proof (bo_size _ Hok).
  pose proof (map_end_range map Hr).
  constructor; simpl; [done | lia | apply Hok | | apply Hok].
  apply Z.mul_le_mono_nonneg_l; [lia |].
  pose proof (bo_cover _ Hok) as Hc.
  apply Z.lt_succ_r, Z.div_lt_upper_bound; [done |]. lia.
Qed.

Lemma resize_ok_inv limit map :
  bs_size map <= limit -> 0 <= bs_size map -> bitset_ok (resize limit map) -> bitset_ok map.
Proof.
  intros Hl H0 Hok. pose proof (bo_size _ Hok) as Hz. pose proof (bo_cover _ Hok) as Hc.
  simpl in Hz, Hc. constructor; [apply Hok | lia | apply Hok | lia | apply Hok].
Qed.

Lemma resize_set_range limit map from len :
  stream_enabled map = false ->
  bitset_set_range (resize limit map) from len =
  (map' ← bitset_set_range map from len; Ok (resize limit map')).
Proof.
  intros Hs. unfold bitset_set_range, INT_FIRST_AND_LAST. simpl. rewrite Hs.
  by destruct (bit_set_range _ _ _).
Qed.

Lemma touches_inside set from len off :
  0 < resolution set -> 0 <= from -> from <= off < from + len -> touches set from len off = true.
Proof.
  intros Hr Hf Ho. unfold touches.
  pose proof (Z.div_le_mono from off (resolution set) Hr ltac:(lia)).
  pose proof (Z.div_le_mono off (from + len - 1) (resolution set) Hr ltac:(lia)). lia.
Qed.

Lemma set_range_past map limit from len :
  bitset_ok (resize limit map) -> stream_enabled map = false ->
  0 <= from -> 0 < len -> from + len <= limit ->
  exists map', bitset_set_range map from len = Ok map' /\ bitset_ok (resize limit map') /\
    stream_enabled map' = false /\ bs_size map' = bs_size map /\
    forall off, 0 <= off -> bit_at map' off = touches map from len off || bit_at map off.
Proof.
  intros Hok Hs H1 H2 H3.
  destruct (bitset_set_range_spec _ Hok from len) as (m1 & E & Hok1 & Hz1 & Hr1 & Hs1 & _ & Hb1);
    [done | done | done | intros Ht; simpl in Ht; congruence |].
  rewrite resize_set_range in E by done.
  unfold bitset_set_range in *. rewrite Hs in *. destruct (INT_FIRST_AND_LAST map from len) as [f n].
  destruct (bit_set_range (bits map) f n) as [b' |]; [| done].
  simpl in E. simplify_eq. exists (with_bits map b'). split_and!; try done.
Qed.

Lemma set_extents_spec es map limit :
  bitset_ok (resize limit map) -> stream_enabled map = false ->
  Forall (fun e => 0 <= e.1 /\ 0 < e.2) es -> Forall (fun e => e.1 + e.2 <= limit) es ->
  exists map', set_extents map es = Ok map' /\ bitset_ok (resize limit map') /\
    stream_enabled map' = false /\ bs_size map' = bs_size map /\
    forall off, 0 <= off ->
      (bit_at map off = true \/ Exists (in_extent off) es -> bit_at map' off = true).
Proof.
  revert map. induction es as [| [l n] es IH]; intros map Hok Hs Hes Hl.
  { exists map. split_and!; try done. intros off _ [? | H]; [done | inversion H]. }
  apply Forall_cons_1 in Hes as [(H1 & H2) Hes]. apply Forall_cons_1 in Hl as [H3 Hl].
  simpl in H1, H2, H3.
  destruct (set_range_past map limit l n) as (m1 & E & Hok1 & Hs1 & Hz1 & Hb1); try done.
  destruct (IH m1) as (m' & E' & Hok' & Hs' & Hz' & Hb'); try done.
  exists m'. simpl. rewrite E. simpl. split_and!; [done | done | done | congruence |].
  intros off Ho Hb. apply Hb'; [done |].
  destruct Hb as [Hb | Hb].
  - left. rewrite Hb1 by done. by rewrite Hb, orb_true_r.
  - apply Exists_cons in Hb as [Hb | Hb]; [| by right]. left. rewrite Hb1 by done.
    rewrite touches_inside; [done | apply (bo_res _ Hok) | lia | apply Hb].
Qed.

Lemma build_fails ioctl fuel map offset map' :
  build_allocation_map ioctl fuel map offset = Ok (false, map') ->
  exists start len, ioctl start len = None.
Proof.
  revert map offset. induction fuel as [| fuel IH]; intros map offset E; [done |].
  cbn [build_allocation_map] in E. destruct (offset <? bs_size map); [| done].
  destruct (ioctl offset _) as [es |] eqn:Ei; [| by eauto].
  destruct (set_extents map es) as [m1 |]; [| done]. by apply IH in E.
Qed.

Section BuildAllocationMap.
Context (ioctl : Z -> Z -> option (list fiemap_extent)) (data : list Z) (size limit : Z).
Context (Hioctl : fiemap_ok ioctl data) (Hwithin : extents_within ioctl limit).
Context (Hlimit : size <= limit) (H64 : limit + fiemap_max_length < 2 ^ 64).

(** The extents reported up to [offset] are in the map. *)
Definition mapped_to (map : bitset) (offset : Z) : Prop :=
  forall off, 0 <= off < offset -> byte_at data off <> 0 -> bit_at map off = true.

Lemma next_offset_gt es offset fm_length :
  ioctl offset fm_length = Some es -> 0 <= offset < size -> 0 < fm_length <= size - offset ->
  let off' := match head (reverse es) with Some (l, n) => l +64 n | None => offset +64 fm_length end in
  off' = match head (reverse es) with Some (l, n) => l + n | None => offset + fm_length end /\
  offset < off'.
Proof using Hioctl Hwithin Hlimit H64.
  intros E Ho Hl. assert (0 < fiemap_max_length) by done.
  cbn zeta. destruct (head (reverse es)) as [[l n] |] eqn:Eh.
  - pose proof (fm_progress _ _ Hioctl _ _ _ _ _ E Eh).
    pose proof (fm_shape _ _ Hioctl _ _ _ E) as Hin. rewrite list.Forall_forall in Hin.
    pose proof (Hwithin _ _ _ E) as Hw. rewrite list.Forall_forall in Hw.
    assert (Hel : (l, n) ∈ es).
    { apply elem_of_reverse. apply head_Some_elem_of. done. }
    specialize (Hin _ Hel). specialize (Hw _ Hel). simpl in Hin, Hw. rewrite u64_id by lia. lia.
  - rewrite u64_id by lia. lia.
Qed.

Lemma build_allocation_map_spec fuel map offset :
  bitset_ok (resize limit map) -> stream_enabled map = false -> bs_size map = size ->
  0 <= offset -> mapped_to map offset -> (0 < fuel)%nat -> size - offset < Z.of_nat fuel ->
  exists b map', build_allocation_map ioctl fuel map offset = Ok (b, map') /\
    bitset_ok (resize limit map') /\ bs_size map' = size /\
    (forall off, 0 <= off -> bit_at map off = true -> bit_at map' off = true) /\
    (b = true -> mapped_to map' size).
Proof using Hioctl Hwithin Hlimit H64.
  revert map offset. induction fuel as [| fuel IH]; intros map offset Hok Hs Hz Ho Hm Hp Hf; [lia |].
  cbn [build_allocation_map]. rewrite Hz.
  destruct (offset <? size) eqn:E.
  2:{ exists true, map. split_and!; try done. intros _ off Hoff. apply Hm. lia. }
  assert (0 < fiemap_max_length) by done.
  rewrite (u64_id (offset + fiemap_max_length)) by lia.
  set (fl := if size <? _ then _ else _).
  assert (Hfl : 0 < fl <= size - offset) by (subst fl; bool_cases; lia).
  destruct (ioctl offset fl) as [es |] eqn:Ei.
  2:{ exists false, map. split_and!; try done. }
  destruct (set_extents_spec es map limit Hok Hs (fm_shape _ _ Hioctl _ _ _ Ei) (Hwithin _ _ _ Ei))
    as (m1 & -> & Hok1 & Hs1 & Hz1 & Hb1).
  cbn [mbind res_bind].
  destruct (next_offset_gt es offset fl Ei) as (Hn1 & Hn2); [lia | lia |].
  set (off' := match head (reverse es) with Some _ => _ | None => _ end) in *.
  destruct (IH m1 off') as (b & m' & -> & H1 & H2 & H3 & H4);
    [done | done | congruence | lia | | lia | lia |].
  { intros off Hoff Hnz. destruct (decide (off < offset)) as [Hlt | Hge].
    - apply Hb1; [lia |]. left. apply Hm; [lia | done].
    - apply Hb1; [lia |]. right. apply (fm_covers _ _ Hioctl _ _ _ _ Ei); [lia | done]. }
  exists b, m'. split_and!; try done. intros off Hoff Ht. apply H3; [done |]. apply Hb1; [done | by left].
Qed.
End BuildAllocationMap.

(** * Properties *)

(** C34: however the incoming data is cut into reads and however often a read is
    interrupted, [readloop] succeeds exactly when [n] bytes arrive before the end
    of the connection; it then stores the first [n] of them and leaves the others
    to be read. When it fails, everything that did arrive has been stored. *)
Theorem readloop_stream_correct rx errno n :
  0 <= n ->
  let o := readloop rx errno n in
  (ro_res o = IoDone <-> n <= zlen (incoming rx)) /\
  (ro_res o = IoDone ->
     ro_bytes o = take (Z.to_nat n) (incoming rx) /\
     incoming (ro_rx o) = drop (Z.to_nat n) (incoming rx)) /\
  (ro_res o <> IoDone -> ro_bytes o = incoming rx).
Proof.
  intros Hn. cbn zeta. pose proof (readloop_spec rx errno n Hn) as H. cbn zeta in H.
  destruct (n <=? zlen (incoming rx)) eqn:E.
  - destruct H as (H1 & H2 & H3). split; [split; [lia | done] |]. by split.
  - destruct H as (H1 & H2). split; [split; [done | lia] |]. by split.
Qed.

Lemma readloop_stream_correct_witness :
  let rx := [RdBytes [1; 2]; RdErr EINTR; RdBytes [3; 4]; RdEof] in
  (ro_res (readloop rx 0 3) = IoDone <-> 3 <= zlen (incoming rx)) /\
  incoming (ro_rx (readloop rx 0 3)) = [4].
Proof.
  intros rx. destruct (readloop_stream_correct rx 0 3 ltac:(lia)) as (H1 & H2 & _).
  split; [exact H1 |]. destruct H2 as [_ H2]; [vm_compute; reflexivity |]. exact H2.
Defined.

(** [writeloop] always returns. It reports success exactly when the peer got
    the whole buffer; otherwise a permanent error was met and the peer got a proper
    prefix of it. *)
Theorem writeloop_delivers wq errno buffer :
  exists rest, buffer = wo_bytes (writeloop wq errno buffer) ++ rest /\
    (wo_res (writeloop wq errno buffer) = IoDone <-> rest = []) /\
    (wo_res (writeloop wq errno buffer) <> IoDone ->
       wo_res (writeloop wq errno buffer) = IoFail /\
       exists er, WrErr er ∈ wq /\ io_transient er = false).
Proof.
  destruct (writeloop_spec wq errno buffer) as (rest & H1 & H2). exists rest. split; [done |].
  destruct (wo_res _); [done | | done]. destruct H2 as (H2 & H3). split; [done |]. done.
Qed.

(** [sendfileloop] on a range inside the file sends exactly that range, whatever
    the kernel's partial answers, unless [sendfile] fails; then it has sent a
    prefix of it. [*offset] ends behind what was sent. *)
Theorem sendfileloop_sends_range script file offset count :
  0 <= offset -> 0 <= count -> offset + count <= zlen file ->
  let o := sendfileloop script file offset count in
  exists sent, 0 <= sent <= count /\ so_offset o = offset + sent /\
    so_bytes o = take (Z.to_nat sent) (drop (Z.to_nat offset) file) /\
    (so_result o = Ok IoDone /\ sent = count \/
     so_result o = Ok IoFail /\ existsb sf_error script = true).
Proof. apply sendfileloop_spec. Qed.

Lemma sendfileloop_sends_range_witness :
  let o := sendfileloop [SfAccept 2; SfAccept 0; SfAccept 7] [1; 2; 3; 4; 5; 6] 1 4 in
  so_bytes o = [2; 3; 4; 5] /\
  exists sent, 0 <= sent <= 4 /\ so_offset o = 1 + sent /\
    so_bytes o = take (Z.to_nat sent) (drop 1 [1; 2; 3; 4; 5; 6]) /\
    (so_result o = Ok IoDone /\ sent = 4 \/ so_result o = Ok IoFail /\ false = true).
Proof.
  split; [reflexivity |].
  apply (sendfileloop_sends_range [SfAccept 2; SfAccept 0; SfAccept 7] [1; 2; 3; 4; 5; 6] 1 4);
    vm_compute; discriminate.
Defined.

(** C36: lines sent one per line and closed by an empty line are read back by
    [read_lines_until_blankline] as they were, in any segmentation of the data,
    and nothing behind the empty line is consumed. *)
Theorem read_lines_roundtrip max lines fuel rx rest :
  (0 < max)%nat -> (length lines < fuel)%nat -> Forall (line_ok max) lines ->
  Forall data_event rx -> incoming rx = send_lines lines ++ rest ->
  exists rx', read_lines_until_blankline fuel max rx = Ok (lines, rx') /\
    Forall data_event rx' /\ incoming rx' = rest.
Proof. apply read_lines_spec. Qed.

Lemma read_lines_roundtrip_witness :
  exists rx', read_lines_until_blankline 5 16 [RdBytes [97; 98; 10; 99]; RdBytes [10; 10; 120]] =
    Ok ([[97; 98]; [99]], rx') /\ Forall data_event rx' /\ incoming rx' = [120].
Proof.
  apply (read_lines_roundtrip 16 [[97; 98]; [99]]).
  - lia.
  - simpl. lia.
  - repeat constructor; try by_decide; simpl; lia.
  - repeat constructor; done.
  - reflexivity.
Defined.

(** C28: let the kernel answer FIEMAP as documented, with extents that may reach
    past the end of the file but none past the end of the map's last chunk (the
    file's size rounded up to the resolution, 4096 bytes; [extent_past_map_faults]
    shows what an extent that reaches further does), let the map's event stream be
    off, and let the file's size stay 100 MiB and two chunks below 2^64. Then
    building the allocation map always ends, never clears a bit, and when it reports
    success every byte of the file that is not zero lies in an allocated chunk: the
    map satisfies the invariant of the sparse write path. It reports failure only
    when the ioctl fails. *)
Theorem build_allocation_map_sound ioctl data map :
  fiemap_ok ioctl data -> extents_within ioctl (map_end map) ->
  bitset_ok map -> stream_enabled map = false ->
  bs_size map + fiemap_max_length + 2 * resolution map < 2 ^ 64 ->
  exists b map', build_allocation_map ioctl (S (Z.to_nat (bs_size map))) map 0 = Ok (b, map') /\
    bitset_ok map' /\ bs_size map' = bs_size map /\
    (forall off, 0 <= off -> bit_at map off = true -> bit_at map' off = true) /\
    (b = true -> sparse map' data) /\
    (b = false -> exists start len, ioctl start len = None).
Proof.
  intros Hio Hw Hok Hs Hlt. pose proof (bo_size _ Hok). pose proof (bo_res _ Hok) as Hr.
  assert (0 < fiemap_max_length) by done. pose proof (map_end_range map Hr).
  destruct (build_allocation_map_spec ioctl data (bs_size map) (map_end map) Hio Hw ltac:(lia)
              ltac:(lia) (S (Z.to_nat (bs_size map))) map 0)
    as (b & m' & G1 & G2 & G3 & G4 & G5); [apply resize_ok; [done | lia] | done | done | lia | | lia | lia |].
  { intros off Ho. lia. }
  exists b, m'. split_and!; try done.
  - apply (resize_ok_inv (map_end map)); [lia | lia | done].
  - intros Hb off Ho Hf. destruct (decide (byte_at data off = 0)) as [| Hn]; [done |].
    rewrite (G5 Hb off) in Hf; [done | lia | done].
  - intros ->. by apply (build_fails _ _ _ _ _ G1).
Qed.

(** A file of 7680 bytes, not a whole number of blocks: a hole, then data. The
    block of the data reaches past the end of the file. *)
Definition example_data : list Z := replicate 4096 0 ++ replicate 3584 7.

Definition example_ioctl (start len : Z) : option (list fiemap_extent) :=
  if start <? 8192 then Some [(4096, 4096)] else Some [].

Definition ragged_map : bitset :=
  {| bs_size := 7680; resolution := 4096; stream := stream_alloc; stream_enabled := false;
     bits := [0] |}.

Lemma ragged_map_ok : bitset_ok ragged_map.
Proof.
  constructor.
  - done.
  - done.
  - split; [repeat constructor; lia | done].
  - done.
  - apply stream_alloc_ok.
Qed.

Lemma example_data_byte off :
  byte_at example_data off <> 0 -> 4096 <= off < 7680.
Proof.
  unfold example_data. rewrite byte_at_app. change (zlen (replicate 4096 0)) with 4096.
  unfold byte_at. intros Hb.
  destruct (off <? 4096) eqn:E1.
  - destruct (0 <=? off); [| done]. destruct (_ !! _) as [z |] eqn:E; [| done].
    apply lookup_replicate_1 in E as [-> _]. done.
  - destruct (0 <=? off - 4096); [| done]. destruct (_ !! _) as [z |] eqn:E; [| done].
    apply lookup_replicate_1 in E as [_ E]. lia.
Qed.

Lemma example_ioctl_ok : fiemap_ok example_ioctl example_data.
Proof.
  unfold example_ioctl. constructor.
  - intros start len es E. bool_cases; simplify_eq; repeat constructor; simpl; lia.
  - intros start len es l n E. bool_cases; simplify_eq; simpl; intros; simplify_eq; lia.
  - intros start len es off E Ho Hb. apply example_data_byte in Hb.
    bool_cases; simplify_eq; [| lia].
    constructor. unfold in_extent. simpl. lia.
Qed.

Lemma build_allocation_map_sound_witness :
  exists b map', build_allocation_map example_ioctl (S (Z.to_nat (bs_size ragged_map))) ragged_map 0 =
      Ok (b, map') /\
    bitset_ok map' /\ bs_size map' = bs_size ragged_map /\
    (forall off, 0 <= off -> bit_at ragged_map off = true -> bit_at map' off = true) /\
    (b = true -> sparse map' example_data) /\
    (b = false -> exists start len, example_ioctl start len = None).
Proof.
  apply (build_allocation_map_sound example_ioctl example_data ragged_map).
  - exact example_ioctl_ok.
  - intros start len es E. unfold example_ioctl in E.
    destruct (start <? 8192); injection E as <-; repeat constructor; vm_compute; discriminate.
  - exact ragged_map_ok.
  - reflexivity.
  - vm_compute. reflexivity.
Defined.

(** An extent is handed to [bitset_set_range] as it is: when the blocks of a file
    reach behind the last word of the map (a file with blocks preallocated past its
    end, or a file system with large allocation units), the loop writes outside the
    map's memory. *)
Theorem extent_past_map_faults :
  build_allocation_map (fun _ _ => Some [(4096, 4096 * 64)]) 2 ragged_map 0 = Stop SFault.
Proof. vm_compute. reflexivity. Qed.
