(* ===== verification/SockUtil.v ===== *)
(** * Sockets and self-pipes

    Models src/src/common/sockutil.c (the retry loops around [select], [bind],
    [connect] and [close]) and src/src/common/self_pipe.c. The kernel's answers
    to the successive calls of one system call are a list; a call past its end
    waits. A [conn] is a connected socket as the code that reads and writes it
    sees it: what will arrive, how writes will be taken, what was sent, [errno],
    and the answers of the [select]s made for it. *)

From S2P Require Import Prelude Bitset IoUtil.

(** ** System call answers *)

(** A return value and, when it is -1, the errno that goes with it. *)
Record answer := { a_ret : Z; a_errno : Z }.

Record select_answer := {
  sel_ret : Z;
  sel_errno : Z;
  sel_rfds : list Z;
  sel_wfds : list Z;
  sel_efds : list Z
}.

Definition FD_ISSET (fd : Z) (fds : list Z) : bool := bool_decide (fd ∈ fds).

(** [sock_try_select]: errno is tested whatever the result. *)
Fixpoint sock_try_select (script : list select_answer) (errno : Z)
    : res (select_answer * Z * list select_answer) :=
  match script with
  | [] => Stop SBlock
  | s :: script' =>
      let errno' := if sel_ret s =? -1 then sel_errno s else errno in
      if negb (errno' =? EINTR) then Ok (s, errno', script')
      else if sel_ret s =? -1 then sock_try_select script' errno'
      else Ok (s, errno', script')
  end.

(** [sock_try_bind] with [retry] attempts left: the last result of [bind], and
    how often it slept. *)
Fixpoint bind_loop (retry : nat) (script : list answer) (slept : Z) : res (Z * Z) :=
  match retry with
  | O => Stop SFault
  | S retry' =>
      match script with
      | [] => Stop SBlock
      | a :: script' =>
          if a_ret a =? 0 then Ok (0, slept)
          else if a_errno a =? EADDRNOTAVAIL then
            match retry' with
            | O => Ok (a_ret a, slept)
            | S _ => bind_loop retry' script' (slept + 1)
            end
          else Ok (a_ret a, slept)
      end
  end.

Definition sock_try_bind (script : list answer) : res (Z * Z) := bind_loop 10 script 0.

Definition O_NONBLOCK : Z := 2048.

(** [sock_set_nonblock]: the flags [F_GETFL] gives (or -1) and whether [F_SETFL]
    works; the result and the flags of the descriptor afterwards. *)
Definition sock_set_nonblock (getfl setfl optval : Z) : Z * Z :=
  if getfl =? -1 then (-1, getfl)
  else
    let flags := if negb (optval =? 0) then Z.lor getfl O_NONBLOCK
                 else Z.land getfl (Z.lnot O_NONBLOCK) in
    if setfl =? -1 then (-1, getfl) else (setfl, flags).

(** [sock_set_keepalive_params]: the four [setsockopt] answers. *)
Definition sock_set_keepalive_params (keepalive keepidle keepintvl keepcnt : Z) : Z :=
  if negb (keepalive =? 0) || negb (keepidle =? 0) || negb (keepintvl =? 0) || negb (keepcnt =? 0)
  then -1 else 0.

(** The [connect] loop: [false] leaves by [goto out] with -1. *)
Fixpoint connect_loop (script : list answer) (errno : Z) : res (bool * Z) :=
  match script with
  | [] => Stop SBlock
  | a :: script' =>
      if a_ret a =? -1 then
        if a_errno a =? EINPROGRESS then Ok (true, a_errno a)
        else if (a_errno a =? EAGAIN) || (a_errno a =? EINTR) then connect_loop script' (a_errno a)
        else Ok (false, a_errno a)
      else Ok (true, errno)
  end.

(** [sock_try_connect]: the result and errno. [blocking] and [unblocking] are the
    results of the two [sock_set_nonblock] calls, [getsockopt_ret] and [so_error] the
    result and value of [getsockopt(SO_ERROR)]. *)
Definition sock_try_connect (fd errno0 unblocking : Z) (connects : list answer)
    (selects : list select_answer) (getsockopt_ret so_error blocking : Z) : res (Z * Z) :=
  if unblocking =? -1 then
    match connects with
    | [] => Stop SBlock
    | a :: _ => Ok (a_ret a, a_errno a)
    end
  else
    '(connected, e) ← connect_loop connects errno0;
    '(result, errno) ←
      (if negb connected then Ok (-1, e)
       else
         '(s, e', _) ← sock_try_select selects e;
         if sel_ret s =? -1 then Ok (-1, e')
         else if negb (FD_ISSET fd (sel_wfds s)) then Ok (-1, ETIMEDOUT)
         else if getsockopt_ret =? -1 then Ok (-1, e')
         else
           let scratch := if so_error =? EINPROGRESS then ETIMEDOUT else so_error in
           Ok (if scratch =? 0 then 0 else -1, scratch));
    if blocking =? -1 then Ok (-1, errno) else Ok (result, errno).

(** [sock_try_close]: [continue] inside [do { } while (0)] leaves the loop. *)
Definition sock_try_close (script : list answer) : res (Z * list answer) :=
  match script with
  | [] => Stop SBlock
  | a :: script' => Ok (a_ret a, script')
  end.

(** ** Self pipes

    The pipe is non-blocking and holds [PIPE_CAPACITY] bytes. *)
Definition PIPE_CAPACITY : Z := 65536.

Record self_pipe := { sp_bytes : Z; sp_open : bool }.

Definition self_pipe_create : self_pipe := {| sp_bytes := 0; sp_open := true |}.

Definition self_pipe_signal (p : self_pipe) : res self_pipe :=
  if negb (sp_open p) || (PIPE_CAPACITY <=? sp_bytes p) then Stop SFatal
  else Ok {| sp_bytes := sp_bytes p + 1; sp_open := true |}.

(** 1 when a signal was taken, 0 when there was none. *)
Definition self_pipe_signal_clear (p : self_pipe) : Z * self_pipe :=
  if sp_open p && (0 <? sp_bytes p)
  then (1, {| sp_bytes := sp_bytes p - 1; sp_open := true |}) else (0, p).

Definition self_pipe_fd_isset (p : self_pipe) : bool := 0 <? sp_bytes p.

Definition self_pipe_destroy (p : self_pipe) : self_pipe := {| sp_bytes := 0; sp_open := false |}.

(** ** Connected sockets *)

Record conn := {
  sk_rx : list rd_event;
  sk_wq : list wr_event;
  sk_tx : list Z;
  sk_errno : Z;
  sk_selects : list select_answer
}.

(** [readloop] on the socket: its result and what it stored. *)
Definition conn_readloop (n : Z) : M conn (io_result * list Z) := fun c =>
  let o := readloop (sk_rx c) (sk_errno c) n in
  (Ok (ro_res o, ro_bytes o),
   {| sk_rx := ro_rx o; sk_wq := sk_wq c; sk_tx := sk_tx c; sk_errno := ro_errno o;
      sk_selects := sk_selects c |}).

(** [writeloop] on the socket. *)
Definition conn_writeloop (buffer : list Z) : M conn io_result := fun c =>
  let o := writeloop (sk_wq c) (sk_errno c) buffer in
  (Ok (wo_res o),
   {| sk_rx := sk_rx c; sk_wq := wo_wq o; sk_tx := sk_tx c ++ wo_bytes o; sk_errno := wo_errno o;
      sk_selects := sk_selects c |}).

Definition conn_select : M conn select_answer := fun c =>
  match sock_try_select (sk_selects c) (sk_errno c) with
  | Ok (s, errno, rest) =>
      (Ok s, {| sk_rx := sk_rx c; sk_wq := sk_wq c; sk_tx := sk_tx c; sk_errno := errno;
                sk_selects := rest |})
  | Stop e => (Stop e, c)
  end.

(** Read a whole struct or buffer; [on_fail] is what the caller does on -1. *)
Definition conn_read_all (n : Z) (on_fail : stop) : M conn (list Z) :=
  '(r, bs) ← conn_readloop n;
  match (r : io_result) with
  | IoDone => mret bs
  | IoFail => stopM on_fail
  | IoBlock => stopM SBlock
  end.

Definition conn_write_all (buffer : list Z) (on_fail : stop) : M conn unit :=
  r ← conn_writeloop buffer;
  match (r : io_result) with
  | IoDone => mret tt
  | IoFail => stopM on_fail
  | IoBlock => stopM SBlock
  end.

(** * Lemmas *)

(** Enough data is to come: the reads succeed. *)
Lemma conn_readloop_spec n c :
  0 <= n <= zlen (incoming (sk_rx c)) ->
  exists c', conn_readloop n c = (Ok (IoDone, take (Z.to_nat n) (incoming (sk_rx c))), c') /\
    incoming (sk_rx c') = drop (Z.to_nat n) (incoming (sk_rx c)) /\
    sk_tx c' = sk_tx c /\ sk_wq c' = sk_wq c /\ sk_selects c' = sk_selects c.
Proof.
  intros Hn. pose proof (readloop_spec (sk_rx c) (sk_errno c) n ltac:(lia)) as H. cbn zeta in H.
  replace (n <=? zlen (incoming (sk_rx c))) with true in H by lia. destruct H as (H1 & H2 & H3).
  unfold conn_readloop. rewrite H1, H2. eexists. split; [reflexivity |]. cbn. done.
Qed.

Lemma conn_read_all_spec n f c :
  0 <= n <= zlen (incoming (sk_rx c)) ->
  exists c', conn_read_all n f c = (Ok (take (Z.to_nat n) (incoming (sk_rx c))), c') /\
    incoming (sk_rx c') = drop (Z.to_nat n) (incoming (sk_rx c)) /\
    sk_tx c' = sk_tx c /\ sk_wq c' = sk_wq c /\ sk_selects c' = sk_selects c.
Proof.
  intros Hn. destruct (conn_readloop_spec n c Hn) as (c' & E & H).
  exists c'. split; [| done]. unfold conn_read_all. by rewrite (bindM_eq _ _ _ _ _ E).
Qed.

(** No permanent error is in store for the writer. *)
Definition wq_clean (wq : list wr_event) : Prop :=
  Forall (fun w => match w with WrErr e => io_transient e = true | WrAccept _ => True end) wq.

Lemma writeloop_clean wq e buffer :
  wq_clean wq ->
  wo_res (writeloop wq e buffer) = IoDone /\ wo_bytes (writeloop wq e buffer) = buffer.
Proof.
  intros Hc. destruct (writeloop_spec wq e buffer) as (rest & H1 & H2).
  destruct (wo_res _) eqn:E; [| | done].
  - subst rest. by rewrite app_nil_r in H1.
  - destruct H2 as (_ & er & Hin & Ht). unfold wq_clean in Hc. rewrite list.Forall_forall in Hc.
    specialize (Hc _ Hin). simpl in Hc. congruence.
Qed.

Lemma writeloop_wq_clean wq e buffer : wq_clean wq -> wq_clean (wo_wq (writeloop wq e buffer)).
Proof.
  revert e buffer. induction wq as [| ev wq IH]; intros e buffer Hc; simpl; [by destruct (_ =? _) |].
  apply Forall_cons_1 in Hc as Hc'. destruct Hc' as [Hev Hc'].
  destruct (zlen buffer =? 0); [done |].
  destruct ev as [n | er]; simpl.
  - by apply IH.
  - rewrite Hev. by apply IH.
Qed.

Lemma conn_writeloop_spec buffer c :
  wq_clean (sk_wq c) ->
  exists c', conn_writeloop buffer c = (Ok IoDone, c') /\ sk_tx c' = sk_tx c ++ buffer /\
    sk_rx c' = sk_rx c /\ wq_clean (sk_wq c') /\ sk_selects c' = sk_selects c.
Proof.
  intros Hc. destruct (writeloop_clean (sk_wq c) (sk_errno c) buffer Hc) as (H1 & H2).
  unfold conn_writeloop. rewrite H1, H2. eexists. split; [reflexivity |]. cbn.
  split_and!; try done. by apply writeloop_wq_clean.
Qed.

Lemma conn_write_all_spec buffer f c :
  wq_clean (sk_wq c) ->
  exists c', conn_write_all buffer f c = (Ok tt, c') /\ sk_tx c' = sk_tx c ++ buffer /\
    sk_rx c' = sk_rx c /\ wq_clean (sk_wq c') /\ sk_selects c' = sk_selects c.
Proof.
  intros Hc. destruct (conn_writeloop_spec buffer c Hc) as (c' & E & H).
  exists c'. split; [| done]. unfold conn_write_all. by rewrite (bindM_eq _ _ _ _ _ E).
Qed.

Definition EADDRNOTAVAIL_answer : answer := {| a_ret := -1; a_errno := EADDRNOTAVAIL |}.

Lemma bind_loop_retries k n rest slept :
  (k < n)%nat ->
  bind_loop n (replicate k EADDRNOTAVAIL_answer ++ rest) slept =
    bind_loop (n - k) rest (slept + Z.of_nat k).
Proof.
  revert n slept. induction k as [| k IH]; intros n slept Hk.
  { simpl. rewrite Nat.sub_0_r. f_equal. lia. }
  destruct n as [| [| n]]; [lia | lia |]. cbn [replicate app bind_loop].
  change (a_ret EADDRNOTAVAIL_answer =? 0) with false.
  change (a_errno EADDRNOTAVAIL_answer =? EADDRNOTAVAIL) with true. cbn [negb].
  change (bind_loop (S n) (replicate k EADDRNOTAVAIL_answer ++ rest) (slept + 1) =
    bind_loop (S n - k) rest (slept + Z.of_nat (S k))).
  rewrite IH by lia. f_equal. lia.
Qed.

(** * Properties *)

(** [sock_try_bind] waits out up to nine "address not available" answers, then
    returns the answer that follows; ten of them in a row make it give up, and any
    other error, "in use" included, ends it at once. *)
Theorem sock_try_bind_retries k a rest :
  (k <= 9)%nat -> a_errno a <> EADDRNOTAVAIL \/ a_ret a = 0 ->
  sock_try_bind (replicate k EADDRNOTAVAIL_answer ++ a :: rest) = Ok (a_ret a, Z.of_nat k) /\
  sock_try_bind (replicate 10 EADDRNOTAVAIL_answer ++ rest) = Ok (-1, 9).
Proof.
  intros Hk Ha. split; [| reflexivity]. unfold sock_try_bind. rewrite bind_loop_retries by lia.
  destruct (10 - k)%nat as [| n] eqn:E; [lia |]. simpl.
  destruct (Z.eqb_spec (a_ret a) 0) as [-> | Hr]; [done |].
  destruct (Z.eqb_spec (a_errno a) EADDRNOTAVAIL); [by destruct Ha | done].
Qed.

Lemma sock_try_bind_retries_witness :
  sock_try_bind [EADDRNOTAVAIL_answer; EADDRNOTAVAIL_answer; {| a_ret := -1; a_errno := EADDRINUSE |}] =
    Ok (-1, 2).
Proof.
  apply (sock_try_bind_retries 2 {| a_ret := -1; a_errno := EADDRINUSE |} []).
  - lia.
  - left. vm_compute. discriminate.
Defined.

(** [sock_try_connect] on a socket it could make non-blocking reports success
    only for a connection that is up: [connect] was taken, the socket became
    writable in time, SO_ERROR is 0, and the socket is blocking again. *)
Theorem sock_try_connect_sound fd errno0 unblocking connects selects gs so_error blocking e :
  unblocking <> -1 ->
  sock_try_connect fd errno0 unblocking connects selects gs so_error blocking = Ok (0, e) ->
  e = 0 /\ so_error = 0 /\ gs <> -1 /\ blocking <> -1 /\
  (exists e', connect_loop connects errno0 = Ok (true, e')) /\
  exists s, s ∈ selects /\ sel_ret s <> -1 /\ FD_ISSET fd (sel_wfds s) = true.
Proof.
  intros Hu. unfold sock_try_connect. replace (unblocking =? -1) with false by lia.
  destruct (connect_loop connects errno0) as [[ok e1] | st]; [| done]. cbn [mbind res_bind].
  destruct ok; cbn [negb]; [| destruct (blocking =? -1); done].
  destruct (sock_try_select selects e1) as [[[s e'] rest] | st] eqn:Es; [| done].
  cbn [mbind res_bind].
  assert (Hs : s ∈ selects).
  { clear -Es. revert e1 Es. induction selects as [| x l IH]; intros e1; simpl; [done |].
    repeat (case_match; simplify_eq; try done); intros; simplify_eq; try (by left); right; eauto. }
  destruct (sel_ret s =? -1) eqn:E1; [cbn; destruct (blocking =? -1); done |].
  destruct (FD_ISSET fd (sel_wfds s)) eqn:E2; cbn; [| destruct (blocking =? -1); done].
  destruct (gs =? -1) eqn:E3; cbn; [destruct (blocking =? -1); done |].
  destruct (blocking =? -1) eqn:E4; [done |].
  destruct (so_error =? EINPROGRESS) eqn:E5; [done |].
  destruct (Z.eqb_spec so_error 0) as [-> | Hne]; intros [= <-].
  split_and!; [done | done | lia | lia | eauto |]. exists s. split_and!; [done | lia | done].
Qed.

Lemma sock_try_connect_sound_witness :
  let sel := {| sel_ret := 1; sel_errno := 0; sel_rfds := []; sel_wfds := [5]; sel_efds := [] |} in
  let connects := [{| a_ret := -1; a_errno := EINTR |}; {| a_ret := -1; a_errno := EINPROGRESS |}] in
  sock_try_connect 5 0 0 connects [sel] 0 0 0 = Ok (0, 0) /\
  exists s, s ∈ [sel] /\ sel_ret s <> -1 /\ FD_ISSET 5 (sel_wfds s) = true.
Proof.
  intros sel connects. assert (E : sock_try_connect 5 0 0 connects [sel] 0 0 0 = Ok (0, 0)) by reflexivity.
  split; [exact E |].
  apply (sock_try_connect_sound 5 0 0 connects [sel] 0 0 0 0); [lia | exact E].
Defined.
