(* ===== verification/Parse.v ===== *)
(** * Parsing addresses and ports

    Models src/src/common/parse.c and parse.h. A C string is the list of its
    bytes before the NUL. [inet_pton] is an argument of the definitions that
    call it, one function per address family: the address bytes, or [None] where
    the call does not return 1. *)

From S2P Require Import Prelude IoUtil.

Definition AF_UNIX : Z := 1.
Definition AF_INET : Z := 2.
Definition AF_INET6 : Z := 10.

(** [union mysockaddr]: the family, the port (common to v4 and v6), the address
    bytes of the two IP views and the path of the UNIX view. *)
Record mysockaddr := {
  family : Z;
  sin_port : Z;
  sin_addr : list Z;
  sin6_addr : list Z;
  sun_path : list Z
}.

#[export] Instance mysockaddr_eta : Settable mysockaddr := fun a =>
  Build_mysockaddr (family a) (sin_port a) (sin_addr a) (sin6_addr a) (sun_path a).

(** A cleared union. *)
Definition zero_sockaddr : mysockaddr :=
  {| family := 0; sin_port := 0; sin_addr := replicate 4 0; sin6_addr := replicate 16 0; sun_path := [] |}.

Record ip_and_mask := { ip : mysockaddr; mask : Z }.

(** ** atoi *)

Definition is_space (c : Z) : bool := (c =? 32) || ((9 <=? c) && (c <=? 13)).
Definition is_digit (c : Z) : bool := (48 <=? c) && (c <=? 57).

Fixpoint skip_space (s : list Z) : list Z :=
  match s with
  | c :: s' => if is_space c then skip_space s' else s
  | [] => []
  end.

Fixpoint digits_value (acc : Z) (s : list Z) : Z :=
  match s with
  | c :: s' => if is_digit c then digits_value (10 * acc + (c - 48)) s' else acc
  | [] => acc
  end.

Definition clamp_long (z : Z) : Z := Z.max (- 2 ^ 63) (Z.min z (2 ^ 63 - 1)).

(** [(int) strtol(s, NULL, 10)]. *)
Definition atoi (s : list Z) : Z :=
  s32 (clamp_long
    match skip_space s with
    | c :: s' =>
        if c =? 45 then - digits_value 0 s'
        else if c =? 43 then digits_value 0 s'
        else digits_value 0 (c :: s')
    | [] => 0
    end).

(** ** Addresses *)

Definition IS_IP_VALID_CHAR (x : Z) : bool :=
  ((48 <=? x) && (x <=? 57)) || ((97 <=? x) && (x <=? 102)) || ((65 <=? x) && (x <=? 70)) ||
  (x =? 58) || (x =? 46).

(** [for (; i < 64 && IS_IP_VALID_CHAR(src[i]); i++) temp[j++] = src[i];] *)
Fixpoint copy_ip_chars (n : nat) (src : list Z) : list Z :=
  match n, src with
  | S n', c :: src' => if IS_IP_VALID_CHAR c then c :: copy_ip_chars n' src' else []
  | _, _ => []
  end.

(** [temp]: the characters behind an optional opening bracket. *)
Definition ip_temp (src : list Z) : list Z :=
  match src with
  | c :: src' => if c =? 91 then copy_ip_chars 63 src' else copy_ip_chars 64 src
  | [] => []
  end.

Section Parsing.
Context (inet_pton4 inet_pton6 : list Z -> option (list Z)).

(** [None] is the return value 0. The address family and bytes go to [out]; a
    full [temp] has its NUL stored behind its end. *)
Definition parse_ip_to_sockaddr (out : mysockaddr) (src : list Z) : res (option mysockaddr) :=
  let temp := ip_temp src in
  if 64 <=? zlen temp then Stop SFault
  else if bool_decide (temp = [48]) then
    Ok (Some (out <| family := AF_INET |> <| sin_addr := replicate 4 0 |>))
  else
    match inet_pton4 temp with
    | Some a => Ok (Some (out <| sin_addr := a |> <| family := AF_INET |>))
    | None =>
        match inet_pton6 temp with
        | Some a => Ok (Some (out <| sin6_addr := a |> <| family := AF_INET6 |>))
        | None => Ok None
        end
    end.

Definition parse_to_sockaddr (out : mysockaddr) (address : list Z) : res (option mysockaddr) :=
  match address with
  | c :: _ =>
      if c =? 47 then Ok (Some (out <| family := AF_UNIX |> <| sun_path := take 108 address |>))
      else parse_ip_to_sockaddr out address
  | [] => parse_ip_to_sockaddr out address
  end.

Definition MAX_MASK_BITS (outentry : mysockaddr) : Z := if family outentry =? AF_INET then 32 else 128.

(** What follows the first slash, if there is one. *)
Fixpoint after_slash (entry : list Z) : option (list Z) :=
  match entry with
  | [] => None
  | c :: entry' => if c =? 47 then Some entry' else after_slash entry'
  end.

(** One entry of the list; [None] is [return i]. *)
Definition parse_acl_entry (entry : list Z) : res (option ip_and_mask) :=
  r ← parse_ip_to_sockaddr zero_sockaddr entry;
  match (r : option mysockaddr) with
  | None => Ok None
  | Some a =>
      match after_slash entry with
      | Some s =>
          let m := atoi s in
          if (m <? 1) || (MAX_MASK_BITS a <? m) then Ok None else Ok (Some {| ip := a; mask := m |})
      | None => Ok (Some {| ip := a; mask := MAX_MASK_BITS a |})
      end
  end.

(** The entries up to the first bad one; their number is the return value. *)
Fixpoint parse_acl (entries : list (list Z)) : res (list ip_and_mask) :=
  match entries with
  | [] => Ok []
  | e :: entries' =>
      r ← parse_acl_entry e;
      match (r : option ip_and_mask) with
      | None => Ok []
      | Some m => rest ← parse_acl entries'; Ok (m :: rest)
      end
  end.
End Parsing.

(** [parse_port]: a port out of range is fatal. *)
Definition parse_port (s_port : list Z) (out : mysockaddr) : res mysockaddr :=
  let raw_port := atoi s_port in
  if (raw_port <? 0) || (65535 <? raw_port) then Stop SFatal
  else Ok (out <| sin_port := htobe16 raw_port |>).

(** * Lemmas *)

(** A decimal numeral. *)
Definition decimal (s : list Z) : Prop := Forall (fun c => is_digit c = true) s.

Lemma digits_value_app acc s r :
  decimal s -> (forall c r', r = c :: r' -> is_digit c = false) ->
  digits_value acc (s ++ r) = digits_value acc s.
Proof.
  intros Hs Hr. revert acc. induction Hs as [| c s Hc _ IH]; intros acc; simpl.
  - destruct r as [| c r']; [done |]. simpl. by rewrite (Hr c r').
  - rewrite Hc. apply IH.
Qed.

Lemma atoi_range s : - 2 ^ 31 <= atoi s < 2 ^ 31.
Proof.
  unfold atoi, s32. match goal with |- context [?z mod 2 ^ 32] => pose proof (Z.mod_pos_bound z (2 ^ 32) ltac:(lia)) end.
  lia.
Qed.

Lemma s32_id z : - 2 ^ 31 <= z < 2 ^ 31 -> s32 z = z.
Proof. intros H. unfold s32. rewrite Z.mod_small; lia. Qed.

(** An IP address of either family with bytes for an address. *)
Definition addr_ok (a : mysockaddr) : Prop :=
  (family a = AF_INET \/ family a = AF_INET6) /\
  length (sin_addr a) = 4%nat /\ bytes (sin_addr a) /\
  length (sin6_addr a) = 16%nat /\ bytes (sin6_addr a).

Definition entry_ok (e : ip_and_mask) : Prop :=
  addr_ok (ip e) /\ 1 <= mask e <= MAX_MASK_BITS (ip e).

(** What [inet_pton] documents about its result. *)
Definition pton_ok (pton : list Z -> option (list Z)) (n : nat) : Prop :=
  forall s a, pton s = Some a -> length a = n /\ bytes a.

Section ParsingFacts.
Context (inet_pton4 inet_pton6 : list Z -> option (list Z)).
Context (H4 : pton_ok inet_pton4 4) (H6 : pton_ok inet_pton6 16).

Lemma zero_sockaddr_bytes :
  length (sin_addr zero_sockaddr) = 4%nat /\ bytes (sin_addr zero_sockaddr) /\
  length (sin6_addr zero_sockaddr) = 16%nat /\ bytes (sin6_addr zero_sockaddr).
Proof. split_and!; try done; repeat constructor; done. Qed.

Lemma parse_ip_ok src a :
  parse_ip_to_sockaddr inet_pton4 inet_pton6 zero_sockaddr src = Ok (Some a) -> addr_ok a.
Proof using H4 H6.
  unfold parse_ip_to_sockaddr. destruct zero_sockaddr_bytes as (Z1 & Z2 & Z3 & Z4).
  cbn zeta. set (temp := ip_temp src). destruct (64 <=? zlen temp); [done |].
  destruct (bool_decide (temp = [48])).
  { intros [= <-]. split_and!; try done. by left. }
  destruct (inet_pton4 temp) as [b |] eqn:E4.
  { intros [= <-]. destruct (H4 _ _ E4). split_and!; try done. by left. }
  destruct (inet_pton6 temp) as [b |] eqn:E6; [| done].
  intros [= <-]. destruct (H6 _ _ E6). split_and!; try done. by right.
Qed.

Lemma parse_acl_entry_ok e m :
  parse_acl_entry inet_pton4 inet_pton6 e = Ok (Some m) -> entry_ok m.
Proof using H4 H6.
  unfold parse_acl_entry. intros H. apply bind_Ok in H as (r & Hr & H).
  destruct r as [a |]; [| done]. pose proof (parse_ip_ok _ _ Hr) as Ha.
  destruct (after_slash e) as [s |].
  - destruct ((atoi s <? 1) || _) eqn:E; [done |]. injection H as <-.
    split; [done |]. cbn. lia.
  - injection H as <-. split; [done |]. cbn. unfold MAX_MASK_BITS. destruct (_ =? _); lia.
Qed.

(** Either every entry was parsed or the entry behind the last one is bad. *)
Lemma parse_acl_spec entries l :
  parse_acl inet_pton4 inet_pton6 entries = Ok l ->
  Forall entry_ok l /\ (length l <= length entries)%nat /\
  Forall2 (fun e m => parse_acl_entry inet_pton4 inet_pton6 e = Ok (Some m)) (take (length l) entries) l /\
  forall bad, entries !! length l = Some bad -> parse_acl_entry inet_pton4 inet_pton6 bad = Ok None.
Proof using H4 H6.
  revert l. induction entries as [| e entries IH]; intros l; cbn [parse_acl].
  { intros [= <-]. split_and!; done. }
  intros H. apply bind_Ok in H as (r & Hr & H). destruct r as [m |].
  - apply bind_Ok in H as (rest & Hrest & [= <-]).
    destruct (IH rest Hrest) as (I1 & I2 & I3 & I4). split_and!.
    + constructor; [by apply parse_acl_entry_ok with e | done].
    + simpl. lia.
    + simpl. by constructor.
    + simpl. done.
  - injection H as <-. split_and!; [done | simpl; lia | done |]. by intros bad [= <-].
Qed.
End ParsingFacts.

Lemma copy_ip_chars_valid n src :
  Forall (fun c => IS_IP_VALID_CHAR c = true) (take n src) -> copy_ip_chars n src = take n src.
Proof.
  revert src. induction n as [| n IH]; intros [| c src] H; try done. simpl in *.
  apply Forall_cons_1 in H as [-> H]. by rewrite IH.
Qed.

Lemma digit_not_space c : is_digit c = true -> is_space c = false.
Proof. unfold is_digit, is_space. lia. Qed.

Lemma digits_value_ge acc s : 0 <= acc -> decimal s -> acc <= digits_value acc s.
Proof.
  intros Ha Hs. revert acc Ha. induction Hs as [| c s Hc _ IH]; intros acc Ha; simpl; [lia |].
  rewrite Hc. unfold is_digit in Hc. etrans; [| apply IH; lia]. lia.
Qed.

(** [atoi] on a numeral that fits an [int], whatever follows it. *)
Lemma atoi_decimal s r :
  decimal s -> s <> [] -> digits_value 0 s < 2 ^ 31 ->
  (forall c r', r = c :: r' -> is_digit c = false) -> atoi (s ++ r) = digits_value 0 s.
Proof.
  intros Hs Hne Hv Hr. destruct s as [| c s]; [done |]. unfold atoi.
  pose proof (Forall_cons_1 _ _ _ Hs) as [Hc _]. cbn [app skip_space]. rewrite (digit_not_space c Hc).
  assert ((c =? 45) = false) as -> by (unfold is_digit in Hc; lia).
  assert ((c =? 43) = false) as -> by (unfold is_digit in Hc; lia).
  change (c :: s ++ r) with ((c :: s) ++ r). rewrite digits_value_app by done.
  pose proof (digits_value_ge 0 (c :: s) ltac:(lia) Hs).
  unfold clamp_long. rewrite Z.min_l, Z.max_r, s32_id by lia. done.
Qed.

(** * Properties *)

(** A decimal port number up to 65535 is stored in network byte order; any
    other number is fatal. *)
Theorem parse_port_correct s r out :
  decimal s -> s <> [] -> digits_value 0 s < 2 ^ 31 ->
  (forall c r', r = c :: r' -> is_digit c = false) ->
  parse_port (s ++ r) out =
    (if digits_value 0 s <=? 65535 then Ok (out <| sin_port := htobe16 (digits_value 0 s) |>)
     else Stop SFatal) /\
  (digits_value 0 s <= 65535 -> be16toh (htobe16 (digits_value 0 s)) = digits_value 0 s).
Proof.
  intros Hs Hne Hv Hr. pose proof (digits_value_ge 0 s ltac:(lia) Hs). unfold parse_port.
  rewrite atoi_decimal by done. replace (digits_value 0 s <? 0) with false by lia. split.
  - cbn [orb]. destruct (65535 <? digits_value 0 s) eqn:E; destruct (_ <=? 65535) eqn:E2; done || lia.
  - intros Hle. apply bswap_involutive. change (256 ^ Z.of_nat 2) with 65536. lia.
Qed.

Lemma parse_port_correct_witness :
  parse_port [52; 55; 55; 55] zero_sockaddr = Ok (zero_sockaddr <| sin_port := htobe16 4777 |>).
Proof.
  apply (parse_port_correct [52; 55; 55; 55] [] zero_sockaddr).
  - repeat constructor.
  - discriminate.
  - vm_compute. reflexivity.
  - discriminate.
Defined.

(** An address argument of 64 characters that may occur in an address makes
    [parse_ip_to_sockaddr] store its terminating NUL one byte behind [temp]. *)
Theorem parse_ip_overflows_temp pton4 pton6 out c src :
  c <> 91 -> zlen (c :: src) = 64 ->
  Forall (fun x => IS_IP_VALID_CHAR x = true) (c :: src) ->
  parse_ip_to_sockaddr pton4 pton6 out (c :: src) = Stop SFault.
Proof.
  intros Hc Hl Hv. unfold parse_ip_to_sockaddr, ip_temp.
  replace (c =? 91) with false by lia.
  assert (Ht : take 64 (c :: src) = c :: src) by (apply take_ge; unfold zlen in Hl; lia).
  rewrite copy_ip_chars_valid by by rewrite Ht. rewrite Ht, Hl. done.
Qed.

Lemma parse_ip_overflows_temp_witness :
  parse_ip_to_sockaddr (fun _ => None) (fun _ => None) zero_sockaddr (replicate 64 49) = Stop SFault.
Proof.
  apply (parse_ip_overflows_temp (fun _ => None) (fun _ => None) zero_sockaddr 49 (replicate 63 49)).
  - lia.
  - reflexivity.
  - repeat constructor.
Defined.
