(* ===== verification/ReadWrite.v ===== *)
(** * The NBD client side

    Models src/src/common/readwrite.c: the hello in both directions, single reads,
    writes and disconnects over a connected socket, connecting one, and the range
    check of the read and write modes. [rand()] is an argument of the definitions that use it. *)

From S2P Require Import Prelude Bitset NbdTypes IoUtil SockUtil Parse.

(** ** Connecting *)

(** What the calls of [socket_connect] and [sock_try_connect] answer. *)
Record connect_answers := {
  ck_socket : Z;
  ck_bind : Z;
  ck_errno : Z;
  ck_unblocking : Z;
  ck_connects : list answer;
  ck_selects : list select_answer;
  ck_getsockopt : Z;
  ck_so_error : Z;
  ck_blocking : Z
}.

(** [from] says whether a source address is given. *)
Definition socket_connect (from : bool) (k : connect_answers) : res Z :=
  let fd := ck_socket k in
  if fd <? 0 then Ok (-1)
  else if from && (ck_bind k <? 0) then Ok (-1)
  else
    '(r, _) ← sock_try_connect fd (ck_errno k) (ck_unblocking k) (ck_connects k) (ck_selects k)
                (ck_getsockopt k) (ck_so_error k) (ck_blocking k);
    if r <? 0 then Ok (-1) else Ok fd.

(** ** The hello *)

(** [strncmp(a, b, n) == 0]. *)
Fixpoint strncmp_eq (n : nat) (a b : list Z) : bool :=
  match n, a, b with
  | O, _, _ => true
  | S n', x :: a', y :: b' =>
      if negb (x =? y) then false else if x =? 0 then true else strncmp_eq n' a' b'
  | _, _, _ => false
  end.

(** [None] is the return value 0; [Some] has what goes to [*out_size], [*out_flags]. *)
Definition nbd_check_hello (init_raw : nbd_init_raw) : option (Z * Z) :=
  if negb (strncmp_eq 8 (ir_passwd init_raw) INIT_PASSWD) then None
  else if negb (be64toh (ir_magic init_raw) =? INIT_MAGIC) then None
  else Some (be64toh (ir_size init_raw), be32toh (ir_flags init_raw)).

Definition socket_nbd_read_hello : M conn (option (Z * Z)) :=
  '(r, bs) ← conn_readloop NBD_INIT_SIZE;
  match (r : io_result) with
  | IoDone => mret (nbd_check_hello (of_wire bs))
  | IoFail => mret None
  | IoBlock => stopM SBlock
  end.

Definition nbd_hello_to_buf (out_size out_flags : Z) : nbd_init_raw :=
  nbd_h2r_init
    {| i_passwd := INIT_PASSWD; i_magic := INIT_MAGIC; i_size := u64 out_size; i_flags := out_flags;
       i_reserved := [] |}
    zero_init_raw.

Definition socket_nbd_write_hello (out_size out_flags : Z) : M conn Z :=
  r ← conn_writeloop (to_wire (nbd_hello_to_buf out_size out_flags));
  match (r : io_result) with
  | IoDone => mret 1
  | _ => mret 0
  end.

(** ** Requests *)

Definition fill_request (rand1 rand2 type flags from len : Z) : nbd_request_raw :=
  {| qr_magic := htobe32 REQUEST_MAGIC;
     qr_type := htobe16 type;
     qr_flags := htobe16 flags;
     qr_handle := Z.lor (Z.shiftl rand1 32) rand2;
     qr_from := htobe64 from;
     qr_len := htobe32 len |}.

Definition read_reply (request_raw_handle : Z) : M conn nbd_reply :=
  bs ← conn_read_all NBD_REPLY_SIZE SError;
  let reply_raw := of_wire bs in
  let reply := nbd_r2h_reply reply_raw in
  if negb (p_magic reply =? REPLY_MAGIC) then stopM SError
  else if negb (p_error reply =? 0) then stopM SError
  else if negb (request_raw_handle =? pr_handle reply_raw) then stopM SError
  else mret reply.

Definition wait_for_data : M conn unit :=
  s ← conn_select;
  if sel_ret s =? -1 then stopM SFatal
  else if sel_ret s =? 0 then stopM SError
  else mret tt.

(** [splice_via_pipe_loop] from the socket to a descriptor that takes everything. *)
Definition conn_splice_out (fuel : nat) (len : Z) : M conn (list Z) := fun c =>
  match splice_via_pipe_loop fuel (sk_rx c) len 0 with
  | Ok (r, out, rx) =>
      (if r <? 0 then Stop SFatal else Ok out,
       {| sk_rx := rx; sk_wq := sk_wq c; sk_tx := sk_tx c; sk_errno := sk_errno c;
          sk_selects := sk_selects c |})
  | Stop e => (Stop e, c)
  end.

(** [socket_nbd_read]: [out_buf] says whether a buffer was given or the data goes to
    [out_fd]; the result is the data. *)
Definition socket_nbd_read (fuel : nat) (rand1 rand2 from len : Z) (out_buf : bool)
    : M conn (list Z) :=
  let request_raw := fill_request rand1 rand2 REQUEST_READ 0 from len in
  _ ← conn_write_all (to_wire request_raw) SFatal;
  _ ← wait_for_data;
  _ ← read_reply (qr_handle request_raw);
  if out_buf then conn_read_all len SFatal else conn_splice_out fuel len.

(** [socket_nbd_write]: the data comes from a buffer ([inl]) or is spliced from
    [in_fd] ([inr]: what that descriptor has to give). *)
Definition socket_nbd_write (fuel : nat) (rand1 rand2 from len : Z)
    (source : list Z + list rd_event) : M conn unit :=
  let request_raw := fill_request rand1 rand2 REQUEST_WRITE 0 from len in
  _ ← conn_write_all (to_wire request_raw) SError;
  _ ← match source with
      | inl in_buf => data ← liftR (mem_load in_buf 0 len); conn_write_all data SError
      | inr in_rx =>
          '(r, out, _) ← liftR (splice_via_pipe_loop fuel in_rx len 0);
          if r <? 0 then stopM SError else conn_write_all out SError
      end;
  _ ← wait_for_data;
  _ ← read_reply (qr_handle request_raw);
  mret tt.

Definition socket_nbd_disconnect (rand1 rand2 : Z) : M conn Z :=
  _ ← conn_write_all (to_wire (fill_request rand1 rand2 REQUEST_DISCONNECT 0 0 0)) SFatal;
  mret 1.

(** ** The read and write modes *)

(** [from] is a [uint64_t], [len] a [uint32_t]. *)
Record mode_readwrite_params := {
  rw_connect_to : mysockaddr;
  rw_connect_from : mysockaddr;
  rw_from : Z;
  rw_len : Z;
  rw_data_fd : Z
}.

Definition CHECK_RANGE (params : mode_readwrite_params) : M conn unit :=
  hello ← socket_nbd_read_hello;
  match (hello : option (Z * Z)) with
  | Some (size, _) =>
      let endpoint := rw_from params +64 rw_len params in
      if (size <? endpoint) || (endpoint <? rw_from params) then stopM SFatal else mret tt
  | None => stopM SFatal
  end.

(** [client] is the result of [socket_connect]. *)
Definition do_read (fuel : nat) (rand1 rand2 client : Z) (params : mode_readwrite_params)
    : M conn (list Z) :=
  if client <? 0 then stopM SFatal
  else
    _ ← CHECK_RANGE params;
    socket_nbd_read fuel rand1 rand2 (rw_from params) (rw_len params) false.

Definition do_write (fuel : nat) (rand1 rand2 client : Z) (params : mode_readwrite_params)
    (data : list rd_event) : M conn unit :=
  if client <? 0 then stopM SFatal
  else
    _ ← CHECK_RANGE params;
    socket_nbd_write fuel rand1 rand2 (rw_from params) (rw_len params) (inr data).

(** * Lemmas *)

Lemma strncmp_eq_passwd l : length l = 8%nat -> strncmp_eq 8 l INIT_PASSWD = true -> l = INIT_PASSWD.
Proof.
  intros Hl. do 9 (destruct l as [| ? l]; try done). cbn [strncmp_eq INIT_PASSWD].
  repeat (match goal with |- context [?x =? ?y] => destruct (Z.eqb_spec x y); try lia; subst end; cbn;
          try done).
Qed.

Lemma hello_raw_wf size flags : init_raw_wf (nbd_hello_to_buf size flags).
Proof.
  unfold nbd_hello_to_buf, nbd_h2r_init. cbn.
  split_and!; try apply bswap_bits; by_decide.
Qed.

Lemma nbd_check_hello_written size flags :
  0 <= size < 2 ^ 64 -> 0 <= flags < 2 ^ 32 ->
  nbd_check_hello (of_wire (to_wire (nbd_hello_to_buf size flags))) = Some (size, flags).
Proof.
  intros Hs Hf. rewrite of_to_wire by apply hello_raw_wf.
  unfold nbd_check_hello, nbd_hello_to_buf, nbd_h2r_init. cbn [ir_passwd ir_magic ir_size ir_flags
    i_passwd i_magic i_size i_flags]. change (strncmp_eq 8 INIT_PASSWD INIT_PASSWD) with true.
  cbn [negb]. unfold be64toh, htobe64, be32toh, htobe32.
  rewrite !bswap_back by (done || apply u64_range). rewrite u64_id by done. done.
Qed.

Lemma nbd_check_hello_sound raw size flags :
  init_raw_wf raw -> nbd_check_hello raw = Some (size, flags) ->
  ir_passwd raw = INIT_PASSWD /\ be64toh (ir_magic raw) = INIT_MAGIC /\
  size = be64toh (ir_size raw) /\ flags = be32toh (ir_flags raw).
Proof.
  intros ([_ Hl] & _). unfold nbd_check_hello.
  destruct (strncmp_eq 8 (ir_passwd raw) INIT_PASSWD) eqn:E; [| done]. cbn [negb].
  destruct (Z.eqb_spec (be64toh (ir_magic raw)) INIT_MAGIC); [| done]. cbn [negb].
  intros [= <- <-]. split_and!; try done. by apply strncmp_eq_passwd.
Qed.

(** The request [fill_request] writes, seen by the server. *)
Lemma fill_request_host rand1 rand2 type flags from len :
  0 <= type < 2 ^ 16 -> 0 <= flags < 2 ^ 16 -> 0 <= from < 2 ^ 64 -> 0 <= len < 2 ^ 32 ->
  nbd_r2h_request (fill_request rand1 rand2 type flags from len) =
    {| q_magic := REQUEST_MAGIC; q_flags := flags; q_type := type;
       q_handle := Z.lor (Z.shiftl rand1 32) rand2; q_from := from; q_len := len |}.
Proof.
  intros. unfold nbd_r2h_request, fill_request. cbn. f_equal; by apply bswap_back.
Qed.

(** Handles are 64-bit words, since [rand()] is at most 2^31 - 1. *)
Lemma rand_handle rand1 rand2 :
  0 <= rand1 < 2 ^ 31 -> 0 <= rand2 < 2 ^ 31 -> 0 <= Z.lor (Z.shiftl rand1 32) rand2 < 2 ^ 64.
Proof.
  intros H1 H2. rewrite Z.shiftl_mul_pow2 by lia. apply lor_word; lia.
Qed.

Lemma fill_request_wf rand1 rand2 type flags from len :
  0 <= rand1 < 2 ^ 31 -> 0 <= rand2 < 2 ^ 31 ->
  request_raw_wf (fill_request rand1 rand2 type flags from len).
Proof.
  intros. unfold fill_request. split_and!; try apply bswap_bits; cbn; by apply rand_handle.
Qed.

(** The reply a server sends for a handle. *)
Definition reply_bytes (handle error : Z) : list Z :=
  to_wire (nbd_h2r_reply {| p_magic := REPLY_MAGIC; p_error := error; p_handle := handle |}).

Lemma length_reply_bytes h e : length (reply_bytes h e) = 16%nat.
Proof. unfold reply_bytes. rewrite reply_image. unfold handle_b, be_bytes. by autorewrite with flex. Qed.

Lemma read_reply_ok h c rest :
  0 <= h < 2 ^ 64 -> incoming (sk_rx c) = reply_bytes h 0 ++ rest ->
  exists p c', read_reply h c = (Ok p, c') /\ incoming (sk_rx c') = rest /\
    sk_tx c' = sk_tx c /\ sk_wq c' = sk_wq c /\ sk_selects c' = sk_selects c.
Proof.
  intros Hh Hi. pose proof (length_reply_bytes h 0) as Hl.
  destruct (conn_read_all_spec NBD_REPLY_SIZE SError c) as (c' & E & H1 & H2 & H3 & H4).
  { rewrite Hi, zlen_app. unfold zlen at 1. rewrite Hl. pose proof (zlen_nonneg rest).
    unfold NBD_REPLY_SIZE. lia. }
  unfold read_reply. rewrite (bindM_eq _ _ _ _ _ E).
  rewrite Hi in *. change (Z.to_nat NBD_REPLY_SIZE) with 16%nat in *.
  rewrite take_app_length' by done. rewrite drop_app_length' in H1 by done.
  assert (Hw : of_wire (reply_bytes h 0) =
    nbd_h2r_reply {| p_magic := REPLY_MAGIC; p_error := 0; p_handle := h |}).
  { unfold reply_bytes. apply of_to_wire. by apply h2r_reply_wf. }
  rewrite Hw. cbn zeta. rewrite r2h_h2r_reply by (split; [by_decide |]; split; [by_decide | exact Hh]).
  cbn [p_magic p_error nbd_h2r_reply pr_handle p_handle].
  rewrite !Z.eqb_refl. cbn [negb]. eexists _, c'. split; [reflexivity |]. exact (conj H1 (conj H2 (conj H3 H4))).
Qed.

(** Reading leaves data behind data. *)
Lemma conn_read_all_data n f c r c' :
  Forall data_event (sk_rx c) -> conn_read_all n f c = (r, c') -> Forall data_event (sk_rx c').
Proof.
  intros Hd E. destruct (readloop_data (sk_rx c) (sk_errno c) n Hd) as [H _].
  unfold conn_read_all, conn_readloop, mbind, M_bind in E. destruct (ro_res _); by injection E as _ <-.
Qed.

Lemma read_reply_data h c r c' :
  Forall data_event (sk_rx c) -> read_reply h c = (r, c') -> Forall data_event (sk_rx c').
Proof.
  intros Hd E. unfold read_reply, mbind, M_bind in E. destruct (conn_read_all NBD_REPLY_SIZE SError c) as [[bs | e] c1] eqn:E1.
  - apply (conn_read_all_data _ _ _ _ _ Hd) in E1. cbn zeta in E.
    do 3 (destruct (negb _); [by injection E as _ <- |]). by injection E as _ <-.
  - apply (conn_read_all_data _ _ _ _ _ Hd) in E1. by injection E as _ <-.
Qed.

(** A select that finds the socket readable. *)
Definition readable (s : select_answer) : Prop := 0 < sel_ret s.

Lemma wait_for_data_ok c s rest :
  readable s -> sk_selects c = s :: rest ->
  exists c', wait_for_data c = (Ok tt, c') /\ sk_rx c' = sk_rx c /\ sk_tx c' = sk_tx c /\
    sk_wq c' = sk_wq c.
Proof.
  unfold readable. intros Hs Hc. unfold wait_for_data, conn_select, mbind, M_bind. rewrite Hc. cbn.
  replace (sel_ret s =? -1) with false by lia.
  assert (E : forall e, (if negb (e =? EINTR) then Ok (s, e, rest) else Ok (s, e, rest)) =
     Ok (s, e, rest) :> res (select_answer * Z * list select_answer)) by (intros; by destruct (negb _)).
  rewrite E. cbn. replace (sel_ret s =? -1) with false by lia.
  replace (sel_ret s =? 0) with false by lia. eexists. split; [reflexivity |]. done.
Qed.

(** The range check passes only for a range the server's size covers, with no
    wrap-around, and it sends nothing. *)
Lemma CHECK_RANGE_sound params c c' r :
  0 <= rw_from params < 2 ^ 64 -> 0 <= rw_len params < 2 ^ 32 ->
  CHECK_RANGE params c = (r, c') ->
  sk_tx c' = sk_tx c /\
  (r = Ok tt -> exists size flags,
     (socket_nbd_read_hello c).1 = Ok (Some (size, flags)) /\
     rw_from params + rw_len params <= size).
Proof.
  intros Hf Hl. unfold CHECK_RANGE.
  assert (Htx : sk_tx (socket_nbd_read_hello c).2 = sk_tx c).
  { unfold socket_nbd_read_hello, conn_readloop, mbind, M_bind. cbn.
    by destruct (ro_res _). }
  destruct (socket_nbd_read_hello c) as [[[[size flags] |] | st] c1] eqn:E; cbn in Htx;
    rewrite (bindM_eq _ _ _ _ _ E); cbn.
  2,3: intros [= <- <-]; by split.
  destruct ((size <? _) || _) eqn:Eb; intros [= <- <-]; (split; [done |]); [done |].
  intros _. exists size, flags. split; [done |].
  apply orb_false_iff in Eb as [Eb1 Eb2]. apply Z.ltb_ge in Eb1, Eb2.
  destruct (decide (rw_from params + rw_len params < 2 ^ 64)) as [Hs | Hs].
  - rewrite u64_id in Eb1 by lia. lia.
  - rewrite u64_wrap in Eb2 by lia. lia.
Qed.

(** * Properties *)

(** The hello one side writes is taken by the other: [socket_nbd_write_hello]
    puts 152 bytes on the wire which, whatever follows and however they are
    cut up, [socket_nbd_read_hello] accepts with the size and flags sent, leaving
    what follows unread. *)
Theorem hello_roundtrip size flags c d rest :
  0 <= size < 2 ^ 63 -> 0 <= flags < 2 ^ 32 -> wq_clean (sk_wq c) -> sk_tx c = [] ->
  exists c', socket_nbd_write_hello size flags c = (Ok 1, c') /\ zlen (sk_tx c') = NBD_INIT_SIZE /\
    (incoming (sk_rx d) = sk_tx c' ++ rest ->
     exists d', socket_nbd_read_hello d = (Ok (Some (size, flags)), d') /\ incoming (sk_rx d') = rest).
Proof.
  intros Hs Hf Hc Ht. set (w := to_wire (nbd_hello_to_buf size flags)).
  assert (Hw : length w = 152%nat) by exact (to_wire_length (A := nbd_init_raw) _ (hello_raw_wf size flags)).
  destruct (conn_writeloop_spec w c Hc) as (c' & E & H1 & _). rewrite Ht in H1.
  exists c'. unfold socket_nbd_write_hello. fold w. rewrite (bindM_eq _ _ _ _ _ E).
  split; [done |]. rewrite H1. cbn [app]. unfold zlen at 1. rewrite Hw. split; [done |].
  intros Hi. destruct (conn_readloop_spec NBD_INIT_SIZE d) as (d' & E' & H2 & _).
  { rewrite Hi, zlen_app. unfold zlen at 1. rewrite Hw. pose proof (zlen_nonneg rest).
    unfold NBD_INIT_SIZE. lia. }
  exists d'. unfold socket_nbd_read_hello. rewrite (bindM_eq _ _ _ _ _ E').
  rewrite Hi in *. change (Z.to_nat NBD_INIT_SIZE) with 152%nat in *.
  rewrite take_app_length' by done. rewrite drop_app_length' in H2 by done. split; [| done].
  unfold mret, M_ret. subst w. by rewrite nbd_check_hello_written by lia.
Qed.

Definition quiet_conn (rx : list rd_event) : conn :=
  {| sk_rx := rx; sk_wq := []; sk_tx := []; sk_errno := 0; sk_selects := [] |}.

Lemma hello_roundtrip_witness :
  let d := quiet_conn [RdBytes (to_wire (nbd_hello_to_buf 1048576 13)); RdEof] in
  exists c', socket_nbd_write_hello 1048576 13 (quiet_conn []) = (Ok 1, c') /\
    exists d', socket_nbd_read_hello d = (Ok (Some (1048576, 13)), d') /\ incoming (sk_rx d') = [].
Proof.
  intros d.
  destruct (hello_roundtrip 1048576 13 (quiet_conn []) d []) as (c' & E & _ & H).
  - lia.
  - lia.
  - constructor.
  - reflexivity.
  - exists c'. split; [exact E |]. apply H.
    unfold socket_nbd_write_hello in E. vm_compute in E. injection E as <-. vm_compute. reflexivity.
Defined.



(** [spliceloop] asks for all of [len] each time: when the data comes in two parts and
    more follows, it takes bytes that are not its own. *)
Theorem splice_takes_too_much a b more :
  a <> [] -> b <> [] -> zlen b + zlen more <= zlen a + zlen b -> more <> [] ->
  spliceloop [RdBytes a; RdBytes (b ++ more)] (zlen a + zlen b) true 0 = Ok (zlen a + zlen b + zlen more, a ++ b ++ more, []).
Proof.
  intros Ha Hb Hl Hm. assert (Hpos : forall l : list Z, l <> [] -> 0 < zlen l) by (intros [] ?; [done | unfold zlen; cbn; lia]).
  pose proof (Hpos a Ha). pose proof (Hpos b Hb). pose proof (Hpos more Hm).
  cbn [spliceloop deliver]. rewrite zlen_app. replace (zlen a + zlen b <=? 0) with false by lia.
  replace (zlen a <=? zlen a + zlen b) with true by lia. replace (zlen a <? 0) with false by lia.
  replace (zlen a =? 0) with false by lia. replace (zlen a + zlen b <=? 0 + zlen a) with false by lia.
  replace (zlen b + zlen more <=? zlen a + zlen b) with true by lia. replace (zlen b + zlen more <? 0) with false by lia.
  replace (zlen b + zlen more =? 0) with false by lia.
  replace (zlen a + zlen b <=? 0 + zlen a + (zlen b + zlen more)) with true by lia. cbn [mbind res_bind]. do 3 f_equal. lia.
Qed.

(** While nothing has arrived, [splice_via_pipe_loop] does not wait: it goes round and
    round. *)
Theorem splice_spins fuel len : 0 < len -> splice_via_pipe_loop fuel [] len 0 = Stop SHang.
Proof.
  intros Hl. induction fuel as [| fuel IH]; [done |]. cbn [splice_via_pipe_loop].
  replace (len <=? 0) with false by lia. cbn [spliceloop]. replace (len - 0 <=? 0) with false by lia.
  cbn [mbind res_bind]. change (0 <? 0) with false. change (zlen [] =? 0) with true. cbn [spliceloop].
  change (0 <=? 0) with true. cbn [mbind res_bind]. change (0 <? 0) with false. cbn iota. change (0 + 0) with 0. by rewrite IH.
Qed.

(** The read and write modes put a request on the wire only for a range that
    lies inside the size the server announced: the check has no wrap-around. *)
Theorem range_check_sound fuel rand1 rand2 client params data c :
  0 <= rw_from params < 2 ^ 64 -> 0 <= rw_len params < 2 ^ 32 ->
  sk_tx (do_read fuel rand1 rand2 client params c).2 <> sk_tx c \/
  sk_tx (do_write fuel rand1 rand2 client params data c).2 <> sk_tx c ->
  exists size flags, (socket_nbd_read_hello c).1 = Ok (Some (size, flags)) /\
    rw_from params + rw_len params <= size.
Proof.
  intros Hf Hl. unfold do_read, do_write.
  destruct (client <? 0); [cbn; by intros [? | ?] |].
  destruct (CHECK_RANGE params c) as [r c1] eqn:E.
  rewrite !(bindM_eq _ _ _ _ _ E).
  destruct (CHECK_RANGE_sound params c c1 r Hf Hl E) as (Htx & Hok).
  destruct r as [[] | st]; [intros _; by apply Hok |]. cbn. rewrite Htx. by intros [? | ?].
Qed.

Lemma range_check_sound_witness :
  let c := quiet_conn [RdBytes (to_wire (nbd_hello_to_buf 1048576 13)); RdEof] in
  let params := {| rw_connect_to := zero_sockaddr; rw_connect_from := zero_sockaddr; rw_from := 1048064;
                   rw_len := 512; rw_data_fd := 1 |} in
  exists size flags, (socket_nbd_read_hello c).1 = Ok (Some (size, flags)) /\ 1048064 + 512 <= size.
Proof.
  intros c params. apply (range_check_sound 1 5 9 3 params [] c).
  - cbn. lia.
  - cbn. lia.
  - left. vm_compute. discriminate.
Defined.
