(* ===== verification/Client.v ===== *)
(** * The NBD server's client threads

    Models src/src/server/client.c and client.h: one thread serves one connected
    client. The state is the [struct client] with the parts of [struct server] the
    thread uses ([serve_view]), the backing file (the MAP_SHARED mapping and
    [sendfile] see the same bytes), the socket, and the answers of the system
    calls still to come. An [error()] leaves the state as it was when it struck,
    since the mapping and the allocation map outlive the thread. *)

From stdpp Require Import relations.
From S2P Require Import Prelude Bitset NbdTypes IoUtil SockUtil ReadWrite.

Definition block_allocation_resolution : Z := 4096.
Definition PAGE_SIZE : Z := 4096.
Definition CLIENT_HANDLER_TIMEOUT : Z := 120.

(** What a client thread uses of [struct server]. *)
Record serve_view := {
  sv_size : Z;
  allocation_map : bitset;
  allocation_map_built : bool;
  use_killswitch : bool;
  server_fd_closed : bool;
  sv_success : bool;
  close_signal : self_pipe;
  acl_held : bool
}.

Record client := {
  stopped : bool;
  socket : Z;                      (* descriptor numbers, -1 once closed *)
  fileno : Z;
  stop_fd : Z;                     (* read end of stop_signal *)
  sock : conn;
  file : list Z;                   (* the file; [mapped] is its first [mapped_size] bytes *)
  is_mapped : bool;
  mapped_size : Z;
  disconnect : bool;
  killswitch : option Z;           (* seconds the armed timer has left *)
  corked : bool;
  sendfiles : list (list sf_event);(* answers for each sendfileloop to come *)
  msyncs : list Z;                 (* results of the msync()s to come, then 0 *)
  synced : list (Z * Z);           (* ranges written back, latest first *)
  serve : serve_view
}.

#[export] Instance serve_view_eta : Settable serve_view := fun s =>
  Build_serve_view (sv_size s) (allocation_map s) (allocation_map_built s) (use_killswitch s)
    (server_fd_closed s) (sv_success s) (close_signal s) (acl_held s).

#[export] Instance client_eta : Settable client := fun c =>
  Build_client (stopped c) (socket c) (fileno c) (stop_fd c) (sock c) (file c) (is_mapped c)
    (mapped_size c) (disconnect c) (killswitch c) (corked c) (sendfiles c) (msyncs c) (synced c)
    (serve c).

(** ** Access to the socket, the mapping and the allocation map *)

(** A step on the client's socket. *)
Definition on_sock {A} (m : M conn A) : M client A := fun c =>
  let '(r, s) := m (sock c) in (r, c <| sock := s |>).

(** A store through [client->mapped]. *)
Definition store_mapped (off : Z) (bs : list Z) : M client unit := fun c =>
  if in_range (mapped_size c) off (zlen bs)
  then match mem_store (file c) off bs with
       | Ok f => (Ok tt, c <| file := f |>)
       | Stop e => (Stop e, c)
       end
  else (Stop SFault, c).

Definition map_set_range (from len : Z) : M client unit := fun c =>
  match bitset_set_range (allocation_map (serve c)) from len with
  | Ok m => (Ok tt, c <| serve := (serve c) <| allocation_map := m |> |>)
  | Stop e => (Stop e, c)
  end.

(** [DO_READ(client->mapped + from, len)]: what arrived is stored also when the
    read fails in the middle. *)
Definition read_to_mapped (from len : Z) : M client unit :=
  '(r, bs) ← on_sock (conn_readloop len);
  _ ← store_mapped from bs;
  match (r : io_result) with
  | IoDone => mret tt
  | IoFail => stopM SError
  | IoBlock => stopM SBlock
  end.

(** ** write_not_zeroes *)

(** [zerobuffer[0] == 0 && 0 == memcmp(zerobuffer, zerobuffer + 1, blockrun - 1)]. *)
Definition all_zeros (zerobuffer : list Z) (blockrun : Z) : bool :=
  match zerobuffer with
  | [] => false
  | b :: rest =>
      (b =? 0) &&
      bool_decide (take (Z.to_nat (blockrun - 1)) zerobuffer = take (Z.to_nat (blockrun - 1)) rest)
  end.

(** One pass of the inner loop. *)
Definition zero_block (from blockrun : Z) : M client unit :=
  zerobuffer ← on_sock (conn_read_all blockrun SError);
  if negb (all_zeros zerobuffer blockrun) then
    _ ← store_mapped from (take (Z.to_nat blockrun) zerobuffer);
    map_set_range from blockrun
  else mret tt.

Definition blockrun_at (from run : Z) : Z :=
  let blockrun := block_allocation_resolution - from mod block_allocation_resolution in
  if run <? blockrun then run else blockrun.

(** [while (run > 0)]. *)
Fixpoint zero_loop (fuel : nat) (from run : Z) : M client unit :=
  match fuel with
  | O => stopM SHang
  | S fuel' =>
      if 0 <? run then
        let blockrun := blockrun_at from run in
        _ ← zero_block from blockrun;
        zero_loop fuel' (from +64 blockrun) (run - blockrun)
      else mret tt
  end.

(** [while (len > 0)]. *)
Fixpoint write_loop (fuel : nat) (from len : Z) : M client unit :=
  match fuel with
  | O => stopM SHang
  | S fuel' =>
      if 0 <? len then
        map ← gets (fun c => allocation_map (serve c));
        run0 ← liftR (bitset_run_count map from len);
        let run := if len <? run0 then len else run0 in
        is_set ← liftR (bitset_is_set_at map from);
        _ ← (if (is_set : bool)
             then _ ← read_to_mapped from run; map_set_range from run
             else zero_loop (S (Z.to_nat run)) from run);
        write_loop fuel' (from +64 run) (len - run)
      else mret tt
  end.

(** Every pass moves at least one byte, so [len + 1] rounds are enough. *)
Definition write_not_zeroes (from len : Z) : M client unit :=
  write_loop (S (Z.to_nat len)) from len.

(** ** Requests and replies *)

(** [fd_read_request]: readloop's result and the bytes of the struct. *)
Definition fd_read_request : M conn (io_result * list Z) := conn_readloop NBD_REQUEST_SIZE.

(** [None] is the return value 0, with [*disconnected] set. *)
Definition client_read_request : M client (option nbd_request) :=
  '(r, bs) ← on_sock fd_read_request;
  match (r : io_result) with
  | IoDone => mret (Some (nbd_r2h_request (of_wire bs)))
  | IoBlock => stopM SBlock
  | IoFail =>
      errno ← gets (fun c => sk_errno (sock c));
      if (errno =? 0) || (errno =? ECONNRESET) || (errno =? ETIMEDOUT)
      then mret None else stopM SFatal
  end.

Definition fd_write_reply (handle error : Z) : M conn Z :=
  let reply := {| p_magic := REPLY_MAGIC; p_error := u32 error; p_handle := handle |} in
  r ← conn_writeloop (to_wire (nbd_h2r_reply reply));
  match (r : io_result) with
  | IoDone => mret 1
  | _ =>
      errno ← gets sk_errno;
      if errno =? ECONNRESET then stopM SError
      else if errno =? EBADF then stopM SFatal
      else if errno =? EPIPE then stopM SError
      else stopM SFatal
  end.

Definition client_write_reply (request : nbd_request) (error : Z) : M client Z :=
  on_sock (fd_write_reply (q_handle request) error).

(** [struct nbd_init init = {{0}}] and the raw struct of zeroes. *)
Definition client_write_init (size : Z) : M client unit :=
  let init := {| i_passwd := INIT_PASSWD; i_magic := INIT_MAGIC; i_size := size;
                 i_flags := Z.lor (Z.lor FLAG_HAS_FLAGS FLAG_SEND_FLUSH) FLAG_SEND_FUA;
                 i_reserved := replicate 124 0 |} in
  on_sock (conn_write_all (to_wire (nbd_h2r_init init zero_init_raw)) SError).

(** The [splice] loop of [client_flush]: an error is fatal, and at the end of the
    connection [splice] gives 0 for ever. *)
Fixpoint flush_loop (rx : list rd_event) (len : Z) : res (list rd_event) :=
  if len <=? 0 then Ok rx
  else
    match rx with
    | [] => Stop SBlock
    | ev :: rx' =>
        let '(received, _, rest, _) := deliver ev 0 len in
        if received <? 0 then Stop SFatal
        else if received =? 0 then Stop SHang
        else if len <=? received then Ok (rest ++ rx')
        else flush_loop rx' (len - received)
    end.

Definition client_flush (len : Z) : M client unit := fun c =>
  match flush_loop (sk_rx (sock c)) len with
  | Ok rx => (Ok tt, c <| sock := {| sk_rx := rx; sk_wq := sk_wq (sock c); sk_tx := sk_tx (sock c);
                                     sk_errno := sk_errno (sock c);
                                     sk_selects := sk_selects (sock c) |} |>)
  | Stop e => (Stop e, c)
  end.

Definition set_disconnect (b : bool) : M client unit := modify (fun c => c <| disconnect := b |>).

Definition client_request_needs_reply (request : nbd_request) : M client bool :=
  if negb (q_magic request =? REQUEST_MAGIC) then
    _ ← client_write_reply request EBADMSG;
    _ ← set_disconnect true;
    mret false
  else
    size ← gets (fun c => sv_size (serve c));
    if size <? q_from request +64 q_len request then
      _ ← (if q_type request =? REQUEST_WRITE then client_flush (q_len request) else mret tt);
      _ ← client_write_reply request ENOSPC;
      _ ← set_disconnect false;
      mret false
    else if q_type request =? REQUEST_READ then mret true
    else if q_type request =? REQUEST_WRITE then mret true
    else if q_type request =? REQUEST_DISCONNECT then
      _ ← set_disconnect true; mret false
    else if q_type request =? REQUEST_FLUSH then mret true
    else
      _ ← client_write_reply request EINVAL;
      _ ← set_disconnect false;
      mret false.

Definition set_cork (b : bool) : M client unit := modify (fun c => c <| corked := b |>).

(** [sendfileloop(socket, fileno, &offset, len)] with [off64_t offset]: a negative
    offset is refused by the kernel. *)
Definition send_file (from len : Z) : M client unit := fun c =>
  let script := default [] (head (sendfiles c)) in
  let c1 := c <| sendfiles := tail (sendfiles c) |> in
  if (2 ^ 63 <=? from) && (0 <? len) then (Stop SError, c1)
  else
    let o := sendfileloop script (file c) from len in
    let s := {| sk_rx := sk_rx (sock c); sk_wq := sk_wq (sock c); sk_tx := sk_tx (sock c) ++ so_bytes o;
                sk_errno := sk_errno (sock c); sk_selects := sk_selects (sock c) |} in
    let c2 := c1 <| sock := s |> in
    match so_result o with
    | Ok IoDone => (Ok tt, c2)
    | Ok _ => (Stop SError, c2)
    | Stop e => (Stop e, c2)
    end.

Definition client_reply_to_read (request : nbd_request) : M client unit :=
  _ ← set_cork true;
  _ ← client_write_reply request 0;
  _ ← send_file (q_from request) (q_len request);
  set_cork false.

(** [msync(client->mapped + off, len)]. *)
Definition do_msync (off len : Z) (on_fail : stop) : M client unit := fun c =>
  let r := default 0 (head (msyncs c)) in
  let c1 := c <| msyncs := tail (msyncs c) |> in
  if r <? 0 then (Stop on_fail, c1) else (Ok tt, c1 <| synced := (off, len) :: synced c |>).

Definition client_reply_to_write (request : nbd_request) : M client unit :=
  built ← gets (fun c => allocation_map_built (serve c));
  _ ← (if (built : bool) then write_not_zeroes (q_from request) (q_len request)
       else
         _ ← read_to_mapped (q_from request) (q_len request);
         map_set_range (q_from request) (q_len request));
  let from_rounded := Z.land (q_from request) (u64 (Z.lnot (PAGE_SIZE - 1))) in
  let len_rounded := q_len request +64 (q_from request -64 from_rounded) in
  _ ← do_msync from_rounded len_rounded SFatal;
  _ ← client_write_reply request 0;
  mret tt.

Definition client_reply_to_flush (request : nbd_request) : M client unit :=
  size ← gets mapped_size;
  _ ← do_msync 0 size SError;
  _ ← client_write_reply request 0;
  mret tt.

Definition client_reply (request : nbd_request) : M client unit :=
  if q_type request =? REQUEST_READ then client_reply_to_read request
  else if q_type request =? REQUEST_WRITE then client_reply_to_write request
  else if q_type request =? REQUEST_FLUSH then client_reply_to_flush request
  else mret tt.

(** ** The killswitch and the request cycle *)

Definition client_arm_killswitch : M client unit :=
  modify (fun c => if use_killswitch (serve c)
                   then c <| killswitch := Some CLIENT_HANDLER_TIMEOUT |> else c).

Definition client_disarm_killswitch : M client unit :=
  modify (fun c => if use_killswitch (serve c) then c <| killswitch := None |> else c).

(** [true] is "stop". *)
Definition client_serve_request : M client bool :=
  sel ← on_sock conn_select;
  if sel_ret sel =? 0 then stopM SFatal
  else if sel_ret sel <? 0 then stopM SFatal
  else
    fds ← gets (fun c => (stop_fd c, socket c));
    if FD_ISSET fds.1 (sel_rfds sel) then mret true
    else if FD_ISSET fds.2 (sel_efds sel) then mret true
    else
      _ ← client_arm_killswitch;
      oreq ← client_read_request;
      match (oreq : option nbd_request) with
      | None => _ ← client_disarm_killswitch; mret true
      | Some request =>
          needs ← client_request_needs_reply request;
          if negb needs then _ ← client_disarm_killswitch; gets disconnect
          else
            closed ← gets (fun c => server_fd_closed (serve c));
            stop ← (if (closed : bool) then mret true else _ ← client_reply request; mret false);
            _ ← client_disarm_killswitch;
            mret stop
      end.

Definition client_send_hello : M client unit :=
  size ← gets (fun c => sv_size (serve c)); client_write_init size.

(** [while (client_serve_request(client) == 0);], [fuel] bounds the requests. *)
Fixpoint serve_requests (fuel : nat) : M client unit :=
  match fuel with
  | O => stopM SHang
  | S fuel' => stop ← client_serve_request; if (stop : bool) then mret tt else serve_requests fuel'
  end.

(** [serve_signal_close], [server_control_arrived] of serve.c. *)
Definition serve_signal_close (s : serve_view) : res serve_view :=
  p ← self_pipe_signal (close_signal s); Ok (s <| close_signal := p |>).

Definition server_control_arrived (s : serve_view) : res serve_view :=
  if sv_success s then Ok s else serve_signal_close (s <| sv_success := true |>).

(** [client_cleanup]: the closes succeed (a failing one is fatal). *)
Definition client_cleanup : M client unit :=
  _ ← client_disarm_killswitch;
  modify (fun c =>
    c <| socket := if negb (socket c =? 0) then -1 else 0 |>
      <| is_mapped := false |>
      <| fileno := if negb (fileno c =? 0) then -1 else 0 |>
      <| serve := (serve c) <| acl_held := false |> |>).

(** The thread after [open_and_mmap] and [madvise] worked; [requests] is its loop. *)
Definition client_thread (requests : M client unit) : M client unit :=
  _ ← client_send_hello;
  _ ← requests;
  _ ← modify (fun c => c <| stopped := true |>);
  d ← gets disconnect;
  _ ← (if (d : bool)
       then c ← get;
            s ← liftR (server_control_arrived (serve c));
            modify (fun c => c <| serve := s |>)
       else mret tt);
  client_cleanup.

(** The thread: the answers of the system calls of [open_and_mmap], and of
    [madvise]; an [error()] runs the cleanup handler and ends it. *)
Definition client_serve_with (requests : M client unit) (open_fd lseek_size mmap_result madvise_result : Z)
    : M client unit := fun c =>
  let '(r, out_size) := open_and_mmap open_fd lseek_size true mmap_result in
  let c := c <| fileno := open_fd |> in
  if r <? 0 then (Stop SFatal, c)
  else
    let c := c <| mapped_size := default (mapped_size c) out_size |> <| is_mapped := bool_decide (1 <= open_fd) |> in
    if madvise_result <? 0 then (Stop SFatal, c)
    else
      match client_thread requests c with
      | (Stop SError, c') =>
          match client_cleanup c' with
          | (Ok _, c'') => (Stop SError, c'')
          | r => r
          end
      | r => r
      end.

(** [client_serve], without the timer. *)
Definition client_serve (fuel : nat) : Z -> Z -> Z -> Z -> M client unit := client_serve_with (serve_requests fuel).

(** [client_create]: [xmalloc] clears the struct. *)
Definition client_create (s : serve_view) (socket_fd stop_read_fd : Z) (k : conn) (f : list Z)
    (sfs : list (list sf_event)) (ms : list Z) : client :=
  {| stopped := false; socket := socket_fd; fileno := 0; stop_fd := stop_read_fd; sock := k; file := f;
     is_mapped := false; mapped_size := 0; disconnect := false; killswitch := None; corked := false;
     sendfiles := sfs; msyncs := ms; synced := []; serve := s |}.

(** * write_not_zeroes: lemmas *)

Abbreviation map_of c := (allocation_map (serve c)).

(** What holds between requests: the map is sound, has the block size's resolution
    and the size of the export, and once it is built no data lies where it shows no
    block. *)
Record client_ok (c : client) : Prop := {
  ck_map : bitset_ok (map_of c);
  ck_res : resolution (map_of c) = block_allocation_resolution;
  ck_size : bs_size (map_of c) = sv_size (serve c);
  ck_mapped : mapped_size c = sv_size (serve c);
  ck_file : sv_size (serve c) <= zlen (file c);
  ck_sparse : allocation_map_built (serve c) = true -> sparse (map_of c) (file c)
}.

(** Blocks that a range touches. *)
Definition blocks (from len : Z) : Z :=
  if len =? 0 then 0
  else (from + len - 1) / block_allocation_resolution - from / block_allocation_resolution + 1.

(** [c'] is [c] after [bs] went into the file at [from], with the stream events
    [evs] queued; nothing else changed but the socket's input. *)
Record stored (c c' : client) (from : Z) (bs : list Z) (evs : list bitset_stream_entry) : Prop := {
  st_ok : client_ok c';
  st_file : mem_store (file c) from bs = Ok (file c');
  st_frame : c' = c <| sock := sock c' |> <| file := file c' |>
                    <| serve := (serve c) <| allocation_map := map_of c' |> |>;
  st_sock : sk_tx (sock c') = sk_tx (sock c) /\ sk_wq (sock c') = sk_wq (sock c) /\
            sk_selects (sock c') = sk_selects (sock c);
  st_enabled : stream_enabled (map_of c') = stream_enabled (map_of c);
  st_events : contents (stream (map_of c')) = contents (stream (map_of c)) ++ evs;
  st_count : zlen evs <= blocks from (zlen bs);
  st_off : stream_enabled (map_of c) = false -> evs = []
}.

Definition covers (off : Z) (e : bitset_stream_entry) : Prop :=
  event e = BITSET_STREAM_SET /\ e_from e <= off < e_from e + e_len e.

(** Every byte that changed is in one of the events. *)
Definition tracked (c c' : client) (evs : list bitset_stream_entry) : Prop :=
  stream_enabled (map_of c) = true ->
  forall off, byte_at (file c') off <> byte_at (file c) off -> Exists (covers off) evs.

(** The outcome of copying [n] bytes from the socket to the file at [from]. *)
Definition write_post (c : client) (from n : Z) (x : res unit * client) : Prop :=
  let o := readloop (sk_rx (sock c)) (sk_errno (sock c)) n in
  exists bs evs, stored c x.2 from bs evs /\
    sk_rx (sock x.2) = ro_rx o /\ sk_errno (sock x.2) = ro_errno o /\
    match ro_res o with
    | IoDone => x.1 = Ok tt /\ bs = ro_bytes o /\ tracked c x.2 evs
    | IoFail => x.1 = Stop SError /\ bs `prefix_of` ro_bytes o
    | IoBlock => x.1 = Stop SBlock /\ bs `prefix_of` ro_bytes o
    end.

Lemma div_block_le a b : a <= b -> a / block_allocation_resolution <= b / block_allocation_resolution.
Proof. intros H. apply Z.div_le_mono; [done | lia]. Qed.

Lemma blocks_nonneg from len : 0 <= len -> 0 <= blocks from len.
Proof.
  intros H. unfold blocks. destruct (Z.eqb_spec len 0); [lia |].
  pose proof (div_block_le from (from + len - 1) ltac:(lia)). lia.
Qed.

Lemma blocks_pos from len : 0 < len -> 1 <= blocks from len.
Proof.
  intros H. unfold blocks. destruct (Z.eqb_spec len 0); [lia |].
  pose proof (div_block_le from (from + len - 1) ltac:(lia)). lia.
Qed.

(** Ranges that meet at a block boundary share no block. *)
Lemma blocks_add from a b :
  0 <= a -> 0 <= b -> (from + a) mod block_allocation_resolution = 0 \/ b = 0 ->
  blocks from (a + b) = blocks from a + blocks (from + a) b.
Proof.
  intros Ha Hb H. unfold blocks.
  destruct (Z.eqb_spec b 0) as [-> | Hb0].
  { rewrite !Z.add_0_r. destruct (a =? 0); lia. }
  destruct H as [H | H]; [| lia].
  destruct (Z.eqb_spec a 0) as [-> | Ha0].
  { rewrite !Z.add_0_r, !Z.add_0_l. destruct (Z.eqb_spec b 0); lia. }
  destruct (Z.eqb_spec (a + b) 0); [lia |].
  unfold block_allocation_resolution in *.
  pose proof (Z.div_mod (from + a) 4096 ltac:(lia)). rewrite H in *.
  assert (Hq : (from + a - 1) / 4096 = (from + a) / 4096 - 1).
  { symmetry. apply Z.div_unique with 4095; lia. }
  rewrite Hq. rewrite Z.add_assoc. lia.
Qed.

Lemma stored_refl c from : client_ok c -> stored c c from [] [].
Proof.
  intros H. constructor; try done.
  - by destruct c as [? ? ? ? ? ? ? ? ? ? ? ? ? ? []].
  - by rewrite app_nil_r.
Qed.

Lemma mem_store_app m from a b m1 m2 :
  0 <= from -> mem_store m from a = Ok m1 -> mem_store m1 (from + zlen a) b = Ok m2 ->
  mem_store m from (a ++ b) = Ok m2.
Proof.
  intros Hf H1 H2. pose proof (zlen_nonneg a). pose proof (zlen_nonneg b).
  pose proof (mem_store_zlen _ _ _ _ H1) as L1. pose proof (mem_store_zlen _ _ _ _ H2) as L2.
  unfold mem_store in H1, H2 |- *.
  destruct (in_range (zlen m) from (zlen a)) eqn:R1; [| done].
  destruct (in_range (zlen m1) (from + zlen a) (zlen b)) eqn:R2; [| done].
  assert (R : in_range (zlen m) from (zlen (a ++ b)) = true).
  { rewrite in_range_true in *. rewrite zlen_app. destruct R1 as [R1 | R1], R2 as [R2 | R2]; lia. }
  rewrite R.
  destruct (zlen a =? 0) eqn:Ea.
  { apply Z.eqb_eq, zlen_nil_inv in Ea as ->. injection H1 as ->. simpl.
    change (zlen []) with 0 in H2. by rewrite Z.add_0_r in H2. }
  rewrite zlen_app. replace (zlen a + zlen b =? 0) with false by lia.
  apply in_range_true in R1, R2. destruct R1 as [R1 | R1]; [lia |]. injection H1 as <-.
  destruct (zlen b =? 0) eqn:Eb.
  { apply Z.eqb_eq, zlen_nil_inv in Eb as ->. injection H2 as <-. by rewrite app_nil_r. }
  destruct R2 as [R2 | R2]; [lia |]. injection H2 as <-. f_equal.
  unfold zlen in *. rewrite Z2Nat.inj_add by lia. rewrite Nat2Z.id.
  rewrite (take_app_ge (take _ m)) by (rewrite length_take; lia).
  rewrite (drop_app_ge (take _ m)) by (rewrite length_take; lia).
  rewrite length_take_le by lia.
  replace (Z.to_nat from + length a - Z.to_nat from)%nat with (length a) by lia.
  replace (Z.to_nat from + length a + length b - Z.to_nat from)%nat with (length a + length b)%nat by lia.
  rewrite take_app_length, drop_app_add, drop_drop, <- !app_assoc. f_equal. f_equal. f_equal. f_equal.
  rewrite length_app. lia.
Qed.

Lemma stored_trans c c1 c2 from a b ea eb :
  0 <= from ->
  stored c c1 from a ea -> stored c1 c2 (from + zlen a) b eb ->
  (from + zlen a) mod block_allocation_resolution = 0 \/ b = [] ->
  stored c c2 from (a ++ b) (ea ++ eb).
Proof.
  intros Hf [] [] Hal. constructor; try done.
  - by eapply mem_store_app.
  - etrans; [exact st_frame1 |]. generalize (sock c2) (file c2) (map_of c2). intros s f m.
    by rewrite st_frame0.
  - intuition congruence.
  - congruence.
  - rewrite st_events1, st_events0. by rewrite app_assoc.
  - pose proof (zlen_nonneg a). pose proof (zlen_nonneg b).
    rewrite !zlen_app, blocks_add; [lia | done | done |].
    destruct Hal as [? | ->]; [by left | by right].
  - intros H. rewrite st_off0 by done. apply st_off1. congruence.
Qed.

Lemma tracked_trans c c1 c2 ea eb :
  stream_enabled (map_of c1) = stream_enabled (map_of c) ->
  tracked c c1 ea -> tracked c1 c2 eb -> tracked c c2 (ea ++ eb).
Proof.
  intros He H1 H2 Ht off Hne. apply Exists_app.
  destruct (decide (byte_at (file c1) off = byte_at (file c) off)) as [E | E].
  - right. apply H2; congruence.
  - left. by apply H1.
Qed.

(** Copying [a] bytes and then [b] more is copying [a + b]. *)
Lemma write_post_bind c from a b (m : M client unit) (k : unit -> M client unit) :
  0 <= from -> 0 <= a -> 0 <= b ->
  (from + a) mod block_allocation_resolution = 0 \/ b = 0 ->
  write_post c from a (m c) ->
  (forall c1 evs, m c = (Ok tt, c1) ->
     stored c c1 from (ro_bytes (readloop (sk_rx (sock c)) (sk_errno (sock c)) a)) evs ->
     write_post c1 (from + a) b (k tt c1)) ->
  write_post c from (a + b) ((m ≫= k) c).
Proof.
  intros Hf Ha Hb Hal (bs & evs & Hst & Hrx & Her & Hm) Hk. unfold write_post.
  rewrite readloop_split by done. cbn zeta.
  pose proof (readloop_done_zlen (sk_rx (sock c)) (sk_errno (sock c)) a Ha) as Hlen.
  destruct (m c) as [r c1] eqn:E. rewrite (bindM_eq _ _ _ _ _ E). cbn [fst snd] in *.
  set (o := readloop (sk_rx (sock c)) (sk_errno (sock c)) a) in *.
  destruct (ro_res o) eqn:Ho.
  2,3: destruct Hm as [-> Hm]; exists bs, evs; cbn; by rewrite Ho.
  destruct Hm as (-> & -> & Htr). specialize (Hlen eq_refl).
  destruct (Hk c1 evs eq_refl Hst) as (bs2 & evs2 & Hst2 & Hrx2 & Her2 & Hm2). clear Hk.
  rewrite Hrx, Her in *. set (o2 := readloop (ro_rx o) (ro_errno o) b) in *.
  exists (ro_bytes o ++ bs2), (evs ++ evs2). cbn [rd_prepend ro_res ro_bytes ro_rx ro_errno].
  assert (Hz : b = 0 -> bs2 = []).
  { intros ->. unfold o2 in Hm2. rewrite readloop_zero in Hm2 by lia. cbn in Hm2. by destruct Hm2 as (_ & -> & _). }
  split.
  { apply stored_trans with c1; [done | done | by rewrite Hlen |]. rewrite Hlen.
    destruct Hal as [? | Hb0]; [by left | right; auto]. }
  split_and!; [done | done |].
  destruct (ro_res o2).
  - destruct Hm2 as (H1 & -> & H3). split_and!; [done | done |]. apply tracked_trans with c1; [apply (st_enabled _ _ _ _ _ Hst) | done | done].
  - destruct Hm2 as (H1 & H2). split; [done |]. by apply prefix_app.
  - destruct Hm2 as (H1 & H2). split; [done |]. by apply prefix_app.
Qed.

(** Nothing to copy. *)
Lemma write_post_nil c from : client_ok c -> write_post c from 0 (Ok tt, c).
Proof.
  intros H. unfold write_post. rewrite readloop_zero by done. cbn. exists [], [].
  split_and!; try done; [by apply stored_refl |]. intros _ off Hne. done.
Qed.

(** Setting bits never breaks the sparse invariant; storing data does not where
    the bits end up set. *)
Lemma sparse_store map map' m m' from bs :
  mem_store m from bs = Ok m' -> bs_size map' = bs_size map ->
  (forall off, 0 <= off -> bit_at map off = true -> bit_at map' off = true) ->
  (forall off, from <= off < from + zlen bs -> bit_at map' off = true) ->
  sparse map m -> sparse map' m'.
Proof.
  intros Hm Hz Hmono Hset Hsp off Ho Hb. rewrite (byte_at_store _ _ _ _ _ Hm).
  destruct ((from <=? off) && (off <? from + zlen bs)) eqn:E.
  - rewrite Hset in Hb by lia. done.
  - apply Hsp; [lia |]. destruct (bit_at map off) eqn:E2; [| done].
    rewrite Hmono in Hb by (lia || done). done.
Qed.

(** A changed byte lies in the range that was stored. *)
Lemma mem_store_changed m from bs m' off :
  mem_store m from bs = Ok m' -> byte_at m' off <> byte_at m off -> from <= off < from + zlen bs.
Proof.
  intros Hm. rewrite (byte_at_store _ _ _ _ _ Hm).
  destruct ((from <=? off) && (off <? from + zlen bs)) eqn:E; [lia | done].
Qed.

(** Store and mark: the file step and the map step together. *)
Lemma store_and_mark c from bs f :
  client_ok c -> 0 <= from -> 0 < zlen bs -> from + zlen bs <= sv_size (serve c) ->
  room (map_of c) 1 -> mem_store (file c) from bs = Ok f ->
  exists m evs, bitset_set_range (map_of c) from (zlen bs) = Ok m /\
    (forall s, sk_tx s = sk_tx (sock c) -> sk_wq s = sk_wq (sock c) -> sk_selects s = sk_selects (sock c) ->
      let c' := c <| sock := s |> <| file := f |> <| serve := (serve c) <| allocation_map := m |> |> in
      stored c c' from bs evs /\ tracked c c' evs) /\
    forall off, 0 <= off ->
      bit_at m off = if touches (map_of c) from (zlen bs) off then true else bit_at (map_of c) off.
Proof.
  intros [] Hf Hl Hn Hr Hm.
  destruct (bitset_set_range_spec (map_of c) ck_map0 from (zlen bs)) as
    (m & E & Hok & Hz & Hres & Hen & Hev & Hbits); [lia | lia | lia | done |].
  eexists m, _. split; [exact E |]. split; [| done].
  intros s Hs1 Hs2 Hs3. cbn zeta. split; [constructor |].
  - constructor; cbn; try congruence.
    + by rewrite (mem_store_zlen _ _ _ _ Hm).
    + intros Hb. apply (sparse_store (map_of c) m (file c) f from bs Hm Hz); [| | by apply ck_sparse0].
      * intros off Ho Hs. rewrite Hbits, Hs by done. by destruct (touches _ _ _ _).
      * intros off Ho. rewrite Hbits by lia.
        rewrite touches_inside; [done | apply (bo_res _ ck_map0) | lia | lia].
  - done.
  - done.
  - done.
  - done.
  - exact Hev.
  - pose proof (blocks_pos from (zlen bs) Hl). destruct (stream_enabled (map_of c)).
    + change (1 <= blocks from (zlen bs)). lia.
    + change (0 <= blocks from (zlen bs)). lia.
  - intros ->. done.
  - intros He off Hne. cbn in Hne. rewrite He. constructor. split; [done |]. cbn.
    by apply (mem_store_changed _ _ _ _ _ Hm).
Qed.

(** Storing where the blocks are allocated needs no mark to keep the invariant. *)
Lemma store_only c from bs f s :
  client_ok c -> 0 <= from -> mem_store (file c) from bs = Ok f ->
  (forall off, from <= off < from + zlen bs -> bit_at (map_of c) off = true) ->
  sk_tx s = sk_tx (sock c) -> sk_wq s = sk_wq (sock c) -> sk_selects s = sk_selects (sock c) ->
  stored c (c <| sock := s |> <| file := f |>) from bs [].
Proof.
  intros [] Hf Hm Hb H1 H2 H3. constructor; try done.
  - constructor; cbn; try congruence.
    + by rewrite (mem_store_zlen _ _ _ _ Hm).
    + intros Hb'. apply (sparse_store (map_of c) (map_of c) (file c) f from bs Hm); auto.
  - by destruct c as [? ? ? ? ? ? ? ? ? ? ? ? ? ? []].
  - cbn. by rewrite app_nil_r.
  - apply blocks_nonneg, zlen_nonneg.
Qed.

Lemma readloop_bytes_le rx e n : 0 <= n -> zlen (ro_bytes (readloop rx e n)) <= n.
Proof.
  intros Hn. pose proof (readloop_spec rx e n Hn) as H. cbn zeta in H.
  destruct (n <=? zlen (incoming rx)) eqn:E; [destruct H as (_ & -> & _) | destruct H as (_ & ->)].
  - rewrite zlen_take; lia.
  - lia.
Qed.

(** The socket after a [readloop] of [n] bytes. *)
Definition sock_read (s : conn) (n : Z) : conn :=
  let o := readloop (sk_rx s) (sk_errno s) n in
  {| sk_rx := ro_rx o; sk_wq := sk_wq s; sk_tx := sk_tx s; sk_errno := ro_errno o;
     sk_selects := sk_selects s |}.

Lemma on_sock_readloop n c :
  on_sock (conn_readloop n) c =
    (let o := readloop (sk_rx (sock c)) (sk_errno (sock c)) n in Ok (ro_res o, ro_bytes o),
     c <| sock := sock_read (sock c) n |>).
Proof. done. Qed.

Lemma on_sock_read_all n f c :
  on_sock (conn_read_all n f) c =
    (let o := readloop (sk_rx (sock c)) (sk_errno (sock c)) n in
     match ro_res o with IoDone => Ok (ro_bytes o) | IoFail => Stop f | IoBlock => Stop SBlock end,
     c <| sock := sock_read (sock c) n |>).
Proof.
  unfold on_sock, conn_read_all, conn_readloop, mbind, M_bind, sock_read. cbn. by destruct (ro_res _).
Qed.

Lemma store_mapped_ok c off bs :
  client_ok c -> 0 <= off -> off + zlen bs <= sv_size (serve c) ->
  exists f, mem_store (file c) off bs = Ok f /\ store_mapped off bs c = (Ok tt, c <| file := f |>).
Proof.
  intros [] Ho Hn. eexists. split; [apply mem_store_ok; lia |].
  unfold store_mapped. rewrite (proj2 (in_range_true _ _ _)).
  2:{ right. pose proof (zlen_nonneg bs). lia. }
  rewrite mem_store_ok by lia. done.
Qed.

(** [ERROR_IF_NEGATIVE(readloop(...))]. *)
Definition io_outcome (r : io_result) : res unit :=
  match r with IoDone => Ok tt | IoFail => Stop SError | IoBlock => Stop SBlock end.

Lemma read_to_mapped_eq c from run :
  client_ok c -> 0 <= from -> 0 <= run -> from + run <= sv_size (serve c) ->
  let o := readloop (sk_rx (sock c)) (sk_errno (sock c)) run in
  exists f, mem_store (file c) from (ro_bytes o) = Ok f /\
    read_to_mapped from run c =
      (io_outcome (ro_res o), c <| sock := sock_read (sock c) run |> <| file := f |>).
Proof.
  intros Hok Hf Hr Hn. cbn zeta.
  pose proof (readloop_bytes_le (sk_rx (sock c)) (sk_errno (sock c)) run Hr) as Hle.
  destruct (store_mapped_ok (c <| sock := sock_read (sock c) run |>) from
    (ro_bytes (readloop (sk_rx (sock c)) (sk_errno (sock c)) run)))
    as (f & Hm & E); [by destruct Hok | done | cbn; lia |].
  exists f. split; [done |]. unfold read_to_mapped.
  rewrite (bindM_eq _ _ _ _ _ (on_sock_readloop run c)). cbn beta iota zeta.
  rewrite (bindM_eq _ _ _ _ _ E). by destruct (ro_res _).
Qed.

(** A read that gets all its data, then the mark. *)
Lemma read_and_mark_done c from run :
  client_ok c -> 0 <= from -> 0 < run -> from + run <= sv_size (serve c) -> room (map_of c) 1 ->
  ro_res (readloop (sk_rx (sock c)) (sk_errno (sock c)) run) = IoDone ->
  write_post c from run ((_ ← read_to_mapped from run; map_set_range from run) c).
Proof.
  intros Hok Hf Hr Hn Hroom Ho. unfold write_post.
  pose proof (readloop_done_zlen (sk_rx (sock c)) (sk_errno (sock c)) run ltac:(lia) Ho) as Hd.
  destruct (read_to_mapped_eq c from run Hok Hf ltac:(lia) Hn) as (f & Hm & E). cbn zeta in Hm, E.
  set (o := readloop _ _ _) in *. rewrite (bindM_eq _ _ _ _ _ E), Ho. cbn [io_outcome].
  destruct (store_and_mark c from (ro_bytes o) f) as (m & evs & E2 & Hst & _); try done; [lia | lia |].
  destruct (Hst (sock_read (sock c) run)) as [H1 H2]; [done | done | done |].
  exists (ro_bytes o), evs. unfold map_set_range. cbn. rewrite Hd in E2. rewrite E2. cbn. done.
Qed.

(** The branch of allocated blocks. *)
Lemma read_and_mark_post c from run :
  client_ok c -> 0 <= from -> 0 < run -> from + run <= sv_size (serve c) -> room (map_of c) 1 ->
  (forall off, from <= off < from + run -> bit_at (map_of c) off = true) ->
  write_post c from run ((_ ← read_to_mapped from run; map_set_range from run) c).
Proof.
  intros Hok Hf Hr Hn Hroom Hset.
  destruct (ro_res (readloop (sk_rx (sock c)) (sk_errno (sock c)) run)) eqn:Ho;
    [by apply read_and_mark_done | ..].
  all: unfold write_post;
    pose proof (readloop_bytes_le (sk_rx (sock c)) (sk_errno (sock c)) run ltac:(lia)) as Hle;
    destruct (read_to_mapped_eq c from run Hok Hf ltac:(lia) Hn) as (f & Hm & E); cbn zeta in Hm, E;
    rewrite (bindM_eq _ _ _ _ _ E), Ho; cbn [io_outcome];
    eexists _, []; cbn; split_and!; try done;
    apply store_only; try done; intros off Hoff; apply Hset; lia.
Qed.

(** Equal to its own shift and 0 at the front: all zeroes. *)
Lemma all_zeros_true zb n : zlen zb = n -> all_zeros zb n = true -> forall i, byte_at zb i = 0.
Proof.
  intros Hn. destruct zb as [| b rest]; [done |]. unfold all_zeros.
  rewrite andb_true_iff, bool_decide_eq_true, Z.eqb_eq. intros [-> Heq].
  assert (Hl : Z.to_nat (n - 1) = length rest) by (unfold zlen in Hn; simpl length in Hn; lia).
  rewrite Hl, (take_ge rest) in Heq by lia. clear Hn Hl.
  assert (Hall : Forall (eq 0) rest).
  { induction rest as [| r rest IH]; [done |]. simpl in Heq. injection Heq as <- Heq. constructor; [done |].
    by apply IH. }
  intros i. unfold byte_at. destruct (0 <=? i); [| done].
  destruct ((0 :: rest) !! Z.to_nat i) as [z |] eqn:E; [| done]. cbn.
  assert (Forall (eq 0) (0 :: rest)) as Hz by by constructor.
  symmetry. by apply (Forall_lookup_1 _ _ _ _ Hz E).
Qed.

Lemma mem_store_same m from bs m' :
  mem_store m from bs = Ok m' ->
  (forall off, from <= off < from + zlen bs -> byte_at m off = byte_at bs (off - from)) -> m' = m.
Proof.
  intros Hm H. apply mem_ext; [by apply (mem_store_zlen _ _ _ _ Hm) |]. intros i _.
  rewrite (byte_at_store _ _ _ _ _ Hm).
  destruct ((from <=? i) && (i <? from + zlen bs)) eqn:E; [| done]. rewrite H by lia. done.
Qed.

Lemma touches_same_block m from len off :
  resolution m = block_allocation_resolution ->
  0 <= from -> 0 < len -> from mod block_allocation_resolution + len <= block_allocation_resolution ->
  from + len <= off -> (from + len) mod block_allocation_resolution = 0 ->
  touches m from len off = false.
Proof.
  intros Hres Hf Hl Hb Ho Hm. unfold touches. rewrite Hres. unfold block_allocation_resolution in *.
  pose proof (Z.div_mod (from + len) 4096 ltac:(lia)).
  pose proof (Z.div_le_mono (from + len) off 4096 ltac:(lia) Ho).
  assert ((from + len - 1) / 4096 = (from + len) / 4096 - 1).
  { symmetry. apply Z.div_unique with 4095; lia. }
  lia.
Qed.

(** One block that is not allocated: data is stored and marked, zeroes are dropped
    because they are there already. *)
Lemma zero_block_post c from br :
  client_ok c -> allocation_map_built (serve c) = true -> 0 <= from -> 0 < br -> from + br <= sv_size (serve c) -> room (map_of c) 1 ->
  (forall off, from <= off < from + br -> bit_at (map_of c) off = false) ->
  write_post c from br (zero_block from br c) /\
  forall c1 off, zero_block from br c = (Ok tt, c1) -> 0 <= off ->
    touches (map_of c) from br off = false -> bit_at (map_of c1) off = bit_at (map_of c) off.
Proof.
  intros Hok Hbuilt Hf Hr Hn Hroom Hclr. unfold write_post, zero_block.
  pose proof (readloop_done_zlen (sk_rx (sock c)) (sk_errno (sock c)) br ltac:(lia)) as Hd.
  rewrite (bindM_eq _ _ _ _ _ (on_sock_read_all br SError c)). cbn zeta. set (o := readloop _ _ _) in *.
  destruct (ro_res o) eqn:Ho.
  2,3: split; [| done]; exists [], []; cbn; split_and!; try done;
       [apply store_only; try done; change (zlen []) with 0; lia | apply prefix_nil].
  specialize (Hd eq_refl).
  assert (Ht : take (Z.to_nat br) (ro_bytes o) = ro_bytes o) by (apply take_ge; unfold zlen in Hd; lia).
  rewrite Ht.
  destruct (store_mapped_ok (c <| sock := sock_read (sock c) br |>) from (ro_bytes o))
    as (f & Hm & E); [by destruct Hok | done | cbn; lia |]. cbn in Hm.
  destruct (all_zeros (ro_bytes o) br) eqn:Ez; cbn [negb].
  - pose proof (all_zeros_true _ _ Hd Ez) as Hz.
    assert (f = file c) as ->.
    { apply (mem_store_same _ _ _ _ Hm). intros off Hoff. rewrite Hz.
      apply (ck_sparse _ Hok Hbuilt); [rewrite (ck_size _ Hok); lia | apply Hclr; lia]. }
    split; [| intros c1 off [= <-]; done].
    exists (ro_bytes o), []. cbn. split_and!; try done.
    + constructor; try done; [by destruct Hok | by destruct c as [? ? ? ? ? ? ? ? ? ? ? ? ? ? []]
        | cbn; by rewrite app_nil_r | apply blocks_nonneg, zlen_nonneg].
    + intros _ off Hne. done.
  - rewrite (bindM_eq _ _ _ _ _ E).
    destruct (store_and_mark c from (ro_bytes o) f) as (m & evs & E2 & Hst & Hbits); try done; [lia | lia |].
    destruct (Hst (sock_read (sock c) br)) as [H1 H2]; [done | done | done |].
    unfold map_set_range. cbn. rewrite Hd in E2, Hbits. rewrite E2. cbn. split.
    + exists (ro_bytes o), evs. split_and!; done.
    + intros c1 off [= <-] Hoff Hto. cbn. rewrite Hbits by done. by rewrite Hto.
Qed.

Lemma blockrun_at_spec from run :
  0 <= from -> 0 < run ->
  let br := blockrun_at from run in
  0 < br <= run /\ from mod block_allocation_resolution + br <= block_allocation_resolution /\
  (br = run \/ (from + br) mod block_allocation_resolution = 0).
Proof.
  intros Hf Hr. cbn zeta. unfold blockrun_at, block_allocation_resolution.
  pose proof (Z.mod_pos_bound from 4096 ltac:(lia)).
  destruct (run <? 4096 - from mod 4096) eqn:E; [lia |]. split_and!; [lia | lia | lia |]. right.
  pose proof (Z.div_mod from 4096 ltac:(lia)).
  replace (from + (4096 - from mod 4096)) with ((from / 4096 + 1) * 4096) by lia.
  apply Z.mod_mul. lia.
Qed.

(** What is left of the room after some events were queued. *)
Lemma stored_room c c1 from bs evs n k :
  stored c c1 from bs evs -> client_ok c -> blocks from (zlen bs) <= k -> room (map_of c) (k + n) ->
  room (map_of c1) n.
Proof.
  intros Hst Hok Hk Hroom Hen. destruct Hst. rewrite st_enabled0 in Hen. specialize (Hroom Hen).
  pose proof (f_equal zlen st_events0) as Hl. rewrite zlen_app in Hl.
  pose proof (so_size _ (bo_stream _ (ck_map _ st_ok0))).
  pose proof (so_size _ (bo_stream _ (ck_map _ Hok))).
  rewrite !length_contents in Hl by lia. lia.
Qed.

Lemma stored_view c c1 from bs evs :
  stored c c1 from bs evs ->
  sv_size (serve c1) = sv_size (serve c) /\ allocation_map_built (serve c1) = allocation_map_built (serve c).
Proof. intros []. by rewrite st_frame0. Qed.

Lemma room_mono m a b : room m a -> b <= a -> room m b.
Proof. intros H Hle Hen. specialize (H Hen). lia. Qed.

Lemma zero_loop_post fuel c from run :
  client_ok c -> allocation_map_built (serve c) = true -> 0 <= from -> 0 <= run -> from + run <= sv_size (serve c) ->
  room (map_of c) (blocks from run) -> run < Z.of_nat fuel ->
  (forall off, from <= off < from + run -> bit_at (map_of c) off = false) ->
  write_post c from run (zero_loop fuel from run c).
Proof.
  revert c from run. induction fuel as [| fuel IH]; intros c from run Hok Hbuilt Hf Hr Hn Hroom Hfuel Hclr;
    [lia |].
  cbn [zero_loop]. destruct (0 <? run) eqn:E.
  2:{ replace run with 0 by lia. by apply write_post_nil. }
  destruct (blockrun_at_spec from run Hf ltac:(lia)) as (Hb1 & Hb2 & Hb3).
  set (br := blockrun_at from run) in *.
  pose proof (bo_res _ (ck_map _ Hok)).
  pose proof (bo_size _ (ck_map _ Hok)). rewrite (ck_size _ Hok) in *.
  rewrite (u64_id (from + br)) by lia.
  assert (Hal : (from + br) mod block_allocation_resolution = 0 \/ run - br = 0).
  { destruct Hb3; [right; lia | by left]. }
  assert (Hbl : blocks from run = blocks from br + blocks (from + br) (run - br)).
  { rewrite <- blocks_add by (lia || done). f_equal. lia. }
  pose proof (blocks_nonneg (from + br) (run - br) ltac:(lia)).
  pose proof (blocks_pos from br ltac:(lia)).
  destruct (zero_block_post c from br) as (Hp & Hbits); try done.
  { lia. } { lia. } { by apply (room_mono _ (blocks from run)); [| lia]. } { intros off Ho. apply Hclr. lia. }
  replace run with (br + (run - br)) at 1 by lia.
  apply write_post_bind; [done | lia | lia | done | done |].
  intros c1 evs E1 Hst. destruct (stored_view _ _ _ _ _ Hst) as [Hsz Hb'].
  apply IH; [by apply (st_ok _ _ _ _ _ Hst) | congruence | lia | lia | lia | | lia |].
  - apply (stored_room c c1 from _ evs _ (blocks from br) Hst Hok); [| by rewrite <- Hbl].
    assert (Hdone : ro_res (readloop (sk_rx (sock c)) (sk_errno (sock c)) br) = IoDone).
    { destruct Hp as (? & ? & _ & _ & _ & Hres). rewrite E1 in Hres. cbn in Hres.
      destruct (ro_res _); [done | by destruct Hres ..]. }
    rewrite readloop_done_zlen by (lia || done). lia.
  - intros off Ho. rewrite (Hbits c1 off E1) by (lia ||
      (apply touches_same_block; [apply (ck_res _ Hok) | done | lia | lia | lia | by destruct Hal; [| lia]])).
    apply Hclr. lia.
Qed.

Lemma run_clip len run : (if len <? run then len else run) = Z.min len run.
Proof. destruct (len <? run) eqn:E; lia. Qed.

(** The run the loop works on: uniform, inside the request, ending at a block
    boundary unless it is the last. *)
Lemma next_run c from len :
  client_ok c -> 0 <= from -> 0 < len -> from + len <= sv_size (serve c) ->
  exists run, bitset_run_count (map_of c) from len = Ok run /\
    0 < Z.min len run /\
    ((from + Z.min len run) mod block_allocation_resolution = 0 \/ len - Z.min len run = 0) /\
    (forall off, from <= off < from + Z.min len run ->
       bit_at (map_of c) off = bit_at (map_of c) from).
Proof.
  intros Hok Hf Hl Hn. pose proof (ck_size _ Hok).
  destruct (bitset_run_count_spec (map_of c) (ck_map _ Hok) from len) as (run & E & H1 & H2 & H3 & _);
    [done | done | lia |].
  rewrite (ck_res _ Hok) in H2. exists run. split_and!; [done | lia | | intros off Ho; apply H3; lia].
  destruct (decide (run <= len)); [left | right; lia]. by rewrite Z.min_r.
Qed.

Lemma write_loop_post fuel c from len :
  client_ok c -> allocation_map_built (serve c) = true -> 0 <= from -> 0 <= len -> from + len <= sv_size (serve c) ->
  room (map_of c) (blocks from len) -> len < Z.of_nat fuel ->
  write_post c from len (write_loop fuel from len c).
Proof.
  revert c from len. induction fuel as [| fuel IH]; intros c from len Hok Hbuilt Hf Hl Hn Hroom Hfuel; [lia |].
  cbn [write_loop]. destruct (0 <? len) eqn:E.
  2:{ replace len with 0 by lia. by apply write_post_nil. }
  destruct (next_run c from len Hok Hf ltac:(lia) Hn) as (run0 & Erun & Hr1 & Hal & Huni).
  rewrite bind_gets, (bind_liftR _ _ _ _ Erun). cbn zeta. rewrite run_clip.
  set (run := Z.min len run0) in *.
  pose proof (ck_size _ Hok). pose proof (bo_res _ (ck_map _ Hok)). pose proof (bo_size _ (ck_map _ Hok)).
  rewrite (bind_liftR _ _ _ _ (bitset_is_set_at_spec _ (ck_map _ Hok) from ltac:(lia))).
  rewrite (u64_id (from + run)) by lia.
  assert (Hbl : blocks from len = blocks from run + blocks (from + run) (len - run)).
  { rewrite <- blocks_add by (lia || done). f_equal. lia. }
  pose proof (blocks_nonneg (from + run) (len - run) ltac:(lia)).
  pose proof (blocks_pos from run ltac:(lia)).
  set (body := if bit_at (map_of c) from then _ else _).
  assert (Hp : write_post c from run (body c)).
  { subst body. destruct (bit_at (map_of c) from) eqn:Eb.
    - apply read_and_mark_post; [done | done | lia | lia | by apply (room_mono _ _ _ Hroom); lia | done].
    - apply zero_loop_post; [done | done | done | lia | lia | by apply (room_mono _ _ _ Hroom); lia | lia | done]. }
  replace len with (run + (len - run)) at 1 by lia.
  apply write_post_bind; [done | lia | lia | done | done |].
  intros c1 evs E1 Hst. destruct (stored_view _ _ _ _ _ Hst) as [Hsz Hb'].
  apply IH; [by apply (st_ok _ _ _ _ _ Hst) | congruence | lia | lia | lia | | lia].
  apply (stored_room c c1 from _ evs _ (blocks from run) Hst Hok); [| by rewrite <- Hbl].
  assert (Hdone : ro_res (readloop (sk_rx (sock c)) (sk_errno (sock c)) run) = IoDone).
  { destruct Hp as (? & ? & _ & _ & _ & Hres). rewrite E1 in Hres. cbn in Hres.
    destruct (ro_res _); [done | by destruct Hres ..]. }
  rewrite readloop_done_zlen by (lia || done). lia.
Qed.

(** * The request cycle: lemmas *)

(** ** Only data is to come *)

(** Flushing is reading and dropping. *)
Lemma flush_loop_data rx e n :
  Forall data_event rx -> n <= zlen (incoming rx) -> flush_loop rx n = Ok (ro_rx (readloop rx e n)).
Proof.
  intros H. revert n. induction H as [| ev rx Hev Hrx IH]; intros n Hn.
  { change (zlen (incoming [])) with 0 in Hn. cbn. by replace (n <=? 0) with true by lia. }
  destruct (decide (n <= 0)).
  { rewrite readloop_zero by done. cbn. by replace (n <=? 0) with true by lia. }
  destruct ev as [bs | |]; [| done ..]. pose proof (data_event_pos bs Hev).
  rewrite incoming_data, zlen_app in Hn by done.
  rewrite readloop_bytes by lia. cbn [flush_loop deliver]. replace (n <=? 0) with false by lia.
  destruct (zlen bs <=? n) eqn:E.
  - replace (zlen bs <? 0) with false by lia. replace (zlen bs =? 0) with false by lia.
    destruct (n <=? zlen bs) eqn:E2; cbn [rd_prepend ro_rx]; [| apply IH; lia].
    replace (n - zlen bs) with 0 by lia. by rewrite readloop_zero.
  - replace (n <? 0) with false by lia. replace (n =? 0) with false by lia.
    by replace (n <=? n) with true by lia.
Qed.

(** ** The abstract server *)

Definition patched (f : list Z) (from : Z) (bs : list Z) : list Z :=
  take (Z.to_nat from) f ++ bs ++ drop (Z.to_nat from + length bs) f.

(** Bytes that follow a request on the wire. *)
Definition payload_len (q : nbd_request) : Z :=
  if (q_magic q =? REQUEST_MAGIC) && (q_type q =? REQUEST_WRITE) then q_len q else 0.

(** What an NBD server of [size] bytes does with a request: the file, the bytes
    sent back, and whether it stops serving. *)
Definition nbd_server (size : Z) (f : list Z) (q : nbd_request) (payload : list Z)
    : list Z * list Z * bool :=
  if negb (q_magic q =? REQUEST_MAGIC) then (f, reply_bytes (q_handle q) EBADMSG, true)
  else if size <? q_from q + q_len q then (f, reply_bytes (q_handle q) ENOSPC, false)
  else if q_type q =? REQUEST_READ then
    (f, reply_bytes (q_handle q) 0 ++ slice f (q_from q) (q_len q), false)
  else if q_type q =? REQUEST_WRITE then (patched f (q_from q) payload, reply_bytes (q_handle q) 0, false)
  else if q_type q =? REQUEST_DISCONNECT then (f, [], true)
  else if q_type q =? REQUEST_FLUSH then (f, reply_bytes (q_handle q) 0, false)
  else (f, reply_bytes (q_handle q) EINVAL, false).

(** A whole session: it ends with the first request that stops it. *)
Fixpoint nbd_session (size : Z) (f : list Z) (qs : list (nbd_request * list Z))
    : list Z * list Z * bool :=
  match qs with
  | [] => (f, [], false)
  | (q, payload) :: qs' =>
      let '(f1, out, stop) := nbd_server size f q payload in
      if stop then (f1, out, true)
      else let '(f2, out2, stop2) := nbd_session size f1 qs' in (f2, out ++ out2, stop2)
  end.

(** ** A well-behaved environment *)

Definition ready_select (c : client) (s : select_answer) : Prop :=
  0 < sel_ret s /\ FD_ISSET (stop_fd c) (sel_rfds s) = false /\ FD_ISSET (socket c) (sel_efds s) = false.

Record env_ok (c : client) : Prop := {
  ev_wq : wq_clean (sk_wq (sock c));
  ev_rx : Forall data_event (sk_rx (sock c));
  ev_sf : Forall (fun s => existsb sf_error s = false) (sendfiles c);
  ev_ms : Forall (fun r => 0 <= r) (msyncs c);
  ev_open : server_fd_closed (serve c) = false;
  ev_sel : Forall (ready_select c) (sk_selects (sock c))
}.

(** A request that does not wrap around, with room in the event stream for it. *)
Record request_ok (c : client) (q : nbd_request) (payload : list Z) : Prop := {
  rq_wf : request_wf q;
  rq_nowrap : q_from q + q_len q < 2 ^ 64;
  rq_payload : zlen payload = payload_len q;
  rq_empty : q_type q = REQUEST_WRITE -> allocation_map_built (serve c) = true \/ 0 < q_len q
}.

(** Nothing changed but the socket. *)
Definition sock_only (c c' : client) : Prop := c' = c <| sock := sock c' |>.

Lemma sock_only_ok c c' : sock_only c c' -> client_ok c -> client_ok c'.
Proof. intros -> []. by constructor. Qed.

(** Writing a reply on a socket that takes it. *)
Lemma fd_write_reply_ok h e k :
  0 <= e < 2 ^ 32 -> wq_clean (sk_wq k) ->
  exists k', fd_write_reply h e k = (Ok 1, k') /\ sk_tx k' = sk_tx k ++ reply_bytes h e /\
    sk_rx k' = sk_rx k /\ wq_clean (sk_wq k') /\ sk_selects k' = sk_selects k.
Proof.
  intros He Hw. unfold fd_write_reply. rewrite u32_id by done. fold (reply_bytes h e).
  destruct (conn_writeloop_spec (reply_bytes h e) k Hw) as (k' & E & H). exists k'.
  by rewrite (bindM_eq _ _ _ _ _ E).
Qed.

Lemma client_write_reply_ok q e c :
  0 <= e < 2 ^ 32 -> wq_clean (sk_wq (sock c)) ->
  exists k', client_write_reply q e c = (Ok 1, c <| sock := k' |>) /\
    sk_tx k' = sk_tx (sock c) ++ reply_bytes (q_handle q) e /\
    sk_rx k' = sk_rx (sock c) /\ wq_clean (sk_wq k') /\ sk_selects k' = sk_selects (sock c).
Proof.
  intros He Hw. destruct (fd_write_reply_ok (q_handle q) e (sock c) He Hw) as (k' & E & H).
  exists k'. unfold client_write_reply, on_sock. by rewrite E.
Qed.

(** What the handlers leave alone. *)
Definition kept_fields (c : client) :=
  (sv_size (serve c), allocation_map_built (serve c), use_killswitch (serve c),
   server_fd_closed (serve c), stop_fd c, socket c, stream_enabled (map_of c)).

(** [c'] is [c] after a request that left [f] in the file, sent [out], has [rest]
    still to read, and queued at most [n] events. *)
Record answered (c c' : client) (f out rest : list Z) (n : Z) : Prop := {
  an_ok : client_ok c';
  an_env : env_ok c';
  an_file : file c' = f;
  an_tx : sk_tx (sock c') = sk_tx (sock c) ++ out;
  an_rx : incoming (sk_rx (sock c')) = rest;
  an_kept : kept_fields c' = kept_fields c;
  an_sel : sk_selects (sock c') = sk_selects (sock c);
  an_room : s_size (stream (map_of c')) <= s_size (stream (map_of c)) + n
}.

Lemma answered_trans c c1 c2 f1 f2 o1 o2 r1 r2 n m :
  answered c c1 f1 o1 r1 n -> answered c1 c2 f2 o2 r2 m -> answered c c2 f2 (o1 ++ o2) r2 (n + m).
Proof.
  intros [] []. constructor; try done.
  - rewrite an_tx1, an_tx0. by rewrite app_assoc.
  - congruence.
  - congruence.
  - lia.
Qed.

Lemma env_ok_sock c k :
  env_ok c -> wq_clean (sk_wq k) -> Forall data_event (sk_rx k) ->
  sk_selects k = sk_selects (sock c) -> env_ok (c <| sock := k |>).
Proof. intros [] H1 H2 H3. constructor; cbn; try done. by rewrite H3. Qed.

(** A step that only touches the socket. *)
Lemma answered_sock c k out rest :
  client_ok c -> env_ok c -> wq_clean (sk_wq k) -> Forall data_event (sk_rx k) ->
  sk_selects k = sk_selects (sock c) -> sk_tx k = sk_tx (sock c) ++ out -> incoming (sk_rx k) = rest ->
  answered c (c <| sock := k |>) (file c) out rest 0.
Proof.
  intros Hok Hen H1 H2 H3 H4 H5. constructor; try done.
  - by destruct Hok.
  - by apply env_ok_sock.
  - cbn. lia.
Qed.

Lemma reply_answered q e c :
  0 <= e < 2 ^ 32 -> client_ok c -> env_ok c ->
  exists c', client_write_reply q e c = (Ok 1, c') /\
    answered c c' (file c) (reply_bytes (q_handle q) e) (incoming (sk_rx (sock c))) 0.
Proof.
  intros He Hok Hen. destruct (client_write_reply_ok q e c He (ev_wq _ Hen)) as (k & E & H1 & H2 & H3 & H4).
  eexists. split; [exact E |]. apply answered_sock; try done; rewrite H2; [apply (ev_rx _ Hen) | done].
Qed.

(** Fields that no property of the serving state depends on. *)
Lemma answered_refl c f n : client_ok c -> env_ok c -> file c = f -> 0 <= n ->
  answered c c f [] (incoming (sk_rx (sock c))) n.
Proof. intros. constructor; try done. { by rewrite app_nil_r. } lia. Qed.

Lemma send_file_answered from len c :
  client_ok c -> env_ok c -> 0 <= from -> 0 <= len -> from + len <= sv_size (serve c) ->
  sv_size (serve c) < 2 ^ 63 ->
  exists c', send_file from len c = (Ok tt, c') /\
    answered c c' (file c) (slice (file c) from len) (incoming (sk_rx (sock c))) 0.
Proof.
  intros Hok Hen Hf Hl Hn Hs. unfold send_file.
  set (script := default [] (head (sendfiles c))).
  assert (Hsc : existsb sf_error script = false).
  { subst script. destruct Hen as [_ _ Hsf _ _ _]. destruct (sendfiles c); [done |].
    by apply Forall_cons_1 in Hsf as [? _]. }
  replace ((2 ^ 63 <=? from) && (0 <? len)) with false by lia.
  destruct (sendfileloop_spec script (file c) from len Hf Hl) as (sent & H1 & H2 & H3 & H4).
  { pose proof (ck_file _ Hok). lia. }
  destruct H4 as [(H4 & ->) | (_ & H4)]; [| congruence]. rewrite H4, H3.
  eexists. split; [reflexivity |]. constructor; try done.
  - by destruct Hok.
  - destruct Hen. constructor; cbn; try done. destruct (sendfiles c); [done |].
    by apply Forall_cons_1 in ev_sf0 as [_ ?].
  - cbn. lia.
Qed.

Lemma reply_to_read_ok q c :
  client_ok c -> env_ok c -> request_wf q -> q_from q + q_len q <= sv_size (serve c) ->
  sv_size (serve c) < 2 ^ 63 ->
  exists c', client_reply_to_read q c = (Ok tt, c') /\
    answered c c' (file c) (reply_bytes (q_handle q) 0 ++ slice (file c) (q_from q) (q_len q))
      (incoming (sk_rx (sock c))) 0.
Proof.
  intros Hok Hen (_ & _ & _ & _ & Hf & Hl) Hn Hs. unfold client_reply_to_read, set_cork.
  rewrite bind_modify. set (c0 := c <| corked := true |>).
  assert (Hok0 : client_ok c0) by by destruct Hok. assert (Hen0 : env_ok c0) by by destruct Hen.
  destruct (reply_answered q 0 c0) as (c1 & E1 & A1); [lia | done | done |].
  rewrite (bindM_eq _ _ _ _ _ E1).
  pose proof (an_kept _ _ _ _ _ _ A1) as Hk. injection Hk as Hsz _ _ _ _ _ _.
  destruct (send_file_answered (q_from q) (q_len q) c1) as (c2 & E2 & A2);
    [apply (an_ok _ _ _ _ _ _ A1) | apply (an_env _ _ _ _ _ _ A1) | lia | lia
    | cbn in Hsz; lia | cbn in Hsz; lia |].
  rewrite (bindM_eq _ _ _ _ _ E2). eexists. split; [reflexivity |].
  pose proof (answered_trans _ _ _ _ _ _ _ _ _ _ _ A1 A2) as [].
  rewrite (an_file _ _ _ _ _ _ A1), (an_rx _ _ _ _ _ _ A1) in *.
  constructor; cbn; try done; [by destruct an_ok0 | by destruct an_env0].
Qed.

(** A copy that gets all its data. *)
Lemma copy_answered (m : M client unit) c from bs rest :
  client_ok c -> env_ok c -> 0 <= from -> from + zlen bs <= sv_size (serve c) ->
  incoming (sk_rx (sock c)) = bs ++ rest ->
  write_post c from (zlen bs) (m c) ->
  exists c', m c = (Ok tt, c') /\
    answered c c' (patched (file c) from bs) [] rest (blocks from (zlen bs)).
Proof.
  intros Hok Hen Hf Hn Hi (bs' & evs & Hst & Hrx & Her & Hres).
  pose proof (readloop_spec (sk_rx (sock c)) (sk_errno (sock c)) (zlen bs) (zlen_nonneg bs)) as Hsp.
  destruct (readloop_data (sk_rx (sock c)) (sk_errno (sock c)) (zlen bs) (ev_rx _ Hen)) as [Hd _].
  cbn zeta in Hsp. rewrite Hi, zlen_app in Hsp. pose proof (zlen_nonneg rest).
  replace (zlen bs <=? zlen bs + zlen rest) with true in Hsp by lia.
  assert (Hz : Z.to_nat (zlen bs) = length bs) by (unfold zlen; lia).
  rewrite Hz, take_app_length, drop_app_length in Hsp. destruct Hsp as (H1 & H2 & H3).
  rewrite H1 in Hres. destruct (m c) as [r c']. cbn [fst snd] in *. destruct Hres as (-> & -> & _).
  exists c'. split; [done |]. rewrite H2 in *. destruct Hst.
  pose proof (f_equal zlen st_events0) as Hl. rewrite zlen_app in Hl.
  pose proof (so_size _ (bo_stream _ (ck_map _ st_ok0))). pose proof (so_size _ (bo_stream _ (ck_map _ Hok))).
  rewrite !length_contents in Hl by lia. destruct st_sock0 as (T1 & T2 & T3).
  assert (Hfile : file c' = patched (file c) from bs).
  { pose proof (ck_file _ Hok). rewrite mem_store_ok in st_file0 by lia. by injection st_file0. }
  constructor; try done; try congruence.
  - destruct Hen. constructor; try congruence.
    + by rewrite st_frame0.
    + by rewrite st_frame0.
    + by rewrite st_frame0.
    + rewrite T3. by rewrite st_frame0.
  - by rewrite app_nil_r.
  - unfold kept_fields. rewrite st_enabled0. by rewrite st_frame0.
  - lia.
Qed.

Lemma do_msync_answered off len st c :
  client_ok c -> env_ok c ->
  exists c', do_msync off len st c = (Ok tt, c') /\ synced c' = (off, len) :: synced c /\
    answered c c' (file c) [] (incoming (sk_rx (sock c))) 0.
Proof.
  intros Hok Hen. unfold do_msync.
  assert (Hr : (default 0 (head (msyncs c)) <? 0) = false).
  { destruct Hen as [_ _ _ Hms _ _]. destruct (msyncs c); [done |]. apply Forall_cons_1 in Hms as [? _]. cbn. lia. }
  rewrite Hr. eexists. split; [reflexivity |]. split; [done |]. constructor; try done.
  - by destruct Hok.
  - destruct Hen. constructor; cbn; try done. destruct (msyncs c); [done |].
    by apply Forall_cons_1 in ev_ms0 as [_ ?].
  - cbn. by rewrite app_nil_r.
  - cbn. lia.
Qed.

(** The data part of a write, with or without the allocation map. *)
Lemma write_data_answered q payload c rest :
  client_ok c -> env_ok c -> request_ok c q payload -> q_type q = REQUEST_WRITE -> zlen payload = q_len q ->
  q_from q + q_len q <= sv_size (serve c) -> room (map_of c) (blocks (q_from q) (q_len q)) ->
  incoming (sk_rx (sock c)) = payload ++ rest ->
  exists c', (if allocation_map_built (serve c) then write_not_zeroes (q_from q) (q_len q)
              else (_ ← read_to_mapped (q_from q) (q_len q); map_set_range (q_from q) (q_len q))) c = (Ok tt, c') /\
    answered c c' (patched (file c) (q_from q) payload) [] rest (blocks (q_from q) (q_len q)).
Proof.
  intros Hok Hen [(_ & _ & _ & _ & Hf & Hl) _ _ Hemp] Hty Hp Hn Hroom Hi. rewrite <- Hp in *.
  apply copy_answered; [done | done | lia | done | done |].
  destruct (allocation_map_built (serve c)) eqn:Eb.
  - apply write_loop_post; [done | done | lia | lia | done | done | lia].
  - destruct (Hemp Hty) as [? | Hpos]; [done |].
    apply read_and_mark_done; [done | lia | done | done | | ].
    + apply (room_mono _ _ _ Hroom). apply blocks_pos. lia.
    + pose proof (readloop_spec (sk_rx (sock c)) (sk_errno (sock c)) (zlen payload) ltac:(lia)) as Hsp.
      cbn zeta in Hsp. rewrite Hi, zlen_app in Hsp. pose proof (zlen_nonneg rest).
      replace (zlen payload <=? zlen payload + zlen rest) with true in Hsp by lia. by destruct Hsp.
Qed.

Lemma reply_to_write_ok q payload c rest :
  client_ok c -> env_ok c -> request_ok c q payload -> q_type q = REQUEST_WRITE -> zlen payload = q_len q ->
  q_from q + q_len q <= sv_size (serve c) -> room (map_of c) (blocks (q_from q) (q_len q)) ->
  incoming (sk_rx (sock c)) = payload ++ rest ->
  exists c', client_reply_to_write q c = (Ok tt, c') /\
    answered c c' (patched (file c) (q_from q) payload) (reply_bytes (q_handle q) 0) rest
      (blocks (q_from q) (q_len q)).
Proof.
  intros Hok Hen Hq Hty Hp Hn Hroom Hi. unfold client_reply_to_write. rewrite bind_gets.
  destruct (write_data_answered q payload c rest) as (c1 & E1 & A1); try done.
  rewrite (bindM_eq _ _ _ _ _ E1). cbn zeta.
  destruct (do_msync_answered (Z.land (q_from q) (u64 (Z.lnot (PAGE_SIZE - 1))))
    (q_len q +64 (q_from q -64 Z.land (q_from q) (u64 (Z.lnot (PAGE_SIZE - 1))))) SFatal c1)
    as (c2 & E2 & _ & A2); [apply (an_ok _ _ _ _ _ _ A1) | apply (an_env _ _ _ _ _ _ A1) |].
  rewrite (bindM_eq _ _ _ _ _ E2).
  destruct (reply_answered q 0 c2) as (c3 & E3 & A3);
    [lia | apply (an_ok _ _ _ _ _ _ A2) | apply (an_env _ _ _ _ _ _ A2) |].
  rewrite (bindM_eq _ _ _ _ _ E3). exists c3. split; [done |].
  pose proof (answered_trans _ _ _ _ _ _ _ _ _ _ _ A1
    (answered_trans _ _ _ _ _ _ _ _ _ _ _ A2 A3)) as A. cbn [app] in A.
  rewrite (an_file _ _ _ _ _ _ A2), (an_file _ _ _ _ _ _ A1) in A.
  rewrite (an_rx _ _ _ _ _ _ A2), (an_rx _ _ _ _ _ _ A1) in A.
  by replace (blocks (q_from q) (q_len q) + (0 + 0)) with (blocks (q_from q) (q_len q)) in A by lia.
Qed.

Lemma reply_to_flush_ok q c :
  client_ok c -> env_ok c ->
  exists c', client_reply_to_flush q c = (Ok tt, c') /\
    answered c c' (file c) (reply_bytes (q_handle q) 0) (incoming (sk_rx (sock c))) 0.
Proof.
  intros Hok Hen. unfold client_reply_to_flush. rewrite bind_gets.
  destruct (do_msync_answered 0 (mapped_size c) SError c Hok Hen) as (c1 & E1 & _ & A1).
  rewrite (bindM_eq _ _ _ _ _ E1).
  destruct (reply_answered q 0 c1) as (c2 & E2 & A2);
    [lia | apply (an_ok _ _ _ _ _ _ A1) | apply (an_env _ _ _ _ _ _ A1) |].
  rewrite (bindM_eq _ _ _ _ _ E2). exists c2. split; [done |].
  pose proof (answered_trans _ _ _ _ _ _ _ _ _ _ _ A1 A2) as A. cbn [app] in A.
  by rewrite (an_file _ _ _ _ _ _ A1), (an_rx _ _ _ _ _ _ A1) in A.
Qed.

(** The flags of the thread. *)
Lemma answered_flags c d k :
  client_ok c -> env_ok c ->
  answered c (c <| disconnect := d |> <| killswitch := k |>) (file c) [] (incoming (sk_rx (sock c))) 0.
Proof.
  intros [] []. constructor; cbn; rewrite ?app_nil_r; first [done | by constructor | lia].
Qed.

Lemma set_disconnect_answered d c :
  client_ok c -> env_ok c ->
  exists c', set_disconnect d c = (Ok tt, c') /\ disconnect c' = d /\
    answered c c' (file c) [] (incoming (sk_rx (sock c))) 0.
Proof.
  intros Hok Hen. eexists. split; [reflexivity |]. split; [done |].
  exact (answered_flags c d (killswitch c) Hok Hen).
Qed.

(** Arming or disarming. *)
Definition set_killswitch (v : option Z) (c : client) : client :=
  if use_killswitch (serve c) then c <| killswitch := v |> else c.

Lemma killswitch_answered v c :
  client_ok c -> env_ok c ->
  answered c (set_killswitch v c) (file c) [] (incoming (sk_rx (sock c))) 0.
Proof.
  intros Hok Hen. unfold set_killswitch. destruct (use_killswitch (serve c)).
  - exact (answered_flags c (disconnect c) v Hok Hen).
  - by apply answered_refl.
Qed.

Lemma data_rx_answered n c bs rest :
  client_ok c -> env_ok c -> incoming (sk_rx (sock c)) = bs ++ rest -> zlen bs = n ->
  answered c (c <| sock := sock_read (sock c) n |>) (file c) [] rest 0.
Proof.
  intros Hok Hen Hi <-. destruct (readloop_data (sk_rx (sock c)) (sk_errno (sock c)) (zlen bs) (ev_rx _ Hen)).
  apply answered_sock; try done; [apply (ev_wq _ Hen) | cbn; by rewrite app_nil_r |].
  pose proof (readloop_spec (sk_rx (sock c)) (sk_errno (sock c)) (zlen bs) (zlen_nonneg bs)) as Hsp.
  cbn zeta in Hsp. rewrite Hi, zlen_app in Hsp. pose proof (zlen_nonneg rest).
  replace (zlen bs <=? zlen bs + zlen rest) with true in Hsp by lia. destruct Hsp as (_ & _ & Hsp).
  change (incoming (ro_rx (readloop (sk_rx (sock c)) (sk_errno (sock c)) (zlen bs))) = rest). rewrite Hsp.
  assert (Hz : Z.to_nat (zlen bs) = length bs) by (unfold zlen; lia). by rewrite Hz, drop_app_length.
Qed.

Lemma flush_answered c bs rest :
  client_ok c -> env_ok c -> incoming (sk_rx (sock c)) = bs ++ rest ->
  exists c', client_flush (zlen bs) c = (Ok tt, c') /\ answered c c' (file c) [] rest 0.
Proof.
  intros Hok Hen Hi. unfold client_flush. pose proof (zlen_nonneg rest).
  rewrite (flush_loop_data _ (sk_errno (sock c)) _ (ev_rx _ Hen)) by (rewrite Hi, zlen_app; lia).
  eexists. split; [reflexivity |].
  destruct (data_rx_answered (zlen bs) c bs rest Hok Hen Hi eq_refl). constructor; try done.
  - destruct an_ok0. by constructor.
  - destruct an_env0. by constructor.
Qed.

(** Requests that get to a handler. *)
Definition handled (size : Z) (q : nbd_request) : bool :=
  (q_magic q =? REQUEST_MAGIC) && (q_from q + q_len q <=? size) &&
  ((q_type q =? REQUEST_READ) || (q_type q =? REQUEST_WRITE) || (q_type q =? REQUEST_FLUSH)).

(** A reply and a flag, the common end of the refusals. *)
Lemma refuse_answered q e d c :
  0 <= e < 2 ^ 32 -> client_ok c -> env_ok c ->
  exists c', (_ ← client_write_reply q e; _ ← set_disconnect d; mret false) c = (Ok false, c') /\
    disconnect c' = d /\
    answered c c' (file c) (reply_bytes (q_handle q) e) (incoming (sk_rx (sock c))) 0.
Proof.
  intros He Hok Hen. destruct (reply_answered q e c He Hok Hen) as (c1 & E1 & A1).
  rewrite (bindM_eq _ _ _ _ _ E1).
  destruct (set_disconnect_answered d c1) as (c2 & E2 & Hd & A2);
    [apply (an_ok _ _ _ _ _ _ A1) | apply (an_env _ _ _ _ _ _ A1) |].
  rewrite (bindM_eq _ _ _ _ _ E2). exists c2. split; [done |]. split; [done |].
  pose proof (answered_trans _ _ _ _ _ _ _ _ _ _ _ A1 A2) as A.
  by rewrite app_nil_r, (an_file _ _ _ _ _ _ A1), (an_rx _ _ _ _ _ _ A1) in A.
Qed.

Lemma needs_reply_ok q payload c rest :
  client_ok c -> env_ok c -> request_ok c q payload ->
  incoming (sk_rx (sock c)) = payload ++ rest ->
  if handled (sv_size (serve c)) q then client_request_needs_reply q c = (Ok true, c)
  else exists c' f out stop, client_request_needs_reply q c = (Ok false, c') /\ disconnect c' = stop /\
    nbd_server (sv_size (serve c)) (file c) q payload = (f, out, stop) /\ answered c c' f out rest 0.
Proof.
  intros Hok Hen [Hwf Hnw Hp _] Hi. destruct Hwf as (_ & _ & _ & _ & Hf & Hl).
  unfold handled, nbd_server, client_request_needs_reply, payload_len in *.
  destruct (q_magic q =? REQUEST_MAGIC) eqn:Em; cbn [negb andb] in *.
  2:{ apply zlen_nil_inv in Hp as ->. cbn [app] in Hi. rewrite <- Hi.
      destruct (refuse_answered q EBADMSG true c) as (c' & E & Hd & A); [by_decide | done | done |].
      exists c', (file c), (reply_bytes (q_handle q) EBADMSG), true. split_and!; done. }
  rewrite bind_gets, (u64_id (q_from q + q_len q)) by lia.
  destruct (sv_size (serve c) <? q_from q + q_len q) eqn:Er.
  { replace (q_from q + q_len q <=? sv_size (serve c)) with false by lia. cbn [andb].
    assert (Hfl : exists c1, (if q_type q =? REQUEST_WRITE then client_flush (q_len q) else mret tt) c =
      (Ok tt, c1) /\ answered c c1 (file c) [] rest 0).
    { destruct (q_type q =? REQUEST_WRITE).
      - rewrite <- Hp. by apply flush_answered with (bs := payload).
      - apply zlen_nil_inv in Hp as ->. cbn [app] in Hi. exists c. split; [done |]. rewrite <- Hi.
        by apply answered_refl. }
    destruct Hfl as (c1 & E1 & A1). rewrite (bindM_eq _ _ _ _ _ E1).
    destruct (refuse_answered q ENOSPC false c1) as (c' & E & Hd & A);
      [by_decide | apply (an_ok _ _ _ _ _ _ A1) | apply (an_env _ _ _ _ _ _ A1) |].
    exists c', (file c), (reply_bytes (q_handle q) ENOSPC), false. split_and!; try done.
    pose proof (answered_trans _ _ _ _ _ _ _ _ _ _ _ A1 A) as A2. cbn [app] in A2.
    by rewrite (an_file _ _ _ _ _ _ A1), (an_rx _ _ _ _ _ _ A1) in A2. }
  replace (q_from q + q_len q <=? sv_size (serve c)) with true by lia. cbn [andb].
  destruct (q_type q =? REQUEST_READ) eqn:E0; [done |].
  destruct (q_type q =? REQUEST_WRITE) eqn:E1; [done |].
  apply zlen_nil_inv in Hp as ->. cbn [app] in Hi. rewrite <- Hi. cbn [orb].
  destruct (q_type q =? REQUEST_DISCONNECT) eqn:E2.
  { replace (q_type q =? REQUEST_FLUSH) with false.
    2:{ apply Z.eqb_eq in E2. by rewrite E2. }
    destruct (set_disconnect_answered true c Hok Hen) as (c' & E & Hd & A).
    rewrite (bindM_eq _ _ _ _ _ E). exists c', (file c), [], true. split_and!; done. }
  destruct (q_type q =? REQUEST_FLUSH) eqn:E3; [done |].
  destruct (refuse_answered q EINVAL false c) as (c' & E & Hd & A); [by_decide | done | done |].
  exists c', (file c), (reply_bytes (q_handle q) EINVAL), false. split_and!; done.
Qed.

(** A handled request. *)
Lemma client_reply_ok q payload c rest :
  client_ok c -> env_ok c -> request_ok c q payload -> handled (sv_size (serve c)) q = true ->
  sv_size (serve c) < 2 ^ 63 -> room (map_of c) (blocks (q_from q) (payload_len q)) ->
  incoming (sk_rx (sock c)) = payload ++ rest ->
  exists c' f out, client_reply q c = (Ok tt, c') /\
    nbd_server (sv_size (serve c)) (file c) q payload = (f, out, false) /\
    answered c c' f out rest (blocks (q_from q) (payload_len q)).
Proof.
  intros Hok Hen Hq Hh Hs Hroom Hi. pose proof (rq_payload _ _ _ Hq) as Hp. pose proof (rq_wf _ _ _ Hq) as Hwf.
  unfold handled in Hh. apply andb_true_iff in Hh as [Hh Ht]. apply andb_true_iff in Hh as [Hm Hr].
  unfold nbd_server, client_reply. rewrite Hm. cbn [negb]. unfold payload_len in *. rewrite Hm in *. cbn [andb] in *.
  replace (sv_size (serve c) <? q_from q + q_len q) with false by lia.
  destruct (q_type q =? REQUEST_READ) eqn:E0.
  { replace (q_type q =? REQUEST_WRITE) with false in *.
    2: apply Z.eqb_eq in E0; by rewrite E0.
    apply zlen_nil_inv in Hp as ->. cbn [app] in Hi. rewrite <- Hi.
    destruct (reply_to_read_ok q c) as (c' & E & A); [done | done | done | lia | done |].
    eexists c', _, _. split_and!; done. }
  destruct (q_type q =? REQUEST_WRITE) eqn:E1.
  { destruct (reply_to_write_ok q payload c rest) as (c' & E & A); try done; [by apply Z.eqb_eq | lia |].
    eexists c', _, _. split_and!; done. }
  apply zlen_nil_inv in Hp as ->. cbn [app] in Hi. rewrite <- Hi. cbn [orb] in Ht. rewrite Ht.
  replace (q_type q =? REQUEST_DISCONNECT) with false.
  2:{ apply Z.eqb_eq in Ht. by rewrite Ht. }
  destruct (reply_to_flush_ok q c Hok Hen) as (c' & E & A). eexists c', _, _. split_and!; done.
Qed.

(** The state once [select] has returned. *)
Definition pop_select (c : client) : client :=
  c <| sock := {| sk_rx := sk_rx (sock c); sk_wq := sk_wq (sock c); sk_tx := sk_tx (sock c);
                  sk_errno := sk_errno (sock c); sk_selects := tail (sk_selects (sock c)) |} |>.

Lemma on_sock_select c s sels :
  sk_selects (sock c) = s :: sels -> 0 < sel_ret s -> on_sock conn_select c = (Ok s, pop_select c).
Proof.
  intros Hs Hr. unfold on_sock, conn_select, pop_select. rewrite Hs. cbn.
  replace (sel_ret s =? -1) with false by lia. by destruct (negb _).
Qed.

Lemma pop_select_ok c : client_ok c -> env_ok c -> client_ok (pop_select c) /\ env_ok (pop_select c).
Proof.
  intros [] []. split; [by constructor |]. constructor; cbn; try done.
  destruct (sk_selects (sock c)); [done |]. by apply Forall_cons_1 in ev_sel0 as [_ ?].
Qed.

(** The request as it arrives. *)
Definition request_bytes (q : nbd_request) : list Z := to_wire (nbd_h2r_request q).

Lemma zlen_request_bytes q : request_wf q -> zlen (request_bytes q) = NBD_REQUEST_SIZE.
Proof.
  intros (_ & _ & _ & H & _). unfold zlen, request_bytes.
  by rewrite to_wire_length by exact (h2r_request_wf _ H).
Qed.

Lemma client_read_request_ok q c rest :
  client_ok c -> env_ok c -> request_wf q -> incoming (sk_rx (sock c)) = request_bytes q ++ rest ->
  exists c', client_read_request c = (Ok (Some q), c') /\ answered c c' (file c) [] rest 0.
Proof.
  intros Hok Hen Hwf Hi. pose proof (zlen_request_bytes q Hwf) as Hz.
  pose proof (readloop_spec (sk_rx (sock c)) (sk_errno (sock c)) NBD_REQUEST_SIZE ltac:(done)) as Hsp.
  cbn zeta in Hsp. rewrite Hi, zlen_app, Hz in Hsp. pose proof (zlen_nonneg rest).
  replace (NBD_REQUEST_SIZE <=? NBD_REQUEST_SIZE + zlen rest) with true in Hsp by lia.
  assert (Hz' : Z.to_nat NBD_REQUEST_SIZE = length (request_bytes q)) by (rewrite <- Hz; unfold zlen; lia).
  rewrite Hz', take_app_length in Hsp.
  destruct Hsp as (H1 & H2 & _).
  unfold client_read_request, fd_read_request.
  rewrite (bindM_eq _ _ _ _ _ (on_sock_readloop _ c)). cbn beta iota zeta. rewrite H1, H2.
  eexists. split; [| by apply data_rx_answered with (bs := request_bytes q)].
  unfold mret, M_ret. do 2 f_equal. unfold request_bytes.
  rewrite of_to_wire by (apply h2r_request_wf; apply Hwf). by rewrite r2h_h2r_request.
Qed.

(** The end of every cycle: the killswitch is disarmed. *)
Lemma disarm_answered c0 c2 c3 f2 f out r2 rest n m :
  answered c0 c2 f2 [] r2 0 -> answered c2 c3 f out rest n -> n <= m ->
  answered c0 (set_killswitch None c3) f out rest m /\
  disconnect (set_killswitch None c3) = disconnect c3 /\
  (use_killswitch (serve c0) = true -> killswitch (set_killswitch None c3) = None).
Proof.
  intros A A3 Hn.
  pose proof (killswitch_answered None c3 (an_ok _ _ _ _ _ _ A3) (an_env _ _ _ _ _ _ A3)) as A4.
  pose proof (answered_trans _ _ _ _ _ _ _ _ _ _ _ A (answered_trans _ _ _ _ _ _ _ _ _ _ _ A3 A4)) as [].
  rewrite app_nil_r in *. rewrite (an_file _ _ _ _ _ _ A3), (an_rx _ _ _ _ _ _ A3) in *.
  split; [constructor; try done; lia |].
  pose proof (an_kept _ _ _ _ _ _ A3) as Hk3. injection Hk3 as _ _ Hks3 _ _ _ _.
  pose proof (an_kept _ _ _ _ _ _ A) as Hk. injection Hk as _ _ Hks _ _ _ _.
  unfold set_killswitch. rewrite Hks3, Hks. by destruct (use_killswitch (serve c0)).
Qed.

(** The state in which a request has been read. *)
Lemma request_arrives q c rest :
  client_ok c -> env_ok c -> request_wf q -> incoming (sk_rx (sock c)) = request_bytes q ++ rest ->
  exists c2, client_read_request (set_killswitch (Some CLIENT_HANDLER_TIMEOUT) c) = (Ok (Some q), c2) /\
    answered c c2 (file c) [] rest 0.
Proof.
  intros Hok Hen Hwf Hi.
  pose proof (killswitch_answered (Some CLIENT_HANDLER_TIMEOUT) c Hok Hen) as A1.
  destruct (client_read_request_ok q (set_killswitch (Some CLIENT_HANDLER_TIMEOUT) c) rest) as (c2 & E2 & A2);
    [apply (an_ok _ _ _ _ _ _ A1) | apply (an_env _ _ _ _ _ _ A1) | done
    | by rewrite (an_rx _ _ _ _ _ _ A1) |].
  exists c2. split; [done |].
  pose proof (answered_trans _ _ _ _ _ _ _ _ _ _ _ A1 A2) as A. cbn [app] in A.
  by rewrite (an_file _ _ _ _ _ _ A1) in A.
Qed.

Lemma serve_request_ok q payload c rest s sels :
  client_ok c -> env_ok c -> request_ok c q payload -> sv_size (serve c) < 2 ^ 63 ->
  sk_selects (sock c) = s :: sels ->
  room (map_of c) (blocks (q_from q) (payload_len q)) ->
  incoming (sk_rx (sock c)) = request_bytes q ++ payload ++ rest ->
  exists c' f out stop, client_serve_request c = (Ok stop, c') /\
    nbd_server (sv_size (serve c)) (file c) q payload = (f, out, stop) /\
    answered (pop_select c) c' f out rest (blocks (q_from q) (payload_len q)) /\
    (use_killswitch (serve c) = true -> killswitch c' = None).
Proof.
  intros Hok Hen Hq Hs Hsel Hroom Hi.
  assert (Hrs : ready_select c s).
  { destruct Hen as [_ _ _ _ _ Hr]. rewrite Hsel in Hr. by apply Forall_cons_1 in Hr as [? _]. }
  destruct Hrs as (Hr1 & Hr2 & Hr3). destruct (pop_select_ok c Hok Hen) as [Hok0 Hen0].
  unfold client_serve_request. rewrite (bindM_eq _ _ _ _ _ (on_sock_select c s sels Hsel Hr1)).
  replace (sel_ret s =? 0) with false by lia. replace (sel_ret s <? 0) with false by lia.
  rewrite bind_gets. cbn [fst snd]. change (stop_fd (pop_select c)) with (stop_fd c).
  change (socket (pop_select c)) with (socket c). rewrite Hr2, Hr3.
  unfold client_arm_killswitch. rewrite bind_modify.
  fold (set_killswitch (Some CLIENT_HANDLER_TIMEOUT) (pop_select c)).
  destruct (request_arrives q (pop_select c) (payload ++ rest) Hok0 Hen0 (rq_wf _ _ _ Hq) Hi) as (c2 & E2 & A).
  rewrite (bindM_eq _ _ _ _ _ E2). cbn beta iota.
  pose proof (an_ok _ _ _ _ _ _ A) as Hok2. pose proof (an_env _ _ _ _ _ _ A) as Hen2.
  pose proof (an_kept _ _ _ _ _ _ A) as Hk. injection Hk as Hsz Hbt _ _ _ _ Hse. cbn in Hsz, Hbt, Hse.
  pose proof (an_file _ _ _ _ _ _ A) as Hfile. cbn in Hfile.
  assert (Hq2 : request_ok c2 q payload) by (destruct Hq; constructor; try done; by rewrite Hbt).
  pose proof (needs_reply_ok q payload c2 rest Hok2 Hen2 Hq2 (an_rx _ _ _ _ _ _ A)) as Hnr.
  assert (Hpl : 0 <= payload_len q) by (rewrite <- (rq_payload _ _ _ Hq); apply zlen_nonneg).
  pose proof (blocks_nonneg (q_from q) (payload_len q) Hpl) as Hbn.
  rewrite Hsz, Hfile in Hnr. destruct (handled (sv_size (serve c)) q) eqn:Hh.
  - rewrite (bindM_eq _ _ _ _ _ Hnr). cbn [negb]. rewrite bind_gets, (ev_open _ Hen2).
    destruct (client_reply_ok q payload c2 rest) as (c3 & f & out & E3 & Hspec & A3);
      try done; [by rewrite Hsz | lia | | by apply (an_rx _ _ _ _ _ _ A) |].
    { intros Ht. rewrite Hse in Ht. specialize (Hroom Ht). pose proof (an_room _ _ _ _ _ _ A) as Ha.
      cbn in Ha. lia. }
    rewrite Hsz, Hfile in Hspec. destruct (disarm_answered _ _ _ _ _ _ _ _ _ _ A A3 (Z.le_refl _)) as (HA & _ & HK).
    exists (set_killswitch None c3), f, out, false. split_and!; try done.
    unfold mbind at 1, M_bind at 1. by rewrite (bindM_eq _ _ _ _ _ E3).
  - destruct Hnr as (c3 & f & out & stop & E3 & Hd & Hspec & A3).
    destruct (disarm_answered _ _ _ _ _ _ _ _ _ _ A A3 Hbn) as (HA & HD & HK).
    rewrite (bindM_eq _ _ _ _ _ E3). exists (set_killswitch None c3), f, out, stop. split_and!; try done.
    cbn [negb]. unfold client_disarm_killswitch. rewrite bind_modify. fold (set_killswitch None c3).
    unfold gets. by rewrite HD, Hd.
Qed.

(** Requests and their data as they arrive, one after the other. *)
Definition session_bytes (qs : list (nbd_request * list Z)) : list Z :=
  concat ((fun x => request_bytes x.1 ++ x.2) <$> qs).

Definition session_blocks (qs : list (nbd_request * list Z)) : Z :=
  foldr (fun x n => blocks (q_from x.1) (payload_len x.1) + n) 0 qs.

(** A request was served and the thread goes on. *)
Definition request_served (c c' : client) : Prop := client_serve_request c = (Ok false, c').

Lemma session_blocks_nonneg c qs : Forall (fun x => request_ok c x.1 x.2) qs -> 0 <= session_blocks qs.
Proof.
  induction 1 as [| x l Hx _ IH]; [done |]. cbn. unfold session_blocks in IH.
  pose proof (blocks_nonneg (q_from x.1) (payload_len x.1)) as Hb. rewrite <- (rq_payload _ _ _ Hx) in Hb.
  pose proof (zlen_nonneg x.2). rewrite <- (rq_payload _ _ _ Hx). lia.
Qed.

(** The requests of a session are served one after the other, up to the one that
    stops it. *)
Lemma session_run qs c f out stop rest :
  client_ok c -> env_ok c -> sv_size (serve c) < 2 ^ 63 ->
  Forall (fun x => request_ok c x.1 x.2) qs ->
  (length qs <= length (sk_selects (sock c)))%nat ->
  room (map_of c) (session_blocks qs) ->
  incoming (sk_rx (sock c)) = session_bytes qs ++ rest ->
  nbd_session (sv_size (serve c)) (file c) qs = (f, out, stop) ->
  exists c', client_ok c' /\ env_ok c' /\ file c' = f /\ sk_tx (sock c') = sk_tx (sock c) ++ out /\
    kept_fields c' = kept_fields c /\ (use_killswitch (serve c) = true -> qs <> [] -> killswitch c' = None) /\
    if stop
    then exists n c0, (n < length qs)%nat /\ nsteps request_served n c c0 /\ client_serve_request c0 = (Ok true, c')
    else nsteps request_served (length qs) c c' /\ incoming (sk_rx (sock c')) = rest /\
         sk_selects (sock c') = drop (length qs) (sk_selects (sock c)) /\
         s_size (stream (map_of c')) <= s_size (stream (map_of c)) + session_blocks qs.
Proof.
  revert c out. induction qs as [| [q payload] qs IH]; intros c out Hok Hen Hs Hqs Hsel Hroom Hi Hspec.
  { injection Hspec as <- <- <-. exists c. rewrite app_nil_r. split_and!; try done; [constructor |]. cbn. lia. }
  apply Forall_cons_1 in Hqs as [Hq Hqs]. cbn [fst snd] in Hq.
  destruct (sk_selects (sock c)) as [| s sels] eqn:Esel; [simpl in Hsel; lia |].
  assert (Hb1 : 0 <= blocks (q_from q) (payload_len q)).
  { apply blocks_nonneg. rewrite <- (rq_payload _ _ _ Hq). apply zlen_nonneg. }
  pose proof (session_blocks_nonneg _ _ Hqs) as Hb2.
  change (session_blocks ((q, payload) :: qs)) with
    (blocks (q_from q) (payload_len q) + session_blocks qs) in *.
  destruct (serve_request_ok q payload c (session_bytes qs ++ rest) s sels) as (c1 & f1 & o1 & st & E & Hsp & A & HK);
    try done; [by apply (room_mono _ _ _ Hroom); lia | rewrite Hi; unfold session_bytes; cbn; by rewrite <- !app_assoc |].
  cbn [nbd_session] in Hspec. rewrite Hsp in Hspec.
  destruct A. pose proof an_kept0 as Hk. injection Hk as Hsz Hbt Hks _ _ _ Hse. cbn in Hsz, Hbt, Hks, Hse.
  destruct st.
  { injection Hspec as <- <- <-. exists c1. split_and!; try done; [auto |].
    exists O, c. split_and!; [simpl; lia | constructor | done]. }
  destruct (nbd_session (sv_size (serve c)) f1 qs) as [[f2 o2] st2] eqn:E2. injection Hspec as -> <- ->.
  destruct (IH c1 o2) as (c' & H1 & H2 & H3 & H4 & H5 & H6 & H7); try done.
  - lia.
  - eapply list.Forall_impl; [exact Hqs |]. intros x []. constructor; try done. by rewrite Hbt.
  - rewrite an_sel0. cbn. rewrite Esel. simpl in Hsel |- *. lia.
  - intros Ht. rewrite Hse in Ht. specialize (Hroom Ht). cbn in an_room0. lia.
  - by rewrite Hsz, an_file0.
  - exists c'. split_and!; try done.
    + rewrite H4, an_tx0. cbn. by rewrite app_assoc.
    + by rewrite H5.
    + intros Ht _. destruct (decide (qs = [])) as [-> | Hne]; [| apply H6; [by rewrite Hks | done]].
      injection E2 as _ _ <-. destruct H7 as (Hst & _). inversion Hst; subst. auto.
    + destruct stop.
      * destruct H7 as (n & c0 & Hn & Hst & Hlast). exists (S n), c0. split_and!; [simpl; lia | | done].
        by apply nsteps_l with c1.
      * destruct H7 as (Hst & Hrest & Hsl & Hz). split_and!; [by apply nsteps_l with c1 | done | |].
        -- rewrite Hsl, an_sel0. cbn. by rewrite Esel.
        -- cbn in an_room0. lia.
Qed.

(** The loop goes through requests that do not stop it. *)
Lemma serve_requests_steps n fuel c c' :
  nsteps request_served n c c' -> serve_requests (n + fuel) c = serve_requests fuel c'.
Proof.
  revert c. induction n as [| n IH]; intros c H; inversion H as [| ? c1 c2 c3 H1 H2]; subst; [done |].
  cbn [Nat.add serve_requests]. rewrite (bindM_eq _ _ _ _ _ H1). by apply IH.
Qed.

Lemma session_ok qs c f out rest fuel :
  client_ok c -> env_ok c -> sv_size (serve c) < 2 ^ 63 ->
  Forall (fun x => request_ok c x.1 x.2) qs ->
  (length qs <= length (sk_selects (sock c)))%nat -> (length qs <= fuel)%nat ->
  room (map_of c) (session_blocks qs) ->
  incoming (sk_rx (sock c)) = session_bytes qs ++ rest ->
  nbd_session (sv_size (serve c)) (file c) qs = (f, out, true) ->
  exists c', serve_requests fuel c = (Ok tt, c') /\ file c' = f /\
    sk_tx (sock c') = sk_tx (sock c) ++ out /\ client_ok c' /\
    (use_killswitch (serve c) = true -> killswitch c' = None).
Proof.
  intros Hok Hen Hs Hqs Hsel Hfuel Hroom Hi Hspec.
  destruct (session_run qs c f out true rest) as (c' & H1 & _ & H3 & H4 & _ & H6 & n & c0 & Hn & Hst & Hlast); try done.
  exists c'. split_and!; try done.
  - replace fuel with (n + S (fuel - S n))%nat by lia. rewrite (serve_requests_steps _ _ _ _ Hst).
    cbn [serve_requests]. by rewrite (bindM_eq _ _ _ _ _ Hlast).
  - intros Hks. apply H6; [done |]. intros ->. simpl in Hn. lia.
Qed.

(** ** Where the code falls short *)

(** A range of no bytes at offset 0: the last chunk underflows and the bitset
    writes over its end. *)
Lemma set_range_empty_fault m :
  bitset_ok m -> resolution m = block_allocation_resolution -> nbits (bits m) < 2 ^ 52 ->
  bitset_set_range m 0 0 = Stop SFault.
Proof.
  intros Hok Hres Hn. unfold bitset_set_range, INT_FIRST_AND_LAST. rewrite Hres.
  change (((0 +64 0) -64 1) / block_allocation_resolution) with (2 ^ 52 - 1).
  change (0 / block_allocation_resolution) with 0.
  change ((2 ^ 52 - 1 -64 0) +64 1) with (2 ^ 52).
  unfold bit_set_range, range_loop.
  assert (Hh : forall n, head_loop bit_set n (bits m) 0 = Ok (bits m, 0, n)) by (intros []; done).
  rewrite Hh. cbn [mbind res_bind]. rewrite Z2Nat.id by lia.
  change (BITS_PER_WORD <=? 2 ^ 52) with true. cbn iota.
  change (0 / BITS_PER_WORD * BITFIELD_WORD_SIZE) with 0. change (2 ^ 52 / 8) with (2 ^ 49).
  change 255 with (byte_of true). pose proof (proj2 (bo_words _ Hok)).
  rewrite memset_fault; [done | apply (bo_words _ Hok) | lia | rewrite Z2Nat.id by lia; lia |].
  rewrite nbits_eq. pose proof (zlen_nonneg (bits m)). lia.
Qed.

(** * Properties *)

(** C4: the sparse write path does what a plain copy from the socket to the file
    does, for a range inside the export, with the map built and room in the event
    stream for the blocks of the range. It succeeds exactly when [len] bytes arrive, and
    then the file holds them at [from], every changed byte is inside a queued SET event
    while the stream is on, and the allocation map still shows every block with data.
    It fails with an error when the connection ends or fails before that, and waits
    when the peer just stops sending; either way bytes outside the range are untouched
    and the map is still sound. With the input at hand it takes no more than [len] + 1
    rounds of its loop. *)
Theorem write_not_zeroes_correct c from len :
  client_ok c -> allocation_map_built (serve c) = true ->
  0 <= from -> 0 <= len -> from + len <= sv_size (serve c) -> room (map_of c) (blocks from len) ->
  let o := readloop (sk_rx (sock c)) (sk_errno (sock c)) len in
  exists c' evs, write_not_zeroes from len c = (io_outcome (ro_res o), c') /\
    client_ok c' /\ sparse (map_of c') (file c') /\
    contents (stream (map_of c')) = contents (stream (map_of c)) ++ evs /\ zlen evs <= blocks from len /\
    (ro_res o = IoDone ->
       file c' = patched (file c) from (ro_bytes o) /\ sk_rx (sock c') = ro_rx o /\ tracked c c' evs) /\
    (forall off, ~ (from <= off < from + len) -> byte_at (file c') off = byte_at (file c) off).
Proof.
  intros Hok Hb Hf Hl Hn Hr. cbn zeta.
  pose proof (readloop_bytes_le (sk_rx (sock c)) (sk_errno (sock c)) len Hl) as Hle.
  destruct (write_loop_post (S (Z.to_nat len)) c from len) as (bs & evs & Hst & Hrx & Her & Hres);
    try done; [lia |].
  fold (write_not_zeroes from len c) in *. destruct (write_not_zeroes from len c) as [r c'].
  cbn [fst snd] in *. exists c', evs. pose proof (st_ok _ _ _ _ _ Hst) as Hok'.
  destruct (stored_view _ _ _ _ _ Hst) as [_ Hb']. pose proof (ck_file _ Hok).
  assert (Hbs : zlen bs <= len).
  { destruct (ro_res _); [by destruct Hres as (_ & -> & _) | destruct Hres as (_ & [k E]) ..].
    all: rewrite E, zlen_app in Hle; pose proof (zlen_nonneg k); lia. }
  split. { f_equal. destruct (ro_res _); by destruct Hres. }
  split_and!; [done | apply (ck_sparse _ Hok'); congruence | apply (st_events _ _ _ _ _ Hst) | | |].
  - pose proof (st_count _ _ _ _ _ Hst). transitivity (blocks from (zlen bs)); [done |].
    unfold blocks. pose proof (zlen_nonneg bs).
    destruct (Z.eqb_spec (zlen bs) 0); [fold (blocks from len); apply blocks_nonneg; lia |].
    destruct (Z.eqb_spec len 0); [lia |].
    pose proof (div_block_le (from + zlen bs - 1) (from + len - 1) ltac:(lia)). lia.
  - intros Hd. rewrite Hd in Hres. destruct Hres as (_ & -> & Ht). split_and!; try done.
    pose proof (st_file _ _ _ _ _ Hst) as Hm. rewrite mem_store_ok in Hm by lia. by injection Hm.
  - intros off Ho. rewrite (byte_at_store _ _ _ _ _ (st_file _ _ _ _ _ Hst)).
    destruct ((from <=? off) && (off <? from + zlen bs)) eqn:E; [lia | done].
Qed.

(** C3: a client's session refines the abstract NBD server, in any segmentation of
    the incoming data: the thread ends with the file and the reply stream of the
    specification. Reads return the bytes earlier writes left, out-of-range requests get
    ENOSPC and their data is skipped, unknown ones EINVAL, a bad magic EBADMSG and the
    end. The invariant of the allocation map holds at the end and the killswitch is off.
    This is for a session of well-formed requests that arrive whole, the last of which
    ends it; none wraps around 2^64 ([request_range_wraps] shows what happens then),
    none is a write of no bytes while the map is not built ([empty_write_faults]). The
    event stream has room for all blocks written (a full stream makes the thread wait),
    the export is smaller than 2^63 bytes, and the environment does its part: the
    connection takes the replies, [select] reports data, [sendfile] and [msync] work,
    the server is not closing. *)
Theorem client_session_refines qs c f out rest fuel :
  client_ok c -> env_ok c -> sv_size (serve c) < 2 ^ 63 ->
  Forall (fun x => request_ok c x.1 x.2) qs ->
  (length qs <= length (sk_selects (sock c)))%nat -> (length qs <= fuel)%nat ->
  room (map_of c) (session_blocks qs) ->
  incoming (sk_rx (sock c)) = session_bytes qs ++ rest ->
  nbd_session (sv_size (serve c)) (file c) qs = (f, out, true) ->
  exists c', serve_requests fuel c = (Ok tt, c') /\ file c' = f /\
    sk_tx (sock c') = sk_tx (sock c) ++ out /\ client_ok c' /\
    (use_killswitch (serve c) = true -> killswitch c' = None).
Proof. apply session_ok. Qed.

(** C30: however a client thread ends, normally or by an [error()] at any point,
    it leaves the killswitch disarmed (when killswitches are in use), its socket
    closed, the file unmapped and the ACL lock released. *)
Theorem client_serve_cleans_up fuel open_fd lseek_size mmap_result madvise_result c r c' :
  client_serve fuel open_fd lseek_size mmap_result madvise_result c = (r, c') ->
  r = Ok tt \/ r = Stop SError ->
  (use_killswitch (serve c') = true -> killswitch c' = None) /\
  (socket c' = -1 \/ socket c' = 0) /\ is_mapped c' = false /\ acl_held (serve c') = false.
Proof.
  assert (Hcl : forall c0 c1 : client, client_cleanup c0 = (Ok tt, c1) ->
    (use_killswitch (serve c1) = true -> killswitch c1 = None) /\
    (socket c1 = -1 \/ socket c1 = 0) /\ is_mapped c1 = false /\ acl_held (serve c1) = false).
  { intros c0 c1. unfold client_cleanup, client_disarm_killswitch. rewrite bind_modify. unfold modify.
    intros [= <-]. cbn. split_and!; try done; destruct (use_killswitch (serve c0)) eqn:U; cbn.
    - done.
    - congruence.
    - destruct (Z.eqb_spec (socket c0) 0); cbn; auto.
    - destruct (Z.eqb_spec (socket c0) 0); cbn; auto. }
  assert (Hok : forall (m : M client unit) c0 c1 u, (m ≫= fun _ => client_cleanup) c0 = (Ok u, c1) ->
    exists c2, client_cleanup c2 = (Ok u, c1)).
  { intros m c0 c1 u. unfold mbind, M_bind. destruct (m c0) as [[] c2]; [| done]. eauto. }
  unfold client_serve, client_serve_with. destruct (open_and_mmap _ _ _ _) as [r0 osz]. destruct (r0 <? 0).
  { intros [= <- <-] [? | ?]; done. }
  destruct (madvise_result <? 0); [intros [= <- <-] [? | ?]; done |].
  match goal with |- context [client_thread _ ?x] => set (c1 := x) end.
  destruct (client_thread (serve_requests fuel) c1) as [[[] | []] c2] eqn:E; intros H [-> | ->]; try done.
  - injection H as <-. unfold client_thread in E.
    unfold mbind at 1, M_bind at 1 in E. destruct (client_send_hello c1) as [[] c3]; [| done].
    unfold mbind at 1, M_bind at 1 in E. destruct (serve_requests fuel c3) as [[] c4]; [| done].
    rewrite bind_modify, bind_gets in E. apply Hok in E as (c5 & E). by apply (Hcl c5).
  - destruct (client_cleanup c2) as [[] c3] eqn:E2; [| done]. injection H as <-.
    by apply (Hcl c2); destruct a.
Qed.

(** C38: the range check adds in 64 bits. A read or write whose end wraps around to
    a small offset passes it, although it starts far behind the end of the export. *)
Theorem request_range_wraps c q :
  q_magic q = REQUEST_MAGIC -> q_type q = REQUEST_READ \/ q_type q = REQUEST_WRITE ->
  0 <= q_from q < 2 ^ 64 -> 0 <= q_len q < 2 ^ 32 ->
  2 ^ 64 <= q_from q + q_len q -> q_from q + q_len q - 2 ^ 64 <= sv_size (serve c) ->
  client_request_needs_reply q c = (Ok true, c).
Proof.
  intros Hm Ht Hf Hl Hw Hs. unfold client_request_needs_reply. rewrite Hm, Z.eqb_refl. cbn [negb].
  rewrite bind_gets, (u64_wrap (q_from q + q_len q)) by lia.
  replace (sv_size (serve c) <? q_from q + q_len q - 2 ^ 64) with false by lia.
  by destruct Ht as [-> | ->].
Qed.

(** C39: while the allocation map is not built, a write request of no bytes at
    offset 0 makes the server write outside the allocation map. *)
Theorem empty_write_faults c q :
  client_ok c -> allocation_map_built (serve c) = false -> nbits (bits (map_of c)) < 2 ^ 52 ->
  q_from q = 0 -> q_len q = 0 ->
  exists c', client_reply_to_write q c = (Stop SFault, c').
Proof.
  intros Hok Hb Hn Hf Hl. unfold client_reply_to_write. rewrite bind_gets, Hb, Hf, Hl.
  pose proof (bo_size _ (ck_map _ Hok)). pose proof (ck_size _ Hok).
  destruct (read_to_mapped_eq c 0 0 Hok) as (f & Hm & E); [lia | lia | lia |].
  rewrite readloop_zero in E by lia. cbn [ro_res io_outcome] in E.
  unfold mbind at 1, M_bind at 1. rewrite (bindM_eq _ _ _ _ _ E).
  unfold map_set_range. cbn [serve set_field].
  change (map_of (c <| sock := sock_read (sock c) 0 |> <| file := f |>)) with (map_of c).
  rewrite (set_range_empty_fault _ (ck_map _ Hok) (ck_res _ Hok) Hn). eauto.
Qed.

(** The end of the connection is told from an error by [errno == 0], which
    [readloop] does not set. With an [errno] left by an earlier call, an orderly close
    by the peer between two requests takes the whole server down. *)
Theorem eof_with_stale_errno_is_fatal c rx :
  sk_rx (sock c) = RdEof :: rx ->
  sk_errno (sock c) <> 0 -> sk_errno (sock c) <> ECONNRESET -> sk_errno (sock c) <> ETIMEDOUT ->
  (client_read_request c).1 = Stop SFatal.
Proof.
  intros Hrx H1 H2 H3. unfold client_read_request, fd_read_request.
  rewrite (bindM_eq _ _ _ _ _ (on_sock_readloop _ c)). cbn beta iota zeta. rewrite Hrx.
  change (ro_res (readloop (RdEof :: rx) (sk_errno (sock c)) NBD_REQUEST_SIZE)) with IoFail. cbn iota.
  rewrite bind_gets.
  change (sk_errno (sock (c <| sock := sock_read (sock c) NBD_REQUEST_SIZE |>)))
    with (ro_errno (readloop (sk_rx (sock c)) (sk_errno (sock c)) NBD_REQUEST_SIZE)).
  rewrite Hrx. change (ro_errno (readloop (RdEof :: rx) (sk_errno (sock c)) NBD_REQUEST_SIZE))
    with (sk_errno (sock c)).
  rewrite !(proj2 (Z.eqb_neq _ _)) by done. done.
Qed.

(** ** Witnesses *)

Definition example_select : select_answer :=
  {| sel_ret := 1; sel_errno := 0; sel_rfds := [5]; sel_wfds := []; sel_efds := [] |}.

Definition zero_file : list Z := replicate (Z.to_nat 12288) 0.

Definition empty_map : bitset :=
  {| bs_size := 12288; resolution := 4096; stream := stream_alloc; stream_enabled := false;
     bits := [0] |}.

Lemma empty_map_ok : bitset_ok empty_map.
Proof.
  constructor.
  - done.
  - done.
  - split; [repeat constructor; lia | done].
  - done.
  - apply stream_alloc_ok.
Qed.

(** A server of three empty blocks. *)
Definition example_serve (built : bool) : serve_view :=
  {| sv_size := 12288; allocation_map := empty_map; allocation_map_built := built;
     use_killswitch := true; server_fd_closed := false; sv_success := true;
     close_signal := self_pipe_create; acl_held := false |}.

Definition example_client (built : bool) (rx : list rd_event) : client :=
  (client_create (example_serve built) 5 6
    {| sk_rx := rx; sk_wq := [WrAccept 3]; sk_tx := []; sk_errno := 0;
       sk_selects := [example_select; example_select; example_select] |}
    zero_file [] []) <| mapped_size := 12288 |> <| is_mapped := true |>.

Lemma zero_file_byte n off : byte_at (replicate n 0) off = 0.
Proof.
  unfold byte_at. destruct (0 <=? off); [| done].
  destruct (replicate n 0 !! Z.to_nat off) as [z |] eqn:E; [| done].
  by apply lookup_replicate_1 in E as [-> _].
Qed.

Lemma example_client_ok built rx : client_ok (example_client built rx).
Proof.
  constructor.
  - exact empty_map_ok.
  - done.
  - done.
  - done.
  - change (12288 <= zlen zero_file). by vm_compute.
  - intros _ off _ _. apply zero_file_byte.
Qed.

Lemma example_room built rx n : room (map_of (example_client built rx)) n.
Proof. intros H. discriminate H. Qed.

Lemma write_not_zeroes_correct_witness :
  let c := example_client true [RdBytes [0; 1]; RdBytes [2; 3]] in
  let o := readloop (sk_rx (sock c)) 0 3 in
  exists c' evs, write_not_zeroes 5000 3 c = (io_outcome (ro_res o), c') /\
    client_ok c' /\ sparse (map_of c') (file c') /\
    contents (stream (map_of c')) = contents (stream (map_of c)) ++ evs /\ zlen evs <= blocks 5000 3 /\
    (ro_res o = IoDone ->
       file c' = patched (file c) 5000 (ro_bytes o) /\ sk_rx (sock c') = ro_rx o /\ tracked c c' evs) /\
    (forall off, ~ (5000 <= off < 5000 + 3) -> byte_at (file c') off = byte_at (file c) off).
Proof.
  intros c. apply (write_not_zeroes_correct c 5000 3).
  - exact (example_client_ok _ _).
  - reflexivity.
  - lia.
  - lia.
  - vm_compute. discriminate.
  - exact (example_room _ _ _).
Defined.

Definition example_requests : list (nbd_request * list Z) :=
  [({| q_magic := REQUEST_MAGIC; q_flags := 0; q_type := REQUEST_WRITE; q_handle := 7;
       q_from := 5000; q_len := 3 |}, [1; 2; 3]);
   ({| q_magic := REQUEST_MAGIC; q_flags := 0; q_type := REQUEST_READ; q_handle := 8;
       q_from := 4999; q_len := 4 |}, []);
   ({| q_magic := REQUEST_MAGIC; q_flags := 0; q_type := REQUEST_DISCONNECT; q_handle := 9;
       q_from := 0; q_len := 0 |}, [])].

Lemma client_session_refines_witness :
  let c := example_client true [RdBytes (session_bytes example_requests)] in
  let spec := nbd_session 12288 zero_file example_requests in
  spec.1.2 = reply_bytes 7 0 ++ reply_bytes 8 0 ++ [0; 1; 2; 3] /\
  exists c', serve_requests 3 c = (Ok tt, c') /\ file c' = spec.1.1 /\
    sk_tx (sock c') = spec.1.2 /\ client_ok c' /\ (true = true -> killswitch c' = None).
Proof.
  intros c spec. split; [vm_compute; reflexivity |].
  apply (client_session_refines example_requests c spec.1.1 spec.1.2 [] 3).
  - exact (example_client_ok _ _).
  - constructor.
    + repeat constructor.
    + constructor; [| constructor]. vm_compute. discriminate.
    + constructor.
    + constructor.
    + reflexivity.
    + repeat constructor.
  - vm_compute. reflexivity.
  - repeat constructor; try by_decide; vm_compute; reflexivity.
  - simpl. lia.
  - simpl. lia.
  - exact (example_room _ _ _).
  - vm_compute. reflexivity.
  - vm_compute. reflexivity.
Defined.

(** A peer that is gone before the hello. *)
Definition gone_client : client :=
  (example_client true []) <| sock := {| sk_rx := []; sk_wq := [WrErr EPIPE]; sk_tx := []; sk_errno := 0;
                                         sk_selects := [] |} |>.

Lemma client_serve_cleans_up_witness :
  let out := client_serve 1 3 12288 1 0 gone_client in
  out.1 = Stop SError /\
  (use_killswitch (serve out.2) = true -> killswitch out.2 = None) /\
  (socket out.2 = -1 \/ socket out.2 = 0) /\ is_mapped out.2 = false /\ acl_held (serve out.2) = false.
Proof.
  intros out. assert (E : out.1 = Stop SError) by (vm_compute; reflexivity). split; [exact E |].
  apply (client_serve_cleans_up 1 3 12288 1 0 gone_client out.1 out.2).
  - apply surjective_pairing.
  - right. exact E.
Defined.

Lemma request_range_wraps_witness :
  let q := {| q_magic := REQUEST_MAGIC; q_flags := 0; q_type := REQUEST_WRITE; q_handle := 7;
              q_from := 2 ^ 64 - 512; q_len := 1024 |} in
  client_request_needs_reply q (example_client true []) = (Ok true, example_client true []).
Proof.
  intros q. apply (request_range_wraps (example_client true []) q).
  - reflexivity.
  - right. reflexivity.
  - cbn. lia.
  - cbn. lia.
  - cbn. lia.
  - vm_compute. discriminate.
Defined.

Lemma empty_write_faults_witness :
  let q := {| q_magic := REQUEST_MAGIC; q_flags := 0; q_type := REQUEST_WRITE; q_handle := 7;
              q_from := 0; q_len := 0 |} in
  exists c', client_reply_to_write q (example_client false []) = (Stop SFault, c').
Proof.
  intros q. apply (empty_write_faults (example_client false []) q).
  - exact (example_client_ok _ _).
  - reflexivity.
  - vm_compute. reflexivity.
  - reflexivity.
  - reflexivity.
Defined.

Lemma eof_with_stale_errno_is_fatal_witness :
  let c := (example_client true [])
    <| sock := {| sk_rx := [RdEof]; sk_wq := []; sk_tx := []; sk_errno := EINTR; sk_selects := [] |} |> in
  (client_read_request c).1 = Stop SFatal.
Proof.
  intros c. apply (eof_with_stale_errno_is_fatal c []).
  - reflexivity.
  - vm_compute. discriminate.
  - vm_compute. discriminate.
  - vm_compute. discriminate.
Defined.
