(* ===== verification/Killswitch.v ===== *)
(** * The killswitch of a client thread

    Models the signal handler [client_killswitch_hit] of src/src/server/client.c and
    what it does to a thread of Client.v that is stuck on its peer. The timer is
    armed around every request ([client_arm_killswitch]); when it runs out, the
    handler shuts the socket down: what had arrived can still be read, then every
    read is at the end of the file and every write fails. The handler is installed
    with SA_RESTART, so the interrupted call goes on and meets that end. *)

From stdpp Require Import relations.
From S2P Require Import Prelude Bitset NbdTypes IoUtil SockUtil ReadWrite Client.

(** The socket after [shutdown(fd, SHUT_RDWR)]. *)
Definition shut (k : conn) : conn :=
  {| sk_rx := sk_rx k ++ [RdEof]; sk_wq := [WrErr EPIPE]; sk_tx := sk_tx k; sk_errno := sk_errno k;
     sk_selects := sk_selects k |}.

(** [client_killswitch_hit]: [ret] is the answer of [shutdown]. *)
Definition client_killswitch_hit (ret : Z) (c : client) : res client :=
  if -1 =? ret then Stop SFatal else Ok (c <| sock := shut (sock c) |>).

(** A request with its timer. A thread that waits for a peer that sends nothing more is
    hit when the timer is armed, and the read that was interrupted goes on. The
    request is then the one on the socket the handler leaves: up to that read it has
    written nothing, and the reads before it find the same bytes. *)
Definition client_serve_request_timed (ret : Z) : M client bool := fun c =>
  match client_serve_request c with
  | (Stop SBlock, c') =>
      match killswitch c' with
      | None => (Stop SBlock, c')
      | Some _ =>
          match client_killswitch_hit ret c with
          | Ok c1 => client_serve_request c1
          | Stop e => (Stop e, c')
          end
      end
  | r => r
  end.

(** [while (client_serve_request(client) == 0);] with the timer. *)
Fixpoint serve_requests_timed (ret : Z) (fuel : nat) : M client unit :=
  match fuel with
  | O => stopM SHang
  | S fuel' =>
      stop ← client_serve_request_timed ret; if (stop : bool) then mret tt else serve_requests_timed ret fuel'
  end.

Definition client_serve_timed (ret : Z) (fuel : nat) : Z -> Z -> Z -> Z -> M client unit :=
  client_serve_with (serve_requests_timed ret fuel).

(** * Lemmas *)

(** ** The end of the connection behind the input *)

Definition hit (c : client) : client := c <| sock := shut (sock c) |>.

(** A [readloop] that does not wait. *)
Lemma readloop_frame rx x e n :
  ro_res (readloop rx e n) <> IoBlock ->
  readloop (rx ++ x) e n =
    {| ro_res := ro_res (readloop rx e n); ro_bytes := ro_bytes (readloop rx e n);
       ro_rx := ro_rx (readloop rx e n) ++ x; ro_errno := ro_errno (readloop rx e n) |}.
Proof.
  revert e n. induction rx as [| ev rx IH]; intros e n.
  { destruct (decide (n <= 0)); [by rewrite !readloop_zero |]. cbn. by replace (n <=? 0) with false by lia. }
  cbn [app readloop]. destruct (n <=? 0); [done |].
  destruct (deliver ev e n) as [[[r bs] rest] e']. destruct (r =? 0); [by rewrite app_assoc |].
  destruct (r =? -1).
  { destruct (io_transient e'); [apply IH |]. by rewrite app_assoc. }
  destruct (n <=? r); [by rewrite app_assoc |].
  cbn [rd_prepend ro_res]. intros H. by rewrite (IH _ _ H).
Qed.

Lemma read_request_hit c q c' :
  client_read_request c = (Ok (Some q), c') -> client_read_request (hit c) = (Ok (Some q), hit c').
Proof.
  unfold client_read_request, fd_read_request, mbind, M_bind. rewrite !on_sock_readloop. cbn zeta.
  change (sk_rx (sock (hit c))) with (sk_rx (sock c) ++ [RdEof]).
  change (sk_errno (sock (hit c))) with (sk_errno (sock c)).
  destruct (ro_res (readloop (sk_rx (sock c)) (sk_errno (sock c)) NBD_REQUEST_SIZE)) eqn:E.
  - intros [= <- <-]. rewrite (readloop_frame _ [RdEof]) by (rewrite E; done). cbn [ro_res ro_bytes]. rewrite E.
    unfold sock_read, hit, shut, mret, M_ret. cbn. rewrite (readloop_frame _ [RdEof]) by (rewrite E; done). done.
  - unfold gets. by destruct (_ || _).
  - done.
Qed.

Lemma hit_eq c : client_killswitch_hit 0 c = Ok (hit c).
Proof. done. Qed.

(** A request that is served whole does not meet the timer. *)
Lemma timed_served c c' : request_served c c' -> client_serve_request_timed 0 c = (Ok false, c').
Proof. unfold request_served, client_serve_request_timed. by intros ->. Qed.

Lemma timed_steps n fuel c c' :
  nsteps request_served n c c' -> serve_requests_timed 0 (n + fuel) c = serve_requests_timed 0 fuel c'.
Proof.
  induction 1 as [| n c c1 c2 H1 _ IH]; [done |]. cbn [Nat.add serve_requests_timed].
  by rewrite (bindM_eq _ _ _ _ _ (timed_served _ _ H1)).
Qed.

(** ** A quiet socket *)

Definition is_accept (w : wr_event) : Prop := match w with WrAccept _ => True | WrErr _ => False end.

(** Nothing has gone wrong on the socket, and [d] is the flag [disconnect]. *)
Record calm (d : bool) (c : client) : Prop := {
  ca_errno : sk_errno (sock c) = 0;
  ca_wq : Forall is_accept (sk_wq (sock c));
  ca_rx : Forall data_event (sk_rx (sock c));
  ca_sel : Forall (fun s => 0 < sel_ret s) (sk_selects (sock c));
  ca_disconnect : disconnect c = d
}.

Definition keeps {A} (d : bool) (m : M client A) : Prop := forall c, calm d c -> calm d (m c).2.

Create HintDb calm.

Lemma keeps_bind {A B} d (m : M client A) (k : A -> M client B) :
  keeps d m -> (forall a, keeps d (k a)) -> keeps d (m ≫= k).
Proof.
  intros Hm Hk c Hc. unfold mbind, M_bind. specialize (Hm c Hc). destruct (m c) as [[a | e] c1]; [by apply Hk | done].
Qed.

Lemma keeps_same {A} d (m : M client A) : (forall c, (m c).2 = c) -> keeps d m.
Proof. intros H c. by rewrite H. Qed.

Lemma keeps_if {A} d (b : bool) (m n : M client A) : keeps d m -> keeps d n -> keeps d (if b then m else n).
Proof. by destruct b. Qed.

(** Other fields do not matter. *)
Lemma calm_fields d c c' : calm d c -> sock c' = sock c -> disconnect c' = disconnect c -> calm d c'.
Proof. intros [] Hs Hd. constructor; congruence. Qed.

#[export] Hint Resolve keeps_if : calm.
#[export] Hint Extern 1 (keeps _ (_ ≫= _)) => apply keeps_bind; [| intros ?] : calm.
#[export] Hint Extern 2 (keeps _ (mret _)) => apply keeps_same; done : calm.
#[export] Hint Extern 2 (keeps _ (stopM _)) => apply keeps_same; done : calm.
#[export] Hint Extern 2 (keeps _ (liftR _)) => apply keeps_same; done : calm.
#[export] Hint Extern 2 (keeps _ (gets _)) => apply keeps_same; done : calm.

Ltac calm := eauto 40 with calm.

Lemma keeps_read d n : keeps d (on_sock (conn_readloop n)).
Proof.
  intros c []. rewrite on_sock_readloop. destruct (readloop_data (sk_rx (sock c)) (sk_errno (sock c)) n ca_rx0).
  constructor; cbn; congruence || done.
Qed.

Lemma keeps_read_all d n f : keeps d (on_sock (conn_read_all n f)).
Proof.
  intros c Hc. rewrite on_sock_read_all. pose proof (keeps_read d n c Hc) as H. by rewrite on_sock_readloop in H.
Qed.

Lemma writeloop_accepts wq e b :
  Forall is_accept wq ->
  wo_errno (writeloop wq e b) = e /\ Forall is_accept (wo_wq (writeloop wq e b)).
Proof.
  intros H. revert b. induction H as [| w wq Hw Hwq IH]; intros b; cbn; [by destruct (_ =? _) |].
  destruct w as [n |]; [| done]. destruct (_ =? _); [by split; [| constructor] |]. apply IH.
Qed.

Lemma keeps_sock {A} d (m : M conn A) :
  (forall k, sk_rx (m k).2 = sk_rx k /\ sk_selects (m k).2 = sk_selects k) ->
  (forall k, Forall is_accept (sk_wq k) -> sk_errno (m k).2 = sk_errno k /\ Forall is_accept (sk_wq (m k).2)) ->
  keeps d (on_sock m).
Proof.
  intros Hr Hw c []. unfold on_sock. rewrite (surjective_pairing (m (sock c))). cbn [snd].
  destruct (Hw (sock c) ca_wq0), (Hr (sock c)) as [Hx Hs]. constructor; cbn; rewrite ?Hx, ?Hs; congruence || done.
Qed.

Lemma keeps_write_reply d q e : keeps d (client_write_reply q e).
Proof.
  apply keeps_sock; intros k; unfold fd_write_reply, conn_writeloop, mbind, M_bind, gets; cbn.
  - destruct (wo_res _); cbn; repeat (destruct (_ =? _)); done.
  - intros H. destruct (writeloop_accepts _ (sk_errno k) (to_wire (nbd_h2r_reply {| p_magic := REPLY_MAGIC;
      p_error := u32 e; p_handle := q_handle q |})) H).
    destruct (wo_res _); cbn; repeat (destruct (_ =? _)); done.
Qed.

Lemma keeps_write_all d b f : keeps d (on_sock (conn_write_all b f)).
Proof.
  apply keeps_sock; intros k; unfold conn_write_all, conn_writeloop, mbind, M_bind; cbn;
    [by destruct (wo_res _) |]. intros H. destruct (writeloop_accepts _ (sk_errno k) b H). by destruct (wo_res _).
Qed.

Lemma keeps_store d off bs : keeps d (store_mapped off bs).
Proof.
  intros c Hc. unfold store_mapped. destruct (in_range _ _ _); [| done].
  destruct (mem_store _ _ _); [by apply (calm_fields d c) | done].
Qed.

Lemma keeps_set_range d from len : keeps d (map_set_range from len).
Proof.
  intros c Hc. unfold map_set_range. destruct (bitset_set_range _ _ _); [by apply (calm_fields d c) | done].
Qed.

Lemma keeps_msync d off len st : keeps d (do_msync off len st).
Proof. intros c Hc. unfold do_msync. destruct (_ <? 0); by apply (calm_fields d c). Qed.

Lemma keeps_send_file d from len : keeps d (send_file from len).
Proof.
  intros c Hc. unfold send_file. destruct (_ && _); [by apply (calm_fields d c) |].
  destruct Hc. destruct (so_result _) as [[] |]; by constructor.
Qed.

Lemma keeps_cork d b : keeps d (set_cork b).
Proof. intros c Hc. by apply (calm_fields d c). Qed.

#[export] Hint Resolve keeps_read keeps_read_all keeps_write_reply keeps_write_all keeps_store keeps_set_range
  keeps_msync keeps_send_file keeps_cork : calm.

Lemma keeps_read_to_mapped d from len : keeps d (read_to_mapped from len).
Proof. apply keeps_bind; [calm |]. intros [[] bs]; calm. Qed.
#[export] Hint Resolve keeps_read_to_mapped : calm.

Lemma keeps_zero_loop d fuel from run : keeps d (zero_loop fuel from run).
Proof. revert from run. induction fuel; intros from run; cbn [zero_loop]; unfold zero_block; calm. Qed.
#[export] Hint Resolve keeps_zero_loop : calm.

Lemma keeps_write_loop d fuel from len : keeps d (write_loop fuel from len).
Proof. revert from len. induction fuel; intros from len; cbn [write_loop]; calm. Qed.
#[export] Hint Resolve keeps_write_loop : calm.

Lemma keeps_reply d q : keeps d (client_reply q).
Proof.
  unfold client_reply, client_reply_to_read, client_reply_to_write, client_reply_to_flush, write_not_zeroes. calm.
Qed.

Lemma keeps_read_request d : keeps d client_read_request.
Proof. apply keeps_bind; [apply keeps_read |]. intros [[] bs]; calm. Qed.
#[export] Hint Resolve keeps_reply keeps_read_request : calm.

Lemma keeps_select d : keeps d (on_sock conn_select).
Proof.
  intros c []. unfold on_sock, conn_select. destruct (sk_selects (sock c)) as [| s sels] eqn:E.
  { cbn. constructor; cbn; try done. by rewrite E. }
  apply Forall_cons_1 in ca_sel0 as [Hs Hsels]. cbn. replace (sel_ret s =? -1) with false by lia.
  rewrite ca_errno0. by constructor.
Qed.
#[export] Hint Resolve keeps_select : calm.

Lemma flush_loop_left rx n rx' : Forall data_event rx -> flush_loop rx n = Ok rx' -> Forall data_event rx'.
Proof.
  intros H. revert n. induction H as [| ev rx Hev Hrx IH]; intros n; cbn [flush_loop]; destruct (n <=? 0) eqn:En;
    [by intros [= <-] | done | by intros [= <-]; constructor |].
  destruct ev as [bs | |]; [| done ..]. cbn [deliver]. destruct (zlen bs <=? n) eqn:E;
    (destruct (_ <? 0); [done |]; destruct (_ =? 0); [done |]).
  - destruct (n <=? zlen bs); [by intros [= <-] | apply IH].
  - destruct (n <=? n); [| apply IH]. intros [= <-]. constructor; [| done]. cbn. intros Hd.
    apply (f_equal zlen) in Hd. rewrite zlen_drop in Hd by lia. change (zlen []) with 0 in Hd. lia.
Qed.

Lemma keeps_flush d len : keeps d (client_flush len).
Proof.
  intros c []. unfold client_flush. destruct (flush_loop _ _) eqn:E; [| by constructor].
  constructor; cbn; try done. by apply (flush_loop_left _ _ _ ca_rx0 E).
Qed.
#[export] Hint Resolve keeps_flush : calm.

(** The refusals set the flag. *)
Lemma refuse_calm {A} d d' (a : A) (m : M client unit) q e :
  keeps d m -> forall c, calm d c ->
  exists d2, calm d2 ((_ ← m; _ ← client_write_reply q e; _ ← set_disconnect d'; mret a) c).2.
Proof.
  intros Hm c Hc. unfold mbind, M_bind. specialize (Hm c Hc). destruct (m c) as [[] c1]; [| eauto].
  pose proof (keeps_write_reply d q e c1 Hm) as H. destruct (client_write_reply q e c1) as [[] c2]; [| eauto].
  exists d'. destruct H. by constructor.
Qed.

Lemma needs_reply_calm d q c :
  calm d c ->
  match client_request_needs_reply q c with
  | (Ok true, c') => c' = c
  | (_, c') => exists d', calm d' c'
  end.
Proof.
  intros Hc. unfold client_request_needs_reply.
  assert (Hr : forall d' (m : M client unit) e, keeps d m ->
    match (_ ← m; _ ← client_write_reply q e; _ ← set_disconnect d'; mret false) c with
    | (Ok true, c') => c' = c | (_, c') => exists d', calm d' c' end).
  { intros d' m e Hm. destruct (refuse_calm d d' false m q e Hm c Hc) as (d2 & H).
    destruct ((_ ← m; _ ← client_write_reply q e; _ ← set_disconnect d'; mret false) c) as [[[] | ] c'] eqn:E; eauto.
    exfalso. revert E. unfold mbind, M_bind. destruct (m c) as [[] c1]; [| done].
    by destruct (client_write_reply q e c1) as [[] c2]. }
  destruct (q_magic q =? REQUEST_MAGIC); cbn [negb].
  2:{ exact (Hr true (mret tt) EBADMSG ltac:(calm)). }
  rewrite bind_gets. destruct (_ <? _).
  { apply Hr. destruct (_ =? _); calm. }
  repeat (destruct (q_type q =? _); [done || (exists true; destruct Hc; by constructor) |]).
  exact (Hr false (mret tt) EINVAL ltac:(calm)).
Qed.

Lemma served_calm c c' : calm false c -> request_served c c' -> calm false c'.
Proof.
  intros Hc. unfold request_served, client_serve_request.
  unfold mbind at 1, M_bind at 1. pose proof (keeps_select false c Hc) as Hc1.
  destruct (on_sock conn_select c) as [[sel |] c1]; [| done].
  destruct (sel_ret sel =? 0); [done |]. destruct (sel_ret sel <? 0); [done |]. rewrite bind_gets. do 2 (destruct (FD_ISSET _ _); [done |]).
  unfold client_arm_killswitch, client_disarm_killswitch. rewrite bind_modify.
  fold (set_killswitch (Some CLIENT_HANDLER_TIMEOUT) c1).
  assert (Hks : forall v d c0, calm d c0 -> calm d (set_killswitch v c0)).
  { intros v d c0 H. unfold set_killswitch. destruct (use_killswitch _); [by apply (calm_fields d c0) | done]. }
  apply (Hks (Some CLIENT_HANDLER_TIMEOUT)) in Hc1.
  unfold mbind at 1, M_bind at 1. pose proof (keeps_read_request false _ Hc1) as Hc2.
  destruct (client_read_request _) as [[[q |] |] c2]; [| rewrite bind_modify; done | done].
  unfold mbind at 1, M_bind at 1. pose proof (needs_reply_calm false q c2 Hc2) as Hn.
  destruct (client_request_needs_reply q c2) as [[[] |] c3]; [| | done].
  - subst c3. cbn [negb]. rewrite bind_gets. destruct (server_fd_closed _); [done |].
    unfold mbind, M_bind. pose proof (keeps_reply false q c2 Hc2) as H3.
    destruct (client_reply q c2) as [[] c4]; [| done]. intros [= <-]. by apply (Hks None).
  - destruct Hn as (d & Hd). cbn [negb]. rewrite bind_modify. intros [= Hd' <-].
    fold (set_killswitch None c3) in Hd' |- *. apply (Hks None) in Hd. by rewrite <- Hd', (ca_disconnect _ _ Hd).
Qed.

Lemma steps_calm n c c' : nsteps request_served n c c' -> calm false c -> calm false c'.
Proof. induction 1 as [| n c c1 c2 H1 H2 IH]; [done |]. intros Hc. by apply IH, (served_calm c). Qed.

(** ** A request that does not come whole *)

Lemma readloop_short rx e n :
  Forall data_event rx -> zlen (incoming rx) < n ->
  readloop rx e n = {| ro_res := IoBlock; ro_bytes := incoming rx; ro_rx := []; ro_errno := e |} /\
  readloop (rx ++ [RdEof]) e n = {| ro_res := IoFail; ro_bytes := incoming rx; ro_rx := [RdEof]; ro_errno := e |}.
Proof.
  intros H. revert n. induction H as [| ev rx Hev Hrx IH]; intros n Hn.
  { change (zlen (incoming [])) with 0 in Hn. cbn. replace (n <=? 0) with false by lia. done. }
  destruct ev as [bs | |]; [| done ..]. pose proof (data_event_pos bs Hev).
  rewrite incoming_data in * by done. rewrite zlen_app in Hn. pose proof (zlen_nonneg (incoming rx)).
  cbn [app]. rewrite !readloop_bytes by lia. replace (zlen bs <=? n) with true by lia.
  destruct (IH (n - zlen bs) ltac:(lia)) as [-> ->]. done.
Qed.

(** A request once its timer runs. *)
Definition request_cycle (oreq : option nbd_request) : M client bool :=
  match oreq with
  | None => _ ← client_disarm_killswitch; mret true
  | Some request =>
      needs ← client_request_needs_reply request;
      if negb needs then _ ← client_disarm_killswitch; gets disconnect
      else
        closed ← gets (fun c => server_fd_closed (serve c));
        stop ← (if (closed : bool) then mret true else _ ← client_reply request; mret false);
        _ ← client_disarm_killswitch;
        mret stop
  end.

Definition armed (c : client) : client := set_killswitch (Some CLIENT_HANDLER_TIMEOUT) (pop_select c).

Lemma serve_request_armed c s sels :
  sk_selects (sock c) = s :: sels -> ready_select c s ->
  client_serve_request c = (client_read_request ≫= request_cycle) (armed c).
Proof.
  intros Hsel (Hr1 & Hr2 & Hr3). unfold client_serve_request.
  rewrite (bindM_eq _ _ _ _ _ (on_sock_select c s sels Hsel Hr1)).
  replace (sel_ret s =? 0) with false by lia. replace (sel_ret s <? 0) with false by lia.
  rewrite bind_gets. cbn [fst snd]. change (stop_fd (pop_select c)) with (stop_fd c).
  change (socket (pop_select c)) with (socket c). rewrite Hr2, Hr3. done.
Qed.

Lemma armed_hit c : armed (hit c) = hit (armed c).
Proof. unfold armed, set_killswitch, pop_select, hit, shut. cbn. by destruct (use_killswitch _). Qed.

Lemma armed_fields c :
  serve (armed c) = serve c /\ file (armed c) = file c /\ disconnect (armed c) = disconnect c /\
  sock (armed c) = sock (pop_select c) /\ mapped_size (armed c) = mapped_size c /\
  (use_killswitch (serve c) = true -> killswitch (armed c) = Some CLIENT_HANDLER_TIMEOUT).
Proof. unfold armed, set_killswitch, pop_select. cbn. destruct (use_killswitch _) eqn:E; cbn; split_and!; congruence || done. Qed.

Lemma client_ok_serve c c' :
  client_ok c -> serve c' = serve c -> mapped_size c' = mapped_size c -> file c' = file c -> client_ok c'.
Proof. intros [] Hs Hm Hf. constructor; rewrite ?Hs, ?Hf, ?Hm; done. Qed.

(** What becomes of a request the peer does not send whole: the thread waits with its
    timer running, and with the end of the file behind it the request ends, without
    an answer, with the part of the data that came in the file. *)
Record cut_short (c : client) (q : nbd_request) (payload : list Z) : Prop := {
  cs_waits : exists c1, client_serve_request c = (Stop SBlock, c1) /\ sk_tx (sock c1) = sk_tx (sock c) /\
    (use_killswitch (serve c) = true -> killswitch c1 = Some CLIENT_HANDLER_TIMEOUT);
  cs_ends : exists r c2, client_serve_request (hit c) = (r, c2) /\ (r = Ok true \/ r = Stop SError) /\
    sk_tx (sock c2) = sk_tx (sock c) /\ client_ok c2 /\ disconnect c2 = disconnect c /\
    use_killswitch (serve c2) = use_killswitch (serve c) /\
    exists bs, bs `prefix_of` payload /\ file c2 = patched (file c) (q_from q) bs
}.

Lemma patched_nil f from : patched f from [] = f.
Proof. unfold patched. cbn. by rewrite Nat.add_0_r, take_drop. Qed.

Lemma set_killswitch_fields v c :
  sock (set_killswitch v c) = sock c /\ serve (set_killswitch v c) = serve c /\
  disconnect (set_killswitch v c) = disconnect c /\ file (set_killswitch v c) = file c /\
  mapped_size (set_killswitch v c) = mapped_size c.
Proof. unfold set_killswitch. by destruct (use_killswitch _). Qed.

Lemma read_request_cut c :
  calm false c -> zlen (incoming (sk_rx (sock c))) < NBD_REQUEST_SIZE ->
  client_read_request c = (Stop SBlock, c <| sock := sock_read (sock c) NBD_REQUEST_SIZE |>) /\
  client_read_request (hit c) =
    (Ok None, c <| sock := sock_read (sock (hit c)) NBD_REQUEST_SIZE |>).
Proof.
  intros [He _ Hrx _ _] Hn. destruct (readloop_short _ (sk_errno (sock c)) _ Hrx Hn) as [Hb Hf].
  unfold client_read_request, fd_read_request, mbind, M_bind. rewrite !on_sock_readloop. cbn zeta.
  change (sk_rx (sock (hit c))) with (sk_rx (sock c) ++ [RdEof]).
  change (sk_errno (sock (hit c))) with (sk_errno (sock c)). rewrite Hb, Hf. cbn [ro_res ro_bytes].
  split; [done |]. unfold gets, sock_read. cbn [sock set_field sk_errno hit shut sk_rx]. rewrite Hf, He. done.
Qed.

Lemma armed_calm d c s sels : calm d c -> sk_selects (sock c) = s :: sels -> calm d (armed c).
Proof.
  intros [] Hs. destruct (armed_fields c) as (_ & _ & Hd & Hk & _). constructor; rewrite ?Hk, ?Hd; try done.
  cbn. rewrite Hs in *. by apply Forall_cons_1 in ca_sel0 as [_ ?].
Qed.

Lemma header_cut c q payload s sels :
  client_ok c -> calm false c -> sk_selects (sock c) = s :: sels -> ready_select c s ->
  zlen (incoming (sk_rx (sock c))) < NBD_REQUEST_SIZE -> cut_short c q payload.
Proof.
  intros Hok Hc Hsel Hrs Hn. destruct (armed_fields c) as (Hs & Hf & Hd & Hk & Hm & Ht).
  destruct (read_request_cut (armed c)) as [Hb He]; [by apply (armed_calm _ _ s sels) | by rewrite Hk |].
  constructor.
  - eexists. rewrite (serve_request_armed c s sels Hsel Hrs). unfold mbind, M_bind. rewrite Hb.
    split_and!; [done | cbn; by rewrite Hk | done].
  - rewrite (serve_request_armed (hit c) s sels Hsel Hrs), armed_hit. unfold mbind, M_bind. rewrite He.
    set (c2 := (armed c) <| sock := sock_read (sock (hit (armed c))) NBD_REQUEST_SIZE |>).
    change (request_cycle None c2) with (Ok true, set_killswitch None c2).
    exists (Ok true), (set_killswitch None c2). split; [done |].
    destruct (set_killswitch_fields None c2) as (H1 & H2 & H3 & H4 & H5).
    split_and!.
    + by left.
    + rewrite H1. cbn. by rewrite Hk.
    + apply (client_ok_serve c); [done | by rewrite H2 | by rewrite H5 | by rewrite H4].
    + rewrite H3. done.
    + by rewrite H2, <- Hs.
    + exists []. split; [apply prefix_nil |]. rewrite patched_nil, H4. done.
Qed.

(** The data part of a write that is in range, whatever the socket has for it. *)
Lemma write_data_cut q c :
  client_ok c -> 0 <= q_from q -> 0 < q_len q -> q_from q + q_len q <= sv_size (serve c) ->
  room (map_of c) (blocks (q_from q) (q_len q)) ->
  let o := readloop (sk_rx (sock c)) (sk_errno (sock c)) (q_len q) in
  ro_res o <> IoDone ->
  exists c', (if allocation_map_built (serve c) then write_not_zeroes (q_from q) (q_len q)
              else (_ ← read_to_mapped (q_from q) (q_len q); map_set_range (q_from q) (q_len q))) c =
      (io_outcome (ro_res o), c') /\ client_ok c' /\ sk_tx (sock c') = sk_tx (sock c) /\ disconnect c' = disconnect c /\
    killswitch c' = killswitch c /\ use_killswitch (serve c') = use_killswitch (serve c) /\
    exists bs, bs `prefix_of` ro_bytes o /\ file c' = patched (file c) (q_from q) bs.
Proof.
  intros Hok Hf Hl Hn Hroom o Hne. pose proof (ck_file _ Hok) as Hfile.
  pose proof (readloop_bytes_le (sk_rx (sock c)) (sk_errno (sock c)) (q_len q) ltac:(lia)) as Hle. fold o in Hle.
  destruct (allocation_map_built (serve c)) eqn:Eb.
  - destruct (write_loop_post (S (Z.to_nat (q_len q))) c (q_from q) (q_len q)) as (bs & evs & Hst & _ & _ & Hres);
      [done | done | done | lia | done | done | lia |]. fold o in Hres.
    unfold write_not_zeroes. destruct (write_loop _ _ _ c) as [r c']. cbn [fst snd] in *.
    assert (Hp : r = io_outcome (ro_res o) /\ bs `prefix_of` ro_bytes o)
      by (destruct (ro_res o); [done | by destruct Hres as [-> ?] ..]).
    destruct Hp as [-> Hp]. destruct Hst as [Hok' Hfl Hfr Hsk _ _ _ _]. exists c'. split_and!; [done | done | apply Hsk | by rewrite Hfr ..
      | exists bs; split; [done |]].
    rewrite mem_store_ok in Hfl; [by injection Hfl | done |]. apply prefix_length in Hp. unfold zlen in *. lia.
  - destruct (read_to_mapped_eq c (q_from q) (q_len q) Hok Hf ltac:(lia) Hn) as (f & Hm & E). cbn zeta in Hm, E.
    fold o in Hm, E. exists (c <| sock := sock_read (sock c) (q_len q) |> <| file := f |>).
    rewrite (bindM_eq _ _ _ _ _ E). split_and!; [by destruct (ro_res o) | | done ..
      | exists (ro_bytes o); split; [done |]].
    + destruct Hok. constructor; cbn; try done; [| congruence].
      pose proof (mem_store_zlen _ _ _ _ Hm). lia.
    + rewrite mem_store_ok in Hm by lia. by injection Hm.
Qed.

Lemma request_cycle_cut q c :
  client_ok c -> server_fd_closed (serve c) = false -> request_wf q -> q_magic q = REQUEST_MAGIC -> q_type q = REQUEST_WRITE ->
  0 < q_len q -> q_from q + q_len q <= sv_size (serve c) -> sv_size (serve c) < 2 ^ 63 ->
  room (map_of c) (blocks (q_from q) (q_len q)) ->
  let o := readloop (sk_rx (sock c)) (sk_errno (sock c)) (q_len q) in
  ro_res o <> IoDone ->
  exists c', request_cycle (Some q) c = ((_ ← io_outcome (ro_res o); Ok true), c') /\ client_ok c' /\
    sk_tx (sock c') = sk_tx (sock c) /\ disconnect c' = disconnect c /\ killswitch c' = killswitch c /\
    use_killswitch (serve c') = use_killswitch (serve c) /\
    exists bs, bs `prefix_of` ro_bytes o /\ file c' = patched (file c) (q_from q) bs.
Proof.
  intros Hok Hcl (_ & _ & _ & _ & Hf & _) Hmg Hty Hl Hn Hsz Hroom o Hne.
  destruct (write_data_cut q c Hok ltac:(lia) Hl Hn Hroom Hne) as (c' & E & Hrest). fold o in E, Hrest.
  exists c'. split; [| exact Hrest]. cbn [request_cycle].
  assert (Hnr : client_request_needs_reply q c = (Ok true, c)).
  { unfold client_request_needs_reply. rewrite Hmg, Z.eqb_refl. cbn [negb].
    rewrite bind_gets, u64_id by lia. replace (sv_size (serve c) <? q_from q + q_len q) with false by lia. by rewrite Hty. }
  rewrite (bindM_eq _ _ _ _ _ Hnr). cbn [negb]. rewrite bind_gets, Hcl. unfold client_reply. rewrite Hty.
  change (REQUEST_WRITE =? REQUEST_READ) with false. change (REQUEST_WRITE =? REQUEST_WRITE) with true. cbn iota.
  assert (Hw : client_reply_to_write q c = (io_outcome (ro_res o), c')).
  { unfold client_reply_to_write. rewrite bind_gets, (bindM_eq _ _ _ _ _ E). by destruct (ro_res o). }
  unfold mbind at 1, M_bind at 1. rewrite (bindM_eq _ _ _ _ _ Hw). by destruct (ro_res o).
Qed.

(** The rest of the cycle, for a write of which only [pre] came. *)
Lemma write_cycle_cut c2 q payload pre rest (b : bool) :
  client_ok c2 -> calm false c2 -> server_fd_closed (serve c2) = false -> request_wf q ->
  q_magic q = REQUEST_MAGIC -> q_type q = REQUEST_WRITE ->
  payload = pre ++ rest -> zlen pre < q_len q -> q_from q + q_len q <= sv_size (serve c2) -> sv_size (serve c2) < 2 ^ 63 ->
  room (map_of c2) (blocks (q_from q) (q_len q)) -> incoming (sk_rx (sock c2)) = pre ->
  exists c', request_cycle (Some q) (if b then hit c2 else c2) = (Stop (if b then SError else SBlock), c') /\
    client_ok c' /\ sk_tx (sock c') = sk_tx (sock c2) /\ disconnect c' = false /\ killswitch c' = killswitch c2 /\
    use_killswitch (serve c') = use_killswitch (serve c2) /\
    exists bs, bs `prefix_of` payload /\ file c' = patched (file c2) (q_from q) bs.
Proof.
  intros Hok Hc Hcl Hwf Hmg Hty Hpl Hlt Hn Hsz Hroom Hi. pose proof (zlen_nonneg pre).
  destruct (readloop_short _ (sk_errno (sock c2)) (q_len q) (ca_rx _ _ Hc)) as [Hb He]; [by rewrite Hi |].
  rewrite Hi in Hb, He. set (c3 := if b then hit c2 else c2).
  assert (Hr : ro_res (readloop (sk_rx (sock c3)) (sk_errno (sock c3)) (q_len q)) = (if b then IoFail else IoBlock) /\
               ro_bytes (readloop (sk_rx (sock c3)) (sk_errno (sock c3)) (q_len q)) = pre).
  { subst c3. destruct b; cbn; [by rewrite He | by rewrite Hb]. }
  destruct Hr as [Hr1 Hr2].
  assert (Hsame : serve c3 = serve c2 /\ mapped_size c3 = mapped_size c2 /\ file c3 = file c2 /\
    sk_tx (sock c3) = sk_tx (sock c2) /\ disconnect c3 = disconnect c2 /\ killswitch c3 = killswitch c2) by (subst c3; by destruct b).
  destruct Hsame as (S1 & S2 & S3 & S4 & S5 & S6).
  destruct (request_cycle_cut q c3) as (c' & E & H1 & H2 & H3 & H4 & H7 & bs & H5 & H6); rewrite ?S1; try done.
  - by apply (client_ok_serve c2).
  - lia.
  - rewrite Hr1. by destruct b.
  - rewrite Hr1 in E. rewrite Hr2 in H5. exists c'. split_and!; [by rewrite E; destruct b | done | congruence | | congruence | congruence |].
    + rewrite H3, S5. apply (ca_disconnect _ _ Hc).
    + exists bs. split; [| congruence]. etrans; [exact H5 |]. rewrite Hpl. by apply prefix_app_r.
Qed.

Lemma payload_cut c q payload pre rest s sels :
  client_ok c -> env_ok c -> calm false c -> sv_size (serve c) < 2 ^ 63 ->
  sk_selects (sock c) = s :: sels -> request_ok c q payload -> payload = pre ++ rest -> rest <> [] ->
  q_from q + q_len q <= sv_size (serve c) -> room (map_of c) (blocks (q_from q) (payload_len q)) ->
  incoming (sk_rx (sock c)) = request_bytes q ++ pre -> cut_short c q payload.
Proof.
  intros Hok Hen Hc Hsz Hsel Hq Hpl Hrest Hn Hroom Hi.
  assert (Hrs : ready_select c s).
  { destruct Hen as [_ _ _ _ _ Hr]. rewrite Hsel in Hr. by apply Forall_cons_1 in Hr as [? _]. }
  pose proof (rq_payload _ _ _ Hq) as Hp. rewrite Hpl, zlen_app in Hp.
  assert (Hpos : 0 < zlen rest) by (destruct rest; [done |]; unfold zlen; simpl length; lia).
  pose proof (zlen_nonneg pre). unfold payload_len in *.
  destruct ((q_magic q =? REQUEST_MAGIC) && (q_type q =? REQUEST_WRITE)) eqn:Et; [| lia].
  apply andb_true_iff in Et as [Hmg%Z.eqb_eq Hty%Z.eqb_eq].
  destruct (pop_select_ok c Hok Hen) as [Hok0 Hen0].
  destruct (request_arrives q (pop_select c) pre Hok0 Hen0 (rq_wf _ _ _ Hq) Hi) as (c2 & E2 & A).
  change (set_killswitch _ (pop_select c)) with (armed c) in E2.
  pose proof (keeps_read_request false _ (armed_calm _ _ _ _ Hc Hsel)) as Hc2. rewrite E2 in Hc2. cbn [snd] in Hc2.
  pose proof (an_kept _ _ _ _ _ _ A) as Hk. injection Hk as Hsz2 _ Hks2 Hcl2 _ _ Hse2. cbn in Hsz2, Hks2, Hcl2, Hse2.
  pose proof (an_file _ _ _ _ _ _ A) as Hf2. cbn in Hf2.
  pose proof (an_tx _ _ _ _ _ _ A) as Ht2. rewrite app_nil_r in Ht2. cbn in Ht2.
  assert (Hroom2 : room (map_of c2) (blocks (q_from q) (q_len q))).
  { intros Ht. rewrite Hse2 in Ht. specialize (Hroom Ht). pose proof (an_room _ _ _ _ _ _ A) as Ha. cbn in Ha. lia. }
  assert (Hks : killswitch c2 = killswitch (armed c)).
  { revert E2. unfold client_read_request, fd_read_request, mbind, M_bind. rewrite on_sock_readloop. cbn zeta.
    destruct (ro_res _); [by intros [= <- <-] | | done]. cbn. by destruct (_ || _). }
  destruct (armed_fields c) as (_ & Hfa & Hda & _ & _ & Hka).
  assert (Hcy : forall b : bool, exists c',
      request_cycle (Some q) (if b then hit c2 else c2) = (Stop (if b then SError else SBlock), c') /\
      client_ok c' /\ sk_tx (sock c') = sk_tx (sock c2) /\ disconnect c' = false /\ killswitch c' = killswitch c2 /\
      use_killswitch (serve c') = use_killswitch (serve c2) /\
      exists bs, bs `prefix_of` payload /\ file c' = patched (file c2) (q_from q) bs).
  { intros b. apply (write_cycle_cut c2 q payload pre rest); try done; try lia;
      [apply (an_ok _ _ _ _ _ _ A) | rewrite Hcl2; apply (ev_open _ Hen) | apply (rq_wf _ _ _ Hq) | apply (an_rx _ _ _ _ _ _ A)]. }
  constructor.
  - rewrite (serve_request_armed c s sels Hsel Hrs), (bindM_eq _ _ _ _ _ E2).
    destruct (Hcy false) as (c' & E & _ & H2 & _ & H4 & _).
    exists c'. split_and!; [done | congruence |]. rewrite H4, Hks. done.
  - rewrite (serve_request_armed (hit c) s sels Hsel Hrs), armed_hit.
    rewrite (bindM_eq _ _ _ _ _ (read_request_hit _ _ _ E2)).
    destruct (Hcy true) as (c' & E & H1 & H2 & H3 & _ & H4 & H5). rewrite E, Hf2 in *.
    exists (Stop SError), c'. split_and!; try done; [by right | congruence | by rewrite H3, (ca_disconnect _ _ Hc) | congruence].
Qed.

(** ** The whole thread *)

Definition opened (fd size : Z) (c : client) : client :=
  c <| fileno := fd |> <| mapped_size := size |> <| is_mapped := true |>.

Lemma client_serve_opened requests fd size mm c :
  1 <= fd -> 0 <= size -> sector_round size = size -> mm <> -1 ->
  client_serve_with requests fd size mm 0 c =
    match client_thread requests (opened fd size c) with
    | (Stop SError, c') => match client_cleanup c' with (Ok _, c'') => (Stop SError, c'') | r => r end
    | r => r
    end.
Proof.
  intros H1 H2 H3 H4. unfold client_serve_with, open_and_mmap. replace (fd <? 1) with false by lia.
  replace (size <? 0) with false by lia. rewrite H3, Z.eqb_refl. replace (mm =? -1) with false by lia. cbn [andb].
  change (0 <? 0) with false. cbn iota. rewrite bool_decide_true by done. done.
Qed.

(** What every client is told first. *)
Definition hello_bytes (size : Z) : list Z :=
  to_wire (nbd_h2r_init {| i_passwd := INIT_PASSWD; i_magic := INIT_MAGIC; i_size := size;
    i_flags := Z.lor (Z.lor FLAG_HAS_FLAGS FLAG_SEND_FLUSH) FLAG_SEND_FUA; i_reserved := replicate 124 0 |} zero_init_raw).

Lemma hello_answered c :
  client_ok c -> env_ok c -> calm false c ->
  exists c', client_send_hello c = (Ok tt, c') /\ calm false c' /\
    answered c c' (file c) (hello_bytes (sv_size (serve c))) (incoming (sk_rx (sock c))) 0.
Proof.
  intros Hok Hen Hc. unfold client_send_hello. rewrite bind_gets. unfold client_write_init.
  pose proof (keeps_write_all false (hello_bytes (sv_size (serve c))) SError c Hc) as Hk.
  destruct (conn_write_all_spec (hello_bytes (sv_size (serve c))) SError (sock c) (ev_wq _ Hen)) as (k & E & H1 & H2 & H3 & H4).
  assert (E' : on_sock (conn_write_all (hello_bytes (sv_size (serve c))) SError) c = (Ok tt, c <| sock := k |>))
    by (unfold on_sock; by rewrite E).
  rewrite E' in Hk. exists (c <| sock := k |>). split_and!; [exact E' | exact Hk |].
  apply answered_sock; try done; rewrite H2; [apply (ev_rx _ Hen) | done].
Qed.

Lemma cleanup_ok c :
  client_ok c -> exists c', client_cleanup c = (Ok tt, c') /\ client_ok c' /\ sock c' = sock c /\ file c' = file c /\
    (use_killswitch (serve c) = true -> killswitch c' = None) /\ (socket c' = -1 \/ socket c' = 0) /\ is_mapped c' = false.
Proof.
  intros [Hm1 Hm2 Hm3 Hm4 Hm5 Hm6]. unfold client_cleanup, client_disarm_killswitch. rewrite bind_modify. unfold modify.
  eexists. split; [reflexivity |]. destruct (use_killswitch (serve c)) eqn:U; cbn; split_and!; try done;
    first [by constructor | destruct (socket c =? 0); auto].
Qed.

(** A request that the peer stopped sending: somewhere before its last byte. *)
Record stalled (c : client) (q : nbd_request) (payload tail : list Z) : Prop := {
  sd_ok : request_ok c q payload;
  sd_range : q_type q = REQUEST_WRITE -> q_from q + q_len q <= sv_size (serve c);
  sd_cut : exists rest, rest <> [] /\ tail ++ rest = request_bytes q ++ payload
}.

Lemma stalled_cut c q payload tail :
  client_ok c -> env_ok c -> calm false c -> sv_size (serve c) < 2 ^ 63 -> sk_selects (sock c) <> [] ->
  stalled c q payload tail -> room (map_of c) (blocks (q_from q) (payload_len q)) ->
  incoming (sk_rx (sock c)) = tail -> cut_short c q payload.
Proof.
  intros Hok Hen Hc Hsz Hsel [Hq Hr (rest & Hne & Hcut)] Hroom Hi.
  destruct (sk_selects (sock c)) as [| s sels] eqn:Esel; [done |].
  assert (Hrs : ready_select c s).
  { destruct Hen as [_ _ _ _ _ H]. rewrite Esel in H. by apply Forall_cons_1 in H as [? _]. }
  destruct (decide (zlen tail < NBD_REQUEST_SIZE)) as [Hlt | Hge].
  { apply (header_cut c q payload s sels); try done. by rewrite Hi. }
  pose proof (zlen_request_bytes q (rq_wf _ _ _ Hq)) as Hz.
  assert (Hpre : exists pre, tail = request_bytes q ++ pre /\ payload = pre ++ rest).
  { apply app_eq_inv in Hcut as [(k & H1 & H2) | (k & H1 & H2)]; [by exists k |].
    exists []. apply (f_equal zlen) in H1 as Hl. rewrite zlen_app in Hl. pose proof (zlen_nonneg k).
    assert (k = []) as -> by (apply zlen_nil_inv; lia). rewrite app_nil_r in *. by rewrite H1, H2. }
  destruct Hpre as (pre & -> & Hp). apply (payload_cut c q payload pre rest s sels); try done.
  apply Hr. pose proof (rq_payload _ _ _ Hq) as Hl. rewrite Hp, zlen_app in Hl. unfold payload_len in Hl.
  destruct (q_type q =? REQUEST_WRITE) eqn:E; [lia |]. rewrite andb_false_r in Hl. pose proof (zlen_nonneg pre).
  assert (rest = []) by (apply zlen_nil_inv; pose proof (zlen_nonneg rest); lia). done.
Qed.

(** The requests before it are served, then the thread is where it stalls. *)
Lemma stalled_session qs q payload tail c f out :
  client_ok c -> env_ok c -> calm false c -> sv_size (serve c) < 2 ^ 63 ->
  Forall (fun x => request_ok c x.1 x.2) qs -> stalled c q payload tail ->
  (length qs < length (sk_selects (sock c)))%nat ->
  room (map_of c) (session_blocks qs + blocks (q_from q) (payload_len q)) ->
  incoming (sk_rx (sock c)) = session_bytes qs ++ tail ->
  nbd_session (sv_size (serve c)) (file c) qs = (f, out, false) ->
  exists c', nsteps request_served (length qs) c c' /\ cut_short c' q payload /\ disconnect c' = false /\
    file c' = f /\ sk_tx (sock c') = sk_tx (sock c) ++ out /\ use_killswitch (serve c') = use_killswitch (serve c).
Proof.
  intros Hok Hen Hc Hsz Hqs Hst Hsel Hroom Hi Hspec.
  assert (Hb : 0 <= blocks (q_from q) (payload_len q)).
  { apply blocks_nonneg. rewrite <- (rq_payload _ _ _ (sd_ok _ _ _ _ Hst)). apply zlen_nonneg. }
  destruct (session_run qs c f out false tail) as (c' & H1 & H2 & H3 & H4 & H5 & _ & Hsteps & H7 & H8 & H9); try done;
    [lia | by apply (room_mono _ _ _ Hroom); lia |].
  pose proof (steps_calm _ _ _ Hsteps Hc) as Hc'. injection H5 as Hz Hbt Hks _ _ _ Hse.
  exists c'. split_and!; try done; [| apply (ca_disconnect _ _ Hc')].
  apply (stalled_cut c' q payload tail); try done.
  - lia.
  - rewrite H8. intros Hnil. apply (f_equal length) in Hnil. rewrite length_drop in Hnil. simpl in Hnil. lia.
  - destruct Hst as [[] Hr Hcut]. constructor; [constructor; try done; by rewrite Hbt | by rewrite Hz | done].
  - intros Ht. rewrite Hse in Ht. specialize (Hroom Ht). lia.
Qed.

(** The thread of a stalled session, without and with the timer. *)
Lemma thread_stalled n fuel q payload c0 c1 c :
  client_send_hello c0 = (Ok tt, c1) -> nsteps request_served n c1 c -> (n < fuel)%nat ->
  cut_short c q payload -> disconnect c = false -> use_killswitch (serve c) = true ->
  (exists c', client_thread (serve_requests fuel) c0 = (Stop SBlock, c') /\ sk_tx (sock c') = sk_tx (sock c) /\
     killswitch c' = Some CLIENT_HANDLER_TIMEOUT) /\
  exists r c2 c', client_thread (serve_requests_timed 0 fuel) c0 = (r, c') /\
    (r = Ok tt /\ client_cleanup c2 = (Ok tt, c') \/ r = Stop SError /\ c2 = c') /\ client_ok c2 /\
    sk_tx (sock c2) = sk_tx (sock c) /\ use_killswitch (serve c2) = true /\
    exists bs, bs `prefix_of` payload /\ file c2 = patched (file c) (q_from q) bs.
Proof.
  intros E1 Hst Hfuel [(cw & Ew & Tw & Kw) (r & ce & Ee & Hr & Te & Oe & De & Ue & Fe)] Hd Hks.
  replace fuel with (n + S (fuel - S n))%nat by lia. unfold client_thread. rewrite !(bindM_eq _ _ _ _ _ E1). split.
  - exists cw. split_and!; [| done | auto]. unfold mbind at 1, M_bind at 1.
    rewrite (serve_requests_steps _ _ _ _ Hst). cbn [serve_requests]. by rewrite (bindM_eq _ _ _ _ _ Ew).
  - unfold mbind at 1, M_bind at 1. rewrite (timed_steps _ _ _ _ Hst). cbn [serve_requests_timed].
    assert (Et : client_serve_request_timed 0 c = (r, ce)).
    { unfold client_serve_request_timed. rewrite Ew, (Kw Hks), hit_eq. done. }
    rewrite (bindM_eq _ _ _ _ _ Et). destruct Hr as [-> | ->].
    + cbn iota. unfold mret at 1, M_ret at 1. rewrite bind_modify, bind_gets. cbn [disconnect set_field]. rewrite De, Hd.
      destruct (cleanup_ok (ce <| stopped := true |>)) as (c' & E & _); [by apply (client_ok_serve ce) |].
      exists (Ok tt), (ce <| stopped := true |>), c'. split_and!; [exact E | by left | by apply (client_ok_serve ce) | done | by rewrite <- Hks | done].
    + exists (Stop SError), ce, ce. split_and!; try done; [by right | by rewrite <- Hks].
Qed.

(** * Properties *)

(** C11: a client that stops sending in the middle of a request that is not refused, in
    its header or in the data of a write inside the export, does not keep its thread.
    The thread answers the requests before it, waits with the timer running, and when
    the timer runs out the socket that the handler has shut down ends it: it returns or
    ends by [error()], without another byte written to the socket, with the killswitch
    off, the socket closed and the file unmapped. The file holds what the requests left
    and a prefix of the data of the unfinished write, and the allocation map is still
    right about it. Without the timer the thread would wait for ever. (With a write
    that is refused the timer does not help: [killswitch_cannot_end_flush].) The
    requests before are as in [client_session_refines], killswitches are in use, the
    event stream has room, the export has whole sectors and fewer than 2^63 bytes, the
    calls that open and map the file and the [shutdown] succeed, and until the client
    stops its connection takes what is written and no [errno] is left from before. *)
Theorem killswitch_ends_stalled_client qs q payload tail c f out fd size mm fuel :
  let c0 := opened fd size c in
  1 <= fd -> 0 <= size -> sector_round size = size -> mm <> -1 ->
  client_ok c0 -> env_ok c0 -> calm false c0 -> use_killswitch (serve c) = true -> sv_size (serve c) < 2 ^ 63 ->
  Forall (fun x => request_ok c0 x.1 x.2) qs -> stalled c0 q payload tail ->
  (length qs < length (sk_selects (sock c)))%nat -> (length qs < fuel)%nat ->
  room (map_of c) (session_blocks qs + blocks (q_from q) (payload_len q)) ->
  incoming (sk_rx (sock c)) = session_bytes qs ++ tail ->
  nbd_session (sv_size (serve c)) (file c) qs = (f, out, false) ->
  let sent := sk_tx (sock c) ++ hello_bytes (sv_size (serve c)) ++ out in
  (exists c1, client_serve fuel fd size mm 0 c = (Stop SBlock, c1) /\ sk_tx (sock c1) = sent /\
     killswitch c1 = Some CLIENT_HANDLER_TIMEOUT) /\
  exists r c2, client_serve_timed 0 fuel fd size mm 0 c = (r, c2) /\ (r = Ok tt \/ r = Stop SError) /\
    sk_tx (sock c2) = sent /\ client_ok c2 /\ killswitch c2 = None /\ (socket c2 = -1 \/ socket c2 = 0) /\
    is_mapped c2 = false /\ exists bs, bs `prefix_of` payload /\ file c2 = patched f (q_from q) bs.
Proof.
  intros c0 Hfd Hsz0 Hsec Hmm Hok Hen Hc Hks Hsz Hqs Hst Hsel Hfuel Hroom Hi Hspec sent.
  destruct (hello_answered c0 Hok Hen Hc) as (c1 & E1 & Hc1 & A).
  pose proof (an_kept _ _ _ _ _ _ A) as Hk. injection Hk as Hz Hbt Hks1 _ _ _ Hse.
  pose proof (an_file _ _ _ _ _ _ A) as Hf1. pose proof (an_sel _ _ _ _ _ _ A) as Hsel1.
  destruct (stalled_session qs q payload tail c1 f out) as (c' & Hsteps & Hcut & Hd & Hf & Ht & Hks').
  - apply (an_ok _ _ _ _ _ _ A).
  - apply (an_env _ _ _ _ _ _ A).
  - done.
  - lia.
  - eapply list.Forall_impl; [exact Hqs |]. intros x []. constructor; try done. by rewrite Hbt.
  - destruct Hst as [[] Hr Hcut]. constructor; [constructor; try done; by rewrite Hbt | by rewrite Hz | done].
  - by rewrite Hsel1.
  - intros H. rewrite Hse in H. specialize (Hroom H). pose proof (an_room _ _ _ _ _ _ A) as Ha. cbn in Ha. lia.
  - by rewrite (an_rx _ _ _ _ _ _ A).
  - by rewrite Hz, Hf1.
  - assert (Hsent : sk_tx (sock c') = sent) by (rewrite Ht, (an_tx _ _ _ _ _ _ A); symmetry; apply app_assoc).
    destruct (thread_stalled _ fuel q payload c0 c1 c' E1 Hsteps Hfuel Hcut Hd) as
      [(cw & Ew & Tw & Kw) (r & c2 & c3 & E & Hr & Ho & Tx & Hu & bs & Hbs & Hfe)]; [congruence |].
    assert (Hw : client_serve fuel fd size mm 0 c = (Stop SBlock, cw))
      by (unfold client_serve; rewrite client_serve_opened by done; fold c0; by rewrite Ew).
    split; [exists cw; split_and!; congruence |].
    destruct (cleanup_ok c2 Ho) as (c4 & E4 & Ho4 & Hs4 & Hf4 & Hk4 & Hs4' & Hm4).
    exists r, c4. unfold client_serve_timed. rewrite client_serve_opened by done. fold c0. rewrite E.
    split_and!; [| destruct Hr as [[-> _] | [-> _]]; auto | by rewrite Hs4, Tx | done | auto | done | done
      | exists bs; by rewrite Hf4, Hfe, Hf].
    destruct Hr as [[-> E4'] | [-> <-]]; [congruence | by rewrite E4].
Qed.

Lemma flush_loop_eof rx n :
  Forall data_event rx -> zlen (incoming rx) < n -> flush_loop (rx ++ [RdEof]) n = Stop SHang.
Proof.
  intros H. revert n. induction H as [| ev rx Hev Hrx IH]; intros n Hn.
  { change (zlen (incoming [])) with 0 in Hn. cbn. by replace (n <=? 0) with false by lia. }
  destruct ev as [bs | |]; [| done ..]. pose proof (data_event_pos bs Hev).
  rewrite incoming_data, zlen_app in Hn by done. pose proof (zlen_nonneg (incoming rx)).
  cbn [app flush_loop deliver]. replace (n <=? 0) with false by lia. replace (zlen bs <=? n) with true by lia.
  replace (zlen bs <? 0) with false by lia. replace (zlen bs =? 0) with false by lia.
  replace (n <=? zlen bs) with false by lia. apply IH. lia.
Qed.

(** The one place the killswitch does not get a thread out of: [client_flush] reads
    the data of a write it refused with [splice], which gives 0 at the end of the
    connection, and goes on calling it. A client that announces such a write and does
    not send the data keeps its thread busy for ever. *)
Theorem killswitch_cannot_end_flush q pre c s sels :
  client_ok c -> env_ok c -> calm false c -> sk_selects (sock c) = s :: sels -> request_wf q ->
  q_magic q = REQUEST_MAGIC -> q_type q = REQUEST_WRITE ->
  sv_size (serve c) < q_from q + q_len q < 2 ^ 64 -> zlen pre < q_len q ->
  incoming (sk_rx (sock c)) = request_bytes q ++ pre ->
  exists c1, client_killswitch_hit 0 c = Ok c1 /\ (client_serve_request c1).1 = Stop SHang.
Proof.
  intros Hok Hen Hc Hsel Hwf Hmg Hty Hr Hl Hi. exists (hit c). split; [done |].
  assert (Hrs : ready_select c s).
  { destruct Hen as [_ _ _ _ _ H]. rewrite Hsel in H. by apply Forall_cons_1 in H as [? _]. }
  destruct (pop_select_ok c Hok Hen) as [Hok0 Hen0].
  destruct (request_arrives q (pop_select c) pre Hok0 Hen0 Hwf Hi) as (c2 & E2 & A).
  change (set_killswitch _ (pop_select c)) with (armed c) in E2.
  rewrite (serve_request_armed (hit c) s sels Hsel Hrs), armed_hit.
  rewrite (bindM_eq _ _ _ _ _ (read_request_hit _ _ _ E2)). cbn [request_cycle].
  unfold mbind at 1, M_bind at 1. unfold client_request_needs_reply. rewrite Hmg, Z.eqb_refl. cbn [negb].
  pose proof (an_kept _ _ _ _ _ _ A) as Hk. injection Hk as Hz _ _ _ _ _ _. cbn in Hz.
  rewrite bind_gets. cbn [serve hit set_field]. destruct Hwf as (_ & _ & _ & _ & ? & ?).
  rewrite Hz, u64_id by lia. replace (sv_size (serve c) <? q_from q + q_len q) with true by lia.
  rewrite Hty. change (REQUEST_WRITE =? REQUEST_WRITE) with true. cbn iota.
  unfold mbind, M_bind, client_flush. cbn [sock hit shut set_field sk_rx].
  rewrite flush_loop_eof; [done | apply (ev_rx _ (an_env _ _ _ _ _ _ A)) | by rewrite (an_rx _ _ _ _ _ _ A)].
Qed.

(** One write served, then a write of which one byte of three came. *)
Definition stalled_requests : list (nbd_request * list Z) := take 1 example_requests.
Definition stalled_write : nbd_request :=
  {| q_magic := REQUEST_MAGIC; q_flags := 0; q_type := REQUEST_WRITE; q_handle := 8; q_from := 100; q_len := 3 |}.
Definition stalled_input : list rd_event :=
  [RdBytes (session_bytes stalled_requests); RdBytes (request_bytes stalled_write ++ [7])].
Definition stalled_client : client :=
  (example_client true stalled_input) <| is_mapped := false |> <| mapped_size := 0 |>.

Lemma killswitch_ends_stalled_client_witness :
  let c := stalled_client in
  let spec := nbd_session 12288 zero_file stalled_requests in
  let sent := hello_bytes 12288 ++ spec.1.2 in
  (exists c1, client_serve 2 3 12288 1 0 c = (Stop SBlock, c1) /\ sk_tx (sock c1) = sent /\
     killswitch c1 = Some CLIENT_HANDLER_TIMEOUT) /\
  exists r c2, client_serve_timed 0 2 3 12288 1 0 c = (r, c2) /\ (r = Ok tt \/ r = Stop SError) /\
    sk_tx (sock c2) = sent /\ client_ok c2 /\ killswitch c2 = None /\ (socket c2 = -1 \/ socket c2 = 0) /\
    is_mapped c2 = false /\ exists bs, bs `prefix_of` [7; 8; 9] /\ file c2 = patched spec.1.1 100 bs.
Proof.
  intros c spec.
  apply (killswitch_ends_stalled_client stalled_requests stalled_write [7; 8; 9] (request_bytes stalled_write ++ [7])
    c spec.1.1 spec.1.2 3 12288 1 2).
  - lia.
  - lia.
  - vm_compute. reflexivity.
  - lia.
  - exact (client_ok_serve _ (opened 3 12288 c) (example_client_ok true stalled_input) eq_refl eq_refl eq_refl).
  - constructor.
    + repeat constructor.
    + repeat constructor; vm_compute; discriminate.
    + constructor.
    + constructor.
    + reflexivity.
    + repeat constructor.
  - constructor; [reflexivity | repeat constructor | repeat constructor; vm_compute; discriminate
      | repeat constructor; lia | reflexivity].
  - reflexivity.
  - vm_compute. reflexivity.
  - repeat constructor; try by_decide; vm_compute; reflexivity.
  - constructor.
    + repeat constructor; try by_decide; vm_compute; reflexivity.
    + intros _. vm_compute. discriminate.
    + exists [8; 9]. split; [discriminate | reflexivity].
  - simpl. lia.
  - simpl. lia.
  - exact (example_room _ _ _).
  - vm_compute. reflexivity.
  - vm_compute. reflexivity.
Defined.
