(* ===== verification/Acl.v ===== *)
(** * Access control lists

    Models src/src/server/acl.c and acl.h. *)

From S2P Require Import Prelude IoUtil Parse.

Record acl := {
  acl_len : Z;
  default_deny : bool;
  acl_entries : list ip_and_mask
}.

(** [acl_create]: [acl->len] is what [parse_acl] returned. *)
Definition acl_create (pton4 pton6 : list Z -> option (list Z)) (lines : list (list Z)) (deny : bool)
    : res acl :=
  entries ← parse_acl pton4 pton6 lines;
  Ok {| acl_len := zlen entries; default_deny := deny; acl_entries := entries |}.

Definition testmasks : list Z := [0; 128; 192; 224; 240; 248; 252; 254; 255].

(** The [testbits] loop: [true] reaches [return 1], [false] is [goto no_match]. *)
Fixpoint mask_match (raw_address1 raw_address2 : list Z) (testbits : Z) : res bool :=
  if testbits <=? 0 then Ok true
  else
    match raw_address1, raw_address2 with
    | c1 :: r1, c2 :: r2 =>
        if 8 <=? testbits then
          if negb (c1 =? c2) then Ok false else mask_match r1 r2 (testbits - 8)
        else
          let m := default 0 (testmasks !! Z.to_nat (testbits mod 8)) in
          if negb (Z.land c1 m =? Z.land c2 m) then Ok false else mask_match r1 r2 (testbits - 8)
    | _, _ => Stop SFault
    end.

Fixpoint is_included_in_acl (list_ : list ip_and_mask) (test : mysockaddr) : res bool :=
  match list_ with
  | [] => Ok false
  | entry :: rest =>
      if negb (family test =? family (ip entry)) then is_included_in_acl rest test
      else
        matched ←
          (if family test =? AF_INET then mask_match (sin_addr test) (sin_addr (ip entry)) (mask entry)
           else if family test =? AF_INET6 then
             mask_match (sin6_addr test) (sin6_addr (ip entry)) (mask entry)
           else Stop SFatal);
        if (matched : bool) then Ok true else is_included_in_acl rest test
  end.

Definition acl_includes (a : acl) (addr : mysockaddr) : res bool :=
  if 0 =? acl_len a then Ok (negb (default_deny a))
  else is_included_in_acl (take (Z.to_nat (acl_len a)) (acl_entries a)) addr.

Definition acl_default_deny (a : acl) : bool := default_deny a.

(** * Lemmas *)

(** Bit [k] of an address, counted from its first byte's high bit. *)
Definition addr_bit (a : list Z) (k : Z) : bool :=
  Z.testbit (default 0 (a !! Z.to_nat (k / 8))) (7 - k mod 8).

(** The first [n] bits agree. *)
Definition same_prefix (a b : list Z) (n : Z) : Prop :=
  forall k, 0 <= k < n -> addr_bit a k = addr_bit b k.

Lemma addr_bit_cons_low c a k : 0 <= k < 8 -> addr_bit (c :: a) k = Z.testbit c (7 - k).
Proof.
  intros H. unfold addr_bit. rewrite Z.div_small, Z.mod_small by lia. done.
Qed.

Lemma addr_bit_cons_high c a k : 8 <= k -> addr_bit (c :: a) k = addr_bit a (k - 8).
Proof.
  intros H. unfold addr_bit.
  assert (E1 : k / 8 = (k - 8) / 8 + 1).
  { replace k with ((k - 8) + 1 * 8) at 1 by lia. rewrite Z.div_add by lia. done. }
  assert (E2 : k mod 8 = (k - 8) mod 8).
  { replace k with ((k - 8) + 1 * 8) at 1 by lia. apply Z.mod_add. lia. }
  rewrite E1, E2, Z2Nat.inj_add by (try apply Z.div_pos; lia).
  by rewrite Nat.add_1_r.
Qed.

(** A byte masked with [testmasks[t]] keeps its [t] high bits. *)
Lemma testmask_bits t i :
  0 <= t < 8 -> 0 <= i < 8 ->
  Z.testbit (default 0 (testmasks !! Z.to_nat t)) i = (8 - t <=? i).
Proof.
  intros Ht Hi.
  assert (Hall : forall t' i', In t' [0;1;2;3;4;5;6;7] -> In i' [0;1;2;3;4;5;6;7] ->
    Z.testbit (default 0 (testmasks !! Z.to_nat t')) i' = (8 - t' <=? i')).
  { simpl. intros t' i' H1 H2.
    repeat destruct H1 as [<- | H1]; try done; repeat destruct H2 as [<- | H2]; done. }
  apply Hall; simpl; lia.
Qed.

Lemma byte_bits_eq x y :
  is_byte x -> is_byte y -> (forall i, 0 <= i < 8 -> Z.testbit x i = Z.testbit y i) -> x = y.
Proof.
  intros Hx Hy H. apply Z.bits_inj'. intros i Hi. destruct (Z_lt_le_dec i 8); [by apply H |].
  unfold is_byte in *. by rewrite !(testbit_high _ 8 i) by (change (2 ^ 8) with 256; lia).
Qed.

Lemma masked_eq x y t :
  is_byte x -> is_byte y -> 0 < t < 8 ->
  Z.land x (default 0 (testmasks !! Z.to_nat t)) = Z.land y (default 0 (testmasks !! Z.to_nat t)) <->
  forall k, 0 <= k < t -> Z.testbit x (7 - k) = Z.testbit y (7 - k).
Proof.
  intros Hx Hy Ht. split.
  - intros E k Hk. apply (f_equal (fun z => Z.testbit z (7 - k))) in E.
    rewrite !Z.land_spec, testmask_bits in E by lia.
    replace (8 - t <=? 7 - k) with true in E by lia. by rewrite !andb_true_r in E.
  - intros H. apply Z.bits_inj'. intros i Hi. rewrite !Z.land_spec.
    destruct (Z_lt_le_dec i 8).
    + rewrite testmask_bits by lia. destruct (8 - t <=? i) eqn:E; [| by rewrite !andb_false_r].
      specialize (H (7 - i) ltac:(lia)). replace (7 - (7 - i)) with i in H by lia. by rewrite H.
    + unfold is_byte in *. by rewrite (testbit_high x 8 i), (testbit_high y 8 i) by (change (2 ^ 8) with 256; lia).
Qed.

(** Comparing byte by byte is comparing the prefixes. *)
Lemma mask_match_spec a b n :
  bytes a -> bytes b -> length a = length b -> n <= 8 * zlen a ->
  exists m, mask_match a b n = Ok m /\ (m = true <-> same_prefix a b n).
Proof.
  intros Ha. revert b n. induction Ha as [| x a Hx Ha IH]; intros b n Hb Hl Hn.
  { change (zlen []) with 0 in Hn. exists true. simpl. replace (n <=? 0) with true by lia.
    split; [done |]. split; [intros _ k Hk; lia | done]. }
  destruct b as [| y b]; [done |]. apply Forall_cons_1 in Hb as [Hy Hb].
  injection Hl as Hl. assert (Hz : zlen (x :: a) = 1 + zlen a) by (unfold zlen; simpl length; lia).
  cbn [mask_match]. destruct (n <=? 0) eqn:En.
  { exists true. split; [done |]. split; [intros _ k Hk; lia | done]. }
  destruct (IH b (n - 8) Hb Hl ltac:(lia)) as (m & Em & Hm).
  destruct (8 <=? n) eqn:E8.
  - destruct (Z.eqb_spec x y) as [-> | Hne]; cbn [negb].
    + exists m. split; [done |]. rewrite Hm. split; intros H k Hk.
      * destruct (Z_lt_le_dec k 8); [by rewrite !addr_bit_cons_low by lia |].
        rewrite !addr_bit_cons_high by lia. apply H. lia.
      * specialize (H (k + 8) ltac:(lia)). rewrite !addr_bit_cons_high in H by lia.
        by replace (k + 8 - 8) with k in H by lia.
    + exists false. split; [done |]. split; [done |]. intros H. destruct Hne.
      apply byte_bits_eq; [done | done |]. intros i Hi. specialize (H (7 - i) ltac:(lia)).
      rewrite !addr_bit_cons_low in H by lia. by replace (7 - (7 - i)) with i in H by lia.
  - rewrite Z.mod_small by lia. pose proof (masked_eq x y n Hx Hy ltac:(lia)) as Hmask.
    assert (Htail : mask_match a b (n - 8) = Ok true).
    { destruct a, b; cbn [mask_match]; by replace (n - 8 <=? 0) with true by lia. }
    destruct (Z.eqb_spec (Z.land x (default 0 (testmasks !! Z.to_nat n)))
      (Z.land y (default 0 (testmasks !! Z.to_nat n)))) as [E | E]; cbn [negb].
    + exists true. split; [done |]. split; [| done]. intros _ k Hk.
      rewrite !addr_bit_cons_low by lia. apply Hmask; done.
    + exists false. split; [done |]. split; [done |]. intros H. destruct E. apply Hmask.
      intros k Hk. specialize (H k ltac:(lia)). by rewrite !addr_bit_cons_low in H by lia.
Qed.

(** The address bytes of a sockaddr of either family. *)
Definition ip_bytes (a : mysockaddr) : list Z := if family a =? AF_INET then sin_addr a else sin6_addr a.

Definition matches (test : mysockaddr) (e : ip_and_mask) : Prop :=
  family test = family (ip e) /\ same_prefix (ip_bytes test) (ip_bytes (ip e)) (mask e).

Lemma ip_bytes_ok a : addr_ok a -> bytes (ip_bytes a) /\ 8 * zlen (ip_bytes a) = MAX_MASK_BITS a.
Proof.
  intros (Hf & L4 & B4 & L6 & B6). unfold ip_bytes, MAX_MASK_BITS, zlen.
  destruct (family a =? AF_INET); rewrite ?L4, ?L6; done.
Qed.

Lemma is_included_spec l test :
  Forall entry_ok l -> addr_ok test ->
  exists b, is_included_in_acl l test = Ok b /\ (b = true <-> Exists (matches test) l).
Proof.
  intros Hl Ht. induction Hl as [| e l [He Hm] Hl (b & Eb & Hb)].
  { exists false. split; [done |]. split; [done | intros H; inversion H]. }
  cbn [is_included_in_acl]. destruct (Z.eqb_spec (family test) (family (ip e))) as [Hf | Hf]; cbn [negb].
  2:{ exists b. split; [done |]. rewrite Exists_cons, Hb. unfold matches. split; [by right |].
      intros [[? _] | ?]; done. }
  destruct (ip_bytes_ok test Ht) as (B1 & L1). destruct (ip_bytes_ok (ip e) He) as (B2 & L2).
  assert (Hmm : MAX_MASK_BITS test = MAX_MASK_BITS (ip e)) by (unfold MAX_MASK_BITS; by rewrite Hf).
  destruct (mask_match_spec (ip_bytes test) (ip_bytes (ip e)) (mask e)) as (m & Em & Hsame);
    [done | done | unfold zlen in *; lia | lia |].
  assert (Hsel : (if family test =? AF_INET then mask_match (sin_addr test) (sin_addr (ip e)) (mask e)
    else if family test =? AF_INET6 then mask_match (sin6_addr test) (sin6_addr (ip e)) (mask e)
    else Stop SFatal) = Ok m).
  { rewrite <- Em. unfold ip_bytes. rewrite <- Hf. destruct Ht as ([-> | ->] & _); done. }
  rewrite Hsel. cbn [mbind res_bind]. destruct m.
  - exists true. split; [done |]. split; [| done]. intros _. apply Exists_cons. left.
    split; [done | by apply Hsame].
  - exists b. split; [done |]. rewrite Exists_cons, Hb. unfold matches. split; [by right |].
    intros [[_ H] | H]; [| done]. apply Hsame in H. done.
Qed.

(** * Properties *)

(** C23: an access list built from lines that all parse decides by network prefix:
    with no entries it gives the default, otherwise an address is let in exactly
    when it shares the first [mask] bits with an entry of its own family. The
    decision never reads outside an address and never fails. *)
Theorem acl_decides_by_prefix pton4 pton6 lines deny a test :
  pton_ok pton4 4 -> pton_ok pton6 16 -> addr_ok test ->
  acl_create pton4 pton6 lines deny = Ok a ->
  exists b, acl_includes a test = Ok b /\
    (acl_len a = 0 -> b = negb deny) /\
    (acl_len a <> 0 -> (b = true <-> Exists (matches test) (acl_entries a))).
Proof.
  intros H4 H6 Ht. unfold acl_create. intros H. apply bind_Ok in H as (l & Hl & [= <-]).
  destruct (parse_acl_spec pton4 pton6 H4 H6 lines l Hl) as (Hok & _).
  unfold acl_includes. cbn [acl_len acl_entries default_deny].
  destruct (Z.eqb_spec 0 (zlen l)) as [Hz | Hz].
  - exists (negb deny). split_and!; [done | done | lia].
  - rewrite take_ge by (unfold zlen; lia).
    destruct (is_included_spec l test Hok Ht) as (b & E & Hb). exists b. split_and!; [done | lia | done].
Qed.

(** An [inet_pton] that knows the two addresses of the example. *)
Definition example_pton4 (s : list Z) : option (list Z) :=
  if bool_decide (s = [49; 48; 46; 48; 46; 48; 46; 48]) then Some [10; 0; 0; 0] else None.

Lemma example_pton4_ok : pton_ok example_pton4 4.
Proof.
  intros s a. unfold example_pton4. case_bool_decide; [| done]. intros [= <-]. by split; [| by_decide].
Qed.

(** The line 10.0.0.0/9. *)
Definition example_line : list Z := [49; 48; 46; 48; 46; 48; 46; 48; 47; 57].

Definition example_addr (b : Z) : mysockaddr :=
  zero_sockaddr <| family := AF_INET |> <| sin_addr := [10; b; 0; 1] |>.

Definition example_acl : acl :=
  {| acl_len := 1; default_deny := true;
     acl_entries := [{| ip := zero_sockaddr <| sin_addr := [10; 0; 0; 0] |> <| family := AF_INET |>;
                        mask := 9 |}] |}.

Lemma acl_decides_by_prefix_witness :
  acl_create example_pton4 (fun _ => None) [example_line] true = Ok example_acl /\
  exists b, acl_includes example_acl (example_addr 127) = Ok b /\
    (acl_len example_acl = 0 -> b = negb true) /\
    (acl_len example_acl <> 0 -> (b = true <-> Exists (matches (example_addr 127)) (acl_entries example_acl))).
Proof.
  assert (E : acl_create example_pton4 (fun _ => None) [example_line] true = Ok example_acl) by reflexivity.
  split; [exact E |].
  apply (acl_decides_by_prefix example_pton4 (fun _ => None) [example_line] true example_acl (example_addr 127)).
  - exact example_pton4_ok.
  - intros s a. discriminate.
  - split; [left; reflexivity |]. repeat split; by_decide.
  - exact E.
Defined.

Example acl_rejects_outside : acl_includes example_acl (example_addr 128) = Ok false.
Proof. reflexivity. Qed.

(** [acl_create] reports a bad line by its index: the entries it keeps are the
    lines before it, each with a mask between 1 and the width of its family, and
    when fewer entries than lines are kept the next line is one that does not parse. *)
Theorem acl_create_reports_bad_line pton4 pton6 lines deny a :
  pton_ok pton4 4 -> pton_ok pton6 16 -> acl_create pton4 pton6 lines deny = Ok a ->
  acl_len a = zlen (acl_entries a) /\ acl_len a <= zlen lines /\ Forall entry_ok (acl_entries a) /\
  Forall2 (fun e m => parse_acl_entry pton4 pton6 e = Ok (Some m))
    (take (Z.to_nat (acl_len a)) lines) (acl_entries a) /\
  (acl_len a < zlen lines -> exists bad,
     lines !! Z.to_nat (acl_len a) = Some bad /\ parse_acl_entry pton4 pton6 bad = Ok None).
Proof.
  intros H4 H6. unfold acl_create. intros H. apply bind_Ok in H as (l & Hl & [= <-]).
  destruct (parse_acl_spec pton4 pton6 H4 H6 lines l Hl) as (H1 & H2 & H3 & H5). cbn [acl_len acl_entries].
  assert (Hz : Z.to_nat (zlen l) = length l) by (unfold zlen; lia). rewrite Hz.
  split_and!; [done | unfold zlen; lia | done | done |]. intros Hlt.
  destruct (lines !! length l) as [bad |] eqn:E.
  - exists bad. split; [done | by apply H5].
  - apply lookup_ge_None_1 in E. unfold zlen in Hlt. lia.
Qed.

Lemma acl_create_reports_bad_line_witness :
  exists bad, [example_line; [120]; example_line] !! 1%nat = Some bad /\
    parse_acl_entry example_pton4 (fun _ => None) bad = Ok None.
Proof.
  apply (acl_create_reports_bad_line example_pton4 (fun _ => None) [example_line; [120]; example_line] true
    example_acl).
  - exact example_pton4_ok.
  - intros s a. discriminate.
  - reflexivity.
  - vm_compute. reflexivity.
Defined.
