(* ===== verification/Prefetch.v ===== *)
(** * The proxy's prefetch cache

    Models src/src/proxy/prefetch.c and prefetch.h. The functions that take a
    possibly NULL pointer take an [option]. *)

From S2P Require Import Prelude.

Record prefetch := {
  is_full : bool;
  pf_from : Z;
  pf_len : Z;
  pf_size : Z;
  pf_buffer : list Z
}.

#[export] Instance prefetch_eta : Settable prefetch := fun p =>
  Build_prefetch (is_full p) (pf_from p) (pf_len p) (pf_size p) (pf_buffer p).

Definition prefetch_create (size_bytes : Z) : prefetch :=
  {| is_full := false; pf_from := 0; pf_len := 0; pf_size := size_bytes;
     pf_buffer := replicate (Z.to_nat size_bytes) 0 |}.

Definition prefetch_size (p : option prefetch) : Z :=
  match p with Some p => pf_size p | None => 0 end.

Definition prefetch_set_full (p : option prefetch) (val : bool) : option prefetch :=
  match p with Some p => Some (p <| is_full := val |>) | None => None end.

Definition prefetch_set_is_empty (p : option prefetch) : option prefetch := prefetch_set_full p false.
Definition prefetch_set_is_full (p : option prefetch) : option prefetch := prefetch_set_full p true.

Definition prefetch_is_full (p : option prefetch) : bool :=
  match p with Some p => is_full p | None => false end.

(** Both sums are 64-bit. *)
Definition prefetch_contains (p : prefetch) (from len : Z) : bool :=
  (pf_from p <=? from) && (from +64 len <=? pf_from p +64 pf_len p).

(** The offset into the buffer of [prefetch_offset]. *)
Definition prefetch_offset (p : prefetch) (from : Z) : Z := from -64 pf_from p.

(** * Lemmas *)

(** A cache whose content is a range that does not wrap and fits the buffer. *)
Definition prefetch_ok (p : prefetch) : Prop :=
  0 <= pf_from p /\ 0 <= pf_len p /\ pf_from p + pf_len p < 2 ^ 64 /\
  pf_len p <= pf_size p /\ zlen (pf_buffer p) = pf_size p.

(** A hit for a request that does not wrap lies inside the buffer. *)
Lemma prefetch_hit p from len :
  prefetch_ok p -> 0 <= from -> 0 <= len -> from + len < 2 ^ 64 -> prefetch_contains p from len = true ->
  prefetch_offset p from = from - pf_from p /\ 0 <= from - pf_from p /\
  from - pf_from p + len <= pf_len p.
Proof.
  intros (H1 & H2 & H3 & H4 & H5) Hf Hl Hw. unfold prefetch_contains, prefetch_offset.
  rewrite (u64_id (from + len)), (u64_id (pf_from p + pf_len p)) by lia.
  intros Hc. rewrite u64_id by lia. lia.
Qed.
