(* ===== verification/Proxy.v ===== *)
(** * The proxy

    Models src/src/proxy/proxy.c and proxy.h: one downstream client at a time,
    served over a non-blocking connection to the upstream server. The handlers
    are functions on the [proxier]; [proxy_step] is one pass of the loop of
    [proxy_session], with what the kernel answers in that pass as its input. *)

From S2P Require Import Prelude NbdTypes Bitset IoUtil SockUtil ReadWrite Parse Prefetch.

Inductive proxy_session_states :=
| EXIT
| WRITE_TO_DOWNSTREAM
| READ_FROM_DOWNSTREAM
| CONNECT_TO_UPSTREAM
| READ_INIT_FROM_UPSTREAM
| WRITE_TO_UPSTREAM
| READ_FROM_UPSTREAM.

#[export] Instance proxy_session_states_eq_dec : EqDecision proxy_session_states.
Proof. solve_decision. Defined.

Definition UPSTREAM_TIMEOUT : Z := 30.

Record proxier := {
  listen_on : mysockaddr;
  connect_to : mysockaddr;
  connect_from : mysockaddr;
  bind : bool;
  listen_fd : Z;
  downstream_fd : Z;
  upstream_fd : Z;
  upstream_size : Z;
  upstream_flags : Z;
  req_hdr : nbd_request;
  rsp_hdr : nbd_reply;
  init : iobuf;
  req : iobuf;
  rsp : iobuf;
  req_count : Z;
  hello_sent : bool;
  upstream_timeout : Z;
  upstream_timeout_ms : Z;
  is_prefetch_req : bool;
  prefetch_req_orig_len : Z;
  cache : option prefetch;
  down : conn;                     (* the two sockets *)
  up : conn;
  up_cork : bool
}.

#[export] Instance proxier_eta : Settable proxier := fun p =>
  Build_proxier (listen_on p) (connect_to p) (connect_from p) (bind p) (listen_fd p)
    (downstream_fd p) (upstream_fd p) (upstream_size p) (upstream_flags p) (req_hdr p) (rsp_hdr p)
    (init p) (req p) (rsp p) (req_count p) (hello_sent p) (upstream_timeout p)
    (upstream_timeout_ms p) (is_prefetch_req p) (prefetch_req_orig_len p) (cache p) (down p) (up p)
    (up_cork p).

#[export] Instance iobuf_eta : Settable iobuf := fun b => Build_iobuf (buf b) (ib_size b) (needle b).

Definition zero_request : nbd_request :=
  {| q_magic := 0; q_flags := 0; q_type := 0; q_handle := 0; q_from := 0; q_len := 0 |}.
Definition zero_reply : nbd_reply := {| p_magic := 0; p_error := 0; p_handle := 0 |}.

Definition new_iobuf (n : Z) : iobuf := {| buf := replicate (Z.to_nat n) 0; ib_size := 0; needle := 0 |}.

Definition idle_conn : conn := {| sk_rx := []; sk_wq := []; sk_tx := []; sk_errno := 0; sk_selects := [] |}.

(** [proxy_create]: the arguments, and the environment's FLEXNBD_UPSTREAM_TIMEOUT. *)
Definition proxy_create (pton4 pton6 : list Z -> option (list Z))
    (s_downstream_address : list Z) (s_downstream_port : option (list Z))
    (s_upstream_address s_upstream_port : list Z) (s_upstream_bind : option (list Z))
    (s_cache_bytes env_upstream_timeout : option (list Z)) : res proxier :=
  lo ← parse_to_sockaddr pton4 pton6 zero_sockaddr s_downstream_address;
  lo ← of_opt SFatal lo;
  lo ← (if negb (family lo =? AF_UNIX)
        then p ← of_opt SFatal s_downstream_port; parse_port p lo
        else Ok lo);
  ct ← parse_ip_to_sockaddr pton4 pton6 zero_sockaddr s_upstream_address;
  ct ← of_opt SFatal ct;
  ct ← parse_port s_upstream_port ct;
  cf ← match s_upstream_bind with
       | Some s => a ← parse_ip_to_sockaddr pton4 pton6 zero_sockaddr s;
                   a ← of_opt SFatal a; Ok (a, true)
       | None => Ok (zero_sockaddr, false)
       end;
  let timeout := match env_upstream_timeout with
                 | Some s => if 0 <? atoi s then atoi s else UPSTREAM_TIMEOUT
                 | None => UPSTREAM_TIMEOUT
                 end in
  let cache_ := match s_cache_bytes with
                | Some s => if 0 <=? atoi s then Some (prefetch_create (atoi s)) else None
                | None => None
                end in
  Ok {| listen_on := lo; connect_to := ct; connect_from := cf.1; bind := cf.2;
        listen_fd := -1; downstream_fd := -1; upstream_fd := -1; upstream_size := 0;
        upstream_flags := 0; req_hdr := zero_request; rsp_hdr := zero_reply;
        init := new_iobuf NBD_INIT_SIZE;
        req := new_iobuf (NBD_MAX_SIZE + NBD_REQUEST_SIZE);
        rsp := new_iobuf (NBD_MAX_SIZE + NBD_REPLY_SIZE);
        req_count := 0; hello_sent := false; upstream_timeout := timeout;
        upstream_timeout_ms := u64 (timeout * 1000); is_prefetch_req := false;
        prefetch_req_orig_len := 0; cache := cache_; down := idle_conn; up := idle_conn;
        up_cork := false |}.

Definition proxy_prefetches (p : proxier) : bool := bool_decide (is_Some (cache p)).
Definition proxy_prefetch_bufsize (p : proxier) : Z := prefetch_size (cache p).

Definition proxy_state_upstream (s : proxy_session_states) : bool :=
  match s with
  | CONNECT_TO_UPSTREAM | READ_INIT_FROM_UPSTREAM | WRITE_TO_UPSTREAM | READ_FROM_UPSTREAM => true
  | _ => false
  end.

(** ** Buffers on the sockets *)

(** [iobuf_read] and [iobuf_write] on a socket of the proxier. *)
Definition conn_iobuf_read (k : conn) (b : iobuf) (default_size : Z) : res (Z * iobuf * conn) :=
  '(count, b', rx, e) ← iobuf_read (sk_rx k) (sk_errno k) b default_size;
  Ok (count, b', {| sk_rx := rx; sk_wq := sk_wq k; sk_tx := sk_tx k; sk_errno := e;
                    sk_selects := sk_selects k |}).

Definition conn_iobuf_write (k : conn) (b : iobuf) : res (Z * iobuf * conn) :=
  '(count, bs, b', wq, e) ← iobuf_write (sk_wq k) (sk_errno k) b;
  Ok (count, b', {| sk_rx := sk_rx k; sk_wq := wq; sk_tx := sk_tx k ++ bs; sk_errno := e;
                    sk_selects := sk_selects k |}).

(** A struct at the start of a buffer. *)
Definition struct_at {A} `{WireStruct A} (b : iobuf) : A := of_wire (take wire_size (buf b)).
Definition put_struct {A} `{WireStruct A} (b : iobuf) (a : A) : res iobuf :=
  m ← mem_store (buf b) 0 (to_wire a); Ok (b <| buf := m |>).

(** ** Connecting *)

Definition proxy_finish_connect_to_upstream (p : proxier) (size flags : Z) : proxier :=
  p <| upstream_size := size |> <| upstream_flags := flags |>.

Definition proxy_disconnect_from_upstream (p : proxier) : proxier :=
  if negb (upstream_fd p =? -1) then p <| upstream_fd := -1 |> else p.

(** What [socket], [sock_set_nonblock] and [connect] answer, and the new socket. *)
Record connect_input := {
  ci_socket : Z;
  ci_nonblock : Z;
  ci_connect : answer;
  ci_conn : conn
}.

Definition proxy_start_connect_to_upstream (i : connect_input) (p : proxier) : proxier :=
  if ci_socket i <? 0 then p
  else if ci_nonblock i =? -1 then p
  else if (a_ret (ci_connect i) =? -1) && negb (a_errno (ci_connect i) =? EINPROGRESS) then p
  else p <| upstream_fd := ci_socket i |> <| up := ci_conn i |>.

(** [proxy_connect_to_upstream]: [fd] is the result of [socket_connect]; [true] is 1. *)
Definition proxy_connect_to_upstream (fd : Z) (k : conn) (p : proxier) : res (bool * proxier) :=
  if fd =? -1 then Ok (false, p)
  else
    let '(r, k') := socket_nbd_read_hello k in
    hello ← r;
    match (hello : option (Z * Z)) with
    | None => Ok (false, p)
    | Some (size, flags) =>
        Ok (true, proxy_finish_connect_to_upstream (p <| upstream_fd := fd |> <| up := k' |>) size flags)
    end.

(** ** Prefetching *)

Definition proxy_prefetch_for_request (p : proxier) (state : proxy_session_states)
    : res (proxy_session_states * proxier) :=
  let q := req_hdr p in
  let is_read := q_type q =? REQUEST_READ in
  let hit := match cache p with
             | Some c => is_read && is_full c && prefetch_contains c (q_from q) (q_len q)
             | None => false
             end in
  if hit then
    c ← of_opt SFault (cache p);
    let r := {| p_magic := REPLY_MAGIC; p_error := 0; p_handle := q_handle q |} in
    b ← put_struct (rsp p) (nbd_h2r_reply r);
    data ← mem_load (pf_buffer c) (prefetch_offset c (q_from q)) (q_len q);
    m ← mem_store (buf b) NBD_REPLY_SIZE data;
    Ok (WRITE_TO_DOWNSTREAM,
        p <| rsp_hdr := r |>
          <| rsp := {| buf := m; ib_size := NBD_REPLY_SIZE + q_len q; needle := 0 |} |>)
  else
    let p := if is_read then p else p <| cache := prefetch_set_is_empty (cache p) |> in
    let prefetch_start := q_from q in
    let prefetch_end := q_from q +64 u32 (q_len q * 2) in
    let prefetching := (q_len q <=? prefetch_size (cache p)) && is_read &&
                       (prefetch_start <? prefetch_end) && (prefetch_end <=? upstream_size p) in
    if prefetching then
      let q' := {| q_magic := q_magic q; q_flags := q_flags q; q_type := q_type q;
                   q_handle := q_handle q; q_from := q_from q; q_len := u32 (q_len q * 2) |} in
      b ← put_struct (req p) (nbd_h2r_request q');
      Ok (state, p <| is_prefetch_req := true |> <| prefetch_req_orig_len := q_len q |>
                   <| req_hdr := q' |> <| req := b |>)
    else Ok (state, p).

Definition proxy_prefetch_for_reply (p : proxier) (state : proxy_session_states)
    : res (proxy_session_states * proxier) :=
  if negb (is_prefetch_req p) then Ok (state, p)
  else
    c ← of_opt SFault (cache p);
    let prefetched_bytes := u32 (q_len (req_hdr p) - prefetch_req_orig_len p) in
    data ← mem_load (buf (rsp p)) (prefetch_req_orig_len p + NBD_REPLY_SIZE) prefetched_bytes;
    m ← mem_store (pf_buffer c) 0 data;
    let q := req_hdr p in
    let c' := {| is_full := true; pf_from := q_from q +64 prefetch_req_orig_len p;
                 pf_len := prefetched_bytes; pf_size := pf_size c; pf_buffer := m |} in
    Ok (state,
        p <| cache := Some c' |>
          <| req_hdr := {| q_magic := q_magic q; q_flags := q_flags q; q_type := q_type q;
                           q_handle := q_handle q; q_from := q_from q;
                           q_len := prefetch_req_orig_len p |} |>
          <| rsp := (rsp p) <| ib_size := ib_size (rsp p) -64 prefetched_bytes |> |>
          <| is_prefetch_req := false |>).

(** ** The handlers of the states *)

Definition proxy_read_from_downstream (p : proxier) (state : proxy_session_states)
    : res (proxy_session_states * proxier) :=
  '(count, b, k) ← conn_iobuf_read (down p) (req p) NBD_REQUEST_SIZE;
  let p := p <| req := b |> <| down := k |> in
  if count =? -1 then Ok (EXIT, p)
  else
    let header := needle b =? NBD_REQUEST_SIZE in
    let q := if header then nbd_r2h_request (struct_at b) else req_hdr p in
    let p := p <| req_hdr := q |> in
    if header && (q_type q =? REQUEST_DISCONNECT) then Ok (EXIT, p)
    else if header && (q_type q =? REQUEST_READ) && (NBD_MAX_SIZE <? q_len q) then Ok (EXIT, p)
    else if header && (q_type q =? REQUEST_WRITE) && (NBD_MAX_SIZE <? q_len q) then Ok (EXIT, p)
    else
      let b := if header && (q_type q =? REQUEST_WRITE) then b <| ib_size := ib_size b +64 q_len q |> else b in
      if needle b =? ib_size b
      then Ok (WRITE_TO_UPSTREAM, p <| req := b <| needle := 0 |> |>)
      else Ok (state, p <| req := b |>).

(** [result] and [error] of [getsockopt(SO_ERROR)]. *)
Definition proxy_continue_connecting_to_upstream (result error : Z) (p : proxier)
    (state : proxy_session_states) : proxy_session_states * proxier :=
  if result =? -1 then (state, p)
  else if negb (error =? 0) then (state, p)
  else
    (READ_INIT_FROM_UPSTREAM,
     p <| cache := prefetch_set_is_empty (cache p) |>
       <| init := (init p) <| needle := 0 |> <| ib_size := 0 |> |>
       <| rsp := (rsp p) <| needle := 0 |> <| ib_size := 0 |> |>
       <| req := (req p) <| needle := 0 |> |>).

Definition proxy_read_init_from_upstream (p : proxier) (state : proxy_session_states)
    : res (proxy_session_states * proxier) :=
  '(count, b, k) ← conn_iobuf_read (up p) (init p) NBD_INIT_SIZE;
  let p := p <| init := b |> <| up := k |> in
  if count =? -1 then Ok (CONNECT_TO_UPSTREAM, p)
  else if needle b =? ib_size b then
    match nbd_check_hello (struct_at b) with
    | None => Ok (CONNECT_TO_UPSTREAM, p)
    | Some (size, flags) =>
        Ok (WRITE_TO_UPSTREAM,
            (proxy_finish_connect_to_upstream p size flags) <| init := b <| needle := 0 |> |>)
    end
  else Ok (state, p).

Definition proxy_write_to_upstream (p : proxier) (state : proxy_session_states)
    : res (proxy_session_states * proxier) :=
  let tcp := negb (AF_UNIX =? family (connect_to p)) in
  let p := p <| up_cork := if (needle (req p) =? 0) && tcp then true else up_cork p |> in
  '(count, b, k) ← conn_iobuf_write (up p) (req p);
  let p := p <| req := b |> <| up := k |> in
  if count =? -1 then Ok (CONNECT_TO_UPSTREAM, p)
  else if needle b =? ib_size b then
    Ok (READ_FROM_UPSTREAM,
        p <| req := b <| needle := 0 |> |> <| up_cork := if tcp then false else up_cork p |>)
  else Ok (state, p).

Definition proxy_read_from_upstream (p : proxier) (state : proxy_session_states)
    : res (proxy_session_states * proxier) :=
  '(count, b, k) ← conn_iobuf_read (up p) (rsp p) NBD_REPLY_SIZE;
  let p := p <| rsp := b |> <| up := k |> in
  if count =? -1 then Ok (CONNECT_TO_UPSTREAM, p)
  else
    let header := needle b =? NBD_REPLY_SIZE in
    let r := if header then nbd_r2h_reply (struct_at b) else rsp_hdr p in
    let p := p <| rsp_hdr := r |> in
    if header && negb (p_magic r =? REPLY_MAGIC) then Ok (CONNECT_TO_UPSTREAM, p)
    else
      let b := if header && (q_type (req_hdr p) =? REQUEST_READ)
               then b <| ib_size := ib_size b +64 q_len (req_hdr p) |> else b in
      if ib_size b =? needle b
      then Ok (WRITE_TO_DOWNSTREAM, p <| rsp := b <| needle := 0 |> |>)
      else Ok (state, p <| rsp := b |>).

Definition proxy_write_to_downstream (p : proxier) (state : proxy_session_states)
    : res (proxy_session_states * proxier) :=
  '(count, b, k) ← conn_iobuf_write (down p) (rsp p);
  let p := p <| rsp := b |> <| down := k |> in
  if count =? -1 then Ok (EXIT, p)
  else if needle b =? ib_size b then
    let p := if negb (hello_sent p) then p <| hello_sent := true |>
             else p <| req_count := req_count p +64 1 |> in
    Ok (READ_FROM_DOWNSTREAM,
        p <| req := (req p) <| ib_size := 0 |> <| needle := 0 |> |>
          <| rsp := b <| ib_size := 0 |> <| needle := 0 |> |>)
  else Ok (state, p).

(** ** The session loop *)

(** The local variables of [proxy_session]. *)
Record session := {
  px : proxier;
  state : proxy_session_states;
  old_state : proxy_session_states;
  state_started : Z;
  connect_to_upstream_cooldown : bool
}.

#[export] Instance session_eta : Settable session := fun s =>
  Build_session (px s) (state s) (old_state s) (state_started s) (connect_to_upstream_cooldown s).

(** The answers one pass gets: the clock at its start and end, a connection
    attempt, [sock_try_select] and [getsockopt]. *)
Record pass_input := {
  in_start : Z;
  in_connect : connect_input;
  in_select : select_answer;
  in_getsockopt : Z * Z;
  in_now : Z
}.

(** The first [switch]: [None] is [continue] after a failed connection attempt. *)
Definition proxy_prepare (i : connect_input) (s : session) : session * bool :=
  match state s with
  | CONNECT_TO_UPSTREAM =>
      let p := proxy_disconnect_from_upstream (px s) in
      if connect_to_upstream_cooldown s then
        (s <| px := p |> <| connect_to_upstream_cooldown := false |>, true)
      else
        let p := proxy_start_connect_to_upstream i p in
        (s <| px := p |>, negb (upstream_fd p =? -1))
  | _ => (s, true)
  end.

(** The second [switch], on the descriptors [select] found ready. *)
Definition proxy_dispatch (i : pass_input) (s : session) : res session :=
  let p := px s in
  let st := state s in
  let sel := in_select i in
  let fail_to_cooldown (s : session) :=
    if decide (state s = CONNECT_TO_UPSTREAM) then s <| connect_to_upstream_cooldown := true |> else s in
  match st with
  | READ_FROM_DOWNSTREAM =>
      if FD_ISSET (downstream_fd p) (sel_rfds sel) then
        '(st1, p1) ← proxy_read_from_downstream p st;
        '(st2, p2) ← (if proxy_prefetches p1 && bool_decide (st1 = WRITE_TO_UPSTREAM)
                      then proxy_prefetch_for_request p1 st1 else Ok (st1, p1));
        Ok (s <| px := p2 |> <| state := st2 |>)
      else Ok s
  | CONNECT_TO_UPSTREAM =>
      let '(st1, p1) := if FD_ISSET (upstream_fd p) (sel_wfds sel)
                        then proxy_continue_connecting_to_upstream (in_getsockopt i).1 (in_getsockopt i).2 p st
                        else (st, p) in
      Ok (fail_to_cooldown (s <| px := p1 |> <| state := st1 |>))
  | READ_INIT_FROM_UPSTREAM =>
      '(st1, p1) ← proxy_read_init_from_upstream p st;
      Ok (fail_to_cooldown (s <| px := p1 |> <| state := st1 |>))
  | WRITE_TO_UPSTREAM =>
      if FD_ISSET (upstream_fd p) (sel_wfds sel) then
        '(st1, p1) ← proxy_write_to_upstream p st; Ok (s <| px := p1 |> <| state := st1 |>)
      else Ok s
  | READ_FROM_UPSTREAM =>
      '(st1, p1) ← (if FD_ISSET (upstream_fd p) (sel_rfds sel)
                    then proxy_read_from_upstream p st else Ok (st, p));
      '(st2, p2) ← (if proxy_prefetches p1 && bool_decide (st1 = WRITE_TO_DOWNSTREAM)
                    then proxy_prefetch_for_reply p1 st1 else Ok (st1, p1));
      Ok (s <| px := p2 |> <| state := st2 |>)
  | WRITE_TO_DOWNSTREAM =>
      if FD_ISSET (downstream_fd p) (sel_wfds sel) then
        '(st1, p1) ← proxy_write_to_downstream p st; Ok (s <| px := p1 |> <| state := st1 |>)
      else Ok s
  | EXIT => Ok s
  end.

(** One pass; [false] leaves the loop. *)
Definition proxy_step (i : pass_input) (s : session) : res (bool * session) :=
  if decide (state s = EXIT) then Ok (false, s)
  else
    let s := if decide (state s <> old_state s) then s <| state_started := in_start i |> else s in
    let s := s <| old_state := state s |> in
    let '(s, ok) := proxy_prepare (in_connect i) s in
    if negb ok then Ok (true, s)
    else if sel_ret (in_select i) =? -1 then Ok (false, s)
    else if upstream_fd (px s) =? -1 then Ok (true, s)
    else
      s ← proxy_dispatch i s;
      if bool_decide (old_state s = state s) && proxy_state_upstream (state s) &&
         (upstream_timeout_ms (px s) <? u64 (in_now i - state_started s))
      then Ok (true, s <| state := CONNECT_TO_UPSTREAM |>)
      else Ok (true, s).

(** The hello goes to [rsp] and is the first thing written downstream. *)
Definition proxy_session_start (started : Z) (p : proxier) : res session :=
  b ← put_struct (rsp p) (nbd_hello_to_buf (upstream_size p) (upstream_flags p));
  Ok {| px := p <| rsp := b <| ib_size := NBD_INIT_SIZE |> <| needle := 0 |> |>;
        state := WRITE_TO_DOWNSTREAM; old_state := EXIT; state_started := started;
        connect_to_upstream_cooldown := false |}.

Fixpoint proxy_loop (inputs : list pass_input) (s : session) : res session :=
  match inputs with
  | [] => Stop SBlock
  | i :: inputs' =>
      '(go, s') ← proxy_step i s;
      if (go : bool) then proxy_loop inputs' s' else Ok s'
  end.

Definition proxy_session (started : Z) (inputs : list pass_input) (p : proxier) : res proxier :=
  s ← proxy_session_start started p;
  s ← proxy_loop inputs s;
  Ok ((px s) <| req_count := 0 |> <| hello_sent := false |>).

(** ** Listening, accepting, cleaning up *)

(** What the calls that open the listening socket answer. *)
Record listen_input := { li_socket : Z; li_reuseaddr : Z; li_nodelay : Z; li_bind : list answer; li_listen : Z }.

Definition proxy_open_listen_socket (l : listen_input) (p : proxier) : res proxier :=
  let p := p <| listen_fd := li_socket l |> in
  if listen_fd p <? 0 then Stop SFatal
  else if li_reuseaddr l <? 0 then Stop SFatal
  else if negb (family (listen_on p) =? AF_UNIX) && (li_nodelay l <? 0) then Stop SFatal
  else
    '(bound, _) ← sock_try_bind (li_bind l);
    if negb (bound =? 0) then Stop SFatal
    else if li_listen l <? 0 then Stop SFatal
    else Ok p.

(** A round of accepting: the [select]s, [accept]'s descriptor and its socket, and
    what the session gets. *)
Record accept_pass := {
  ap_selects : list select_answer;
  ap_errno : Z;
  ap_client_fd : Z;
  ap_conn : conn;
  ap_started : Z;
  ap_inputs : list pass_input
}.

(** It always returns 1. *)
Definition proxy_accept (a : accept_pass) (p : proxier) : res proxier :=
  '(sel, _, _) ← sock_try_select (ap_selects a) (ap_errno a);
  if sel_ret sel <? 0 then Stop SFatal
  else if FD_ISSET (listen_fd p) (sel_rfds sel) then
    p ← proxy_session (ap_started a) (ap_inputs a) (p <| downstream_fd := ap_client_fd a |> <| down := ap_conn a |>);
    Ok (p <| downstream_fd := -1 |>)
  else Ok p.

(** The loop has no way out. *)
Fixpoint proxy_accept_loop (rounds : list accept_pass) (p : proxier) : res proxier :=
  match rounds with
  | [] => Stop SBlock
  | a :: rounds' => p ← proxy_accept a p; proxy_accept_loop rounds' p
  end.

Definition proxy_cleanup (p : proxier) : proxier :=
  p <| listen_fd := -1 |> <| downstream_fd := -1 |> <| upstream_fd := -1 |>.

(** [do_proxy]: the answers to the first connection, and the new socket. *)
Definition do_proxy (ck : connect_answers) (k : conn) (l : listen_input) (rounds : list accept_pass) (p : proxier)
    : res (Z * proxier) :=
  fd ← socket_connect (bind p) ck;
  '(connected, p) ← proxy_connect_to_upstream fd k p;
  if negb connected then Ok (1, proxy_cleanup p)
  else
    p ← proxy_open_listen_socket l p;
    p ← proxy_accept_loop rounds p;
    Ok (0, proxy_cleanup p).

(** * Lemmas *)

(** ** Reads and writes of a buffer *)

(** The size [iobuf_read] works with. *)
Definition read_size (b : iobuf) (default_size : Z) : Z :=
  if needle b =? 0 then default_size else ib_size b.

(** A descriptor that is readable for good: data, its end, or a permanent error. *)
Definition solid (rx : list rd_event) : Prop :=
  match rx with
  | RdBytes bs :: _ => bs <> []
  | RdEof :: _ => True
  | RdErr e :: _ => io_errno_permanent e = true
  | [] => False
  end.

(** What a non-blocking read gives. *)
Lemma read_nonblock_spec rx e n :
  0 < n ->
  let '(count, bs, rx', e') := read_nonblock rx e n in
  (count = -1 /\ bs = [] \/ 0 <= count <= n /\ zlen bs = count) /\
  (solid rx -> count = -1 /\ io_errno_permanent e' = true \/ count = 0 \/ 0 < count) /\
  (count = 0 -> bs = []) /\
  (Forall data_event rx -> rx <> [] -> 0 < count) /\
  (Forall data_event rx -> Forall data_event rx' /\ incoming rx = bs ++ incoming rx').
Proof.
  intros Hn. destruct rx as [| [bs | | er] rx]; cbn [read_nonblock deliver].
  - replace (n =? 0) with false by lia. split_and!; try done. by left.
  - destruct (zlen bs <=? n) eqn:E; pose proof (zlen_nonneg bs) as Hb.
    + split_and!; [right; lia | lia | by apply zlen_nil_inv | |].
      * intros H _. apply Forall_cons_1 in H as [H _]. unfold zlen. destruct bs; [done | simpl length; lia].
      * intros H. apply Forall_cons_1 in H as [H1 H2]. by rewrite incoming_data.
    + assert (zlen (take (Z.to_nat n) bs) = n) by (apply zlen_take; lia).
      split_and!; [right; lia | lia | lia | lia |].
      intros H1. apply Forall_cons_1 in H1 as [H1 H2].
      assert (drop (Z.to_nat n) bs <> []).
      { intros Hd. apply (f_equal zlen) in Hd. rewrite zlen_drop in Hd by lia. change (zlen []) with 0 in Hd. lia. }
      split; [by constructor |]. cbn [app]. rewrite !incoming_data by done. by rewrite app_assoc, take_drop.
  - split_and!; [right; change (zlen []) with 0; lia | lia | done | |];
      intros H; by apply Forall_cons_1 in H as [H _].
  - split_and!; [by left | intros H; left; done | done | |]; intros H; by apply Forall_cons_1 in H as [H _].
Qed.

Record read_done (k k' : conn) (b b' : iobuf) (size count : Z) (bs : list Z) : Prop := {
  rd_size : ib_size b' = size;
  rd_store : mem_store (buf b) (needle b) bs = Ok (buf b');
  rd_count : count = -1 /\ bs = [] \/ 0 <= count <= size - needle b /\ zlen bs = count;
  rd_needle : needle b' = needle b + Z.max 0 count;
  rd_solid : solid (sk_rx k) -> count = -1 \/ 0 < count;
  rd_data : Forall data_event (sk_rx k) ->
    (sk_rx k <> [] -> 0 < count) /\ Forall data_event (sk_rx k') /\
    incoming (sk_rx k) = bs ++ incoming (sk_rx k');
  rd_tx : sk_tx k' = sk_tx k
}.

Lemma conn_iobuf_read_spec k b def :
  let size := read_size b def in
  0 <= needle b < size -> size <= zlen (buf b) -> zlen (buf b) < 2 ^ 63 ->
  exists count b' k' bs, conn_iobuf_read k b def = Ok (count, b', k') /\ read_done k k' b b' size count bs.
Proof.
  cbn zeta. intros Hn Hs Hb. unfold conn_iobuf_read, iobuf_read. fold (read_size b def).
  rewrite (u64_id (read_size b def - needle b)) by lia.
  pose proof (read_nonblock_spec (sk_rx k) (sk_errno k) (read_size b def - needle b) ltac:(lia)) as H.
  destruct (read_nonblock (sk_rx k) (sk_errno k) (read_size b def - needle b)) as [[[count bs] rx'] e'].
  destruct H as (H1 & H2 & H3 & H4 & H5).
  assert (Hz : zlen bs <= read_size b def - needle b).
  { destruct H1 as [[_ ->] | ?]; [change (zlen []) with 0; lia | lia]. }
  rewrite mem_store_ok by lia. cbn [mbind res_bind].
  assert (Hst : forall l, zlen l <= read_size b def - needle b -> mem_store (buf b) (needle b) l =
    Ok (take (Z.to_nat (needle b)) (buf b) ++ l ++ drop (Z.to_nat (needle b) + length l) (buf b))).
  { intros l Hl. apply mem_store_ok; lia. }
  assert (Hda : Forall data_event (sk_rx k) ->
    (sk_rx k <> [] -> 0 < count) /\ Forall data_event rx' /\ incoming (sk_rx k) = bs ++ incoming rx').
  { intros Hd. destruct (H5 Hd). split_and!; auto. }
  destruct (0 <? count) eqn:E.
  { eexists _, _, _, bs. split; [reflexivity |]. constructor; cbn;
      [done | by apply Hst | right; lia | rewrite u64_id by lia; lia | intros _; right; lia | done | done]. }
  assert (Hnil : bs = []).
  { destruct (decide (count = 0)) as [-> | Hne]; [by apply H3 |]. destruct H1 as [[_ ->] | ?]; [done | lia]. }
  subst bs.
  destruct (count =? 0) eqn:E0.
  { eexists _, _, _, []. split; [reflexivity |]. constructor; cbn;
      [done | by apply Hst | by left | lia | by left | | done].
    intros Hd. destruct (Hda Hd) as (D1 & D2 & D3). split_and!; try done. intros Hr. specialize (D1 Hr). lia. }
  destruct H1 as [[-> _] | ?]; [| lia].
  destruct (io_errno_permanent e') eqn:Ep; eexists _, _, _, []; (split; [reflexivity |]); constructor; cbn.
  1-7: solve [done | by apply Hst | by left | lia
    | intros Hd; destruct (Hda Hd) as (D1 & D2 & D3); split_and!; try done; intros Hr; specialize (D1 Hr); lia].
  - done.
  - by apply Hst.
  - right. change (zlen []) with 0. lia.
  - lia.
  - intros Hso. destruct (H2 Hso) as [[_ ?] | [? | ?]]; [congruence | lia | lia].
  - intros Hd. destruct (Hda Hd) as (D1 & D2 & D3). split_and!; try done. intros Hr. specialize (D1 Hr). lia.
  - done.
Qed.

Record write_done (k k' : conn) (b b' : iobuf) (count : Z) : Prop := {
  wd_buf : buf b' = buf b;
  wd_size : ib_size b' = ib_size b;
  wd_count : count = -1 \/ 0 <= count <= ib_size b - needle b;
  wd_needle : needle b' = needle b + Z.max 0 count;
  wd_tx : sk_tx k' = sk_tx k ++ take (Z.to_nat (Z.max 0 count)) (drop (Z.to_nat (needle b)) (buf b));
  wd_rx : sk_rx k' = sk_rx k
}.

Lemma conn_iobuf_write_spec k b :
  0 <= needle b <= ib_size b -> ib_size b <= zlen (buf b) -> zlen (buf b) < 2 ^ 63 ->
  exists count b' k', conn_iobuf_write k b = Ok (count, b', k') /\ write_done k k' b b' count.
Proof.
  intros Hn Hs Hb. unfold conn_iobuf_write, iobuf_write. rewrite (u64_id (ib_size b - needle b)) by lia.
  unfold mem_load. rewrite (proj2 (in_range_true _ _ _)) by (right; lia). cbn [mbind res_bind].
  set (data := take _ _). assert (Hd : zlen data = ib_size b - needle b).
  { subst data. rewrite zlen_take; [lia |]. rewrite zlen_drop by lia. lia. }
  assert (Htake : forall n, 0 <= n <= ib_size b - needle b ->
    take (Z.to_nat n) data = take (Z.to_nat n) (drop (Z.to_nat (needle b)) (buf b))).
  { intros n H. subst data. rewrite take_take. f_equal. lia. }
  destruct (sk_wq k) as [| [n | er] wq]; cbn [write_nonblock].
  - replace (0 <=? zlen data) with true by lia. eexists _, _, _. split; [reflexivity |].
    constructor; cbn; try done; [lia | rewrite u64_id by lia; lia |].
    rewrite Z.max_r by lia. rewrite <- Htake by lia. rewrite Hd. f_equal. symmetry. apply take_ge.
    unfold zlen in Hd. lia.
  - set (c := Z.min (Z.max 0 n) (zlen data)). replace (0 <=? c) with true by lia.
    eexists _, _, _. split; [reflexivity |].
    constructor; cbn; try done; [lia | rewrite u64_id by lia; lia |].
    rewrite (Z.max_r 0 c) by lia. by rewrite <- Htake by lia.
  - cbn [Z.leb Z.compare]. destruct (io_errno_permanent er); eexists _, _, _; (split; [reflexivity |]);
      constructor; cbn; try done; try lia; rewrite ?app_nil_r; done.
Qed.

(** ** The buffers stay inside their allocations *)

Record px_wf (p : proxier) : Prop := {
  pw_req : zlen (buf (req p)) = NBD_MAX_SIZE + NBD_REQUEST_SIZE;
  pw_rsp : zlen (buf (rsp p)) = NBD_MAX_SIZE + NBD_REPLY_SIZE;
  pw_init : zlen (buf (init p)) = NBD_INIT_SIZE
}.

(** A message being read: nothing yet, part of its header, or part of its data. *)
Definition reading (b : iobuf) (hdr : Z) (max : Z) : Prop :=
  needle b = 0 \/ (0 < needle b < hdr /\ ib_size b = hdr) \/ (hdr <= needle b < ib_size b /\ ib_size b <= max).

(** A complete request is in [req], to be sent or sent again. *)
Definition req_ready (p : proxier) : Prop :=
  0 <= needle (req p) <= ib_size (req p) /\ ib_size (req p) <= NBD_MAX_SIZE + NBD_REQUEST_SIZE /\
  0 <= q_len (req_hdr p) /\ (q_type (req_hdr p) = REQUEST_READ -> q_len (req_hdr p) <= NBD_MAX_SIZE).

Definition state_ok (st : proxy_session_states) (p : proxier) : Prop :=
  match st with
  | EXIT => True
  | READ_FROM_DOWNSTREAM =>
      reading (req p) NBD_REQUEST_SIZE (NBD_MAX_SIZE + NBD_REQUEST_SIZE) /\ needle (rsp p) = 0 /\
      (NBD_REQUEST_SIZE <= needle (req p) -> q_type (req_hdr p) = REQUEST_WRITE /\ 0 <= q_len (req_hdr p))
  | WRITE_TO_DOWNSTREAM =>
      0 <= needle (rsp p) <= ib_size (rsp p) /\ ib_size (rsp p) <= NBD_MAX_SIZE + NBD_REPLY_SIZE
  | CONNECT_TO_UPSTREAM => req_ready p
  | READ_INIT_FROM_UPSTREAM =>
      req_ready p /\ needle (rsp p) = 0 /\ reading (init p) NBD_INIT_SIZE NBD_INIT_SIZE
  | WRITE_TO_UPSTREAM => req_ready p /\ needle (rsp p) = 0
  | READ_FROM_UPSTREAM =>
      req_ready p /\ reading (rsp p) NBD_REPLY_SIZE (NBD_MAX_SIZE + NBD_REPLY_SIZE)
  end.

(** A handler's result keeps the buffers' sizes and fits the next state. *)
Definition handler_ok (r : res (proxy_session_states * proxier)) : Prop :=
  exists st p, r = Ok (st, p) /\ px_wf p /\ state_ok st p.

Lemma reading_bounds b hdr max :
  reading b hdr max -> 0 < hdr <= max -> 0 <= needle b < read_size b hdr /\ read_size b hdr <= max.
Proof.
  unfold reading, read_size. intros H Hh. destruct (Z.eqb_spec (needle b) 0); lia.
Qed.

Lemma read_done_zlen k k' b b' size count bs :
  read_done k k' b b' size count bs -> zlen (buf b') = zlen (buf b).
Proof. intros []. by apply (mem_store_zlen _ _ _ _ rd_store0). Qed.

(** Decoded lengths are 32-bit. *)
Lemma r2h_request_len r : 0 <= q_len (nbd_r2h_request r) < 2 ^ 32.
Proof. exact (bswap_bits 4 (qr_len r)). Qed.

Lemma bytes_sizes :
  NBD_REQUEST_SIZE = 28 /\ NBD_REPLY_SIZE = 16 /\ NBD_INIT_SIZE = 152 /\ NBD_MAX_SIZE = 33554432.
Proof. done. Qed.

Ltac sizes := destruct bytes_sizes as (HszQ & HszP & HszI & HszM).

Lemma read_from_downstream_ok p :
  px_wf p -> state_ok READ_FROM_DOWNSTREAM p -> solid (sk_rx (down p)) ->
  handler_ok (proxy_read_from_downstream p READ_FROM_DOWNSTREAM).
Proof.
  intros [] (Hr & Hn & Hw) Hso. sizes. unfold proxy_read_from_downstream, handler_ok.
  destruct (reading_bounds _ _ _ Hr ltac:(lia)) as [B1 B2].
  destruct (conn_iobuf_read_spec (down p) (req p) NBD_REQUEST_SIZE) as (count & b & k & bs & E & R);
    [done | lia | lia |].
  pose proof (read_done_zlen _ _ _ _ _ _ _ R) as Hz. destruct R.
  rewrite E. cbn [mbind res_bind].
  assert (Hwf : forall q b', zlen (buf b') = zlen (buf (req p)) ->
    px_wf (p <| req := b' |> <| down := k |> <| req_hdr := q |>)).
  { intros q b' Hb. constructor; cbn; lia. }
  destruct (count =? -1) eqn:Ec.
  { eexists _, _. split; [reflexivity |]. split; [by apply (Hwf (req_hdr p)) | done]. }
  destruct (rd_solid0 Hso) as [? | Hpos]; [lia |]. destruct rd_count0 as [[? _] | [Hc _]]; [lia |].
  rewrite Z.max_r in rd_needle0 by lia.
  unfold read_size in *.
  destruct (needle b =? NBD_REQUEST_SIZE) eqn:Eh; cbn [andb].
  - (* the header has just been completed *)
    assert (Hsize : ib_size b = NBD_REQUEST_SIZE).
    { rewrite rd_size0. unfold reading in Hr. destruct (Z.eqb_spec (needle (req p)) 0); lia. }
    set (q := nbd_r2h_request (struct_at b)). pose proof (r2h_request_len (struct_at b)) as Hq. fold q in Hq.
    clearbody q.
    destruct (q_type q =? REQUEST_DISCONNECT).
    { eexists _, _. split; [reflexivity |]. split; [by apply (Hwf q) | done]. }
    destruct ((q_type q =? REQUEST_READ) && (NBD_MAX_SIZE <? q_len q)) eqn:Erd.
    { eexists _, _. split; [reflexivity |]. split; [by apply (Hwf q) | done]. }
    destruct (q_type q =? REQUEST_WRITE) eqn:Ewr; cbn [andb].
    + destruct (NBD_MAX_SIZE <? q_len q) eqn:Eb.
      { eexists _, _. split; [reflexivity |]. split; [by apply (Hwf q) | done]. }
      cbn [needle ib_size set_field]. rewrite Hsize, u64_id by lia.
      destruct (needle b =? NBD_REQUEST_SIZE + q_len q) eqn:Ed; eexists _, _; (split; [reflexivity |]).
      * split; [constructor; cbn; lia |]. split; [| done]. unfold req_ready. cbn. split_and!; try lia.
      * split; [constructor; cbn; lia |]. cbn. split_and!; [| done | lia].
        right. right. cbn. lia.
    + cbn [needle ib_size]. rewrite Hsize, Eh. eexists _, _. split; [reflexivity |].
      split; [constructor; cbn; lia |]. split; [| done]. unfold req_ready. cbn. split_and!; lia.
  - (* inside the header, or inside the data *)
    destruct (needle b =? ib_size b) eqn:Ed; eexists _, _; (split; [reflexivity |]);
      (split; [constructor; cbn; lia |]); cbn.
    + unfold reading in Hr. destruct (Z.eqb_spec (needle (req p)) 0); [lia |].
      destruct Hr as [? | [? | Hr]]; [lia | lia |]. destruct (Hw ltac:(lia)) as [Hw1 Hw2].
      split; [| done]. unfold req_ready. cbn. split_and!; try lia. rewrite Hw1. done.
    + split_and!; [| done |].
      * unfold reading in *. cbn. destruct (Z.eqb_spec (needle (req p)) 0); [right; left; lia |].
        destruct Hr as [? | [? | Hr]]; [lia | right; left; lia | right; right; lia].
      * intros Hge. apply Hw. unfold reading in Hr. destruct (Z.eqb_spec (needle (req p)) 0); lia.
Qed.

Lemma read_from_upstream_ok p :
  px_wf p -> state_ok READ_FROM_UPSTREAM p -> solid (sk_rx (up p)) ->
  handler_ok (proxy_read_from_upstream p READ_FROM_UPSTREAM).
Proof.
  intros [] (Hq & Hr) Hso. sizes. unfold proxy_read_from_upstream, handler_ok.
  destruct (reading_bounds _ _ _ Hr ltac:(lia)) as [B1 B2].
  destruct (conn_iobuf_read_spec (up p) (rsp p) NBD_REPLY_SIZE) as (count & b & k & bs & E & R);
    [done | lia | lia |].
  pose proof (read_done_zlen _ _ _ _ _ _ _ R) as Hz. destruct R.
  rewrite E. cbn [mbind res_bind].
  destruct (count =? -1) eqn:Ec.
  { eexists _, _. split; [reflexivity |]. split; [constructor; cbn; lia | exact Hq]. }
  destruct (rd_solid0 Hso) as [? | Hpos]; [lia |]. destruct rd_count0 as [[? _] | [Hc _]]; [lia |].
  rewrite Z.max_r in rd_needle0 by lia. unfold read_size in *. destruct Hq as (Hq1 & Hq2 & Hq3 & Hq4).
  set (r := if needle b =? NBD_REPLY_SIZE then _ else _). clearbody r.
  destruct (needle b =? NBD_REPLY_SIZE) eqn:Eh; cbn [andb].
  - assert (Hsize : ib_size b = NBD_REPLY_SIZE).
    { rewrite rd_size0. unfold reading in Hr. destruct (Z.eqb_spec (needle (rsp p)) 0); lia. }
    destruct (negb (p_magic r =? REPLY_MAGIC)).
    { eexists _, _. split; [reflexivity |]. split; [constructor; cbn; lia | done]. }
    cbn [req_hdr set_field]. destruct (q_type (req_hdr p) =? REQUEST_READ) eqn:Et.
    + apply Z.eqb_eq in Et. specialize (Hq4 Et). cbn [needle ib_size set_field].
      rewrite Hsize, u64_id by lia.
      destruct (NBD_REPLY_SIZE + q_len (req_hdr p) =? needle b) eqn:Ed; eexists _, _; (split; [reflexivity |]);
        (split; [constructor; cbn; lia |]); cbn; [lia |].
      split; [done |]. right. right. cbn. lia.
    + replace (ib_size b =? needle b) with true by lia. eexists _, _. split; [reflexivity |].
      split; [constructor; cbn; lia |]. cbn. lia.
  - destruct (ib_size b =? needle b) eqn:Ed; eexists _, _; (split; [reflexivity |]);
      (split; [constructor; cbn; lia |]); cbn.
    + unfold reading in Hr. destruct (Z.eqb_spec (needle (rsp p)) 0); lia.
    + split; [done |]. unfold reading in *. cbn.
      destruct (Z.eqb_spec (needle (rsp p)) 0); [right; left; lia |].
      destruct Hr as [? | [? | Hr]]; [lia | right; left; lia | right; right; lia].
Qed.

Lemma write_to_upstream_ok p :
  px_wf p -> state_ok WRITE_TO_UPSTREAM p ->
  handler_ok (proxy_write_to_upstream p WRITE_TO_UPSTREAM).
Proof.
  intros [] ((Hq1 & Hq2 & Hq3 & Hq4) & Hr). sizes. unfold proxy_write_to_upstream, handler_ok.
  cbn [up req set_field].
  destruct (conn_iobuf_write_spec (up p) (req p)) as (count & b & k & E & W); [lia | lia | lia |].
  rewrite E. cbn [mbind res_bind]. destruct W.
  assert (Hb : zlen (buf b) = zlen (buf (req p))) by by rewrite wd_buf0.
  destruct (count =? -1) eqn:Ec.
  { eexists _, _. split; [reflexivity |]. split; [constructor; cbn; lia |]. unfold state_ok, req_ready. cbn.
    split_and!; lia || done. }
  destruct (needle b =? ib_size b) eqn:Ed; eexists _, _; (split; [reflexivity |]);
    (split; [constructor; cbn; lia |]); unfold state_ok, req_ready; cbn; split_and!; try (lia || done).
  by left.
Qed.

Lemma write_to_downstream_ok p :
  px_wf p -> state_ok WRITE_TO_DOWNSTREAM p ->
  handler_ok (proxy_write_to_downstream p WRITE_TO_DOWNSTREAM).
Proof.
  intros [] (Hr1 & Hr2). sizes. unfold proxy_write_to_downstream, handler_ok.
  destruct (conn_iobuf_write_spec (down p) (rsp p)) as (count & b & k & E & W); [lia | lia | lia |].
  rewrite E. cbn [mbind res_bind]. destruct W.
  assert (Hb : zlen (buf b) = zlen (buf (rsp p))) by by rewrite wd_buf0.
  destruct (count =? -1) eqn:Ec.
  { eexists _, _. split; [reflexivity |]. split; [constructor; cbn; lia | done]. }
  destruct (needle b =? ib_size b) eqn:Ed.
  - eexists _, _. split; [reflexivity |].
    destruct (negb (hello_sent _)); (split; [constructor; cbn; lia |]); cbn; split_and!; try done; by left.
  - eexists _, _. split; [reflexivity |]. split; [constructor; cbn; lia |]. cbn. lia.
Qed.

Lemma read_init_ok p :
  px_wf p -> state_ok READ_INIT_FROM_UPSTREAM p ->
  handler_ok (proxy_read_init_from_upstream p READ_INIT_FROM_UPSTREAM).
Proof.
  intros [] (Hq & Hn & Hr). sizes. unfold proxy_read_init_from_upstream, handler_ok.
  destruct (reading_bounds _ _ _ Hr ltac:(lia)) as [B1 B2].
  destruct (conn_iobuf_read_spec (up p) (init p) NBD_INIT_SIZE) as (count & b & k & bs & E & R);
    [done | lia | lia |].
  pose proof (read_done_zlen _ _ _ _ _ _ _ R) as Hz. destruct R. rewrite E. cbn [mbind res_bind].
  destruct (count =? -1) eqn:Ec.
  { eexists _, _. split; [reflexivity |]. split; [constructor; cbn; lia | exact Hq]. }
  destruct (needle b =? ib_size b) eqn:Ed.
  - destruct (nbd_check_hello (struct_at b)) as [[size flags] |]; eexists _, _; (split; [reflexivity |]);
      (split; [constructor; cbn; lia |]); [by split | done].
  - eexists _, _. split; [reflexivity |]. split; [constructor; cbn; lia |]. split; [exact Hq |].
    split; [done |]. unfold reading, read_size in *. cbn. destruct rd_count0 as [[-> _] | [Hc _]]; [lia |].
    destruct (Z.eqb_spec (needle (init p)) 0); lia.
Qed.

(** What [select] reports about the socket a state reads from is true. *)
Definition honest (i : pass_input) (s : session) : Prop :=
  match state s with
  | READ_FROM_DOWNSTREAM =>
      FD_ISSET (downstream_fd (px s)) (sel_rfds (in_select i)) = true -> solid (sk_rx (down (px s)))
  | READ_FROM_UPSTREAM =>
      FD_ISSET (upstream_fd (px s)) (sel_rfds (in_select i)) = true -> solid (sk_rx (up (px s)))
  | _ => True
  end.

Record sess_ok (s : session) : Prop := {
  so_wf : px_wf (px s);
  so_state : state_ok (state s) (px s);
  so_nocache : cache (px s) = None
}.

(** The handlers of the states leave the cache alone. *)
Ltac handler_frame :=
  intros H; cbn zeta in H;
  repeat match type of H with
  | _ ≫= _ = Ok _ => apply bind_Ok in H as ([[? ?] ?] & _ & H)
  | (if ?b then _ else _) = Ok _ => destruct b
  | match ?o with Some _ => _ | None => _ end = Ok _ => destruct o as [[? ?] |]
  end; injection H as <- <-; try done.

Lemma read_from_downstream_cache p st st' p' :
  proxy_read_from_downstream p st = Ok (st', p') -> cache p' = cache p.
Proof. unfold proxy_read_from_downstream. handler_frame. Qed.

Lemma read_from_upstream_cache p st st' p' :
  proxy_read_from_upstream p st = Ok (st', p') -> cache p' = cache p.
Proof. unfold proxy_read_from_upstream. handler_frame. Qed.

Lemma write_to_upstream_cache p st st' p' :
  proxy_write_to_upstream p st = Ok (st', p') -> cache p' = cache p.
Proof. unfold proxy_write_to_upstream. handler_frame. Qed.

Lemma write_to_downstream_cache p st st' p' :
  proxy_write_to_downstream p st = Ok (st', p') -> cache p' = cache p.
Proof. unfold proxy_write_to_downstream. handler_frame. by destruct (negb _). Qed.

Lemma read_init_cache p st st' p' :
  proxy_read_init_from_upstream p st = Ok (st', p') -> cache p' = cache p.
Proof. unfold proxy_read_init_from_upstream. handler_frame. Qed.

Lemma prepare_ok i s :
  sess_ok s -> state s <> EXIT ->
  sess_ok (proxy_prepare i s).1 /\ state (proxy_prepare i s).1 = state s /\
  (state s <> CONNECT_TO_UPSTREAM -> (proxy_prepare i s).1 = s).
Proof.
  intros [Hw Hs Hc] _. unfold proxy_prepare.
  assert (Hd : forall p, px_wf p -> state_ok CONNECT_TO_UPSTREAM p -> cache p = None ->
    px_wf (proxy_disconnect_from_upstream p) /\ state_ok CONNECT_TO_UPSTREAM (proxy_disconnect_from_upstream p) /\
    cache (proxy_disconnect_from_upstream p) = None).
  { intros p [] Ho Hn. unfold proxy_disconnect_from_upstream. destruct (negb _); done. }
  assert (Hst : forall p, px_wf p -> state_ok CONNECT_TO_UPSTREAM p -> cache p = None ->
    px_wf (proxy_start_connect_to_upstream i p) /\ state_ok CONNECT_TO_UPSTREAM (proxy_start_connect_to_upstream i p) /\
    cache (proxy_start_connect_to_upstream i p) = None).
  { intros p [] Ho Hn. unfold proxy_start_connect_to_upstream. bool_cases; done. }
  destruct (state s) eqn:Est; cbn [fst]; try (split_and!; [by constructor; rewrite ?Est | done | done]).
  destruct (Hd (px s) Hw Hs Hc) as (D1 & D2 & D3).
  destruct (connect_to_upstream_cooldown s); cbn [fst].
  - split_and!; [constructor; cbn; rewrite ?Est; done | done | done].
  - destruct (Hst _ D1 D2 D3) as (S1 & S2 & S3).
    split_and!; [constructor; cbn; rewrite ?Est; done | done | done].
Qed.

Lemma dispatch_ok i s :
  sess_ok s -> honest i s -> exists s', proxy_dispatch i s = Ok s' /\ sess_ok s' .
Proof.
  intros [Hw Hs Hc] Hh. unfold proxy_dispatch, honest in *.
  assert (Hpf : forall p st, cache p = None -> proxy_prefetches p && st = false).
  { intros p st Hn. unfold proxy_prefetches. rewrite Hn. done. }
  assert (Hcool : forall s', sess_ok s' -> sess_ok (if decide (state s' = CONNECT_TO_UPSTREAM)
    then s' <| connect_to_upstream_cooldown := true |> else s')).
  { intros s' []. destruct (decide _); by constructor. }
  destruct (state s) eqn:Est.
  - eexists. split; [reflexivity |]. constructor; by rewrite ?Est.
  - destruct (FD_ISSET _ _); [| eexists; split; [reflexivity |]; constructor; by rewrite ?Est].
    destruct (write_to_downstream_ok (px s) Hw Hs) as (st & p & E & H1 & H2). rewrite E. eexists.
    split; [reflexivity |]. constructor; cbn; try done. by rewrite (write_to_downstream_cache _ _ _ _ E).
  - destruct (FD_ISSET _ _); [| eexists; split; [reflexivity |]; constructor; by rewrite ?Est].
    destruct (read_from_downstream_ok (px s) Hw Hs (Hh eq_refl)) as (st & p & E & H1 & H2). rewrite E.
    assert (Hn : cache p = None) by by rewrite (read_from_downstream_cache _ _ _ _ E).
    cbn [mbind res_bind]. rewrite (Hpf p _ Hn). eexists. split; [reflexivity |]. by constructor.
  - destruct (FD_ISSET _ _).
    + unfold proxy_continue_connecting_to_upstream. destruct (_ =? -1); [| destruct (negb _)]; eexists;
        (split; [reflexivity |]); apply Hcool; constructor; cbn; try done; try (by destruct Hw).
      * destruct Hs as (? & ? & ?). split_and!; try done; [unfold req_ready; cbn; split_and!; lia || naive_solver |].
        by left.
      * by rewrite Hc.
    + eexists. split; [reflexivity |]. apply Hcool. by constructor.
  - destruct (read_init_ok (px s) Hw Hs) as (st & p & E & H1 & H2). rewrite E. eexists.
    split; [reflexivity |]. apply Hcool. constructor; cbn; try done. by rewrite (read_init_cache _ _ _ _ E).
  - destruct (FD_ISSET _ _); [| eexists; split; [reflexivity |]; constructor; by rewrite ?Est].
    destruct (write_to_upstream_ok (px s) Hw Hs) as (st & p & E & H1 & H2). rewrite E. eexists.
    split; [reflexivity |]. constructor; cbn; try done. by rewrite (write_to_upstream_cache _ _ _ _ E).
  - destruct (FD_ISSET _ _).
    + destruct (read_from_upstream_ok (px s) Hw Hs (Hh eq_refl)) as (st & p & E & H1 & H2). rewrite E.
      assert (Hn : cache p = None) by by rewrite (read_from_upstream_cache _ _ _ _ E).
      cbn [mbind res_bind]. rewrite (Hpf p _ Hn). eexists. split; [reflexivity |]. by constructor.
    + cbn [mbind res_bind]. rewrite (Hpf (px s) _ Hc). eexists. split; [reflexivity |]. by constructor.
Qed.

Lemma upstream_req_ready st p : proxy_state_upstream st = true -> state_ok st p -> req_ready p.
Proof. destruct st; try done; cbn; intros _ H; try done; by destruct H. Qed.

Lemma step_ok i s :
  sess_ok s -> honest i s -> exists go s', proxy_step i s = Ok (go, s') /\ sess_ok s'.
Proof.
  intros Hok Hh. unfold proxy_step. destruct (decide (state s = EXIT)) as [He | He]; [eauto |].
  set (s1 := if decide _ then _ else _).
  assert (H1 : px s1 = px s /\ state s1 = state s) by (subst s1; by destruct (decide _)).
  destruct H1 as [Hp1 Hs1]. set (s2 := s1 <| old_state := state s1 |>).
  assert (Hok2 : sess_ok s2) by (destruct Hok; constructor; cbn; by rewrite ?Hp1, ?Hs1).
  destruct (prepare_ok (in_connect i) s2 Hok2) as (P1 & P2 & P3); [by rewrite <- Hs1 in He |].
  destruct (proxy_prepare (in_connect i) s2) as [s3 ok]. cbn [fst] in *.
  destruct ok; cbn [negb]; [| eauto]. destruct (sel_ret (in_select i) =? -1); [eauto |].
  destruct (upstream_fd (px s3) =? -1); [eauto |].
  assert (Hh3 : honest i s3).
  { unfold honest in *. rewrite P2. cbn [state s2]. cbn in Hs1. change (state s2) with (state s1). rewrite Hs1.
    destruct (state s) eqn:Est; try done; rewrite P3 by (cbn; by rewrite Hs1);
      change (px s2) with (px s1); by rewrite Hp1. }
  destruct (dispatch_ok i s3 P1 Hh3) as (s4 & E4 & Hok4). rewrite E4. cbn [mbind res_bind].
  destruct (_ && _ && _) eqn:Et; [| eauto]. eexists _, _. split; [reflexivity |].
  apply andb_true_iff in Et as [Et _]. apply andb_true_iff in Et as [_ Et].
  destruct Hok4. constructor; cbn; [done | | done]. by apply (upstream_req_ready (state s4)).
Qed.

(** The sessions that passes with honest answers lead to. *)
Inductive reachable (p0 : proxier) : session -> Prop :=
| reach_start started s : proxy_session_start started p0 = Ok s -> reachable p0 s
| reach_pass s i s' :
    reachable p0 s -> honest i s -> proxy_step i s = Ok (true, s') -> reachable p0 s'.

Lemma session_start_ok started p :
  px_wf p -> cache p = None -> exists s, proxy_session_start started p = Ok s /\ sess_ok s.
Proof.
  intros [] Hc. sizes. unfold proxy_session_start, put_struct.
  assert (Hw : zlen (to_wire (nbd_hello_to_buf (upstream_size p) (upstream_flags p))) = 152).
  { unfold zlen. rewrite (to_wire_length (nbd_hello_to_buf _ _)) by exact (hello_raw_wf _ _). done. }
  rewrite mem_store_ok by lia. cbn [mbind res_bind]. eexists. split; [reflexivity |].
  assert (Hz : forall m, mem_store (buf (rsp p)) 0 (to_wire (nbd_hello_to_buf (upstream_size p) (upstream_flags p))) = Ok m ->
    zlen m = zlen (buf (rsp p))) by (intros m H; by apply (mem_store_zlen _ _ _ _ H)).
  rewrite mem_store_ok in Hz by lia. specialize (Hz _ eq_refl).
  constructor; [constructor; cbn [px req rsp init set_field buf]; lia | | done]. cbn. lia.
Qed.

Lemma session_start_honest i started p s : proxy_session_start started p = Ok s -> honest i s.
Proof.
  intros E. unfold proxy_session_start in E. apply bind_Ok in E as (b & _ & E). by injection E as <-.
Qed.

Lemma reachable_ok p0 s : px_wf p0 -> cache p0 = None -> reachable p0 s -> sess_ok s.
Proof.
  intros Hw Hc. induction 1 as [started s E | s i s' _ IH Hh E].
  - destruct (session_start_ok started p0 Hw Hc) as (s1 & E1 & H1). congruence.
  - destruct (step_ok i s IH Hh) as (go & s1 & E1 & H1). congruence.
Qed.

(** ** Relaying *)

Lemma take_prefix {A} (a b c d : list A) n :
  a ++ b = c ++ d -> (n <= length a)%nat -> (n <= length c)%nat -> take n a = take n c.
Proof.
  intros H Ha Hc. apply (f_equal (take n)) in H. by rewrite !take_app_le in H.
Qed.

Section RelayRequest.
Context (q : nbd_request) (payload rest : list Z).
Let msg := request_to_wire (nbd_h2r_request q) ++ payload.
Context (Hwf : request_wf q) (Hnd : q_type q <> REQUEST_DISCONNECT).
Context (Hmax : q_type q = REQUEST_READ \/ q_type q = REQUEST_WRITE -> q_len q <= NBD_MAX_SIZE).
Context (Hpl : zlen payload = if q_type q =? REQUEST_WRITE then q_len q else 0).

Lemma zlen_msg : zlen msg = NBD_REQUEST_SIZE + zlen payload.
Proof. unfold msg. rewrite zlen_app. by f_equal. Qed.

(** The first [needle] bytes of the message are in the buffer. *)
Record receiving (p : proxier) : Prop := {
  rv_wf : px_wf p;
  rv_data : Forall data_event (sk_rx (down p));
  rv_where : needle (req p) = 0 \/ (0 < needle (req p) < NBD_REQUEST_SIZE /\ ib_size (req p) = NBD_REQUEST_SIZE) \/
             (NBD_REQUEST_SIZE <= needle (req p) < zlen msg /\ ib_size (req p) = zlen msg /\ req_hdr p = q);
  rv_bytes : take (Z.to_nat (needle (req p))) (buf (req p)) ++ incoming (sk_rx (down p)) = msg ++ rest
}.

(** It is there. *)
Record received (p p' : proxier) : Prop := {
  rc_wf : px_wf p';
  rc_data : Forall data_event (sk_rx (down p'));
  rc_needle : needle (req p') = 0;
  rc_size : ib_size (req p') = zlen msg;
  rc_bytes : take (Z.to_nat (zlen msg)) (buf (req p')) = msg;
  rc_hdr : req_hdr p' = q;
  rc_rest : incoming (sk_rx (down p')) = rest;
  rc_up : up p' = up p
}.

(** The header decodes to the request once its bytes are in the buffer. *)
Lemma header_decodes b :
  needle b = NBD_REQUEST_SIZE -> NBD_REQUEST_SIZE <= zlen (buf b) ->
  (exists inc, take (Z.to_nat (needle b)) (buf b) ++ inc = msg ++ rest) ->
  nbd_r2h_request (struct_at b) = q.
Proof using Hwf.
  intros Hn Hz [inc Hb]. sizes. rewrite Hn in Hb. unfold struct_at.
  assert (Ht : take 28 (buf b) = to_wire (nbd_h2r_request q)).
  { change 28%nat with (Z.to_nat NBD_REQUEST_SIZE). unfold msg in Hb. rewrite <- app_assoc in Hb.
    apply app_inj_1 in Hb as [H1 _]; [done |]. rewrite length_take. destruct Hwf as (_ & _ & _ & H & _).
    unfold zlen in Hz. transitivity 28%nat; [lia |].
    symmetry. exact (to_wire_length (A := nbd_request_raw) _ (h2r_request_wf q H)). }
  change (@wire_size nbd_request_raw request_wire) with 28%nat. rewrite Ht.
  rewrite of_to_wire by (apply h2r_request_wf; apply Hwf). by apply r2h_h2r_request.
Qed.

(** A request within the limit is not refused for its size. *)
Lemma oversize_passes t :
  t = REQUEST_READ \/ t = REQUEST_WRITE -> (q_type q =? t) && (NBD_MAX_SIZE <? q_len q) = false.
Proof using Hmax.
  intros Ht. destruct (Z.eqb_spec (q_type q) t) as [<- | _]; [| done]. specialize (Hmax Ht). cbn [andb]. lia.
Qed.

Lemma receive_step p :
  receiving p ->
  exists st p', proxy_read_from_downstream p READ_FROM_DOWNSTREAM = Ok (st, p') /\ up p' = up p /\
    (st = WRITE_TO_UPSTREAM /\ received p p' \/
     st = READ_FROM_DOWNSTREAM /\ receiving p' /\ needle (req p) < needle (req p')).
Proof using Hwf Hnd Hmax Hpl.
  intros [[] Hd Hw Hb]. sizes. pose proof zlen_msg as Hm. pose proof (zlen_nonneg payload) as Hp0.
  pose proof Hwf as (_ & _ & _ & _ & _ & Hql).
  assert (Hpm : zlen payload <= NBD_MAX_SIZE).
  { rewrite Hpl. destruct (Z.eqb_spec (q_type q) REQUEST_WRITE) as [E | _]; [apply Hmax; by right | lia]. }
  set (size := read_size (req p) NBD_REQUEST_SIZE).
  assert (Hsz : 0 <= needle (req p) < size /\ size <= zlen msg).
  { unfold size, read_size. destruct (Z.eqb_spec (needle (req p)) 0); lia. }
  destruct (conn_iobuf_read_spec (down p) (req p) NBD_REQUEST_SIZE) as (count & b & k & bs & E & R);
    [fold size; lia | fold size; lia | lia |]. fold size in R.
  pose proof (read_done_zlen _ _ _ _ _ _ _ R) as Hz. destruct R. destruct (rd_data0 Hd) as (D1 & D2 & D3).
  assert (Hpos : 0 < count).
  { apply D1. intros Hnil. rewrite Hnil in Hb. change (incoming []) with (@nil Z) in Hb. rewrite app_nil_r in Hb.
    apply (f_equal zlen) in Hb. rewrite zlen_take, zlen_app in Hb by lia. pose proof (zlen_nonneg rest). lia. }
  destruct rd_count0 as [[? _] | [Hc Hbs]]; [lia |]. rewrite Z.max_r in rd_needle0 by lia.
  rewrite D3, app_assoc in Hb.
  pose proof (mem_store_prefix (buf (req p)) (needle (req p)) bs (buf b) ltac:(lia) ltac:(lia) rd_store0) as Hpre.
  rewrite Hbs, <- rd_needle0 in Hpre. rewrite <- Hpre in Hb.
  unfold proxy_read_from_downstream. rewrite E. cbn [mbind res_bind].
  replace (count =? -1) with false by lia.
  assert (Hlen : length (take (Z.to_nat (needle b)) (buf b)) = Z.to_nat (needle b)).
  { rewrite length_take. unfold zlen in *. lia. }
  assert (Hdone : needle b = zlen msg -> take (Z.to_nat (zlen msg)) (buf b) = msg /\ incoming (sk_rx k) = rest).
  { intros En. apply app_inj_1 in Hb as [H1 H2]; [by rewrite <- En |]. rewrite Hlen, En. unfold zlen. lia. }
  destruct (needle b =? NBD_REQUEST_SIZE) eqn:Eh; cbn [andb].
  - assert (Hq : nbd_r2h_request (struct_at b) = q) by (apply header_decodes; [lia | lia | by eexists]).
    rewrite Hq. replace (q_type q =? REQUEST_DISCONNECT) with false by lia.
    assert (Hsize : ib_size b = NBD_REQUEST_SIZE).
    { rewrite rd_size0. unfold size, read_size in *. destruct (Z.eqb_spec (needle (req p)) 0); lia. }
    rewrite !oversize_passes by auto.
    set (b2 := if q_type q =? REQUEST_WRITE then _ else b).
    assert (Hb2 : ib_size b2 = zlen msg /\ needle b2 = needle b /\ buf b2 = buf b).
    { subst b2. rewrite Hm, Hpl. destruct (q_type q =? REQUEST_WRITE); cbn; [| split_and!; [lia | done | done]].
      rewrite Hsize, u64_id by lia. done. }
    destruct Hb2 as (B1 & B2 & B3). rewrite B1, B2.
    destruct (needle b =? zlen msg) eqn:En; eexists _, _; (split; [reflexivity |]); (split; [done |]).
    + left. split; [done |]. destruct (Hdone ltac:(lia)) as [F1 F2].
      constructor; cbn; rewrite ?B3; try done; constructor; cbn; rewrite ?B3; lia.
    + right. split; [done |]. split; [| cbn; lia].
      constructor; cbn; rewrite ?B1, ?B2, ?B3; try done; [constructor; cbn; rewrite ?B3; lia |].
      right. right. split_and!; try done; lia.
  - destruct (needle b =? ib_size b) eqn:En; eexists _, _; (split; [reflexivity |]); (split; [done |]).
    + left. split; [done |]. rewrite rd_size0 in En. unfold size, read_size in *.
      destruct (Z.eqb_spec (needle (req p)) 0); [lia |].
      destruct Hw as [? | [? | (W1 & W2 & W3)]]; [lia | lia |]. destruct (Hdone ltac:(lia)) as [F1 F2].
      constructor; cbn; try done; [constructor; cbn; lia | lia].
    + right. split; [done |]. split; [| cbn; lia]. constructor; cbn; try done; [constructor; cbn; lia |].
      rewrite rd_size0 in *. unfold size, read_size in *.
      destruct (Z.eqb_spec (needle (req p)) 0); [right; left; lia |].
      destruct Hw as [? | [? | (W1 & W2 & W3)]]; [lia | right; left; lia | right; right; split_and!; try done; lia].
Qed.
End RelayRequest.

(** A write to a socket that takes what it can. *)
Lemma conn_iobuf_write_clean k b :
  0 <= needle b <= ib_size b -> ib_size b <= zlen (buf b) -> zlen (buf b) < 2 ^ 63 -> wq_clean (sk_wq k) ->
  exists count b' k', conn_iobuf_write k b = Ok (count, b', k') /\ write_done k k' b b' count /\
    0 <= count /\ wq_clean (sk_wq k') /\ sk_wq k' = tail (sk_wq k) /\
    (sk_wq k = [] -> count = ib_size b - needle b).
Proof.
  intros Hn Hs Hb Hc. destruct (conn_iobuf_write_spec k b Hn Hs Hb) as (count & b' & k' & E & W).
  exists count, b', k'. split; [done |]. split; [done |]. revert E.
  unfold conn_iobuf_write, iobuf_write. rewrite (u64_id (ib_size b - needle b)) by lia.
  unfold mem_load. rewrite (proj2 (in_range_true _ _ _)) by (right; lia). cbn [mbind res_bind].
  set (data := take _ _). assert (Hd : zlen data = ib_size b - needle b).
  { subst data. rewrite zlen_take; [lia |]. rewrite zlen_drop by lia. lia. }
  destruct (sk_wq k) as [| [n | er] wq] eqn:Ewq; cbn [write_nonblock].
  - replace (0 <=? zlen data) with true by lia. intros [= <- <- <-]. cbn. split_and!; try done; lia.
  - apply Forall_cons_1 in Hc as [_ Hc].
    replace (0 <=? Z.min (Z.max 0 n) (zlen data)) with true by lia. intros [= <- <- <-]. cbn.
    split_and!; try done; lia.
  - apply Forall_cons_1 in Hc as [He Hc]. cbn [Z.leb Z.compare].
    replace (io_errno_permanent er) with false.
    2:{ unfold io_errno_permanent. unfold io_transient in He.
        destruct (er =? EAGAIN), (er =? EWOULDBLOCK), (er =? EINTR); done. }
    intros [= <- <- <-]. cbn. split_and!; try done; lia.
Qed.

(** One write: what was taken is gone, the request stays in the buffer. *)
Lemma send_step p :
  px_wf p -> req_ready p -> wq_clean (sk_wq (up p)) ->
  exists st p' count, proxy_write_to_upstream p WRITE_TO_UPSTREAM = Ok (st, p') /\
    0 <= count <= ib_size (req p) - needle (req p) /\
    sk_tx (up p') = sk_tx (up p) ++ take (Z.to_nat count) (drop (Z.to_nat (needle (req p))) (buf (req p))) /\
    buf (req p') = buf (req p) /\ ib_size (req p') = ib_size (req p) /\ req_hdr p' = req_hdr p /\
    px_wf p' /\ wq_clean (sk_wq (up p')) /\ sk_wq (up p') = tail (sk_wq (up p)) /\
    (sk_wq (up p) = [] -> count = ib_size (req p) - needle (req p)) /\
    (st = READ_FROM_UPSTREAM /\ needle (req p') = 0 /\ count = ib_size (req p) - needle (req p) \/
     st = WRITE_TO_UPSTREAM /\ needle (req p') = needle (req p) + count /\
     count < ib_size (req p) - needle (req p)).
Proof.
  intros [] (Q1 & Q2 & Q3 & Q4) Hc. sizes. unfold proxy_write_to_upstream. cbn [up req set_field].
  destruct (conn_iobuf_write_clean (up p) (req p)) as (count & b & k & E & W & C0 & C1 & C2 & C3);
    [lia | lia | lia | done |].
  rewrite E. cbn [mbind res_bind]. destruct W. rewrite Z.max_r in * by lia.
  destruct wd_count0 as [? | Hcnt]; [lia |]. replace (count =? -1) with false by lia.
  destruct (needle b =? ib_size b) eqn:Ed; eexists _, _, count; (split; [reflexivity |]); cbn.
  all: split_and!; first
    [ done | lia | constructor; cbn; rewrite ?wd_buf0; done
    | left; split_and!; first [done | lia] | right; split_and!; first [done | lia] ].
Qed.

(** What a session keeps while it relays a request. *)
Definition settings (p : proxier) : Z * Z * Z := (downstream_fd p, upstream_fd p, upstream_timeout_ms p).

Lemma read_from_downstream_settings p st st' p' :
  proxy_read_from_downstream p st = Ok (st', p') -> settings p' = settings p.
Proof. unfold proxy_read_from_downstream. handler_frame. Qed.

Lemma write_to_upstream_settings p st st' p' :
  proxy_write_to_upstream p st = Ok (st', p') -> settings p' = settings p.
Proof. unfold proxy_write_to_upstream. handler_frame. Qed.

Lemma write_to_upstream_down p st st' p' :
  proxy_write_to_upstream p st = Ok (st', p') -> down p' = down p.
Proof. unfold proxy_write_to_upstream. handler_frame. Qed.

(** [select] succeeds and finds the socket of the state ready. *)
Definition ready (i : pass_input) (s : session) : Prop :=
  sel_ret (in_select i) <> -1 /\
  match state s with
  | READ_FROM_DOWNSTREAM => FD_ISSET (downstream_fd (px s)) (sel_rfds (in_select i)) = true
  | WRITE_TO_UPSTREAM => FD_ISSET (upstream_fd (px s)) (sel_wfds (in_select i)) = true
  | _ => True
  end.

(** Requests the cache has no part in: there is none, or the request is no read. *)
Definition uncached (q : nbd_request) (p : proxier) : Prop :=
  cache p = None \/ q_type q <> REQUEST_READ.

Lemma prefetch_uncached p b st :
  uncached (req_hdr p) p ->
  exists c, (if proxy_prefetches p && b then proxy_prefetch_for_request p st else Ok (st, p)) =
    Ok (st, p <| cache := c |>).
Proof.
  intros Hu. assert (Hid : p = p <| cache := cache p |>) by by destruct p.
  destruct (proxy_prefetches p && b) eqn:E; [| by exists (cache p); rewrite <- Hid].
  destruct Hu as [Hc | Hq]; [by unfold proxy_prefetches in E; rewrite Hc in E |].
  exists (prefetch_set_is_empty (cache p)). unfold proxy_prefetch_for_request.
  replace (q_type (req_hdr p) =? REQUEST_READ) with false by lia.
  destruct (cache p); cbn [andb negb]; rewrite andb_false_r; done.
Qed.

(** The start of a pass. *)
Definition begun (i : pass_input) (s : session) : session :=
  (if decide (state s <> old_state s) then s <| state_started := in_start i |> else s)
    <| old_state := state s |>.

Lemma begun_fields i s :
  px (begun i s) = px s /\ state (begun i s) = state s /\ old_state (begun i s) = state s.
Proof. unfold begun. by destruct (decide _). Qed.

Lemma step_begun i s :
  state s = READ_FROM_DOWNSTREAM \/ state s = WRITE_TO_UPSTREAM -> ready i s -> upstream_fd (px s) <> -1 ->
  proxy_step i s =
  (s' ← proxy_dispatch i (begun i s);
   if bool_decide (old_state s' = state s') && proxy_state_upstream (state s') &&
      (upstream_timeout_ms (px s') <? u64 (in_now i - state_started s'))
   then Ok (true, s' <| state := CONNECT_TO_UPSTREAM |>) else Ok (true, s')).
Proof.
  intros Hst [Hsel _] Hfd. destruct (begun_fields i s) as (B1 & B2 & B3).
  unfold proxy_step. rewrite decide_False by (by destruct Hst as [-> | ->]).
  assert (Hb : (if decide (state s <> old_state s) then s <| state_started := in_start i |> else s)
    <| old_state := state (if decide (state s <> old_state s) then s <| state_started := in_start i |> else s) |>
    = begun i s) by (unfold begun; by destruct (decide _)).
  rewrite Hb.
  assert (Hp : proxy_prepare (in_connect i) (begun i s) = (begun i s, true)).
  { unfold proxy_prepare. rewrite B2. by destruct Hst as [-> | ->]. }
  rewrite Hp. cbn [negb]. rewrite B1. rewrite !(proj2 (Z.eqb_neq _ _)) by done. done.
Qed.

Section RelayPasses.
Context (q : nbd_request) (payload rest : list Z).
Context (Hwf : request_wf q) (Hnd : q_type q <> REQUEST_DISCONNECT).
Context (Hmax : q_type q = REQUEST_READ \/ q_type q = REQUEST_WRITE -> q_len q <= NBD_MAX_SIZE).
Context (Hpl : zlen payload = if q_type q =? REQUEST_WRITE then q_len q else 0).

(** One pass that reads: more of the request is there, or all of it. *)
Lemma receive_pass i s :
  state s = READ_FROM_DOWNSTREAM -> receiving q payload rest (px s) -> uncached q (px s) ->
  ready i s -> upstream_fd (px s) <> -1 ->
  exists s', proxy_step i s = Ok (true, s') /\ settings (px s') = settings (px s) /\
    up (px s') = up (px s) /\
    (state s' = WRITE_TO_UPSTREAM /\ old_state s' = READ_FROM_DOWNSTREAM /\
       received q payload rest (px s) (px s') \/
     state s' = READ_FROM_DOWNSTREAM /\ receiving q payload rest (px s') /\ uncached q (px s') /\
       needle (req (px s)) < needle (req (px s'))).
Proof using Hwf Hnd Hmax Hpl.
  intros Hs Hr Hu Hrd Hfd. rewrite step_begun by auto. destruct (begun_fields i s) as (B1 & B2 & B3).
  revert B1 B2 B3. generalize (begun i s) as sb. intros sb B1 B2 B3.
  destruct Hrd as [_ Hrd]. rewrite Hs in Hrd, B2, B3. unfold proxy_dispatch. rewrite B1, B2, Hrd.
  destruct (receive_step q payload rest Hwf Hnd Hmax Hpl (px s) Hr) as (st & p1 & E & Hup & Hc).
  rewrite E. cbn [mbind res_bind].
  pose proof (read_from_downstream_settings _ _ _ _ E) as Hset.
  pose proof (read_from_downstream_cache _ _ _ _ E) as Hca.
  destruct Hc as [[-> Hrc] | (-> & Hrv & Hlt)].
  - destruct (prefetch_uncached p1 (bool_decide (WRITE_TO_UPSTREAM = WRITE_TO_UPSTREAM)) WRITE_TO_UPSTREAM)
      as [c Ec]; [by rewrite (rc_hdr _ _ _ _ _ Hrc); unfold uncached; rewrite Hca |].
    rewrite Ec. cbn [mbind res_bind set_field]. cbn. rewrite B3. cbn.
    eexists. split; [reflexivity |]. cbn. split_and!; [done | done |]. left. split_and!; [done | done |].
    destruct Hrc as [[] ? ? ? ? ? ? ?]. by constructor.
  - rewrite (bool_decide_false (READ_FROM_DOWNSTREAM = WRITE_TO_UPSTREAM)), andb_false_r by done.
    cbn [mbind res_bind]. cbn. rewrite B3. cbn. eexists. split; [reflexivity |]. cbn.
    split_and!; [done | done |]. right. split_and!; [done | done | | done]. unfold uncached. by rewrite Hca.
Qed.

(** One pass that writes, in time. *)
Lemma send_pass i s :
  state s = WRITE_TO_UPSTREAM -> px_wf (px s) -> req_ready (px s) -> wq_clean (sk_wq (up (px s))) ->
  ready i s -> upstream_fd (px s) <> -1 ->
  0 <= in_now i - state_started (begun i s) <= upstream_timeout_ms (px s) ->
  upstream_timeout_ms (px s) < 2 ^ 64 ->
  exists s' count, proxy_step i s = Ok (true, s') /\
    proxy_write_to_upstream (px s) WRITE_TO_UPSTREAM = Ok (state s', px s') /\
    old_state s' = WRITE_TO_UPSTREAM /\ state_started s' = state_started (begun i s) /\
    0 <= count <= ib_size (req (px s)) - needle (req (px s)).
Proof using Type.
  intros Hs Hw Hq Hc Hrd Hfd Ht Hms. rewrite step_begun by auto.
  destruct (begun_fields i s) as (B1 & B2 & B3).
  revert Ht B1 B2 B3. generalize (begun i s) as sb. intros sb Ht B1 B2 B3.
  destruct Hrd as [_ Hrd]. rewrite Hs in Hrd, B2, B3. unfold proxy_dispatch. rewrite B1, B2, Hrd.
  destruct (send_step (px s) Hw Hq Hc) as (st & p1 & count & E & S1 & _).
  rewrite E. cbn [mbind res_bind]. cbn.
  pose proof (write_to_upstream_settings _ _ _ _ E) as Hset. injection Hset as _ _ Hset.
  rewrite (u64_id (in_now i - _)) by lia. rewrite Hset.
  replace (upstream_timeout_ms (px s) <? in_now i - state_started sb) with false by lia.
  rewrite andb_false_r. eexists _, count. split; [reflexivity |]. cbn. by rewrite B3.
Qed.
End RelayPasses.

(** [k] passes of the loop from pass [n] on; [kernel n s] is what the calls of pass
    [n] answer when it starts from [s]. *)
Fixpoint run_passes (kernel : nat -> session -> pass_input) (n k : nat) (s : session) : res session :=
  match k with
  | O => Ok s
  | S k' =>
      '(go, s') ← proxy_step (kernel n s) s;
      if (go : bool) then run_passes kernel (S n) k' s' else Ok s'
  end.

Lemma run_passes_S kernel n k s s' s2 :
  proxy_step (kernel n s) s = Ok (true, s') -> run_passes kernel (S n) k s' = Ok s2 ->
  run_passes kernel n (S k) s = Ok s2.
Proof. intros E H. cbn [run_passes]. by rewrite E. Qed.

Section RelayRun.
Context (kernel : nat -> session -> pass_input) (limit : nat) (ms : Z).
Context (Hready : forall n s, ready (kernel n s) s).
Context (Htime : forall n m s s', (n <= m < limit)%nat ->
  0 <= in_now (kernel m s') - in_start (kernel n s) <= ms).
Context (Hms : ms < 2 ^ 64).

(** The clock of a session that is writing has not run too far at pass [n]. *)
Definition in_time (n : nat) (s : session) : Prop :=
  old_state s = WRITE_TO_UPSTREAM ->
  forall m s', (n <= m < limit)%nat -> 0 <= in_now (kernel m s') - state_started s <= ms.

Lemma begun_in_time n s :
  state s = WRITE_TO_UPSTREAM -> in_time n s ->
  forall m s', (n <= m < limit)%nat -> 0 <= in_now (kernel m s') - state_started (begun (kernel n s) s) <= ms.
Proof using Htime.
  intros Hs Ht m s' Hm. unfold begun. destruct (decide (state s <> old_state s)) as [Hne | He].
  - cbn. apply Htime. lia.
  - cbn. apply Ht; [| done]. apply dec_stable in He. congruence.
Qed.

(** The rest of the request in the buffer goes out, whatever pieces upstream takes. *)
Lemma send_passes len : forall n s,
  state s = WRITE_TO_UPSTREAM -> px_wf (px s) -> req_ready (px s) -> wq_clean (sk_wq (up (px s))) ->
  upstream_fd (px s) <> -1 -> upstream_timeout_ms (px s) = ms -> in_time n s ->
  length (sk_wq (up (px s))) = len -> (n + len < limit)%nat ->
  exists k s2, (k <= S len)%nat /\ run_passes kernel n k s = Ok s2 /\ state s2 = READ_FROM_UPSTREAM /\
    sk_tx (up (px s2)) = sk_tx (up (px s)) ++
      take (Z.to_nat (ib_size (req (px s)) - needle (req (px s))))
        (drop (Z.to_nat (needle (req (px s)))) (buf (req (px s)))) /\
    needle (req (px s2)) = 0 /\ ib_size (req (px s2)) = ib_size (req (px s)) /\
    buf (req (px s2)) = buf (req (px s)) /\ req_hdr (px s2) = req_hdr (px s) /\
    down (px s2) = down (px s).
Proof using Hready Htime Hms.
  induction len as [| len IH]; intros n s Hs Hw Hq Hc Hfd Hto Ht Hlen Hl.
  all: pose proof (begun_in_time n s Hs Ht) as Hbt.
  all: destruct (send_pass (kernel n s) s) as (s1 & _ & Es & E & O1 & O2 & _);
    try done; [by rewrite Hto; apply Hbt; lia | by rewrite Hto |].
  all: destruct (send_step (px s) Hw Hq Hc) as
    (st & p1 & count & E' & S1 & S2 & S3 & S4 & S5 & S6 & S7 & S8 & S9 & Hst).
  all: rewrite E in E'; injection E' as <- <-.
  all: pose proof (write_to_upstream_down _ _ _ _ E) as Hdn.
  all: destruct Hst as [(Hst & N & ->) | (Hst & N & Hlt)].
  1, 3: exists 1%nat, s1; split; [lia |]; split; [by apply (run_passes_S _ _ _ _ _ _ Es) |]; by split_and!.
  - apply nil_length_inv in Hlen. specialize (S9 Hlen). lia.
  - pose proof (write_to_upstream_settings _ _ _ _ E) as Hset. injection Hset as _ F1 F2.
    destruct Hq as (Q1 & Q2 & Q3 & Q4).
    destruct (IH (S n) s1) as (k & s2 & K & R & T0 & T1 & T2 & T3 & T4 & T5 & T6); try done.
    + unfold req_ready. rewrite S4, S5, N. split_and!; try done; lia.
    + congruence.
    + congruence.
    + intros _ m s' Hm. rewrite O2. apply Hbt. lia.
    + rewrite S8. destruct (sk_wq (up (px s))); simpl in *; lia.
    + lia.
    + exists (S k), s2. split; [lia |]. split; [by apply (run_passes_S _ _ _ _ _ _ Es) |].
      split_and!; try done; try congruence.
      rewrite T1, S2, S3, S4, N, <- app_assoc. f_equal. rewrite take_zadd by lia. f_equal. lia.
Qed.

Context (q : nbd_request) (payload rest : list Z).
Context (Hwf : request_wf q) (Hnd : q_type q <> REQUEST_DISCONNECT).
Context (Hmax : q_type q = REQUEST_READ \/ q_type q = REQUEST_WRITE -> q_len q <= NBD_MAX_SIZE).
Context (Hpl : zlen payload = if q_type q =? REQUEST_WRITE then q_len q else 0).

(** The request went upstream, and is still in the buffer. *)
Record relayed (s s2 : session) : Prop := {
  ry_state : state s2 = READ_FROM_UPSTREAM;
  ry_hdr : req_hdr (px s2) = q;
  ry_rest : incoming (sk_rx (down (px s2))) = rest;
  ry_sent : sk_tx (up (px s2)) = sk_tx (up (px s)) ++ to_wire (nbd_h2r_request q) ++ payload;
  ry_needle : needle (req (px s2)) = 0;
  ry_kept : slice (buf (req (px s2))) 0 (ib_size (req (px s2))) = to_wire (nbd_h2r_request q) ++ payload
}.

Lemma send_received n s0 s :
  state s = WRITE_TO_UPSTREAM -> old_state s = READ_FROM_DOWNSTREAM ->
  received q payload rest (px s0) (px s) -> wq_clean (sk_wq (up (px s))) ->
  upstream_fd (px s) <> -1 -> upstream_timeout_ms (px s) = ms ->
  (n + length (sk_wq (up (px s))) < limit)%nat ->
  exists k s2, (k <= S (length (sk_wq (up (px s)))))%nat /\ run_passes kernel n k s = Ok s2 /\ relayed s0 s2.
Proof using Hready Htime Hms Hwf Hmax Hpl.
  intros Hs Hos [] Hc Hfd Hto Hl. sizes. pose proof (zlen_msg q payload) as Hm.
  pose proof (zlen_nonneg payload). pose proof Hwf as (_ & _ & _ & _ & _ & Hql).
  assert (Hpm : zlen payload <= NBD_MAX_SIZE).
  { rewrite Hpl. destruct (Z.eqb_spec (q_type q) REQUEST_WRITE) as [E | _]; [apply Hmax; by right | lia]. }
  destruct (send_passes (length (sk_wq (up (px s)))) n s Hs) as (k & s2 & K & R & T0 & T1 & T2 & T3 & T4 & T5 & T6); try done.
  - unfold req_ready. rewrite rc_needle0, rc_size0, rc_hdr0.
    split_and!; first [lia | intros Ht; apply Hmax; by left].
  - intros Ho. congruence.
  - exists k, s2. split_and!; [done | done |].
    rewrite rc_needle0, rc_size0, Z.sub_0_r, drop_0, rc_bytes0, rc_up0 in T1.
    constructor; [done | congruence | congruence | done | done |].
    unfold slice. rewrite drop_0, T3, T4, rc_size0. exact rc_bytes0.
Qed.

Lemma relay_passes j : forall n s,
  state s = READ_FROM_DOWNSTREAM -> receiving q payload rest (px s) -> uncached q (px s) ->
  wq_clean (sk_wq (up (px s))) -> upstream_fd (px s) <> -1 -> upstream_timeout_ms (px s) = ms ->
  NBD_REQUEST_SIZE + zlen payload - needle (req (px s)) < Z.of_nat j ->
  (n + j + length (sk_wq (up (px s))) < limit)%nat ->
  exists k s2, (k <= S (j + length (sk_wq (up (px s)))))%nat /\ run_passes kernel n k s = Ok s2 /\
    relayed s s2.
Proof using All.
  induction j as [| j IH]; intros n s Hs Hr Hu Hc Hfd Hto Hj Hl.
  { destruct Hr as [_ _ Hw _]. rewrite zlen_msg in Hw. sizes. pose proof (zlen_nonneg payload). lia. }
  destruct (receive_pass q payload rest Hwf Hnd Hmax Hpl (kernel n s) s Hs Hr Hu (Hready n s) Hfd)
    as (s1 & Es & Hset & Hup & [(Hs1 & Ho1 & Hrc) | (Hs1 & Hr1 & Hu1 & Hlt)]);
    injection Hset as _ F1 F2.
  - destruct (send_received (S n) s s1) as (k & s2 & K & R & Hy); try done;
      rewrite ?Hup, ?F1, ?F2; try done; [lia |].
    exists (S k), s2. rewrite Hup in K. split; [lia |]. split; [| done]. by apply (run_passes_S _ _ _ _ _ _ Es).
  - destruct (IH (S n) s1) as (k & s2 & K & R & Hy); try done; rewrite ?Hup, ?F1, ?F2; try done; [lia | lia |].
    exists (S k), s2. rewrite Hup in K. split; [lia |]. split; [by apply (run_passes_S _ _ _ _ _ _ Es) |].
    destruct Hy. constructor; try done. by rewrite ry_sent0, Hup.
Qed.
End RelayRun.

(** ** The prefetch cache *)

(** A full cache holds a range of the upstream's data. *)
Definition coherent (disk : list Z) (p : proxier) : Prop :=
  forall c, cache p = Some c ->
    zlen (pf_buffer c) = pf_size c /\
    (is_full c = true -> prefetch_ok c /\ slice (pf_buffer c) 0 (pf_len c) = slice disk (pf_from c) (pf_len c)).

(** The reply for [q] with the data of [disk], in [rsp]. *)
Definition holds_reply (disk : list Z) (q : nbd_request) (p : proxier) : Prop :=
  needle (rsp p) = 0 /\ ib_size (rsp p) = NBD_REPLY_SIZE + q_len q /\
  slice (buf (rsp p)) 0 (ib_size (rsp p)) =
    reply_bytes (q_handle q) 0 ++ slice disk (q_from q) (q_len q).

Lemma zlen_reply_bytes h e : zlen (reply_bytes h e) = NBD_REPLY_SIZE.
Proof. unfold zlen. by rewrite length_reply_bytes. Qed.

(** Two adjacent stores at the start of a buffer. *)
Lemma two_stores m a b m1 m2 :
  mem_store m 0 a = Ok m1 -> mem_store m1 (zlen a) b = Ok m2 -> zlen a + zlen b <= zlen m ->
  slice m2 0 (zlen a + zlen b) = a ++ b.
Proof.
  intros H1 H2 Hl. pose proof (zlen_nonneg a). pose proof (zlen_nonneg b).
  pose proof (mem_store_zlen _ _ _ _ H1) as L1.
  pose proof (mem_store_prefix m 0 a m1 ltac:(lia) ltac:(lia) H1) as P1.
  pose proof (mem_store_prefix m1 (zlen a) b m2 ltac:(lia) ltac:(lia) H2) as P2.
  unfold slice. rewrite drop_0, P2. f_equal. rewrite Z.add_0_l in P1. by rewrite P1.
Qed.

(** ** A reply that does not fit *)

Lemma read_past_buffer p data :
  zlen (buf (rsp p)) < NBD_REPLY_SIZE + zlen data -> zlen data < 2 ^ 32 ->
  needle (rsp p) = NBD_REPLY_SIZE -> ib_size (rsp p) = NBD_REPLY_SIZE + zlen data -> 0 < zlen data ->
  sk_rx (up p) = [RdBytes data] ->
  proxy_read_from_upstream p READ_FROM_UPSTREAM = Stop SFault.
Proof.
  intros Hb Hd Hn Hs Hp Hrx. sizes. unfold proxy_read_from_upstream, conn_iobuf_read, iobuf_read.
  rewrite Hn, Hs. change (NBD_REPLY_SIZE =? 0) with false. cbn iota. rewrite (u64_id _) by lia.
  rewrite Hrx. cbn [read_nonblock deliver].
  replace (zlen data <=? NBD_REPLY_SIZE + zlen data - NBD_REPLY_SIZE) with true by lia.
  unfold mem_store. replace (in_range (zlen (buf (rsp p))) NBD_REPLY_SIZE (zlen data)) with false; [done |].
  symmetry. apply not_true_is_false. rewrite in_range_true. lia.
Qed.

(** ** A proxier to instantiate the properties with *)

Lemma zlen_new_iobuf n : 0 <= n -> zlen (buf (new_iobuf n)) = n.
Proof. intros H. unfold new_iobuf. cbn [buf]. unfold zlen. rewrite length_replicate. lia. Qed.

(** The proxier [proxy_create] makes, connected, with cache [c], request [q] and sockets [d], [u]. *)
Definition sample_proxier (q : nbd_request) (c : option prefetch) (d u : conn) : proxier :=
  {| listen_on := zero_sockaddr; connect_to := zero_sockaddr; connect_from := zero_sockaddr; bind := false;
     listen_fd := 3; downstream_fd := 4; upstream_fd := 5; upstream_size := 2 ^ 30; upstream_flags := 0;
     req_hdr := q; rsp_hdr := zero_reply; init := new_iobuf NBD_INIT_SIZE;
     req := new_iobuf (NBD_MAX_SIZE + NBD_REQUEST_SIZE); rsp := new_iobuf (NBD_MAX_SIZE + NBD_REPLY_SIZE);
     req_count := 0; hello_sent := true; upstream_timeout := 30; upstream_timeout_ms := 30000;
     is_prefetch_req := false; prefetch_req_orig_len := 0; cache := c; down := d; up := u; up_cork := false |}.

Lemma sample_wf q c d u : px_wf (sample_proxier q c d u).
Proof.
  constructor; cbn [sample_proxier req rsp init]; apply zlen_new_iobuf; sizes; lia.
Qed.

(** A read of [len] bytes at [from]. *)
Definition sample_read (from len : Z) : nbd_request :=
  {| q_magic := REQUEST_MAGIC; q_flags := 0; q_type := REQUEST_READ; q_handle := 7; q_from := from; q_len := len |}.

Lemma sample_read_wf from len : 0 <= from < 2 ^ 64 -> 0 <= len < 2 ^ 32 -> request_wf (sample_read from len).
Proof. intros H1 H2. unfold request_wf. cbn. repeat split; (lia || done). Qed.

(** * Properties *)

(** C5: a proxy without a cache never reads or writes outside its three buffers:
    whatever downstream and upstream send, in any interleaving of readiness,
    time-outs, failed connections and reconnections, every pass of the session loop
    goes through, as long as [select] reports only descriptors a read of which gives
    data, the end or an error. *)
Theorem proxy_session_memory_safe p0 s i :
  px_wf p0 -> cache p0 = None -> reachable p0 s -> honest i s ->
  exists go s', proxy_step i s = Ok (go, s') /\ px_wf (px s') /\ state_ok (state s') (px s').
Proof.
  intros Hw Hc Hr Hh. pose proof (reachable_ok p0 s Hw Hc Hr) as Hok.
  destruct (step_ok i s Hok Hh) as (go & s' & E & []). exists go, s'. by split_and!.
Qed.

Lemma proxy_session_memory_safe_witness :
  let p := sample_proxier zero_request None idle_conn idle_conn in
  let i := {| in_start := 0; in_connect := {| ci_socket := -1; ci_nonblock := 0;
                ci_connect := {| a_ret := 0; a_errno := 0 |}; ci_conn := idle_conn |};
              in_select := {| sel_ret := 1; sel_errno := 0; sel_rfds := []; sel_wfds := [4]; sel_efds := [] |};
              in_getsockopt := (0, 0); in_now := 0 |} in
  exists s, reachable p s /\
    exists go s', proxy_step i s = Ok (go, s') /\ px_wf (px s') /\ state_ok (state s') (px s').
Proof.
  intros p i. pose proof (sample_wf zero_request None idle_conn idle_conn) as Hw. fold p in Hw.
  destruct (session_start_ok 0 p Hw eq_refl) as (s & E & _). exists s.
  pose proof (reach_start p 0 s E) as Hr. split; [exact Hr |].
  exact (proxy_session_memory_safe p s i Hw eq_refl Hr (session_start_honest i 0 p s E)).
Defined.

(** C20: a request the cache has no part in (there is no cache, or the request is no
    read; C21, C22 and C37 are about the others), that is no DISCONNECT and asks for
    or carries at most NBD_MAX_SIZE bytes, is relayed as it is by the session loop,
    the check of the cache between reading and sending included: however its bytes
    arrive from downstream, the proxy collects exactly one request with its data,
    decodes its header, leaves what follows unread, and sends the same bytes upstream,
    whatever pieces upstream takes, in a bounded number of passes. The request stays
    in the buffer so that it can be sent again. Assumed: the upstream is
    connected, [select] succeeds and finds the socket of each pass ready, neither socket fails, and the passes together take
    no longer than the upstream time-out. *)
Theorem proxy_relays_request kernel q payload rest s :
  request_wf q -> q_type q <> REQUEST_DISCONNECT ->
  (q_type q = REQUEST_READ \/ q_type q = REQUEST_WRITE -> q_len q <= NBD_MAX_SIZE) ->
  zlen payload = (if q_type q =? REQUEST_WRITE then q_len q else 0) ->
  state s = READ_FROM_DOWNSTREAM -> px_wf (px s) -> uncached q (px s) -> needle (req (px s)) = 0 ->
  Forall data_event (sk_rx (down (px s))) ->
  incoming (sk_rx (down (px s))) = to_wire (nbd_h2r_request q) ++ payload ++ rest ->
  wq_clean (sk_wq (up (px s))) -> upstream_fd (px s) <> -1 -> upstream_timeout_ms (px s) < 2 ^ 64 ->
  let limit := (30 + length payload + length (sk_wq (up (px s))))%nat in
  (forall n s', ready (kernel n s') s') ->
  (forall n m s1 s2, (n <= m < limit)%nat ->
     0 <= in_now (kernel m s2) - in_start (kernel n s1) <= upstream_timeout_ms (px s)) ->
  exists k s2, (k <= limit)%nat /\ run_passes kernel 0 k s = Ok s2 /\ relayed q payload rest s s2.
Proof.
  intros Hwf Hnd Hmax Hpl Hs Hpw Hu Hn Hd Hi Hc Hfd Hms limit Hready Htime. sizes.
  assert (Hrv : receiving q payload rest (px s)).
  { constructor; [done | done | by left |]. rewrite Hn, Hi.
    change (to_wire (nbd_h2r_request q)) with (request_to_wire (nbd_h2r_request q)). by rewrite app_assoc. }
  destruct (relay_passes kernel limit _ Hready Htime Hms q payload rest Hwf Hnd Hmax Hpl
              (29 + length payload) 0 s) as (k & s2 & K & R & Hy); try done.
  - rewrite Hn. unfold zlen. lia.
  - subst limit. lia.
  - by exists k, s2.
Qed.

(** A session that waits for a request, and a kernel that finds its sockets ready. *)
Definition sample_session (p : proxier) : session :=
  {| px := p; state := READ_FROM_DOWNSTREAM; old_state := WRITE_TO_DOWNSTREAM; state_started := 0;
     connect_to_upstream_cooldown := false |}.

Definition sample_kernel (n : nat) (s : session) : pass_input :=
  {| in_start := 2 * Z.of_nat n;
     in_connect := {| ci_socket := -1; ci_nonblock := 0; ci_connect := {| a_ret := 0; a_errno := 0 |};
                      ci_conn := idle_conn |};
     in_select := {| sel_ret := 1; sel_errno := 0; sel_rfds := [downstream_fd (px s)];
                     sel_wfds := [upstream_fd (px s)]; sel_efds := [] |};
     in_getsockopt := (0, 0); in_now := 2 * Z.of_nat n + 1 |}.

Lemma proxy_relays_request_witness :
  let q := {| q_magic := REQUEST_MAGIC; q_flags := 0; q_type := REQUEST_WRITE; q_handle := 7;
              q_from := 512; q_len := 2 |} in
  let d := {| sk_rx := [RdBytes (to_wire (nbd_h2r_request q)); RdBytes [8]; RdBytes [9; 1]]; sk_wq := [];
              sk_tx := []; sk_errno := 0; sk_selects := [] |} in
  let u := {| sk_rx := []; sk_wq := [WrAccept 5]; sk_tx := []; sk_errno := 0; sk_selects := [] |} in
  let s := sample_session (sample_proxier zero_request (Some (prefetch_create 4096)) d u) in
  exists k s2, (k <= 33)%nat /\ run_passes sample_kernel 0 k s = Ok s2 /\ relayed q [8; 9] [1] s s2.
Proof.
  intros q d u s. apply (proxy_relays_request sample_kernel q [8; 9] [1] s).
  - unfold request_wf; cbn [q q_magic q_flags q_type q_handle q_from q_len]; unfold REQUEST_MAGIC, REQUEST_WRITE; lia.
  - discriminate.
  - intros _. change (2 <= 33554432). lia.
  - reflexivity.
  - reflexivity.
  - apply sample_wf.
  - right. discriminate.
  - reflexivity.
  - repeat constructor; discriminate.
  - reflexivity.
  - repeat constructor.
  - discriminate.
  - reflexivity.
  - intros n s'. split; [discriminate |]. destruct (state s'); try exact I;
      apply bool_decide_eq_true; left.
  - intros n m s1 s2 H. change (upstream_timeout_ms (px s)) with 30000.
    destruct H as [H1 H2]. change (m < 33)%nat in H2. unfold sample_kernel. cbn [in_now in_start]. lia.
Defined.

(** C21: a read of at most NBD_MAX_SIZE bytes whose range does not wrap 2^64 and that
    hits a full cache coherent with the upstream is answered with a success reply for
    its handle followed by exactly the upstream's bytes of the range it asks for, and
    the cache is kept. (A read that wraps can pass the same test and is then copied
    from behind the cache: [wrapping_read_overruns_cache].) *)
Theorem prefetch_hit_coherent disk p c :
  px_wf p -> coherent disk p -> cache p = Some c -> q_type (req_hdr p) = REQUEST_READ ->
  request_wf (req_hdr p) -> q_len (req_hdr p) <= NBD_MAX_SIZE ->
  q_from (req_hdr p) + q_len (req_hdr p) < 2 ^ 64 ->
  is_full c = true -> prefetch_contains c (q_from (req_hdr p)) (q_len (req_hdr p)) = true ->
  exists p', proxy_prefetch_for_request p WRITE_TO_UPSTREAM = Ok (WRITE_TO_DOWNSTREAM, p') /\
    holds_reply disk (req_hdr p) p' /\ cache p' = cache p.
Proof.
  intros [] Hco Hc Ht (_ & _ & _ & Hh & Hf & Hl) Hm Hw Hfull Hcon. sizes.
  destruct (Hco c Hc) as (_ & Hin). destruct (Hin Hfull) as (Hpo & Hdata).
  destruct (prefetch_hit c _ _ Hpo (proj1 Hf) (proj1 Hl) Hw Hcon) as (Ho & Ho1 & Ho2).
  destruct Hpo as (P1 & P2 & P3 & P4 & P5).
  unfold proxy_prefetch_for_request. rewrite Hc, Hfull, Hcon, Ht. change (REQUEST_READ =? REQUEST_READ) with true.
  cbn [andb of_opt mbind res_bind]. unfold put_struct.
  change (to_wire (nbd_h2r_reply {| p_magic := REPLY_MAGIC; p_error := 0; p_handle := q_handle (req_hdr p) |}))
    with (reply_bytes (q_handle (req_hdr p)) 0).
  pose proof (zlen_reply_bytes (q_handle (req_hdr p)) 0) as Hzr.
  destruct (mem_store (buf (rsp p)) 0 (reply_bytes (q_handle (req_hdr p)) 0)) as [m1 |] eqn:E1.
  2:{ rewrite mem_store_ok in E1 by lia. done. }
  cbn [mbind res_bind]. rewrite Ho. unfold mem_load. rewrite (proj2 (in_range_true _ _ _)) by (right; lia).
  cbn [mbind res_bind]. fold (slice (pf_buffer c) (q_from (req_hdr p) - pf_from c) (q_len (req_hdr p))).
  set (data := slice (pf_buffer c) _ _).
  assert (Hzd : zlen data = q_len (req_hdr p)) by (apply zlen_slice; lia).
  assert (Heq : data = slice disk (q_from (req_hdr p)) (q_len (req_hdr p))).
  { subst data. apply (f_equal (fun l => slice l (q_from (req_hdr p) - pf_from c) (q_len (req_hdr p)))) in Hdata.
    rewrite !slice_slice in Hdata by lia. rewrite Z.add_0_l in Hdata. rewrite Hdata. f_equal. lia. }
  pose proof (mem_store_zlen _ _ _ _ E1) as L1. cbn [buf set_field].
  destruct (mem_store m1 NBD_REPLY_SIZE data) as [m2 |] eqn:E2.
  2:{ rewrite mem_store_ok in E2 by lia. done. }
  eexists. split; [reflexivity |]. split; [| done]. split_and!; try done.
  cbn [rsp set_field buf ib_size]. rewrite <- Heq, <- Hzd, <- Hzr. rewrite <- Hzr in E2.
  apply (two_stores _ _ _ _ _ E1 E2). lia.
Qed.

Lemma prefetch_hit_coherent_witness :
  let c := {| is_full := true; pf_from := 2; pf_len := 4; pf_size := 6; pf_buffer := [2; 3; 4; 5; 0; 0] |} in
  let p := sample_proxier (sample_read 3 2) (Some c) idle_conn idle_conn in
  exists p', proxy_prefetch_for_request p WRITE_TO_UPSTREAM = Ok (WRITE_TO_DOWNSTREAM, p') /\
    holds_reply [0; 1; 2; 3; 4; 5; 6; 7] (sample_read 3 2) p' /\ cache p' = cache p.
Proof.
  intros c p. apply (prefetch_hit_coherent [0; 1; 2; 3; 4; 5; 6; 7] p c).
  - apply sample_wf.
  - intros c' [= <-]. split; [reflexivity |]. intros _.
    split; [unfold prefetch_ok; cbn; repeat split; (lia || done) | reflexivity].
  - reflexivity.
  - reflexivity.
  - apply sample_read_wf; lia.
  - change (2 <= 33554432). lia.
  - reflexivity.
  - reflexivity.
  - reflexivity.
Defined.

(** The end of the range asked for is computed in 64 bits: a read from behind the
    start of the cached range up to a wrapped end passes for a hit, and the copy
    leaves the cache's buffer. *)
Theorem wrapping_read_overruns_cache p c st :
  px_wf p -> cache p = Some c -> is_full c = true -> prefetch_ok c -> pf_from c + pf_size c < 2 ^ 64 ->
  q_type (req_hdr p) = REQUEST_READ -> request_wf (req_hdr p) ->
  pf_from c <= q_from (req_hdr p) -> 2 ^ 64 <= q_from (req_hdr p) + q_len (req_hdr p) ->
  q_from (req_hdr p) + q_len (req_hdr p) - 2 ^ 64 <= pf_from c + pf_len c ->
  prefetch_contains c (q_from (req_hdr p)) (q_len (req_hdr p)) = true /\
  proxy_prefetch_for_request p st = Stop SFault.
Proof.
  intros [] Hc Hfull (P1 & P2 & P3 & P4 & P5) Hps Ht (_ & _ & _ & _ & Hf & Hl) Hle Hwrap Hend. sizes.
  assert (Hcon : prefetch_contains c (q_from (req_hdr p)) (q_len (req_hdr p)) = true).
  { unfold prefetch_contains. rewrite (u64_id (pf_from c + pf_len c)) by lia.
    assert (Hu : q_from (req_hdr p) +64 q_len (req_hdr p) = q_from (req_hdr p) + q_len (req_hdr p) - 2 ^ 64).
    { unfold u64. symmetry. apply (Z.mod_unique_pos _ _ 1); lia. }
    rewrite Hu. apply andb_true_intro. split; lia. }
  split; [done |]. unfold proxy_prefetch_for_request. rewrite Hc, Hfull, Hcon, Ht.
  change (REQUEST_READ =? REQUEST_READ) with true. cbn [andb of_opt mbind res_bind]. unfold put_struct.
  match goal with |- context [mem_store (buf (rsp p)) 0 ?w] => assert (Hw : zlen w = 16) by reflexivity end.
  rewrite mem_store_ok by lia. cbn [mbind res_bind]. unfold prefetch_offset. rewrite u64_id by lia.
  unfold mem_load. replace (in_range _ _ _) with false; [done |].
  symmetry. apply not_true_is_false. rewrite in_range_true. lia.
Qed.

Lemma wrapping_read_overruns_cache_witness :
  let c := {| is_full := true; pf_from := 2; pf_len := 4; pf_size := 6; pf_buffer := [2; 3; 4; 5; 0; 0] |} in
  let p := sample_proxier (sample_read (2 ^ 64 - 1) 3) (Some c) idle_conn idle_conn in
  prefetch_contains c (2 ^ 64 - 1) 3 = true /\
  proxy_prefetch_for_request p WRITE_TO_UPSTREAM = Stop SFault.
Proof.
  intros c p. apply (wrapping_read_overruns_cache p c WRITE_TO_UPSTREAM); try reflexivity.
  - apply sample_wf.
  - unfold prefetch_ok; cbn; repeat split; (lia || done).
  - apply sample_read_wf; lia.
  - vm_compute. discriminate.
  - vm_compute. discriminate.
  - vm_compute. discriminate.
Defined.

(** C22: when the reply to a read doubled to [2 * n] bytes is in the reply buffer with
    the upstream's data (the doubled range inside the upstream's data and no longer
    than NBD_MAX_SIZE, [n] positive and no larger than the cache), the
    client gets exactly the [n] bytes it asked for, the cache is marked full and holds
    the [n] bytes of the upstream that follow them, and the request is no longer
    marked as prefetching. *)
Theorem prefetch_fill_coherent disk p c :
  px_wf p -> cache p = Some c -> zlen (pf_buffer c) = pf_size c -> is_prefetch_req p = true ->
  let q := req_hdr p in let n := prefetch_req_orig_len p in
  0 < n -> q_len q = 2 * n -> q_len q <= NBD_MAX_SIZE -> n <= pf_size c -> 0 <= q_from q ->
  q_from q + q_len q <= zlen disk -> zlen disk < 2 ^ 64 -> holds_reply disk q p ->
  exists p', proxy_prefetch_for_reply p WRITE_TO_DOWNSTREAM = Ok (WRITE_TO_DOWNSTREAM, p') /\
    (exists c', cache p' = Some c' /\ is_full c' = true /\ pf_from c' = q_from q + n /\ pf_len c' = n /\
       slice (pf_buffer c') 0 n = slice disk (q_from q + n) n) /\
    coherent disk p' /\ is_prefetch_req p' = false /\ q_len (req_hdr p') = n /\
    holds_reply disk (req_hdr p') p'.
Proof.
  intros [] Hc Hzb Hp q n Hn Hq Hm Hs Hf Hd Hd2 (R1 & R2 & R3). sizes. unfold proxy_prefetch_for_reply.
  rewrite Hp, Hc. cbn [negb of_opt mbind res_bind]. fold q n. rewrite (u32_id (q_len q - n)) by lia.
  rewrite (u64_id (ib_size (rsp p) - _)), (u64_id (q_from q + n)) by (fold q in R2; lia).
  replace (q_len q - n) with n by lia. fold q in R2, R3.
  unfold mem_load. rewrite (proj2 (in_range_true _ _ _)) by (right; lia). cbn [mbind res_bind].
  fold (slice (buf (rsp p)) (n + NBD_REPLY_SIZE) n). set (data := slice (buf (rsp p)) _ _).
  assert (Hzd : zlen data = n) by (apply zlen_slice; lia).
  pose proof (zlen_reply_bytes (q_handle q) 0) as Hzr.
  assert (Hsub : forall a k, 0 <= a -> 0 <= k -> a + k <= q_len q ->
    slice (buf (rsp p)) (NBD_REPLY_SIZE + a) k = slice disk (q_from q + a) k).
  { intros a k Ha Hk Hak. pose proof (f_equal (fun l => slice l (NBD_REPLY_SIZE + a) k) R3) as E. cbv beta in E.
    rewrite R2, slice_slice, Z.add_0_l in E by lia. rewrite E. unfold slice at 1.
    rewrite drop_app_ge by (unfold zlen in Hzr; lia).
    replace (Z.to_nat (NBD_REPLY_SIZE + a) - length (reply_bytes (q_handle q) 0))%nat with (Z.to_nat a)
      by (unfold zlen in Hzr; lia).
    fold (slice (slice disk (q_from q) (q_len q)) a k). apply slice_slice; lia. }
  destruct (mem_store (pf_buffer c) 0 data) as [m |] eqn:E1; [| rewrite mem_store_ok in E1 by lia; done].
  pose proof (mem_store_zlen _ _ _ _ E1) as L1.
  pose proof (mem_store_prefix (pf_buffer c) 0 data m ltac:(lia) ltac:(lia) E1) as P1.
  assert (Hfill : slice m 0 n = slice disk (q_from q + n) n).
  { rewrite <- Hzd at 1. unfold slice at 1. rewrite drop_0. rewrite Z.add_0_l in P1. rewrite P1. simpl app.
    subst data. rewrite (Z.add_comm n). apply Hsub; lia. }
  eexists. split; [reflexivity |]. split_and!; try done.
  - by eexists.
  - intros c' [= <-]. cbn. split; [lia |]. intros _. split; [unfold prefetch_ok; cbn; lia | done].
  - unfold holds_reply. cbn. fold q. split_and!; [done | lia |].
    pose proof (f_equal (fun l => slice l 0 (NBD_REPLY_SIZE + n)) R3) as E. cbv beta in E.
    rewrite R2, slice_slice, Z.add_0_l in E by lia. rewrite R2. replace (NBD_REPLY_SIZE + q_len q - n) with (NBD_REPLY_SIZE + n) by lia.
    rewrite E. unfold slice at 1. rewrite drop_0.
    rewrite take_app_ge by (unfold zlen in Hzr; lia). f_equal.
    replace (Z.to_nat (NBD_REPLY_SIZE + n) - length (reply_bytes (q_handle q) 0))%nat with (Z.to_nat n)
      by (unfold zlen in Hzr; lia).
    unfold slice. rewrite take_take. f_equal. lia.
Qed.

Lemma prefetch_fill_coherent_witness :
  let disk := [0; 1; 2; 3; 4; 5; 6; 7] in
  let p := (sample_proxier (sample_read 3 4) (Some (prefetch_create 6)) idle_conn idle_conn)
             <| is_prefetch_req := true |> <| prefetch_req_orig_len := 2 |>
             <| rsp := {| buf := (reply_bytes 7 0 ++ [3; 4; 5; 6]) ++ replicate (Z.to_nat (NBD_MAX_SIZE - 4)) 0;
                          ib_size := 20; needle := 0 |} |> in
  exists p', proxy_prefetch_for_reply p WRITE_TO_DOWNSTREAM = Ok (WRITE_TO_DOWNSTREAM, p') /\
    (exists c', cache p' = Some c' /\ is_full c' = true /\ pf_from c' = 3 + 2 /\ pf_len c' = 2 /\
       slice (pf_buffer c') 0 2 = slice disk (3 + 2) 2) /\
    coherent disk p' /\ is_prefetch_req p' = false /\ q_len (req_hdr p') = 2 /\
    holds_reply disk (req_hdr p') p'.
Proof.
  intros disk p. apply (prefetch_fill_coherent disk p (prefetch_create 6)); try reflexivity.
  - destruct (sample_wf (sample_read 3 4) (Some (prefetch_create 6)) idle_conn idle_conn) as [W1 W2 W3].
    constructor; [exact W1 | | exact W3]. subst p. cbn [rsp set_field buf]. rewrite !zlen_app.
    unfold zlen at 3. rewrite length_replicate. sizes. rewrite zlen_reply_bytes. change (zlen [3; 4; 5; 6]) with 4. lia.
  - change (4 <= 33554432). lia.
  - change (2 <= 6). lia.
  - change (0 <= 3). lia.
  - change (3 + 4 <= 8). lia.
  - split; [reflexivity |]. split; [reflexivity |]. subst p. cbn [rsp set_field buf ib_size].
    unfold slice at 1. rewrite drop_0. rewrite take_app_le by (rewrite length_app, length_reply_bytes; cbn; lia).
    reflexivity.
Defined.

(** C37: with a cache larger than half the largest request, a permitted read is
    doubled past the reply buffer: the reply is longer than the buffer allocated for
    it, and when its data arrives the proxy writes behind the end of the buffer. *)
Theorem prefetch_overruns_reply_buffer p c :
  px_wf p -> cache p = Some c -> is_full c = false -> q_type (req_hdr p) = REQUEST_READ ->
  request_wf (req_hdr p) ->
  NBD_MAX_SIZE / 2 < q_len (req_hdr p) <= NBD_MAX_SIZE -> q_len (req_hdr p) <= pf_size c ->
  q_from (req_hdr p) + 2 * q_len (req_hdr p) <= upstream_size p -> upstream_size p < 2 ^ 64 ->
  exists p', proxy_prefetch_for_request p WRITE_TO_UPSTREAM = Ok (WRITE_TO_UPSTREAM, p') /\
    zlen (buf (rsp p')) < NBD_REPLY_SIZE + q_len (req_hdr p') /\
    forall data k, zlen data = q_len (req_hdr p') -> sk_rx k = [RdBytes data] ->
      proxy_read_from_upstream
        (p' <| up := k |> <| rsp := (rsp p') <| needle := NBD_REPLY_SIZE |>
                                             <| ib_size := NBD_REPLY_SIZE + q_len (req_hdr p') |> |>)
        READ_FROM_UPSTREAM = Stop SFault.
Proof.
  intros [] Hc Hfull Ht (_ & _ & _ & _ & Hf & _) Hl Hs Hu Hu2. sizes.
  change (NBD_MAX_SIZE / 2) with 16777216 in Hl.
  unfold proxy_prefetch_for_request. rewrite Hc, Hfull, Ht. change (REQUEST_READ =? REQUEST_READ) with true.
  cbn [andb]. rewrite Hc. cbn [prefetch_size]. rewrite (u32_id (q_len (req_hdr p) * 2)), u64_id by lia.
  rewrite !(proj2 (Z.leb_le _ _)), (proj2 (Z.ltb_lt _ _)) by lia. cbn [andb]. unfold put_struct.
  match goal with |- context [mem_store (buf (req p)) 0 ?w] => assert (Hw : zlen w = 28) by reflexivity end.
  rewrite mem_store_ok by lia. cbn [mbind res_bind]. eexists. split; [reflexivity |].
  cbn [rsp req_hdr set_field q_len]. split; [lia |].
  intros data k Hd Hk. apply (read_past_buffer _ data); cbn [rsp up set_field buf needle ib_size]; try done; lia.
Qed.

Lemma prefetch_overruns_reply_buffer_witness :
  let p := sample_proxier (sample_read 0 20000000) (Some (prefetch_create 20000000)) idle_conn idle_conn in
  exists p', proxy_prefetch_for_request p WRITE_TO_UPSTREAM = Ok (WRITE_TO_UPSTREAM, p') /\
    zlen (buf (rsp p')) < NBD_REPLY_SIZE + q_len (req_hdr p') /\
    forall data k, zlen data = q_len (req_hdr p') -> sk_rx k = [RdBytes data] ->
      proxy_read_from_upstream
        (p' <| up := k |> <| rsp := (rsp p') <| needle := NBD_REPLY_SIZE |>
                                             <| ib_size := NBD_REPLY_SIZE + q_len (req_hdr p') |> |>)
        READ_FROM_UPSTREAM = Stop SFault.
Proof.
  intros p. apply (prefetch_overruns_reply_buffer p (prefetch_create 20000000)).
  - apply sample_wf.
  - reflexivity.
  - reflexivity.
  - reflexivity.
  - apply sample_read_wf; lia.
  - cbn [p sample_proxier req_hdr sample_read q_len]. sizes. rewrite HszM. split; [reflexivity | lia].
  - cbn [p sample_proxier req_hdr sample_read q_len prefetch_create pf_size]. lia.
  - cbn [p sample_proxier req_hdr sample_read q_len q_from upstream_size]. lia.
  - reflexivity.
Defined.
