(* ===== verification/Serve.v ===== *)
(** * The server: client table, access control, accepting, migration estimates

    Models src/src/server/serve.c, serve.h and flexthread.c, and the data of
    mirror.h. The client threads themselves are in Client.v: here a client is the
    object the table points to, in a heap, so that a pointer left behind is one. *)

From S2P Require Import Prelude Bitset IoUtil SockUtil Parse Acl.
From stdpp Require Export gmap.

Open Scope Z_scope.

(** ** flexthread.c: a mutex that knows its holder (0 is none) *)

Record flexthread_mutex := { holder : Z }.

Definition flexthread_mutex_create : flexthread_mutex := {| holder := 0 |}.

(** [pthread_mutex_lock] waits while another thread, or the same, holds it. *)
Definition flexthread_mutex_lock (self : Z) (ftm : flexthread_mutex) : res flexthread_mutex :=
  if holder ftm =? 0 then Ok {| holder := self |} else Stop SBlock.

Definition flexthread_mutex_unlock (ftm : flexthread_mutex) : flexthread_mutex := {| holder := 0 |}.

Definition flexthread_mutex_held (self : Z) (ftm : flexthread_mutex) : bool := self =? holder ftm.

Definition flexthread_mutex_destroy (self : Z) (ftm : flexthread_mutex) : res flexthread_mutex :=
  if flexthread_mutex_held self ftm then Ok (flexthread_mutex_unlock ftm)
  else if negb (0 =? holder ftm) then Stop SFatal
  else Ok ftm.

(** ** Data *)

Inductive mirror_finish_action := ACTION_EXIT | ACTION_UNLINK | ACTION_NOTHING.

Inductive mirror_state :=
| MS_UNKNOWN | MS_INIT | MS_GO | MS_ABANDONED | MS_DONE
| MS_FAIL_CONNECT | MS_FAIL_REJECTED | MS_FAIL_NO_HELLO | MS_FAIL_SIZE_MISMATCH.

#[export] Instance mirror_finish_action_eq_dec : EqDecision mirror_finish_action.
Proof. solve_decision. Defined.
#[export] Instance mirror_state_eq_dec : EqDecision mirror_state.
Proof. solve_decision. Defined.

(** [commit_signal] is Mirror.v's; [m_mapped] says that the file is mapped. *)
Record mirror := {
  abandon_signal : self_pipe;
  m_client : Z;
  max_bytes_per_second : Z;
  action_at_finish : mirror_finish_action;
  m_mapped : bool;
  offset : Z;
  commit_state : mirror_state;
  migration_started : Z;
  all_dirty : Z
}.

#[export] Instance mirror_eta : Settable mirror := fun m =>
  Build_mirror (abandon_signal m) (m_client m) (max_bytes_per_second m) (action_at_finish m)
    (m_mapped m) (offset m) (commit_state m) (migration_started m) (all_dirty m).

(** What the server thread uses of a [struct client]. *)
Record client_obj := { co_socket : Z; co_stopped : bool; co_stop_signal : self_pipe }.

Record client_tbl_entry := { thread : Z; address : mysockaddr; t_client : option Z }.

#[export] Instance client_tbl_entry_eta : Settable client_tbl_entry := fun e =>
  Build_client_tbl_entry (thread e) (address e) (t_client e).

Definition MAX_NBD_CLIENTS : Z := 16.

Record server := {
  bind_to : mysockaddr;
  tcp_backlog : Z;
  size : Z;
  close_signal : self_pipe;
  the_acl : option acl;
  acl_updated_signal : self_pipe;
  l_acl : flexthread_mutex;
  l_start_mirror : flexthread_mutex;
  s_mirror : option mirror;
  mirror_super : bool;
  mirror_can_start : bool;
  server_fd : Z;
  server_fd_open : bool;
  allocation_map : bitset;
  allocation_map_built : bool;
  allocation_map_not_built : bool;
  max_nbd_clients : nat;
  nbd_client : list client_tbl_entry;
  use_killswitch : bool;
  allow_new_clients : bool;
  success : bool;
  heap : gmap Z client_obj            (* the live clients, by address *)
}.

#[export] Instance server_eta : Settable server := fun s =>
  Build_server (bind_to s) (tcp_backlog s) (size s) (close_signal s) (the_acl s) (acl_updated_signal s)
    (l_acl s) (l_start_mirror s) (s_mirror s) (mirror_super s) (mirror_can_start s) (server_fd s)
    (server_fd_open s) (allocation_map s) (allocation_map_built s) (allocation_map_not_built s)
    (max_nbd_clients s) (nbd_client s) (use_killswitch s) (allow_new_clients s) (success s) (heap s).

(** ** Creation *)

Definition empty_entry : client_tbl_entry := {| thread := 0; address := zero_sockaddr; t_client := None |}.

Definition server_allow_new_clients (s : server) : server := s <| allow_new_clients := true |>.
Definition server_forbid_new_clients (s : server) : server := s <| allow_new_clients := false |>.

Definition server_create (pton4 pton6 : list Z -> option (list Z)) (s_ip_address s_port : list Z)
    (default_deny : bool) (s_acl_entries : list (list Z)) (max_clients : nat)
    (killswitch success_ : bool) : res server :=
  a ← parse_ip_to_sockaddr pton4 pton6 zero_sockaddr s_ip_address;
  a ← of_opt SFatal a;
  l ← acl_create pton4 pton6 s_acl_entries default_deny;
  if negb (acl_len l =? zlen s_acl_entries) then Stop SFatal
  else
    a ← parse_port s_port a;
    Ok (server_allow_new_clients
      {| bind_to := a; tcp_backlog := 10; size := 0; close_signal := self_pipe_create; the_acl := Some l;
         acl_updated_signal := self_pipe_create; l_acl := flexthread_mutex_create;
         l_start_mirror := flexthread_mutex_create; s_mirror := None; mirror_super := false;
         mirror_can_start := true; server_fd := 0; server_fd_open := false;
         allocation_map := bitset_alloc 0 4096; allocation_map_built := false;
         allocation_map_not_built := false; max_nbd_clients := max_clients;
         nbd_client := replicate max_clients empty_entry; use_killswitch := killswitch;
         allow_new_clients := false; success := success_; heap := ∅ |}).

(** The locks must be free or held by the caller. *)
Definition server_destroy (self : Z) (s : server) : res server :=
  let s := s <| acl_updated_signal := self_pipe_destroy (acl_updated_signal s) |>
             <| close_signal := self_pipe_destroy (close_signal s) |> in
  l1 ← flexthread_mutex_destroy self (l_start_mirror s);
  l2 ← flexthread_mutex_destroy self (l_acl s);
  Ok (s <| l_start_mirror := l1 |> <| l_acl := l2 |> <| the_acl := None |> <| nbd_client := [] |>).

(** The answer of [unlink]. *)
Definition server_unlink (unlinked : Z) : res unit := if unlinked <? 0 then Stop SFatal else Ok tt.

(** What [getsockname] answers. *)
Definition server_port (ret : Z) (addr : mysockaddr) : res Z :=
  if ret <? 0 then Stop SFatal else Ok (be16toh (sin_port addr)).

(** ** The client table *)

Definition deref (s : server) (p : option Z) : res client_obj :=
  p ← of_opt SFault p; of_opt SFault (heap s !! p).

Definition set_entry (s : server) (i : nat) (e : client_tbl_entry) : server :=
  s <| nbd_client := <[i := e]> (nbd_client s) |>.

(** [client_destroy], [client_signal_stop], [client_create] on the objects. *)
Definition client_destroy (s : server) (p : option Z) : res server :=
  _ ← deref s p;
  p ← of_opt SFault p;
  Ok (s <| heap := delete p (heap s) |>).

Definition client_signal_stop (s : server) (p : option Z) : res server :=
  c ← deref s p;
  sig ← self_pipe_signal (co_stop_signal c);
  p ← of_opt SFault p;
  Ok (s <| heap := <[p := {| co_socket := co_socket c; co_stopped := co_stopped c; co_stop_signal := sig |}]>
                     (heap s) |>).

Definition client_create (s : server) (p fd : Z) : server :=
  s <| heap := <[p := {| co_socket := fd; co_stopped := false; co_stop_signal := self_pipe_create |}]> (heap s) |>.

(** [joinfunc] gives the error number for a thread. *)
Definition tryjoin_client_thread (joinfunc : Z -> Z) (i : nat) (s : server) : res (bool * server) :=
  entry ← of_opt SFault (nbd_client s !! i);
  if thread entry =? 0 then Ok (false, s)
  else
    let join_errno := joinfunc (thread entry) in
    (* [join_errno != 0 && !entry->client->stopped] reads the client only after an error *)
    if negb (join_errno =? 0) then
      c ← deref s (t_client entry);
      if co_stopped c then Ok (false, s)
      else if join_errno =? EBUSY then Ok (false, s) else Stop SFatal
    else
      s' ← client_destroy s (t_client entry);
      Ok (true, set_entry s' i (entry <| t_client := None |> <| thread := 0 |>)).

(** With [pthread_tryjoin_np] and [pthread_join]. *)
Definition cleanup_client_thread := tryjoin_client_thread.
Definition join_client_thread := tryjoin_client_thread.

Fixpoint cleanup_from (joinfunc : Z -> Z) (i n : nat) (s : server) : res server :=
  match n with
  | O => Ok s
  | S n' => '(_, s') ← cleanup_client_thread joinfunc i s; cleanup_from joinfunc (S i) n' s'
  end.

Definition cleanup_client_threads (joinfunc : Z -> Z) (s : server) : res server :=
  cleanup_from joinfunc 0 (max_nbd_clients s) s.

(** The first slot whose thread is 0. *)
Fixpoint find_slot (i : nat) (tbl : list client_tbl_entry) : option nat :=
  match tbl with
  | [] => None
  | e :: tbl' => if thread e =? 0 then Some i else find_slot (S i) tbl'
  end.

(** [None] is -1. *)
Definition cleanup_and_find_client_slot (joinfunc : Z -> Z) (s : server) : res (option nat * server) :=
  s' ← cleanup_client_threads joinfunc s;
  Ok (find_slot 0 (take (max_nbd_clients s') (nbd_client s')), s').

Definition count_threads (tbl : list client_tbl_entry) : Z :=
  zlen (filter (fun e => thread e <> 0) tbl).

Definition server_count_clients (joinfunc : Z -> Z) (s : server) : res (Z * server) :=
  s' ← cleanup_client_threads joinfunc s;
  Ok (count_threads (take (max_nbd_clients s') (nbd_client s')), s').

(** ** Access control *)

Definition server_lock_acl (self : Z) (s : server) : res server :=
  l ← flexthread_mutex_lock self (l_acl s); Ok (s <| l_acl := l |>).
Definition server_unlock_acl (s : server) : server := s <| l_acl := flexthread_mutex_unlock (l_acl s) |>.
Definition server_acl_locked (self : Z) (s : server) : bool := flexthread_mutex_held self (l_acl s).

Definition server_acl_accepts (self : Z) (s : server) (client_address : mysockaddr) : res (bool * server) :=
  s ← server_lock_acl self s;
  accepted ← match the_acl s with Some a => acl_includes a client_address | None => Ok true end;
  Ok (accepted, server_unlock_acl s).

(** [sockaddr_address_string] gives NULL for another address family. *)
Definition server_should_accept_client (self : Z) (s : server) (client_address : mysockaddr)
    : res (bool * server) :=
  if negb ((family client_address =? AF_INET) || (family client_address =? AF_INET6) ||
           (family client_address =? AF_UNIX))
  then Ok (false, s)
  else server_acl_accepts self s client_address.

Definition server_replace_acl (self : Z) (s : server) (new_acl : acl) : res server :=
  s ← server_lock_acl self s;
  let s := server_unlock_acl (s <| the_acl := Some new_acl |>) in
  sig ← self_pipe_signal (acl_updated_signal s);
  Ok (s <| acl_updated_signal := sig |>).

Definition server_default_deny (s : server) : res bool :=
  a ← of_opt SFault (the_acl s); Ok (acl_default_deny a).

(** ** Accepting *)

(** What [accept_nbd_client] gets from the system: the results of the keepalive
    calls, of the thread joins, the address [xmalloc] returns for the client, and of
    [pthread_create] its result and what it leaves in [*thread]. *)
Record accept_input := {
  ai_keepalive : Z;
  ai_join : Z -> Z;
  ai_ptr : Z;
  ai_create : Z;
  ai_thread : Z
}.

(** The sockets the server closes itself are returned. *)
Definition accept_nbd_client (self : Z) (i : accept_input) (client_fd : Z) (client_address : mysockaddr)
    (s : server) : res (list Z * server) :=
  if ai_keepalive i <? 0 then Stop SFatal
  else
    '(ok, s) ← server_should_accept_client self s client_address;
    if negb ok then Ok ([client_fd], s)
    else
      '(oslot, s) ← cleanup_and_find_client_slot (ai_join i) s;
      match (oslot : option nat) with
      | None => Ok ([client_fd], s)
      | Some slot =>
          let s := client_create s (ai_ptr i) client_fd in
          let s := set_entry s slot {| thread := ai_thread i; address := client_address;
                                       t_client := Some (ai_ptr i) |} in
          if negb (ai_create i =? 0) then
            s ← client_destroy s (Some (ai_ptr i));
            Ok ([client_fd], s)
          else Ok ([], s)
      end.

Fixpoint audit_from (self : Z) (i n : nat) (s : server) : res server :=
  match n with
  | O => Ok s
  | S n' =>
      entry ← of_opt SFault (nbd_client s !! i);
      if thread entry =? 0 then audit_from self (S i) n' s
      else
        '(ok, s) ← server_acl_accepts self s (address entry);
        if (ok : bool) then audit_from self (S i) n' s
        else s ← client_signal_stop s (t_client entry); audit_from self (S i) n' s
  end.

Definition server_audit_clients (self : Z) (s : server) : res server :=
  audit_from self 0 (max_nbd_clients s) s.

Fixpoint close_from (i n : nat) (s : server) : res server :=
  match n with
  | O => Ok s
  | S n' =>
      entry ← of_opt SFault (nbd_client s !! i);
      if thread entry =? 0 then close_from (S i) n' s
      else s ← client_signal_stop s (t_client entry); close_from (S i) n' s
  end.

Definition server_close_clients (s : server) : res server := close_from 0 (max_nbd_clients s) s.

(** [server_join_clients]: the client objects stay. *)
Fixpoint join_from (joinfunc : Z -> Z) (i n : nat) (s : server) : res server :=
  match n with
  | O => Ok s
  | S n' =>
      entry ← of_opt SFault (nbd_client s !! i);
      let s := if negb (thread entry =? 0) && (joinfunc (thread entry) =? 0)
               then set_entry s i (entry <| thread := 0 |>) else s in
      join_from joinfunc (S i) n' s
  end.

Definition server_join_clients (joinfunc : Z -> Z) (s : server) : res server :=
  join_from joinfunc 0 (max_nbd_clients s) s.

(** ** Starting and stopping *)

Definition server_lock_start_mirror (self : Z) (s : server) : res server :=
  l ← flexthread_mutex_lock self (l_start_mirror s); Ok (s <| l_start_mirror := l |>).
Definition server_unlock_start_mirror (s : server) : server :=
  s <| l_start_mirror := flexthread_mutex_unlock (l_start_mirror s) |>.
Definition server_start_mirror_locked (self : Z) (s : server) : bool :=
  flexthread_mutex_held self (l_start_mirror s).

Definition server_prevent_mirror_start (s : server) : server := s <| mirror_can_start := false |>.
Definition server_allow_mirror_start (s : server) : server := s <| mirror_can_start := true |>.
Definition server_mirror_can_start (s : server) : bool := mirror_can_start s.
Definition server_is_mirroring (s : server) : bool := mirror_super s.
Definition server_is_in_control (s : server) : bool := success s.
Definition server_is_closed (s : server) : bool := negb (server_fd_open s).

Definition serve_signal_close (s : server) : res server :=
  p ← self_pipe_signal (close_signal s); Ok (s <| close_signal := p |>).

Definition server_control_arrived (s : server) : res server :=
  if success s then Ok s else serve_signal_close (s <| success := true |>).

(** [serve_wait_for_close] returns once the descriptor is closed. *)
Definition serve_wait_for_close (s : server) : res unit :=
  if server_fd_open s then Stop SBlock else Ok tt.

Definition serve_shutdown_is_graceful (self : Z) (s : server) : res (bool * server) :=
  s ← server_lock_start_mirror self s;
  let is_mirroring := server_is_mirroring s in
  let s := if is_mirroring then server_prevent_mirror_start s else s in
  Ok (negb is_mirroring, server_unlock_start_mirror s).

(** One round of [server_accept]: [select]'s result and the descriptors it found
    ready, and the connection [accept] returns. *)
Record round_input := {
  ri_select : Z;
  ri_close : bool;
  ri_signal : bool;
  ri_acl : bool;
  ri_server : bool;
  ri_client_fd : Z;
  ri_address : mysockaddr;
  ri_accept : accept_input
}.

(** [should_continue], the sockets closed at once, and the server. *)
Definition server_accept (self : Z) (signal_fd : Z) (i : round_input) (s : server)
    : res (bool * list Z * server) :=
  if ri_select i <? 0 then Stop SFatal
  else
    '(go, s) ← (if ri_close i then s ← server_close_clients s; Ok (false, s) else Ok (true, s));
    '(go, s) ←
      (if (0 <? signal_fd) && ri_signal i then
         s ← server_close_clients s;
         '(ok, s) ← (if success s then serve_shutdown_is_graceful self s else Ok (false, s));
         Ok (false, s <| success := ok |>)
       else Ok (go, s));
    s ← (if ri_acl i
         then server_audit_clients self
                (s <| acl_updated_signal := (self_pipe_signal_clear (acl_updated_signal s)).2 |>)
         else Ok s);
    '(closed, s) ←
      (if ri_server i then
         if allow_new_clients s then accept_nbd_client self (ri_accept i) (ri_client_fd i) (ri_address i) s
         else Ok ([ri_client_fd i], s)
       else Ok ([], s));
    Ok (go, closed, s).

(** [serve_accept_loop]: one input per round; the sockets closed at once. *)
Fixpoint serve_accept_loop (self signal_fd : Z) (inputs : list round_input) (s : server)
    : res (list Z * server) :=
  match inputs with
  | [] => Stop SBlock
  | i :: inputs' =>
      '(go, closed, s') ← server_accept self signal_fd i s;
      if (go : bool) then
        '(closed', s'') ← serve_accept_loop self signal_fd inputs' s'; Ok (closed ++ closed', s'')
      else Ok (closed, s')
  end.

(** The builder thread: [built] is what [build_allocation_map] answers. *)
Definition build_allocation_map_thread (fd : Z) (fuel : nat)
    (ioctl : Z -> Z -> option (list fiemap_extent)) (s : server) : res server :=
  if fd <? 0 then Stop SFatal
  else
    '(built, map) ← build_allocation_map ioctl fuel (allocation_map s) 0;
    let s := s <| allocation_map := map |> in
    Ok (if (built : bool) then s <| allocation_map_built := true |>
        else s <| allocation_map_not_built := true |>).

(** [serve_init_allocation_map]: the descriptor and the size the system reports. *)
Definition serve_init_allocation_map (fd file_size create : Z) (s : server) : res server :=
  if fd <? 0 then Stop SFatal
  else
    let sz := sector_round file_size in
    if sz <? 0 then Stop SFatal
    else if create <? 0 then Stop SFatal
    else Ok (s <| size := sz |> <| allocation_map := bitset_alloc sz 4096 |>).

(** ** Estimates of a migration *)

Definition server_mirror_bytes_remaining (s : server) : res Z :=
  if server_is_mirroring s then
    m ← of_opt SFault (s_mirror s);
    Ok (bitset_stream_queued_bytes (allocation_map s) BITSET_STREAM_SET +64 (size s -64 offset m))
  else Ok 0.

Definition server_mirror_bps (now : Z) (s : server) : res Z :=
  if server_is_mirroring s then
    m ← of_opt SFault (s_mirror s);
    let duration_ms := now -64 migration_started m in
    Ok (all_dirty m / (duration_ms / 1000 + 1))
  else Ok 0.

Definition server_mirror_eta (now : Z) (s : server) : res Z :=
  if server_is_mirroring s then
    bytes_to_xfer ← server_mirror_bytes_remaining s;
    bps ← server_mirror_bps now s;
    if u64 (bps + 1) =? 0 then Stop SFault else Ok (bytes_to_xfer / u64 (bps + 1))
  else Ok 0.

(** [server_abandon_mirror]: [super] is what the supervisor and its mirror do to the
    shared server from the signal until the join returns. *)
Definition server_abandon_mirror (super : server -> res server) (s : server) : res server :=
  if mirror_super s then
    m ← of_opt SFault (s_mirror s);
    sig ← self_pipe_signal (abandon_signal m);
    s ← super (s <| s_mirror := Some (m <| abandon_signal := sig |>) |>);
    Ok ((server_allow_mirror_start s) <| s_mirror := None |> <| mirror_super := false |>)
  else Ok s.

(** [serve_cleanup], once the control thread has closed its socket. The cancelled
    builder thread changes nothing more; that the map is freed is not represented. *)
Definition serve_cleanup (self : Z) (joinfunc : Z -> Z) (super : server -> res server) (s : server)
    : res server :=
  let s := if negb (server_fd s =? 0) then s <| server_fd_open := false |> else s in
  let need_mirror_lock := negb (server_start_mirror_locked self s) in
  s ← (if need_mirror_lock then server_lock_start_mirror self s else Ok s);
  s ← (if server_is_mirroring s then server_abandon_mirror super s else Ok s);
  let s := server_prevent_mirror_start s in
  let s := if need_mirror_lock then server_unlock_start_mirror s else s in
  s ← server_join_clients joinfunc s;
  let s := if server_start_mirror_locked self s then server_unlock_start_mirror s else s in
  Ok (if server_acl_locked self s then server_unlock_acl s else s).

(** ** The whole life of a server *)

(** What the calls that open the listening socket answer. *)
Record open_input := { oi_socket : Z; oi_reuseaddr : Z; oi_nodelay : Z; oi_bind : list answer; oi_listen : Z }.

Definition serve_open_server_socket (o : open_input) (s : server) : res server :=
  let s := s <| server_fd := oi_socket o |> in
  if server_fd s <? 0 then Stop SFatal
  else if oi_reuseaddr o <? 0 then Stop SFatal
  else if oi_nodelay o <? 0 then Stop SFatal
  else
    '(bound, _) ← sock_try_bind (oi_bind o);
    if negb (bound =? 0) then Stop SFatal
    else if oi_listen o <? 0 then Stop SFatal
    else Ok (s <| server_fd_open := true |>).

(** [do_serve]: the caller's signal that the socket is open, and [success] as the
    accept loop left it. *)
Definition do_serve (self signal_fd : Z) (open_signal : option self_pipe) (o : open_input)
    (fd file_size create : Z) (inputs : list round_input) (joinfunc : Z -> Z)
    (super : server -> res server) (s : server) : res (bool * option self_pipe * server) :=
  s ← serve_open_server_socket o s;
  sig ← match open_signal with
        | Some p => p ← self_pipe_signal p; Ok (Some p)
        | None => Ok None
        end;
  s ← serve_init_allocation_map fd file_size create s;
  '(_, s) ← serve_accept_loop self signal_fd inputs s;
  let ok := success s in
  s ← serve_cleanup self joinfunc super s;
  Ok (ok, sig, s).

(** * Lemmas *)

(** ** The table *)

(** A running entry points to a live client, and no two to the same one. *)
Record tbl_ok (s : server) : Prop := {
  tb_len : length (nbd_client s) = max_nbd_clients s;
  tb_live : forall i e, nbd_client s !! i = Some e -> thread e <> 0 ->
    exists p c, t_client e = Some p /\ heap s !! p = Some c;
  tb_inj : forall i j e e' p, nbd_client s !! i = Some e -> nbd_client s !! j = Some e' ->
    thread e <> 0 -> thread e' <> 0 -> t_client e = Some p -> t_client e' = Some p -> i = j
}.

(** Every client's pipe takes [n] more signals. *)
Definition signals_left (n : Z) (s : server) : Prop :=
  map_Forall (fun _ c => sp_open (co_stop_signal c) = true /\ 0 <= sp_bytes (co_stop_signal c) /\
                         sp_bytes (co_stop_signal c) + n <= PIPE_CAPACITY) (heap s).

(** What a stop signal makes of a client. *)
Definition signal_obj (c : client_obj) : client_obj :=
  {| co_socket := co_socket c; co_stopped := co_stopped c;
     co_stop_signal := {| sp_bytes := sp_bytes (co_stop_signal c) + 1; sp_open := true |} |}.

(** [s'] is [s] with the clients in [ps] signalled once. *)
Definition signalled (s s' : server) (ps : gset Z) : Prop :=
  s' = s <| heap := heap s' |> /\
  forall p, heap s' !! p = (if decide (p ∈ ps) then signal_obj <$> heap s !! p else heap s !! p).

Lemma set_heap_eta s : s = s <| heap := heap s |>.
Proof. by destruct s. Qed.

Lemma signalled_refl s : signalled s s ∅.
Proof. split; [apply set_heap_eta |]. intros p. by rewrite decide_False by set_solver. Qed.

Lemma signalled_tbl s s' ps : signalled s s' ps -> nbd_client s' = nbd_client s /\ max_nbd_clients s' = max_nbd_clients s.
Proof. by intros [-> _]. Qed.

Lemma signalled_ok s s' ps : tbl_ok s -> signalled s s' ps -> tbl_ok s'.
Proof.
  intros [] Hs. pose proof (signalled_tbl _ _ _ Hs) as (E1 & E2). destruct Hs as [_ Hh].
  constructor; rewrite ?E1, ?E2; try done.
  intros i e Hi Ht. destruct (tb_live0 i e Hi Ht) as (p & c & Hp & Hc).
  exists p. rewrite Hh, Hc. destruct (decide _); eauto.
Qed.

Lemma signalled_left n s s' ps : signals_left (n + 1) s -> signalled s s' ps -> signals_left n s'.
Proof.
  intros Hl [_ Hh] p c Hc. rewrite Hh in Hc. destruct (decide _) as [_ | _].
  - apply fmap_Some in Hc as (c0 & Hc & ->). specialize (Hl p c0 Hc). cbn in *. destruct Hl as (_ & ? & ?).
    split_and!; [done | lia | lia].
  - specialize (Hl p c Hc). cbn in Hl. destruct Hl as (? & ? & ?). split_and!; [done | lia | lia].
Qed.

(** Signalling one client that was not yet signalled. *)
Lemma client_signal_stop_spec s0 s ps p c :
  signalled s0 s ps -> p ∉ ps -> heap s0 !! p = Some c -> signals_left 1 s0 ->
  exists s', client_signal_stop s (Some p) = Ok s' /\ signalled s0 s' (ps ∪ {[p]}).
Proof.
  intros [Hf Hh] Hp Hc Hl. destruct (Hl p c Hc) as (H1 & H2 & H3). cbn in *.
  pose proof (Hh p) as Hsp. rewrite decide_False, Hc in Hsp by done.
  unfold client_signal_stop, deref. cbn [of_opt mbind res_bind]. rewrite Hsp. cbn [of_opt mbind res_bind].
  unfold self_pipe_signal. rewrite H1. replace (PIPE_CAPACITY <=? _) with false by lia. cbn [negb orb mbind res_bind].
  eexists. split; [reflexivity |]. split; [by rewrite Hf |].
  intros q. cbn [heap set_field]. destruct (decide (p = q)) as [<- | Hne].
  - rewrite lookup_insert_eq, decide_True by set_solver. by rewrite Hc.
  - rewrite lookup_insert_ne by done. rewrite Hh.
    destruct (decide (q ∈ ps)); [rewrite decide_True by set_solver | rewrite decide_False by set_solver]; done.
Qed.

(** The pointers of the running entries from [i] on that [f] selects. *)
Fixpoint selected (f : client_tbl_entry -> bool) (l : list client_tbl_entry) : gset Z :=
  match l with
  | [] => ∅
  | e :: l' =>
      match t_client e with
      | Some p => if negb (thread e =? 0) && f e then {[p]} ∪ selected f l' else selected f l'
      | None => selected f l'
      end
  end.

Lemma elem_selected f l p :
  p ∈ selected f l <-> exists i e, l !! i = Some e /\ thread e <> 0 /\ f e = true /\ t_client e = Some p.
Proof.
  induction l as [| e l IH]; cbn [selected].
  - split; [set_solver | intros (i & e & Hi & _); by rewrite lookup_nil in Hi].
  - assert (Hcase : (exists i e0, (e :: l) !! i = Some e0 /\ thread e0 <> 0 /\ f e0 = true /\ t_client e0 = Some p) <->
      (thread e <> 0 /\ f e = true /\ t_client e = Some p) \/ p ∈ selected f l).
    { rewrite IH. split.
      - intros ([| i] & e0 & Hi & H); [injection Hi as ->; by left | right; by exists i, e0].
      - intros [H | (i & e0 & H)]; [by exists O, e | by exists (S i), e0]. }
    rewrite Hcase. destruct (t_client e) as [q |].
    + destruct (negb (thread e =? 0) && f e) eqn:E.
      * rewrite elem_of_union, elem_of_singleton. apply andb_true_iff in E as [E1 E2].
        apply negb_true_iff, Z.eqb_neq in E1. split; [intros [-> | ?]; auto | intros [(_ & _ & [= ->]) | ?]; auto].
      * split; [auto | intros [(H1 & H2 & _) | Hin]; [| exact Hin]]. rewrite H2 in E.
        apply Z.eqb_neq in H1. by rewrite H1 in E.
    + split; [auto | intros [(_ & _ & ?) |]; done].
Qed.

Lemma drop_entry {A} (l : list A) i e : l !! i = Some e -> drop i l = e :: drop (S i) l.
Proof. intros H. by rewrite (drop_S _ e). Qed.

Lemma selected_app f l k : selected f (l ++ k) = selected f l ∪ selected f k.
Proof.
  induction l as [| e l IH]; cbn; [set_solver |]. destruct (t_client e); [destruct (_ && _) |]; rewrite IH; set_solver.
Qed.

Section SignalLoop.
Context (s0 : server) (f : client_tbl_entry -> bool).
Context (Hok : tbl_ok s0) (Hroom : signals_left 1 s0).

Lemma skip_entry i e :
  nbd_client s0 !! i = Some e -> thread e = 0 \/ f e = false ->
  selected f (take (S i) (nbd_client s0)) = selected f (take i (nbd_client s0)).
Proof using.
  intros Hi He. rewrite (take_S_r _ _ e) by done. rewrite selected_app. cbn.
  assert (negb (thread e =? 0) && f e = false) as ->.
  { destruct He as [-> | ->]; [done | apply andb_false_r]. }
  destruct (t_client e); apply union_empty_r_L.
Qed.

Lemma signal_entry i e s :
  nbd_client s0 !! i = Some e -> thread e <> 0 -> f e = true ->
  signalled s0 s (selected f (take i (nbd_client s0))) ->
  exists s', client_signal_stop s (t_client e) = Ok s' /\
    signalled s0 s' (selected f (take (S i) (nbd_client s0))).
Proof using Hok Hroom.
  intros Hi Ht Hf Hs. destruct (tb_live _ Hok i e Hi Ht) as (p & c & Hp & Hc). rewrite Hp.
  assert (Hfresh : p ∉ selected f (take i (nbd_client s0))).
  { rewrite elem_selected. intros (j & e' & Hj & Ht' & _ & Hp').
    pose proof Hj as Hlt. apply lookup_lt_Some in Hlt. rewrite length_take in Hlt.
    rewrite lookup_take_lt in Hj by lia.
    pose proof (tb_inj _ Hok i j e e' p Hi Hj Ht Ht' Hp Hp'). lia. }
  destruct (client_signal_stop_spec s0 s _ p c Hs Hfresh Hc Hroom) as (s' & E & H). exists s'. split; [done |].
  rewrite (take_S_r _ _ e), selected_app by done. cbn. apply Z.eqb_neq in Ht. rewrite Hp, Ht, Hf. cbn.
  by rewrite union_empty_r_L.
Qed.
End SignalLoop.

Lemma close_from_spec s0 n : forall i s,
  tbl_ok s0 -> signals_left 1 s0 -> (i + n = length (nbd_client s0))%nat ->
  signalled s0 s (selected (fun _ => true) (take i (nbd_client s0))) ->
  exists s', close_from i n s = Ok s' /\ signalled s0 s' (selected (fun _ => true) (nbd_client s0)).
Proof.
  induction n as [| n IH]; intros i s Hok Hl Hn Hs; cbn [close_from].
  { exists s. rewrite take_ge in Hs by lia. done. }
  destruct (nbd_client s0 !! i) as [e |] eqn:Hi; [| apply lookup_ge_None in Hi; lia].
  rewrite (proj1 (signalled_tbl _ _ _ Hs)), Hi. cbn [of_opt mbind res_bind].
  destruct (Z.eqb_spec (thread e) 0) as [H0 | H0].
  - apply IH; [done | done | lia |]. rewrite (skip_entry _ _ _ e); auto.
  - destruct (signal_entry s0 (fun _ => true) Hok Hl i e s Hi H0 eq_refl Hs) as (s' & -> & Hs').
    cbn [mbind res_bind]. apply IH; [done | done | lia | done].
Qed.

Lemma server_close_clients_spec s :
  tbl_ok s -> signals_left 1 s ->
  exists s', server_close_clients s = Ok s' /\ signalled s s' (selected (fun _ => true) (nbd_client s)).
Proof.
  intros Hok Hl. unfold server_close_clients. apply close_from_spec; [done | done | rewrite (tb_len _ Hok); lia |].
  apply signalled_refl.
Qed.

(** ** Access control *)

Definition unlocked (s : server) : Prop := holder (l_acl s) = 0 /\ holder (l_start_mirror s) = 0.

Definition acl_decision (s : server) (a : mysockaddr) : res bool :=
  match the_acl s with Some l => acl_includes l a | None => Ok true end.

Lemma acl_accepts_spec self s a b :
  unlocked s -> acl_decision s a = Ok b -> server_acl_accepts self s a = Ok (b, s).
Proof.
  intros [Hu _] Hd. unfold server_acl_accepts, server_lock_acl, flexthread_mutex_lock. rewrite Hu.
  cbn [Z.eqb mbind res_bind]. cbn [the_acl set_field]. fold (acl_decision s a). rewrite Hd. cbn.
  destruct s; cbn in *. destruct l_acl0; cbn in *. by subst.
Qed.

Lemma signalled_frame s s' ps : signalled s s' ps ->
  unlocked s' = unlocked s /\ (forall a, acl_decision s' a = acl_decision s a) /\
  allow_new_clients s' = allow_new_clients s /\ mirror_super s' = mirror_super s /\ success s' = success s.
Proof. by intros [-> _]. Qed.

(** The list decides about every client that runs. *)
Definition decided (s : server) : Prop :=
  Forall (fun e => thread e <> 0 -> exists b, acl_decision s (address e) = Ok b) (nbd_client s).

(** Whether an entry's address is refused now. *)
Definition refused (s : server) (e : client_tbl_entry) : bool :=
  match acl_decision s (address e) with Ok false => true | _ => false end.

Lemma audit_from_spec self s0 n : forall i s,
  tbl_ok s0 -> signals_left 1 s0 -> unlocked s0 -> (i + n = length (nbd_client s0))%nat ->
  decided s0 ->
  signalled s0 s (selected (refused s0) (take i (nbd_client s0))) ->
  exists s', audit_from self i n s = Ok s' /\ signalled s0 s' (selected (refused s0) (nbd_client s0)).
Proof.
  induction n as [| n IH]; intros i s Hok Hl Hu Hn Hd Hs; cbn [audit_from].
  { exists s. rewrite take_ge in Hs by lia. done. }
  destruct (nbd_client s0 !! i) as [e |] eqn:Hi; [| apply lookup_ge_None in Hi; lia].
  rewrite (proj1 (signalled_tbl _ _ _ Hs)), Hi. cbn [of_opt mbind res_bind].
  destruct (Z.eqb_spec (thread e) 0) as [H0 | H0].
  { apply IH; [done | done | done | lia | done |]. rewrite (skip_entry _ _ _ e); auto. }
  destruct (signalled_frame _ _ _ Hs) as (F1 & F2 & _).
  destruct (proj1 (Forall_lookup _ _) Hd i e Hi H0) as [b Hb].
  rewrite (acl_accepts_spec self s (address e) b) by (rewrite ?F1, ?F2; done).
  cbn [mbind res_bind]. destruct b.
  - apply IH; [done | done | done | lia | done |]. rewrite (skip_entry _ _ _ e); [done | done |].
    right. unfold refused. by rewrite Hb.
  - assert (Hr : refused s0 e = true) by (unfold refused; by rewrite Hb).
    destruct (signal_entry s0 (refused s0) Hok Hl i e s Hi H0 Hr Hs) as (s' & -> & Hs').
    cbn [mbind res_bind]. apply IH; [done | done | done | lia | done | done].
Qed.

Lemma server_audit_clients_spec self s :
  tbl_ok s -> signals_left 1 s -> unlocked s ->
  decided s ->
  exists s', server_audit_clients self s = Ok s' /\ signalled s s' (selected (refused s) (nbd_client s)).
Proof.
  intros Hok Hl Hu Hd. unfold server_audit_clients.
  apply audit_from_spec; [done | done | done | rewrite (tb_len _ Hok); lia | done |]. apply signalled_refl.
Qed.

(** When the access control list is replaced, the audit sends a stop signal to
    each running client whose address the new list refuses, once, and to no other,
    and changes nothing else. *)
Lemma audit_stops_refused self s j e p c :
  tbl_ok s -> signals_left 1 s -> unlocked s ->
  decided s ->
  nbd_client s !! j = Some e -> thread e <> 0 -> t_client e = Some p -> heap s !! p = Some c ->
  exists s', server_audit_clients self s = Ok s' /\ s' = s <| heap := heap s' |> /\
    heap s' !! p = Some (if refused s e then signal_obj c else c).
Proof.
  intros Hok Hl Hu Hd Hj Ht Hp Hc.
  destruct (server_audit_clients_spec self s Hok Hl Hu Hd) as (s' & E & Hf & Hh).
  exists s'. split; [done |]. split; [done |]. rewrite Hh, Hc.
  destruct (refused s e) eqn:Er.
  - rewrite decide_True; [done |]. apply elem_selected. by exists j, e.
  - rewrite decide_False; [done |]. rewrite elem_selected. intros (k & e' & Hk & Ht' & Hr & Hp').
    assert (j = k) as <- by (by apply (tb_inj _ Hok j k e e' p)). congruence.
Qed.

(** ** Slots *)

(** [s'] is [s] after some finished clients were tidied away. *)
Record reaped (s s' : server) : Prop := {
  rp_frame : s' = s <| nbd_client := nbd_client s' |> <| heap := heap s' |>;
  rp_ok : tbl_ok s';
  rp_kept : forall j e, nbd_client s' !! j = Some e -> thread e <> 0 -> nbd_client s !! j = Some e;
  rp_heap : heap s' ⊆ heap s
}.

Lemma reaped_refl s : tbl_ok s -> reaped s s.
Proof. intros H. constructor; [by destruct s | done | done | done]. Qed.

Lemma reaped_trans s1 s2 s3 : reaped s1 s2 -> reaped s2 s3 -> reaped s1 s3.
Proof.
  intros [F1 _ K1 H1] [F2 O2 K2 H2]. constructor; [| done | by auto | by etrans].
  rewrite F2, F1. by destruct s1.
Qed.

(** Freeing the client of a slot. *)
Lemma free_slot_ok s i e p :
  tbl_ok s -> nbd_client s !! i = Some e -> thread e <> 0 -> t_client e = Some p ->
  reaped s (set_entry (s <| heap := delete p (heap s) |>) i (e <| t_client := None |> <| thread := 0 |>)).
Proof.
  intros Hok Hi Ht Hp. pose proof Hok as [Hlen Hlive Hinj].
  assert (Hrun : forall j e', <[i := e <| t_client := None |> <| thread := 0 |>]> (nbd_client s) !! j = Some e' ->
    thread e' <> 0 -> j <> i /\ nbd_client s !! j = Some e').
  { intros j e' Hj Hne. destruct (decide (i = j)) as [<- | Hij].
    - rewrite list_lookup_insert_eq in Hj by (by apply lookup_lt_Some in Hi). injection Hj as <-. done.
    - rewrite list_lookup_insert_ne in Hj by done. split; [congruence | done]. }
  constructor; [by destruct s | | |].
  - constructor; cbn [nbd_client heap max_nbd_clients set_entry set_field].
    + by rewrite length_insert.
    + intros j e' Hj Hne. destruct (Hrun j e' Hj Hne) as [Hji Hj']. destruct (Hlive j e' Hj' Hne) as (q & c & Hq & Hc).
      exists q, c. split; [done |]. rewrite lookup_delete_ne; [done |]. intros <-.
      by pose proof (Hinj i j e e' p Hi Hj' Ht Hne Hp Hq).
    + intros j k e1 e2 q H1 H2 N1 N2. destruct (Hrun j e1 H1 N1) as [_ H1']. destruct (Hrun k e2 H2 N2) as [_ H2'].
      by apply (Hinj j k e1 e2 q).
  - intros j e' Hj Hne. by apply (Hrun j e').
  - apply delete_subseteq.
Qed.

Definition joins_ok (joinfunc : Z -> Z) : Prop := forall t, joinfunc t = 0 \/ joinfunc t = EBUSY.

Lemma tryjoin_spec joinfunc i s e :
  tbl_ok s -> joins_ok joinfunc -> nbd_client s !! i = Some e ->
  exists b s', tryjoin_client_thread joinfunc i s = Ok (b, s') /\ reaped s s' /\
    (forall e', nbd_client s' !! i = Some e' -> thread e' <> 0 -> joinfunc (thread e') <> 0).
Proof.
  intros Hok Hj Hi. unfold tryjoin_client_thread. rewrite Hi. cbn [of_opt mbind res_bind].
  destruct (Z.eqb_spec (thread e) 0) as [H0 | H0].
  { exists false, s. split; [done |]. split; [by apply reaped_refl |]. intros e' He'. congruence. }
  destruct (tb_live _ Hok i e Hi H0) as (p & c & Hp & Hc). rewrite Hp. unfold deref, client_destroy.
  destruct (Hj (thread e)) as [E | E]; rewrite E.
  - cbn. rewrite Hc. cbn [of_opt mbind res_bind].
    eexists true, _. split; [reflexivity |]. split; [by apply free_slot_ok |].
    intros e' He'. cbn [nbd_client set_entry set_field] in He'.
    rewrite list_lookup_insert_eq in He' by (by apply lookup_lt_Some in Hi). by injection He' as <-.
  - cbn. rewrite Hc. cbn. exists false, s.
    split; [by destruct (co_stopped c) |]. split; [by apply reaped_refl |].
    intros e' He' _. rewrite Hi in He'. injection He' as <-. by rewrite E.
Qed.

Lemma cleanup_from_spec joinfunc n : forall i s,
  tbl_ok s -> joins_ok joinfunc -> (i + n = length (nbd_client s))%nat ->
  exists s', cleanup_from joinfunc i n s = Ok s' /\ reaped s s' /\
    (forall j e, (i <= j)%nat -> nbd_client s' !! j = Some e -> thread e <> 0 -> joinfunc (thread e) <> 0).
Proof.
  induction n as [| n IH]; intros i s Hok Hj Hn; cbn [cleanup_from].
  { exists s. split; [done |]. split; [by apply reaped_refl |]. intros j e Hle He.
    apply lookup_lt_Some in He. lia. }
  destruct (nbd_client s !! i) as [e |] eqn:Hi; [| apply lookup_ge_None in Hi; lia].
  destruct (tryjoin_spec joinfunc i s e Hok Hj Hi) as (b & s1 & E1 & R1 & J1).
  unfold cleanup_client_thread. rewrite E1. cbn [mbind res_bind].
  assert (Hm : max_nbd_clients s1 = max_nbd_clients s) by (rewrite (rp_frame _ _ R1); done).
  destruct (IH (S i) s1) as (s2 & E2 & R2 & J2); [apply R1 | done | |].
  { rewrite (tb_len _ (rp_ok _ _ R1)), Hm, <- (tb_len _ Hok). lia. }
  exists s2. split; [done |]. split; [by apply (reaped_trans s s1 s2) |].
  intros j ej Hle Hej Hne. destruct (decide (j = i)) as [-> | Hji].
  - apply J1; [| done]. by apply (rp_kept _ _ R2).
  - apply (J2 j); [lia | done | done].
Qed.

(** An entry whose thread still runs is left alone by the tidying up. *)
Lemma tryjoin_keeps joinfunc i s b s' j e :
  tryjoin_client_thread joinfunc i s = Ok (b, s') -> nbd_client s !! j = Some e -> joinfunc (thread e) <> 0 ->
  nbd_client s' !! j = Some e.
Proof.
  unfold tryjoin_client_thread. intros H Hj Hne. apply bind_Ok in H as (entry & Hi & H).
  destruct (thread entry =? 0); [by injection H as _ <- |].
  destruct (Z.eqb_spec (joinfunc (thread entry)) 0) as [E | E]; cbn [negb] in H.
  - apply bind_Ok in H as (s1 & H1 & [= _ <-]). unfold client_destroy in H1.
    apply bind_Ok in H1 as (c & _ & H1). apply bind_Ok in H1 as (p & _ & [= <-]).
    cbn [nbd_client set_entry set_field]. destruct (nbd_client s !! i) as [e' |] eqn:Ei; [| done].
    injection Hi as <-. rewrite list_lookup_insert_ne; [done |]. intros ->. congruence.
  - apply bind_Ok in H as (c & _ & H). destruct (co_stopped c); [by injection H as _ <- |].
    destruct (_ =? EBUSY); [by injection H as _ <- | done].
Qed.

Lemma cleanup_keeps joinfunc n : forall i s s' j e,
  cleanup_from joinfunc i n s = Ok s' -> nbd_client s !! j = Some e -> joinfunc (thread e) <> 0 ->
  nbd_client s' !! j = Some e.
Proof.
  induction n as [| n IH]; intros i s s' j e H Hj Hne; cbn [cleanup_from] in H; [by injection H as <- |].
  apply bind_Ok in H as ([b s1] & H1 & H). apply (IH (S i) s1 s' j e H); [| done]. by apply (tryjoin_keeps joinfunc i s b s1).
Qed.

Lemma slot_keeps joinfunc s o s' j e :
  cleanup_and_find_client_slot joinfunc s = Ok (o, s') -> nbd_client s !! j = Some e -> joinfunc (thread e) <> 0 ->
  nbd_client s' !! j = Some e.
Proof.
  unfold cleanup_and_find_client_slot, cleanup_client_threads. intros H. apply bind_Ok in H as (s1 & H & [= _ <-]).
  by apply (cleanup_keeps _ _ _ _ _ _ _ H).
Qed.

Lemma find_slot_spec tbl : forall i,
  match find_slot i tbl with
  | Some k => (i <= k)%nat /\ exists e, tbl !! (k - i)%nat = Some e /\ thread e = 0
  | None => forall j e, tbl !! j = Some e -> thread e <> 0
  end.
Proof.
  induction tbl as [| e tbl IH]; intros i; cbn [find_slot]; [by intros j e; rewrite lookup_nil |].
  destruct (Z.eqb_spec (thread e) 0) as [H0 | H0].
  { split; [lia |]. exists e. by rewrite Nat.sub_diag. }
  specialize (IH (S i)). destruct (find_slot (S i) tbl) as [k |].
  - destruct IH as (Hk & e' & He' & Ht). split; [lia |]. exists e'.
    by replace (k - i)%nat with (S (k - S i)) by lia.
  - intros [| j] e' He'; [by injection He' as <- | by apply (IH j)].
Qed.

Lemma slot_spec joinfunc s :
  tbl_ok s -> joins_ok joinfunc ->
  exists o s', cleanup_and_find_client_slot joinfunc s = Ok (o, s') /\ reaped s s' /\
    match o with
    | Some k => exists e, nbd_client s' !! k = Some e /\ thread e = 0
    | None => forall j e, nbd_client s' !! j = Some e -> thread e <> 0 /\ joinfunc (thread e) <> 0
    end.
Proof.
  intros Hok Hj. unfold cleanup_and_find_client_slot, cleanup_client_threads.
  destruct (cleanup_from_spec joinfunc (max_nbd_clients s) 0 s Hok Hj) as (s' & -> & R & J);
    [by rewrite (tb_len _ Hok) |].
  cbn [mbind res_bind]. rewrite take_ge by (rewrite (tb_len _ (rp_ok _ _ R)); lia).
  eexists _, s'. split; [reflexivity |]. split; [done |].
  pose proof (find_slot_spec (nbd_client s') 0) as H. destruct (find_slot 0 (nbd_client s')) as [k |].
  - destruct H as (_ & e & He & Ht). exists e. by rewrite Nat.sub_0_r in He.
  - intros j e He. split; [by apply (H j) |]. apply (J j); [lia | done | by apply (H j)].
Qed.

(** A fresh client in a free slot. *)
Lemma fill_slot_ok s k e t a p fd :
  tbl_ok s -> nbd_client s !! k = Some e -> thread e = 0 -> heap s !! p = None -> t <> 0 ->
  tbl_ok (set_entry (client_create s p fd) k {| thread := t; address := a; t_client := Some p |}).
Proof.
  intros [Hlen Hlive Hinj] Hk Hz Hp Ht. pose proof (lookup_lt_Some _ _ _ Hk) as Hlt.
  set (ne := {| thread := t; address := a; t_client := Some p |}).
  assert (Hcase : forall j e', <[k := ne]> (nbd_client s) !! j = Some e' ->
    (j = k /\ e' = ne) \/ (j <> k /\ nbd_client s !! j = Some e')).
  { intros j e' Hj. destruct (decide (k = j)) as [<- | Hne].
    - rewrite list_lookup_insert_eq in Hj by done. injection Hj as <-. by left.
    - rewrite list_lookup_insert_ne in Hj by done. right. split; [congruence | done]. }
  assert (Hold : forall j e', nbd_client s !! j = Some e' -> thread e' <> 0 -> t_client e' <> Some p).
  { intros j e' Hj Hne Heq. destruct (Hlive j e' Hj Hne) as (q & c & Hq & Hc). congruence. }
  constructor; cbn [nbd_client heap max_nbd_clients set_entry client_create set_field].
  - by rewrite length_insert.
  - intros j e' Hj Hne. destruct (Hcase j e' Hj) as [[-> ->] | [_ Hj']].
    + exists p, {| co_socket := fd; co_stopped := false; co_stop_signal := self_pipe_create |}.
      split; [done |]. apply lookup_insert_eq.
    + destruct (Hlive j e' Hj' Hne) as (q & c & Hq & Hc). exists q, c. split; [done |].
      rewrite lookup_insert_ne; [done |]. congruence.
  - intros i j e1 e2 q H1 H2 N1 N2 Q1 Q2.
    destruct (Hcase i e1 H1) as [[-> ->] | [_ H1']]; destruct (Hcase j e2 H2) as [[-> ->] | [_ H2']].
    + done.
    + injection Q1 as <-. by destruct (Hold j e2 H2' N2).
    + injection Q2 as <-. by destruct (Hold i e1 H1' N1).
    + by apply (Hinj i j e1 e2 q).
Qed.

(** ** Accepting *)

(** The system behaves for a new connection: the calls succeed, threads are running
    or finished, and [xmalloc] returns a free address. *)
Record accept_ok (i : accept_input) (s : server) : Prop := {
  ao_keepalive : 0 <= ai_keepalive i;
  ao_join : joins_ok (ai_join i);
  ao_fresh : heap s !! ai_ptr i = None;
  ao_create : ai_create i = 0;
  ao_thread : ai_thread i <> 0
}.

Definition known_family (a : mysockaddr) : bool :=
  (family a =? AF_INET) || (family a =? AF_INET6) || (family a =? AF_UNIX).

(** The entry of a new client. *)
Definition new_entry (i : accept_input) (a : mysockaddr) : client_tbl_entry :=
  {| thread := ai_thread i; address := a; t_client := Some (ai_ptr i) |}.

(** Every client whose thread still runs stays in its slot. *)
Definition keeps_running (i : accept_input) (s s' : server) : Prop :=
  forall j e, nbd_client s !! j = Some e -> thread e <> 0 -> ai_join i (thread e) <> 0 -> nbd_client s' !! j = Some e.

(** The connection is closed at once, and only for a reason. *)
Definition turned_away (i : accept_input) (a : mysockaddr) (s s' : server) : Prop :=
  keeps_running i s s' /\
  (forall j e, nbd_client s' !! j = Some e -> thread e <> 0 -> nbd_client s !! j = Some e) /\
  (known_family a = false \/ acl_decision s a = Ok false \/
   forall j e, nbd_client s' !! j = Some e -> thread e <> 0 /\ ai_join i (thread e) <> 0).

(** A thread for it runs in a slot that was free, or whose thread had ended. *)
Definition let_in (i : accept_input) (a : mysockaddr) (fd : Z) (s s' : server) : Prop :=
  known_family a = true /\ acl_decision s a = Ok true /\ keeps_running i s s' /\
  heap s' !! ai_ptr i =
    Some {| co_socket := fd; co_stopped := false; co_stop_signal := self_pipe_create |} /\
  exists k e0, nbd_client s !! k = Some e0 /\ (thread e0 = 0 \/ ai_join i (thread e0) = 0) /\
    nbd_client s' !! k = Some (new_entry i a) /\
    forall j e, j <> k -> nbd_client s' !! j = Some e -> thread e <> 0 -> nbd_client s !! j = Some e.

Lemma accept_nbd_client_spec self i fd a s b :
  tbl_ok s -> unlocked s -> accept_ok i s -> acl_decision s a = Ok b ->
  exists closed s', accept_nbd_client self i fd a s = Ok (closed, s') /\ tbl_ok s' /\ unlocked s' /\
    (closed = [fd] /\ turned_away i a s s' \/ closed = [] /\ let_in i a fd s s').
Proof.
  intros Hok Hu [A1 A2 A3 A4 A5] Hb. unfold accept_nbd_client, server_should_accept_client, turned_away, let_in.
  replace (ai_keepalive i <? 0) with false by lia. fold (known_family a).
  assert (Hrun : forall j e, nbd_client s !! j = Some e -> thread e <> 0 -> nbd_client s !! j = Some e) by done.
  assert (Hsame : keeps_running i s s) by (by intros j e).
  destruct (known_family a) eqn:Ef; cbn [negb mbind res_bind].
  2:{ exists [fd], s. split; [done |]. split_and!; try done. left. split; [done |]. split_and!; [done | done | by left]. }
  rewrite (acl_accepts_spec self s a b Hu Hb). cbn [mbind res_bind]. destruct b; cbn [negb].
  2:{ exists [fd], s. split; [done |]. split_and!; try done. left. split; [done |]. split_and!; [done | done | right; by left]. }
  destruct (slot_spec (ai_join i) s Hok A2) as (o & s1 & E & R & H). rewrite E. cbn [mbind res_bind].
  assert (Hkeep : keeps_running i s s1) by (intros j e Hj _ Hne; by apply (slot_keeps (ai_join i) s o)).
  assert (Hu1 : unlocked s1) by (rewrite (rp_frame _ _ R); exact Hu).
  destruct o as [k |].
  2:{ exists [fd], s1. split; [done |]. split_and!; [apply R | done |]. left. split; [done |].
      split_and!; [done | apply R | right; by right]. }
  destruct H as (e & He & Hz). rewrite A4. cbn [Z.eqb negb].
  assert (Hfresh : heap s1 !! ai_ptr i = None) by (eapply lookup_weaken_None; [exact A3 | apply R]).
  eexists [], _. split; [reflexivity |].
  split; [apply (fill_slot_ok s1 k e); [apply R | done ..] |]. split; [exact Hu1 |]. right. split; [done |].
  pose proof (lookup_lt_Some _ _ _ He) as Hlt.
  split_and!; [done | done | | apply lookup_insert_eq |].
  { intros j e' Hj Hne Hj'. cbn [nbd_client set_entry client_create set_field].
    pose proof (Hkeep j e' Hj Hne Hj'). rewrite list_lookup_insert_ne; [done |]. intros <-. congruence. }
  assert (Hlt' : (k < length (nbd_client s))%nat).
  { rewrite (tb_len _ (rp_ok _ _ R)), (rp_frame _ _ R) in Hlt. by rewrite (tb_len _ Hok). }
  destruct (lookup_lt_is_Some_2 _ _ Hlt') as [e0 He0].
  exists k, e0. split; [done |]. split.
  { destruct (decide (thread e0 = 0)) as [? | Hn0]; [by left | right].
    destruct (decide (ai_join i (thread e0) = 0)) as [? | Hj0]; [done |].
    pose proof (Hkeep k e0 He0 Hn0 Hj0). congruence. }
  cbn [nbd_client set_entry client_create set_field]. split.
  - by apply list_lookup_insert_eq.
  - intros j e' Hjk Hj Hne. rewrite list_lookup_insert_ne in Hj by done. by apply (rp_kept _ _ R).
Qed.

(** A pipe that has had bytes taken out. *)
Definition drained (p' p : self_pipe) : Prop :=
  sp_open p' = sp_open p /\ sp_bytes p' <= sp_bytes p /\ (0 <= sp_bytes p -> 0 <= sp_bytes p').

Lemma clear_drained p : drained (self_pipe_signal_clear p).2 p.
Proof. unfold drained, self_pipe_signal_clear. destruct p as [b []]; cbn; [destruct (0 <? b) eqn:E; cbn; lia | lia]. Qed.

(** What the stages of a round before the accept keep. *)
Record stage (n : Z) (s0 s : server) : Prop := {
  sg_tbl : nbd_client s = nbd_client s0;
  sg_ok : tbl_ok s;
  sg_unlocked : unlocked s;
  sg_acl : the_acl s = the_acl s0;
  sg_allow : allow_new_clients s = allow_new_clients s0;
  sg_fresh : forall p, heap s0 !! p = None -> heap s !! p = None;
  sg_left : signals_left n s;
  sg_mirror : s_mirror s = s_mirror s0 /\ mirror_super s = mirror_super s0;
  sg_sizes : size s = size s0 /\ max_nbd_clients s = max_nbd_clients s0;
  sg_pipe : drained (acl_updated_signal s) (acl_updated_signal s0);
  sg_fd : server_fd s = server_fd s0 /\ server_fd_open s = server_fd_open s0
}.

Lemma stage_signalled n s0 s s' ps : stage (n + 1) s0 s -> signalled s s' ps -> stage n s0 s'.
Proof.
  intros [] Hs. pose proof Hs as [Hf Hh]. constructor.
  - by rewrite (proj1 (signalled_tbl _ _ _ Hs)).
  - by apply (signalled_ok s s' ps).
  - by rewrite (proj1 (signalled_frame _ _ _ Hs)).
  - by rewrite Hf.
  - by rewrite Hf.
  - intros p Hp. rewrite Hh, (sg_fresh0 p Hp). by destruct (decide _).
  - by apply (signalled_left n s s' ps).
  - by rewrite Hf.
  - by rewrite Hf.
  - by rewrite Hf.
  - by rewrite Hf.
Qed.

Lemma stage_weaken n s0 s : stage (n + 1) s0 s -> stage n s0 s.
Proof.
  intros H. apply (stage_signalled n s0 s s ∅ H), signalled_refl.
Qed.

(** A change of fields the stages do not look at. *)
Lemma stage_other n s0 s s' :
  stage n s0 s -> nbd_client s' = nbd_client s -> heap s' = heap s -> max_nbd_clients s' = max_nbd_clients s ->
  l_acl s' = l_acl s -> holder (l_start_mirror s') = 0 -> the_acl s' = the_acl s ->
  allow_new_clients s' = allow_new_clients s -> s_mirror s' = s_mirror s /\ mirror_super s' = mirror_super s ->
  size s' = size s -> drained (acl_updated_signal s') (acl_updated_signal s) ->
  server_fd s' = server_fd s -> server_fd_open s' = server_fd_open s -> stage n s0 s'.
Proof.
  intros [A1 A2 [A3 A3'] A4 A5 A6 A7 [A8 A8'] [A9 A9'] (A10 & A11 & A12) [A13 A13']] E1 E2 E3 E4 E5 E6 E7 [E8 E8'] E9 (E10 & E11 & E12) E13 E13'.
  constructor; try congruence.
  - destruct A2. constructor; rewrite E1, ?E2, ?E3; done.
  - split; [by rewrite E4 | done].
  - intros p. rewrite E2. apply A6.
  - intros p c. rewrite E2. apply A7.
  - split; congruence.
  - split; congruence.
  - split_and!; [congruence | lia | auto].
  - split; congruence.
Qed.

Lemma close_stage n s0 s : stage (n + 1) s0 s -> 0 <= n -> exists s', server_close_clients s = Ok s' /\ stage n s0 s'.
Proof.
  intros H Hn. destruct (server_close_clients_spec s) as (s' & E & Hs); [apply H | |].
  - intros p c Hc. destruct (sg_left _ _ _ H p c Hc) as (? & ? & ?). split_and!; [done | lia | lia].
  - exists s'. split; [done |]. exact (stage_signalled n s0 s s' _ H Hs).
Qed.

Lemma graceful_spec self n s0 s : stage n s0 s -> exists ok s', serve_shutdown_is_graceful self s = Ok (ok, s') /\ stage n s0 s'.
Proof.
  intros H. pose proof (sg_unlocked _ _ _ H) as [_ Hu].
  unfold serve_shutdown_is_graceful, server_lock_start_mirror, flexthread_mutex_lock. rewrite Hu.
  cbn [Z.eqb mbind res_bind]. eexists _, _. split; [reflexivity |].
  apply (stage_other n s0 s _ H); try (by destruct (server_is_mirroring _)).
Qed.

Lemma signal_stage self n s0 s : stage (n + 1) s0 s -> 0 <= n ->
  exists s', (s ← server_close_clients s;
     '(ok, s) ← (if success s then serve_shutdown_is_graceful self s else Ok (false, s));
     Ok (false, s <| success := ok |>)) = Ok (false, s') /\ stage n s0 s'.
Proof.
  intros H Hn. destruct (close_stage n s0 s H Hn) as (s1 & -> & H1). cbn [mbind res_bind].
  assert (exists ok s2, (if success s1 then serve_shutdown_is_graceful self s1 else Ok (false, s1)) = Ok (ok, s2) /\
    stage n s0 s2) as (ok & s2 & -> & H2).
  { destruct (success s1); [by apply graceful_spec | by exists false, s1]. }
  cbn [mbind res_bind]. eexists. split; [reflexivity |].
  apply (stage_other n s0 s2 _ H2); try done. apply H2.
Qed.

Lemma audit_stage self n s0 s :
  stage (n + 1) s0 s -> 0 <= n -> decided s0 ->
  exists s', server_audit_clients self
      (s <| acl_updated_signal := (self_pipe_signal_clear (acl_updated_signal s)).2 |>) = Ok s' /\ stage n s0 s'.
Proof.
  intros H Hn Hd. set (s1 := s <| acl_updated_signal := _ |>).
  assert (H1 : stage (n + 1) s0 s1) by (apply (stage_other _ s0 s _ H); try done; [apply H | apply clear_drained]).
  destruct (server_audit_clients_spec self s1) as (s' & E & Hs); [apply H1 | | apply H1 | |].
  - intros p c Hc. destruct (sg_left _ _ _ H1 p c Hc) as (? & ? & ?). split_and!; [done | lia | lia].
  - unfold decided. rewrite (sg_tbl _ _ _ H1). unfold acl_decision. by rewrite (sg_acl _ _ _ H1).
  - exists s'. split; [done |]. exact (stage_signalled n s0 s1 s' _ H1 Hs).
Qed.

(** The stages of a round, up to the accept. *)
Lemma server_accept_stages self signal_fd i s n :
  tbl_ok s -> signals_left (n + 3) s -> 0 <= n -> unlocked s -> 0 <= ri_select i -> decided s ->
  exists s3, stage n s s3 /\
    server_accept self signal_fd i s =
      '(closed, s') ←
        (if ri_server i then
           if allow_new_clients s then accept_nbd_client self (ri_accept i) (ri_client_fd i) (ri_address i) s3
           else Ok ([ri_client_fd i], s3)
         else Ok ([], s3));
      Ok (negb (ri_close i || ((0 <? signal_fd) && ri_signal i)), closed, s').
Proof.
  intros Hok Hl Hn Hu Hsel Hd. unfold server_accept. replace (ri_select i <? 0) with false by lia.
  assert (H0 : stage (n + 2 + 1) s s) by (constructor; try done; by replace (n + 2 + 1) with (n + 3) by lia).
  assert (exists s1, (if ri_close i then s ← server_close_clients s; Ok (false, s) else Ok (true, s)) =
    Ok (negb (ri_close i), s1) /\ stage (n + 1 + 1) s s1) as (s1 & -> & H1).
  { replace (n + 1 + 1) with (n + 2) by lia.
    destruct (ri_close i); [| exists s; split; [done | by apply stage_weaken]].
    destruct (close_stage _ s s H0 ltac:(lia)) as (s1 & -> & H1). by exists s1. }
  cbn [mbind res_bind].
  set (sigd := (0 <? signal_fd) && ri_signal i).
  match goal with |- context [(if sigd then ?a else ?b)] =>
    assert (exists s2, (if sigd then a else b) = Ok (negb (ri_close i || sigd), s2) /\ stage (n + 1) s s2)
      as (s2 & E2 & H2) end.
  { destruct sigd; [| exists s1; rewrite orb_false_r; split; [done | by apply stage_weaken]].
    rewrite orb_true_r. apply (signal_stage self (n + 1) s s1 H1). lia. }
  cbn [mbind res_bind] in E2. rewrite E2. cbn [mbind res_bind].
  assert (exists s3, (if ri_acl i then server_audit_clients self
      (s2 <| acl_updated_signal := (self_pipe_signal_clear (acl_updated_signal s2)).2 |>) else Ok s2) = Ok s3 /\
    stage n s s3) as (s3 & -> & H3).
  { destruct (ri_acl i); [by apply audit_stage | exists s2; split; [done | by apply stage_weaken]]. }
  cbn [mbind res_bind]. exists s3. split; [done |]. by rewrite (sg_allow _ _ _ H3).
Qed.

(** ** Closing down *)

Lemma close_from_frame n : forall i s s', close_from i n s = Ok s' -> s' = s <| heap := heap s' |>.
Proof.
  induction n as [| n IH]; intros i s s' H; cbn [close_from] in H.
  { injection H as <-. apply set_heap_eta. }
  apply bind_Ok in H as (e & _ & H). destruct (thread e =? 0); [by apply (IH (S i)) |].
  apply bind_Ok in H as (s1 & H1 & H). apply IH in H. unfold client_signal_stop in H1. res_inv. subst s1.
  rewrite H. by destruct s.
Qed.

Lemma join_from_frame joinfunc n : forall i s s',
  join_from joinfunc i n s = Ok s' -> s' = s <| nbd_client := nbd_client s' |>.
Proof.
  induction n as [| n IH]; intros i s s' H; cbn [join_from] in H.
  { injection H as <-. by destruct s. }
  apply bind_Ok in H as (e & _ & H). apply IH in H. rewrite H. destruct (_ && _); by destruct s.
Qed.

(** When every join succeeds, no entry is left with a thread. *)
Lemma join_from_all joinfunc n : forall i s,
  (forall t, joinfunc t = 0) -> length (nbd_client s) = (i + n)%nat ->
  Forall (fun e => thread e = 0) (take i (nbd_client s)) ->
  exists s', join_from joinfunc i n s = Ok s' /\ Forall (fun e => thread e = 0) (nbd_client s').
Proof.
  induction n as [| n IH]; intros i s Hj Hl Hz; cbn [join_from].
  { exists s. split; [done |]. rewrite take_ge in Hz by lia. done. }
  destruct (lookup_lt_is_Some_2 (nbd_client s) i) as [e He]; [lia |]. rewrite He. cbn [of_opt mbind res_bind].
  rewrite Hj, Z.eqb_refl, andb_true_r. apply IH; [done | |].
  - destruct (thread e =? 0); cbn [negb set_entry nbd_client set_field]; [| rewrite length_insert]; lia.
  - destruct (thread e =? 0) eqn:Et; cbn [negb set_entry nbd_client set_field].
    + rewrite (take_S_r _ _ e He). apply Forall_app. split; [done |]. constructor; [lia | done].
    + rewrite (take_S_r _ _ (e <| thread := 0 |>)) by (apply list_lookup_insert_eq; lia).
      rewrite take_insert_ge by lia. apply Forall_app. split; [done |]. by repeat constructor.
Qed.

(** What the supervisor may do while it is waited for: anything but to the locks,
    the length of the table and the closed socket. *)
Definition super_ok (super : server -> res server) : Prop :=
  forall t, exists t', super t = Ok t' /\ l_acl t' = l_acl t /\ l_start_mirror t' = l_start_mirror t /\
    length (nbd_client t') = length (nbd_client t) /\ max_nbd_clients t' = max_nbd_clients t /\
    server_fd_open t' = server_fd_open t.

(** A started mirror can be signalled. *)
Definition mirror_ready (s : server) : Prop :=
  mirror_super s = true -> exists m, s_mirror s = Some m /\ sp_open (abandon_signal m) = true /\
    sp_bytes (abandon_signal m) < PIPE_CAPACITY.

Lemma abandon_spec super s :
  super_ok super -> mirror_ready s ->
  exists s', (if server_is_mirroring s then server_abandon_mirror super s else Ok s) = Ok s' /\
    mirror_super s' = false /\ l_acl s' = l_acl s /\ l_start_mirror s' = l_start_mirror s /\
    length (nbd_client s') = length (nbd_client s) /\ max_nbd_clients s' = max_nbd_clients s /\
    server_fd_open s' = server_fd_open s.
Proof.
  intros Hs Hm. unfold server_is_mirroring. destruct (mirror_super s) eqn:E; [| by exists s].
  destruct (Hm E) as (m & Em & Ho & Hb). unfold server_abandon_mirror. rewrite E, Em. cbn [of_opt mbind res_bind].
  unfold self_pipe_signal. rewrite Ho. replace (PIPE_CAPACITY <=? _) with false by lia. cbn [negb orb mbind res_bind].
  match goal with |- context [super ?x] => destruct (Hs x) as (t & -> & K) end. cbn [mbind res_bind].
  eexists. split; [reflexivity |]. exact (conj eq_refl K).
Qed.

(** Taking the lock, or having it already, and giving back what is held. *)
Lemma start_mirror_claim self s :
  self <> 0 -> holder (l_start_mirror s) = 0 \/ holder (l_start_mirror s) = self ->
  (if negb (server_start_mirror_locked self s) then server_lock_start_mirror self s else Ok s) =
    Ok (s <| l_start_mirror := {| holder := self |} |>).
Proof.
  intros Hself Hl. unfold server_lock_start_mirror, flexthread_mutex_lock, server_start_mirror_locked, flexthread_mutex_held.
  apply Z.eqb_neq in Hself. destruct Hl as [Hl | Hl]; rewrite Hl; [by rewrite Hself |].
  rewrite Z.eqb_refl. cbn [negb]. destruct s as [? ? ? ? ? ? ? [h] ?]. cbn in Hl. by subst h.
Qed.

Lemma start_mirror_release self s :
  self <> 0 -> holder (l_start_mirror s) = 0 \/ holder (l_start_mirror s) = self ->
  (if server_start_mirror_locked self s then server_unlock_start_mirror s else s) =
    s <| l_start_mirror := {| holder := 0 |} |>.
Proof.
  intros Hself Hl. unfold server_start_mirror_locked, flexthread_mutex_held.
  apply Z.eqb_neq in Hself. destruct Hl as [Hl | Hl]; rewrite Hl; [| by rewrite Z.eqb_refl].
  rewrite Hself. destruct s as [? ? ? ? ? ? ? [h] ?]. cbn in Hl. by subst h.
Qed.

(** ** A server to instantiate the properties with *)

Definition sample_obj : client_obj :=
  {| co_socket := 9; co_stopped := false; co_stop_signal := self_pipe_create |}.

Definition sample_address : mysockaddr := zero_sockaddr <| family := AF_INET |>.

Definition sample_entry : client_tbl_entry :=
  {| thread := 7; address := sample_address; t_client := Some 100 |}.

(** Two slots, one of them taken, and an empty list that denies or allows all. *)
Definition sample_server (deny : bool) : server :=
  {| bind_to := zero_sockaddr; tcp_backlog := 10; size := 8192; close_signal := self_pipe_create;
     the_acl := Some {| acl_len := 0; default_deny := deny; acl_entries := [] |};
     acl_updated_signal := self_pipe_create; l_acl := flexthread_mutex_create;
     l_start_mirror := flexthread_mutex_create; s_mirror := None; mirror_super := false;
     mirror_can_start := true; server_fd := 3; server_fd_open := true;
     allocation_map := bitset_alloc 8192 4096; allocation_map_built := true;
     allocation_map_not_built := false; max_nbd_clients := 2;
     nbd_client := [sample_entry; empty_entry]; use_killswitch := false;
     allow_new_clients := true; success := true; heap := {[100 := sample_obj]} |}.

Lemma sample_server_ok deny : tbl_ok (sample_server deny).
Proof.
  constructor; [done | |].
  - intros [| [| i]] e [= <-] Ht; [| done]. exists 100, sample_obj. split; [done |]. apply lookup_singleton_eq.
  - intros [| [| i]] [| [| j]] e e' p [= <-] [= <-] H1 H2 _ _; done.
Qed.

Lemma sample_signals deny n : 0 <= n <= PIPE_CAPACITY -> signals_left n (sample_server deny).
Proof.
  intros Hn p c Hc. cbn [sample_server heap] in Hc. apply lookup_singleton_Some in Hc as [_ <-].
  cbn. split; [done | lia].
Qed.

Lemma sample_decides deny a : acl_decision (sample_server deny) a = Ok (negb deny).
Proof. done. Qed.

Lemma sample_all_decided deny : decided (sample_server deny).
Proof. repeat constructor; intros _; eexists; reflexivity. Qed.

Definition sample_accept (created : Z) : accept_input :=
  {| ai_keepalive := 0; ai_join := fun _ => EBUSY; ai_ptr := 200; ai_create := created; ai_thread := 8 |}.

Definition sample_round : round_input :=
  {| ri_select := 1; ri_close := false; ri_signal := false; ri_acl := true; ri_server := true;
     ri_client_fd := 12; ri_address := sample_address; ri_accept := sample_accept 0 |}.

Lemma sample_joins created : joins_ok (ai_join (sample_accept created)).
Proof. intros t. by right. Qed.

(** * Properties *)

(** C6: a round of the accept loop never touches a client that is gone and keeps
    the table sound: every running entry points to a live client of its own. The
    loop ends exactly on a close or stop signal. A connection is closed at once when
    new clients are forbidden, when its address is refused or of no known family, or
    when every slot has a thread that still runs; otherwise exactly one slot gets a
    thread for it, one that was free or whose thread has ended. Every client whose
    thread still runs stays in its slot, and no other running entry appears. The system
    calls of the round succeed ([select], [pthread_create], setting keep-alive; a join
    gives 0 or EBUSY), the locks are free, the pipes have room and the access list can
    decide about every address in the table. *)
Theorem server_accept_correct self signal_fd i s b :
  tbl_ok s -> signals_left 3 s -> unlocked s -> 0 <= ri_select i -> accept_ok (ri_accept i) s ->
  decided s ->
  acl_decision s (ri_address i) = Ok b ->
  exists closed s1 s',
    server_accept self signal_fd i s =
      Ok (negb (ri_close i || ((0 <? signal_fd) && ri_signal i)), closed, s') /\
    tbl_ok s' /\ unlocked s' /\ nbd_client s1 = nbd_client s /\ acl_decision s1 = acl_decision s /\
    (if ri_server i then
       if allow_new_clients s then
         closed = [ri_client_fd i] /\ turned_away (ri_accept i) (ri_address i) s1 s' \/
         closed = [] /\ let_in (ri_accept i) (ri_address i) (ri_client_fd i) s1 s'
       else closed = [ri_client_fd i] /\ nbd_client s' = nbd_client s
     else closed = [] /\ nbd_client s' = nbd_client s).
Proof.
  intros Hok Hl Hu Hsel Hacc Hd Hb.
  destruct (server_accept_stages self signal_fd i s 0 Hok Hl (Z.le_refl 0) Hu Hsel Hd) as (s3 & H3 & ->).
  assert (Hdec : acl_decision s3 = acl_decision s) by (unfold acl_decision; by rewrite (sg_acl _ _ _ H3)).
  destruct (ri_server i); [destruct (allow_new_clients s) |].
  - destruct (accept_nbd_client_spec self (ri_accept i) (ri_client_fd i) (ri_address i) s3 b)
      as (closed & s' & -> & K1 & K2 & K3); [apply H3 | apply H3 | | by rewrite Hdec |].
    { destruct Hacc. constructor; try done. by apply (sg_fresh _ _ _ H3). }
    cbn [mbind res_bind]. exists closed, s3, s'. split_and!; try done. apply H3.
  - exists [ri_client_fd i], s3, s3. destruct H3. by split_and!.
  - exists [], s3, s3. destruct H3. by split_and!.
Qed.

Lemma server_accept_correct_witness :
  exists closed s1 s',
    server_accept 1 5 sample_round (sample_server false) = Ok (true, closed, s') /\
    tbl_ok s' /\ unlocked s' /\ nbd_client s1 = nbd_client (sample_server false) /\
    acl_decision s1 = acl_decision (sample_server false) /\
    (closed = [12] /\ turned_away (sample_accept 0) sample_address s1 s' \/
     closed = [] /\ let_in (sample_accept 0) sample_address 12 s1 s').
Proof.
  apply (server_accept_correct 1 5 sample_round (sample_server false) true).
  - apply sample_server_ok.
  - apply sample_signals. unfold PIPE_CAPACITY. lia.
  - by split.
  - by cbn.
  - constructor; [by cbn | apply sample_joins | by apply lookup_singleton_ne | done | done].
  - apply sample_all_decided.
  - reflexivity.
Defined.

(** When [pthread_create] fails after it has stored a thread number, the entry
    keeps that number and the address of a client that is freed: the next time the
    table is tidied up and the join does not succeed, the server reads the freed
    client. *)
Theorem failed_spawn_dangles self i fd a s k joinfunc :
  tbl_ok s -> unlocked s -> 0 <= ai_keepalive i -> joins_ok (ai_join i) -> heap s !! ai_ptr i = None ->
  ai_create i <> 0 -> ai_thread i <> 0 -> known_family a = true -> acl_decision s a = Ok true ->
  nbd_client s !! k = Some empty_entry -> joinfunc (ai_thread i) <> 0 ->
  exists s' slot, accept_nbd_client self i fd a s = Ok ([fd], s') /\
    tryjoin_client_thread joinfunc slot s' = Stop SFault.
Proof.
  intros Hok Hu A1 A2 A3 A4 A5 Hf Hb Hk Hj. unfold accept_nbd_client, server_should_accept_client.
  replace (ai_keepalive i <? 0) with false by lia. fold (known_family a). rewrite Hf. cbn [negb mbind res_bind].
  rewrite (acl_accepts_spec self s a true Hu Hb). cbn [mbind res_bind negb].
  destruct (slot_spec (ai_join i) s Hok A2) as (o & s1 & -> & R & H). cbn [mbind res_bind].
  destruct o as [slot |].
  2:{ assert (Hlt : (k < length (nbd_client s1))%nat).
      { apply lookup_lt_Some in Hk. rewrite (tb_len _ (rp_ok _ _ R)). rewrite (tb_len _ Hok) in Hk.
        rewrite (rp_frame _ _ R). exact Hk. }
      destruct (lookup_lt_is_Some_2 _ _ Hlt) as [e He]. destruct (H k e He) as [Hne _].
      pose proof (rp_kept _ _ R k e He Hne) as He'. rewrite Hk in He'. by injection He' as <-. }
  destruct H as (e & He & Hz). apply Z.eqb_neq in A4. rewrite A4. cbn [negb].
  unfold client_destroy, deref. cbn [of_opt mbind res_bind heap set_entry client_create set_field].
  rewrite lookup_insert_eq. cbn [of_opt mbind res_bind].
  eexists _, slot. split; [reflexivity |].
  unfold tryjoin_client_thread. cbn [nbd_client set_entry client_create set_field].
  rewrite list_lookup_insert_eq by (by apply lookup_lt_Some in He). cbn [of_opt mbind res_bind thread t_client].
  apply Z.eqb_neq in A5, Hj. rewrite A5, Hj. cbn [negb]. unfold deref. cbn [of_opt mbind res_bind heap set_field].
  by rewrite lookup_delete_eq.
Qed.

Lemma failed_spawn_dangles_witness :
  exists s' slot,
    accept_nbd_client 1 (sample_accept 11) 12 sample_address (sample_server false) = Ok ([12], s') /\
    tryjoin_client_thread (fun _ => ESRCH) slot s' = Stop SFault.
Proof.
  apply (failed_spawn_dangles 1 (sample_accept 11) 12 sample_address (sample_server false) 1).
  - apply sample_server_ok.
  - by split.
  - by cbn.
  - apply sample_joins.
  - by apply lookup_singleton_ne.
  - discriminate.
  - discriminate.
  - reflexivity.
  - reflexivity.
  - reflexivity.
  - discriminate.
Defined.

(** Nothing is left running, whatever the thread held. *)
Lemma cleanup_leaves_nothing self joinfunc super s :
  self <> 0 -> (server_fd_open s = true -> server_fd s <> 0) -> length (nbd_client s) = max_nbd_clients s -> (forall t, joinfunc t = 0) ->
  super_ok super -> mirror_ready s -> holder (l_start_mirror s) = 0 \/ holder (l_start_mirror s) = self ->
  exists s', serve_cleanup self joinfunc super s = Ok s' /\
    server_is_closed s' = true /\ Forall (fun e => thread e = 0) (nbd_client s') /\
    server_is_mirroring s' = false /\ server_mirror_can_start s' = false /\
    holder (l_start_mirror s') = 0 /\ holder (l_acl s') <> self /\
    (holder (l_acl s) = 0 -> holder (l_acl s') = 0).
Proof.
  intros Hself Hfd Hlen Hj Hsup Hm Hl. unfold serve_cleanup.
  assert (exists s0, (if negb (server_fd s =? 0) then s <| server_fd_open := false |> else s) = s0 /\
    s0 = s <| server_fd_open := server_fd_open s0 |> /\ server_fd_open s0 = false) as (s0 & -> & F0 & Hcl).
  { eexists. split; [reflexivity |]. destruct (server_fd s =? 0) eqn:E; cbn [negb]; [| done].
    apply Z.eqb_eq in E. destruct (server_fd_open s) eqn:Eo; [by destruct (Hfd eq_refl) |]. destruct s. cbn in *. by subst. }
  assert (Hl0 : holder (l_start_mirror s0) = 0 \/ holder (l_start_mirror s0) = self) by (by rewrite F0).
  assert (Hm0 : mirror_ready s0) by (rewrite F0; exact Hm).
  assert (Hc := start_mirror_claim self s0 Hself Hl0). rewrite Hc. cbn [mbind res_bind].
  match goal with |- context [server_abandon_mirror super ?x] =>
    destruct (abandon_spec super x Hsup Hm0) as (s2 & -> & K1 & K2 & K3 & K4 & K5 & K6) end. cbn [mbind res_bind].
  match goal with |- context [server_join_clients joinfunc ?x] => set (s3 := x) end.
  assert (H3 : nbd_client s3 = nbd_client s2 /\ max_nbd_clients s3 = max_nbd_clients s2 /\ mirror_super s3 = false /\
    mirror_can_start s3 = false /\ server_fd_open s3 = false /\
    (holder (l_start_mirror s3) = 0 \/ holder (l_start_mirror s3) = self) /\ l_acl s3 = l_acl s).
  { assert (Ea : l_acl s2 = l_acl s) by (rewrite K2, F0; by destruct (negb _)).
    unfold s3. destruct (negb _); cbn; split_and!; try done; try (by rewrite K6); [by left | right; by rewrite K3]. }
  destruct H3 as (E1 & E2 & E3 & E4 & E5 & E6 & E7). clearbody s3.
  destruct (join_from_all joinfunc (max_nbd_clients s3) 0 s3 Hj) as (s4 & J & Hz).
  { rewrite E1, E2, K4, K5, F0. exact Hlen. }
  { constructor. }
  unfold server_join_clients. rewrite J. cbn [mbind res_bind]. apply join_from_frame in J.
  rewrite (start_mirror_release self s4 Hself) by (by rewrite J).
  eexists. split; [reflexivity |]. rewrite J. unfold server_acl_locked, flexthread_mutex_held. cbn [l_acl set_field].
  rewrite <- E7. destruct (self =? holder (l_acl s3)) eqn:Ea; cbn; split_and!; try done; unfold server_is_closed; cbn; rewrite ?E5; try done; lia.
Qed.

(** C29: [serve_cleanup] leaves nothing running: it returns with the listening socket
    closed, every client thread joined, the migration abandoned and no other able to
    start, and neither of the server's locks held by the thread that cleans up, even
    when an error ended that thread while it held one of them. *)
Theorem serve_cleanup_complete self joinfunc super s :
  self <> 0 -> server_fd s <> 0 -> length (nbd_client s) = max_nbd_clients s -> (forall t, joinfunc t = 0) ->
  super_ok super -> mirror_ready s -> holder (l_start_mirror s) = 0 \/ holder (l_start_mirror s) = self ->
  exists s', serve_cleanup self joinfunc super s = Ok s' /\
    server_is_closed s' = true /\ Forall (fun e => thread e = 0) (nbd_client s') /\
    server_is_mirroring s' = false /\ server_mirror_can_start s' = false /\
    holder (l_start_mirror s') = 0 /\ holder (l_acl s') <> self.
Proof.
  intros H1 H2 H3 H4 H5 H6 H7.
  destruct (cleanup_leaves_nothing self joinfunc super s) as (s' & E & K1 & K2 & K3 & K4 & K5 & K6 & _); try done.
  by exists s'.
Qed.

Lemma serve_cleanup_complete_witness :
  exists s', serve_cleanup 1 (fun _ => 0) (fun t => Ok t) ((sample_server false) <| l_acl := {| holder := 1 |} |>) = Ok s' /\
    server_is_closed s' = true /\ Forall (fun e => thread e = 0) (nbd_client s') /\
    server_is_mirroring s' = false /\ server_mirror_can_start s' = false /\
    holder (l_start_mirror s') = 0 /\ holder (l_acl s') <> 1.
Proof.
  apply (serve_cleanup_complete 1 (fun _ => 0) (fun t => Ok t)); try done.
  - intros t. by exists t.
  - by left.
Defined.
