(* ===== verification/Mirror.v ===== *)
(** * Migration: the mirror

    Models src/src/server/mirror.c: connecting to the listener, choosing the next
    transfer from the pass over the file and the event stream, the callbacks of the
    event loop, the runner and its supervisor. The callbacks are functions on
    [mirror_ctrl] that take the kernel's answers; libev is a set of active watchers
    and a flag that the loop was left. TCP_CORK and the blocking mode of the socket
    are not represented. *)

From S2P Require Import Prelude Bitset NbdTypes IoUtil SockUtil ReadWrite Serve.

Open Scope Z_scope.

Definition MS_CONNECT_TIME_SECS : Z := 60.
Definition MS_CONVERGE_TIME_SECS : Z := 5.
Definition mirror_longest_write : Z := Z.shiftl 8 20.

(** [hdr] is the union of the request and the reply. *)
Record xfer := {
  hdr : list Z;
  x_from : Z;
  x_len : Z;
  written : Z;
  x_read : Z
}.

#[export] Instance xfer_eta : Settable xfer := fun x =>
  Build_xfer (hdr x) (x_from x) (x_len x) (written x) (x_read x).

(** Which watchers are active; [ev_broken] after [ev_break]. *)
Record mirror_ctrl := {
  serve : server;
  begin_watcher : bool;
  read_watcher : bool;
  write_watcher : bool;
  timeout_watcher : bool;
  timeout_repeats : bool;            (* its repeat is positive *)
  limit_watcher : bool;
  abandon_watcher : bool;
  ev_broken : bool;
  clear_events : bool;
  clients_closed : bool;
  the_xfer : xfer
}.

#[export] Instance mirror_ctrl_eta : Settable mirror_ctrl := fun c =>
  Build_mirror_ctrl (serve c) (begin_watcher c) (read_watcher c) (write_watcher c) (timeout_watcher c)
    (timeout_repeats c) (limit_watcher c) (abandon_watcher c) (ev_broken c) (clear_events c)
    (clients_closed c) (the_xfer c).

(** [serve->mirror], which is also [ctrl->mirror]. *)
Definition with_mirror {A} (s : server) (k : mirror -> res A) : res A :=
  m ← of_opt SFault (s_mirror s); k m.

Definition mirror_set_state (m : mirror) (st : mirror_state) : mirror := m <| commit_state := st |>.
Definition mirror_get_state (m : mirror) : mirror_state := commit_state m.

(** ** Creation *)

Definition mirror_alloc (max_Bps : Z) (action : mirror_finish_action) : mirror :=
  {| abandon_signal := self_pipe_create; m_client := 0; max_bytes_per_second := max_Bps;
     action_at_finish := action; m_mapped := false; offset := 0; commit_state := MS_UNKNOWN;
     migration_started := 0; all_dirty := 0 |}.

(** [mirror_init]: what [open_and_mmap] and [madvise] answer. *)
Definition mirror_init (opened madvised : Z) (m : mirror) : res mirror :=
  if opened <? 0 then Stop SFatal
  else if madvised <? 0 then Stop SFatal
  else Ok (m <| m_mapped := true |>).

Definition mirror_reset (m : mirror) : mirror :=
  (mirror_set_state m MS_INIT) <| all_dirty := 0 |> <| migration_started := 0 |> <| offset := 0 |>.

Definition mirror_create (max_Bps : Z) (action : mirror_finish_action) (opened madvised : Z) : res mirror :=
  m ← mirror_init opened madvised (mirror_alloc max_Bps action); Ok (mirror_reset m).

Definition mirror_cleanup (s : server) : res server :=
  with_mirror s (fun m => Ok (s <| s_mirror := Some (m <| m_mapped := false |> <| m_client := -1 |>) |>)).

(** ** Connecting *)

(** [fd] is [socket_connect]'s result, [sel] and [readable] are [select]'s. *)
Definition mirror_connect (fd sel : Z) (readable : bool) (k : conn) (local_size : Z) (m : mirror)
    : res (bool * mirror) :=
  let m := m <| m_client := fd |> in
  if 0 <? fd then
    if sel <? 0 then Stop SFatal
    else if readable then
      hello ← (socket_nbd_read_hello k).1;
      match (hello : option (Z * Z)) with
      | Some (remote_size, _) =>
          if remote_size =? local_size then Ok (true, mirror_set_state m MS_GO)
          else Ok (false, mirror_set_state m MS_FAIL_SIZE_MISMATCH)
      | None => Ok (false, mirror_set_state m MS_FAIL_REJECTED)
      end
    else Ok (false, mirror_set_state m MS_FAIL_NO_HELLO)
  else Ok (false, mirror_set_state m MS_FAIL_CONNECT).

Definition mirror_should_quit (m : mirror) : bool :=
  match action_at_finish m with ACTION_EXIT | ACTION_UNLINK => true | ACTION_NOTHING => false end.

(** ** The next transfer *)

Definition mirror_should_wait (now : Z) (c : mirror_ctrl) : res bool :=
  with_mirror (serve c) (fun m =>
    bps ← server_mirror_bps now (serve c);
    let bps_over := max_bytes_per_second m <? bps in
    let stream_full := BITSET_STREAM_SIZE / 2 <? bitset_stream_size (allocation_map (serve c)) in
    Ok (bps_over && negb stream_full)).

Definition set_map (c : mirror_ctrl) (map : bitset) : mirror_ctrl :=
  c <| serve := (serve c) <| allocation_map := map |> |>.

(** The loop that takes events: each pass takes one off the stream. *)
Fixpoint dequeue_events (fuel : nat) (m : mirror) (c : mirror_ctrl) (e : bitset_stream_entry)
    : res (bitset_stream_entry * mirror_ctrl) :=
  match fuel with
  | O => Stop SHang
  | S fuel' =>
      if ((offset m =? size (serve c)) || clear_events c) && bool_decide (event e <> BITSET_STREAM_SET) then
        let events := bitset_stream_size (allocation_map (serve c)) in
        if events =? 0 then Ok (e, c)
        else
          '(e', map) ← bitset_stream_dequeue (allocation_map (serve c));
          let c := set_map c map in
          let c := if events <? BITSET_STREAM_SIZE / 4 then c <| clear_events := false |> else c in
          dequeue_events fuel' m c e'
      else Ok (e, c)
  end.

Definition MIRROR_HANDLE : nbd_handle_t := handle_of_b [46; 77; 73; 82; 82; 79; 82; 46].

Definition mirror_request (current run : Z) : nbd_request :=
  {| q_magic := REQUEST_MAGIC; q_flags := 0; q_type := REQUEST_WRITE; q_handle := MIRROR_HANDLE;
     q_from := current; q_len := u32 run |}.

(** [true] is 1. *)
Definition mirror_setup_next_xfer (c : mirror_ctrl) : res (bool * mirror_ctrl) :=
  with_mirror (serve c) (fun m =>
    let sz := size (serve c) in
    let c := if (offset m <? sz) &&
                (BITSET_STREAM_SIZE / 2 <? bitset_stream_size (allocation_map (serve c)))
             then c <| clear_events := true |> else c in
    '(e, c) ← dequeue_events (S (Z.to_nat (bitset_stream_size (allocation_map (serve c))))) m c no_entry;
    let next (current run : Z) (c : mirror_ctrl) :=
      Ok (true, c <| the_xfer := {| hdr := to_wire (nbd_h2r_request (mirror_request current run));
                                    x_from := current; x_len := run; written := 0; x_read := 0 |} |>) in
    if bool_decide (event e = BITSET_STREAM_SET) then next (e_from e) (e_len e) c
    else if offset m <? sz then
      let current := offset m in
      let run := if sz <? current +64 mirror_longest_write then sz -64 current else mirror_longest_write in
      next current run (c <| serve := (serve c) <| s_mirror := Some (m <| offset := offset m +64 run |>) |> |>)
    else Ok (false, c)).

(** ** Completion *)

(** What [unlink], the write of the disconnect request and [rand] give. *)
Record exit_env := { xe_unlink : Z; xe_write : bool; xe_rand1 : Z; xe_rand2 : Z }.

(** [serve_wait_for_close] returns when the server thread has closed its socket.
    The bytes sent to the listener are returned. *)
Definition mirror_on_exit (x : exit_env) (s : server) : res (list Z * server) :=
  s ← serve_signal_close s;
  let s := s <| server_fd_open := false |> in
  with_mirror s (fun m =>
    if bool_decide (action_at_finish m = ACTION_UNLINK) && (xe_unlink x <? 0) then Stop SFatal
    else if negb (xe_write x) then Stop SFatal
    else Ok (to_wire (fill_request (xe_rand1 x) (xe_rand2 x) REQUEST_DISCONNECT 0 0 0), s)).

Definition mirror_complete (x : exit_env) (s : server) : res (list Z * server) :=
  with_mirror s (fun m =>
    '(out, s) ← (if mirror_should_quit m then mirror_on_exit x s else Ok ([], s));
    with_mirror s (fun m => Ok (out, s <| s_mirror := Some (mirror_set_state m MS_DONE) |>))).

(** ** The callbacks *)

Definition ev_break (c : mirror_ctrl) : mirror_ctrl := c <| ev_broken := true |>.
Definition timeout_again (c : mirror_ctrl) : mirror_ctrl := c <| timeout_watcher := timeout_repeats c |>.

(** What [write] finds at [mirror->mapped + off], [None] is EFAULT. When [mapped] is
    [NULL] the address is [off] itself: [low] says what the process has there. *)
Definition mapped_at (s : server) (low : Z -> Z -> option (list Z)) (image : list Z) (off len : Z)
    : res (option (list Z)) :=
  with_mirror s (fun m =>
    if m_mapped m then data ← mem_load image off len; Ok (Some data) else Ok (low off len)).

(** [write] takes at most what it is given: the bytes written are returned.
    [image] is the file behind [mirror->mapped], [low] the memory at small addresses. *)
Definition mirror_write_cb (ev_write : bool) (ans : wr_event) (low : Z -> Z -> option (list Z)) (image : list Z)
    (c : mirror_ctrl) : res (list Z * mirror_ctrl) :=
  if negb ev_write then Ok ([], c)
  else
    let x := the_xfer c in
    data ← (if written x <? NBD_REQUEST_SIZE
            then data ← mem_load (hdr x) (written x) (NBD_REQUEST_SIZE -64 written x); Ok (Some data)
            else mapped_at (serve c) low image (x_from x + (written x -64 NBD_REQUEST_SIZE))
                   (x_len x -64 (written x -64 NBD_REQUEST_SIZE)));
    let '(count, bs, errno) :=
      match data with
      | Some data => let '(count, bs, _, errno) := write_nonblock [ans] 0 data in (count, bs, errno)
      | None => (-1, [], EFAULT)
      end in
    if count <? 0 then Ok ([], if io_transient errno then c else ev_break c)
    else
      let c := if 0 <? count
               then timeout_again (c <| the_xfer := x <| written := written x +64 count |> |>) else c in
      Ok (bs, if written (the_xfer c) =? x_len x +64 NBD_REQUEST_SIZE
              then c <| read_watcher := true |> <| write_watcher := false |> else c).

(** What else a read callback gets: the clock, the results of the thread joins and
    what the client threads do to the shared server until they are joined. *)
Record read_env := {
  re_now : Z;
  re_join : Z -> Z;
  re_clients : server -> res server;
  re_exit : exit_env
}.

Definition reply_ok (r : nbd_reply) : bool :=
  (p_magic r =? REPLY_MAGIC) && (p_error r =? 0) && bool_decide (handle_b (p_handle r) = handle_b MIRROR_HANDLE).

(** [server_forbid_new_clients], [server_close_clients], [server_join_clients]. *)
Definition close_and_join (e : read_env) (s : server) : res server :=
  let s := server_forbid_new_clients s in
  s ← server_close_clients s;
  s ← re_clients e s;
  server_join_clients (re_join e) s.

(** After an accepted reply. *)
Definition mirror_next (e : read_env) (c : mirror_ctrl) : res (list Z * mirror_ctrl) :=
  '(next_xfer, c) ← mirror_setup_next_xfer c;
  '(next_xfer, c) ←
    (if negb (clients_closed c) then
       eta ← (if (next_xfer : bool) then server_mirror_eta (re_now e) (serve c) else Ok 0);
       if negb next_xfer || (eta <? MS_CONVERGE_TIME_SECS) then
         s ← close_and_join e (serve c);
         let c := c <| serve := s |> <| clients_closed := true |> in
         if (next_xfer : bool) then Ok (next_xfer, c) else mirror_setup_next_xfer c
       else Ok (next_xfer, c)
     else Ok (next_xfer, c));
  if clients_closed c && negb next_xfer then
    '(out, s) ← mirror_complete (re_exit e) (serve c);
    Ok (out, ev_break (c <| serve := s |>))
  else if negb next_xfer then Stop SError
  else
    let c := c <| read_watcher := false |> in
    wait ← mirror_should_wait (re_now e) c;
    Ok ([], if (wait : bool) then c <| limit_watcher := true |>
            else (timeout_again c) <| write_watcher := true |>).

Definition mirror_read_cb (ev_read : bool) (ans : rd_event) (e : read_env) (c : mirror_ctrl)
    : res (list Z * mirror_ctrl) :=
  if negb ev_read then Ok ([], c)
  else
    let x := the_xfer c in
    let '(count, bs, _, errno) := deliver ans 0 (NBD_REPLY_SIZE -64 x_read x) in
    h ← mem_store (hdr x) (x_read x) bs;
    if count <? 0 then Ok ([], if io_transient errno then c else ev_break c)
    else if count =? 0 then Ok ([], ev_break c)
    else
      let x := x <| hdr := h |> <| x_read := x_read x +64 count |> in
      let c := timeout_again (c <| the_xfer := x |>) in
      if x_read x <? NBD_REPLY_SIZE then Ok ([], c)
      else
        let rsp := nbd_r2h_reply (of_wire (take 16 (hdr x))) in
        if negb (reply_ok rsp) then Ok ([], ev_break c)
        else
          with_mirror (serve c) (fun m =>
            let c := c <| the_xfer := x <| x_read := 0 |> <| written := 0 |> |> in
            let c := if clear_events c then c
                     else c <| serve := (serve c) <| s_mirror := Some (m <| all_dirty := all_dirty m +64 x_len x |>) |> |> in
            mirror_next e (c <| timeout_watcher := false |>)).

Definition mirror_timeout_cb (ev_timer : bool) (c : mirror_ctrl) : mirror_ctrl :=
  if negb ev_timer then c else ev_break c.

Definition mirror_abandon_cb (ev_read : bool) (c : mirror_ctrl) : res mirror_ctrl :=
  if negb ev_read then Ok c
  else
    with_mirror (serve c) (fun m =>
      let m := (mirror_set_state m MS_ABANDONED) <| abandon_signal := (self_pipe_signal_clear (abandon_signal m)).2 |> in
      Ok (ev_break (c <| serve := (serve c) <| s_mirror := Some m |> |> <| abandon_watcher := false |>))).

Definition mirror_limit_cb (ev_timer : bool) (now : Z) (c : mirror_ctrl) : res mirror_ctrl :=
  if negb ev_timer then Ok c
  else
    wait ← mirror_should_wait now c;
    Ok (if (wait : bool) then c <| limit_watcher := true |>
        else timeout_again (c <| write_watcher := true |> <| limit_watcher := false |>)).

Definition mirror_begin_cb (ev_timer : bool) (c : mirror_ctrl) : res mirror_ctrl :=
  if negb ev_timer then Ok c
  else if allocation_map_built (serve c) || allocation_map_not_built (serve c) then
    map ← bitset_enable_stream (allocation_map (serve c));
    Ok (set_map (timeout_again (c <| begin_watcher := false |> <| write_watcher := true |>)) map)
  else Ok (c <| begin_watcher := true |>).

(** ** A run *)

(** [mirror_run] up to the event loop: [inl] for the image of 0 bytes. *)
Definition mirror_run_start (now : Z) (repeats : bool) (x : exit_env) (s : server)
    : res ((list Z * server) + mirror_ctrl) :=
  with_mirror s (fun m =>
    let s := s <| s_mirror := Some (m <| migration_started := now |>) |> in
    if size s =? 0 then r ← mirror_complete x s; Ok (inl r)
    else
      let c := {| serve := s; begin_watcher := false; read_watcher := false; write_watcher := false;
                  timeout_watcher := false; timeout_repeats := repeats; limit_watcher := false;
                  abandon_watcher := true; ev_broken := false; clear_events := false;
                  clients_closed := false;
                  the_xfer := {| hdr := replicate 28 0; x_from := 0; x_len := 0; written := 0; x_read := 0 |} |} in
      '(ok, c) ← mirror_setup_next_xfer c;
      if negb ok then Stop SError
      else if allocation_map_built (serve c) then
        map ← bitset_enable_stream (allocation_map (serve c));
        Ok (inr (set_map (timeout_again (c <| write_watcher := true |>)) map))
      else Ok (inr (c <| begin_watcher := true |>))).

(** [mirror_run] after the event loop: [false] is [error()], which retries. *)
Definition mirror_run_end (c : mirror_ctrl) : res (bool * server) :=
  with_mirror (serve c) (fun m =>
    let s := if bool_decide (action_at_finish m = ACTION_NOTHING) || bool_decide (commit_state m <> MS_DONE)
             then server_allow_new_clients (serve c) else serve c in
    if bool_decide (commit_state m <> MS_DONE) then
      map ← bitset_disable_stream (allocation_map s); Ok (false, s <| allocation_map := map |>)
    else Ok (true, s)).

(** [mirror_runner]: the state posted to [commit_signal] and the server afterwards.
    [connect] is [mirror_connect], [run] the whole of [mirror_run] with its event
    loop ([false]: it ended in [error()], which runs [mirror_cleanup]). *)
Definition mirror_runner (connect : mirror -> res (bool * mirror)) (elapsed_secs : Z)
    (run : server -> res (bool * server)) (s : server) : res (mirror_state * server) :=
  with_mirror s (fun m =>
    '(connected, m) ← connect m;
    let commit := mirror_get_state m in
    let s := s <| s_mirror := Some m |> in
    if negb connected then Ok (commit, s)
    else if MS_CONNECT_TIME_SECS <? elapsed_secs then
      Ok (commit, s <| s_mirror := Some (mirror_set_state m MS_FAIL_CONNECT) |>)
    else
      '(ok, s) ← run s;
      if (ok : bool) then
        with_mirror s (fun m => Ok (commit, if m_client m <? 0 then s
                                            else s <| s_mirror := Some (m <| m_client := -1 |>) |>))
      else s ← mirror_cleanup s; Ok (commit, s)).

(** [mirror_super_runner]: one runner per attempt; the state it reports, the number
    of attempts made and the server at the end. *)
Fixpoint mirror_super_runner (attempts : list (server -> res (mirror_state * server)))
    (first_pass should_retry : bool) (reported : option mirror_state) (n : Z) (s : server)
    : res (option mirror_state * Z * server) :=
  match attempts with
  | [] => Stop SBlock
  | attempt :: attempts' =>
      '(commit, s) ← attempt s;
      let should_retry := if first_pass then bool_decide (commit = MS_GO) else should_retry in
      let reported := if first_pass then Some commit else reported in
      with_mirror s (fun m =>
        let is_ab := bool_decide (mirror_get_state m = MS_ABANDONED) in
        let '(sig, p) := self_pipe_signal_clear (abandon_signal m) in
        let m := if is_ab then m else m <| abandon_signal := p |> in
        let abandoned := is_ab || (sig =? 1) in
        let ok := bool_decide (mirror_get_state m = MS_DONE) in
        let should_retry := if ok then should_retry else if abandoned then false else should_retry in
        let s := s <| s_mirror := Some (if should_retry then mirror_reset m else m) |> in
        if should_retry && negb ok
        then mirror_super_runner attempts' false should_retry reported (n + 1) s
        else Ok (reported, n + 1, s))
  end.

(** * The system: mirror, clients and listener *)

(** What client threads do: store bytes, and later mark the range in the map; or the
    thread ends before that, when the connection breaks in the middle of a write. *)
Inductive cevent :=
| CStore (from : Z) (bs : list Z)
| CMark (k : nat)
| CLost (k : nat).

Definition client_file (f : list Z) (ev : cevent) : list Z :=
  match ev with
  | CStore from bs => match mem_store f from bs with Ok f' => f' | Stop _ => f end
  | CMark _ | CLost _ => f
  end.

(** The ranges stored and not yet marked. *)
Definition client_pend (p : list (Z * Z)) (ev : cevent) : list (Z * Z) :=
  match ev with
  | CStore from bs => (from, zlen bs) :: p
  | CMark k | CLost k => delete k p
  end.

(** The ranges that will never be marked. *)
Definition client_torn (p : list (Z * Z)) (ev : cevent) : list (Z * Z) :=
  match ev with
  | CLost k => option_list (p !! k)
  | _ => []
  end.

Definition client_map (p : list (Z * Z)) (map : bitset) (ev : cevent) : res bitset :=
  match ev with
  | CStore _ _ => Ok map
  | CMark k => '(from, len) ← of_opt SFault (p !! k); bitset_set_range map from len
  | CLost k => _ ← of_opt SFault (p !! k); Ok map
  end.

(** A range a client may write: not empty, inside the image, a 32-bit length. *)
Definition range_ok (sz : Z) (r : Z * Z) : Prop :=
  0 <= r.1 /\ 0 < r.2 < 2 ^ 32 /\ r.1 + r.2 <= sz.

Definition cevent_ok (sz : Z) (ev : cevent) : Prop :=
  match ev with CStore from bs => range_ok sz (from, zlen bs) | CMark _ | CLost _ => True end.

Fixpoint clients_run (evs : list cevent) (p : list (Z * Z)) (map : bitset) : res (list (Z * Z) * bitset) :=
  match evs with
  | [] => Ok (p, map)
  | ev :: evs' => map' ← client_map p map ev; clients_run evs' (client_pend p ev) map'
  end.

Fixpoint clients_torn (evs : list cevent) (p : list (Z * Z)) : list (Z * Z) :=
  match evs with
  | [] => []
  | ev :: evs' => clients_torn evs' (client_pend p ev) ++ client_torn p ev
  end.

(** The threads end when each stored range is marked or lost. *)
Definition clients_env (evs : list cevent) (p : list (Z * Z)) (s : server) : res server :=
  '(p', map) ← clients_run evs p (allocation_map s);
  if decide (p' = []) then Ok (s <| allocation_map := map |>) else Stop SBlock.

(** [torn] are the ranges of writes that were cut off, [wire] is on its way to the
    listener, [reply] what is left of its answer, [low] the memory of the process at
    small addresses. *)
Record sys := {
  ctl : mirror_ctrl;
  file : list Z;
  remote : list Z;
  pending : list (Z * Z);
  torn : list (Z * Z);
  wire : list Z;
  reply : option (list Z);
  low : Z -> Z -> option (list Z)
}.

#[export] Instance sys_eta : Settable sys := fun y =>
  Build_sys (ctl y) (file y) (remote y) (pending y) (torn y) (wire y) (reply y) (low y).

Definition loop_on (y : sys) : Prop := ev_broken (ctl y) = false.

(** A client event, a callback of an active watcher, or the listener: it stores a
    complete request and answers with success, or refuses it. *)
Inductive sys_step (y : sys) : sys -> Prop :=
| sy_client ev map :
    clients_closed (ctl y) = false -> cevent_ok (size (serve (ctl y))) ev ->
    client_map (pending y) (allocation_map (serve (ctl y))) ev = Ok map ->
    sys_step y (y <| ctl := set_map (ctl y) map |> <| file := client_file (file y) ev |>
                  <| pending := client_pend (pending y) ev |> <| torn := client_torn (pending y) ev ++ torn y |>)
| sy_begin c : loop_on y -> begin_watcher (ctl y) = true -> mirror_begin_cb true (ctl y) = Ok c ->
    sys_step y (y <| ctl := c |>)
| sy_write ans bs c : loop_on y -> write_watcher (ctl y) = true ->
    mirror_write_cb true ans (low y) (file y) (ctl y) = Ok (bs, c) ->
    sys_step y (y <| ctl := c |> <| wire := wire y ++ bs |>)
| sy_store q data f : loop_on y -> reply y = None ->
    zlen (wire y) = NBD_REQUEST_SIZE + zlen data ->
    q = nbd_r2h_request (of_wire (take 28 (wire y))) -> data = drop 28 (wire y) ->
    q_magic q = REQUEST_MAGIC -> q_type q = REQUEST_WRITE -> q_len q = zlen data ->
    mem_store (remote y) (q_from q) data = Ok f ->
    sys_step y (y <| remote := f |> <| wire := [] |> <| reply := Some (reply_bytes (q_handle q) 0) |>)
| sy_refuse h e : loop_on y -> reply y = None -> read_watcher (ctl y) = true ->
    0 <= h < 2 ^ 64 -> 0 < e < 2 ^ 32 ->
    sys_step y (y <| wire := [] |> <| reply := Some (reply_bytes h e) |>)
| sy_read ans e evs out c rest : loop_on y -> read_watcher (ctl y) = true ->
    re_clients e = clients_env evs (pending y) -> Forall (cevent_ok (size (serve (ctl y)))) evs ->
    (match ans with RdBytes bs => bs <> [] /\ default [] (reply y) = bs ++ rest | _ => rest = default [] (reply y) end) ->
    mirror_read_cb true ans e (ctl y) = Ok (out, c) ->
    let closing := negb (clients_closed (ctl y)) && clients_closed c in
    sys_step y
      (y <| ctl := c |> <| file := if closing then foldl client_file (file y) evs else file y |>
         <| pending := if closing then [] else pending y |>
         <| torn := if closing then clients_torn evs (pending y) ++ torn y else torn y |>
         <| reply := if bool_decide (rest = []) then None else Some rest |>)
| sy_limit now c : loop_on y -> limit_watcher (ctl y) = true -> mirror_limit_cb true now (ctl y) = Ok c ->
    sys_step y (y <| ctl := c |>)
| sy_timeout : loop_on y -> timeout_watcher (ctl y) = true ->
    sys_step y (y <| ctl := mirror_timeout_cb true (ctl y) |>)
| sy_abandon c : loop_on y -> abandon_watcher (ctl y) = true -> mirror_abandon_cb true (ctl y) = Ok c ->
    sys_step y (y <| ctl := c |>).

(** The states a run leads to from a connection to a listener with any content. *)
Inductive migrating (y0 : sys) : sys -> Prop :=
| mig_start : migrating y0 y0
| mig_step y y' : migrating y0 y -> sys_step y y' -> migrating y0 y'.

(** * Lemmas *)

Lemma migrating_trans y0 y1 y2 : migrating y0 y1 -> migrating y1 y2 -> migrating y0 y2.
Proof. intros H1 H2. induction H2 as [| y y' _ IH Hs]; [done | by apply (mig_step _ y)]. Qed.

Lemma migrating_one y y' : sys_step y y' -> migrating y y'.
Proof. apply mig_step, mig_start. Qed.

(** ** Bytes that still have to be sent *)

Definition in_rng (i from len : Z) : Prop := from <= i < from + len.

Definition covered (evs : list bitset_stream_entry) (pend : list (Z * Z)) (i : Z) : Prop :=
  (exists e, e ∈ evs /\ event e = BITSET_STREAM_SET /\ in_rng i (e_from e) (e_len e)) \/
  (exists r, r ∈ pend /\ in_rng i r.1 r.2).

(** The transfer under way, with the data that has been sent of it. *)
Record active := { a_from : Z; a_len : Z; a_data : list Z }.

Definition settled (act : option active) (f rem : list Z) (i : Z) : Prop :=
  match act with
  | Some a =>
      in_rng i (a_from a) (a_len a) /\ (zlen (a_data a) <= i - a_from a \/ byte_at (a_data a) (i - a_from a) = byte_at f i) \/
      ~ in_rng i (a_from a) (a_len a) /\ byte_at rem i = byte_at f i
  | None => byte_at rem i = byte_at f i
  end.

(** A byte is going to be sent, or is being sent as it is, or the listener has it. *)
Definition byte_ok (off : Z) (evs : list bitset_stream_entry) (pend : list (Z * Z)) (act : option active)
    (f rem : list Z) (i : Z) : Prop :=
  covered evs pend i \/ off <= i \/ settled act f rem i.

Definition image_ok (sz off : Z) evs pend act f rem : Prop :=
  forall i, 0 <= i < sz -> byte_ok off evs pend act f rem i.

(** A client stores bytes. *)
Lemma image_store sz off evs pend act f rem from bs f' :
  image_ok sz off evs pend act f rem -> mem_store f from bs = Ok f' ->
  image_ok sz off evs ((from, zlen bs) :: pend) act f' rem.
Proof.
  intros H Hs i Hi. destruct (decide (in_rng i from (zlen bs))) as [Hin | Hout].
  { left. right. exists (from, zlen bs). split; [by left | exact Hin]. }
  assert (Hb : byte_at f' i = byte_at f i).
  { rewrite (byte_at_store _ _ _ _ _ Hs). unfold in_rng in Hout.
    destruct ((from <=? i) && (i <? from + zlen bs)) eqn:E; [lia | done]. }
  destruct (H i Hi) as [[He | (r & Hr & Hri)] | [Ho | Hse]].
  - left. by left.
  - left. right. exists r. split; [by right | done].
  - right. by left.
  - right. right. unfold settled in *. rewrite Hb. done.
Qed.

(** A client marks a range while the stream is on. *)
Lemma image_mark sz off evs pend act f rem k from len :
  image_ok sz off evs pend act f rem -> pend !! k = Some (from, len) ->
  image_ok sz off (evs ++ [{| event := BITSET_STREAM_SET; e_from := from; e_len := len |}]) (delete k pend) act f rem.
Proof.
  intros H Hk i Hi. destruct (H i Hi) as [[(e & He & Hev & Hin) | (r & Hr & Hin)] | Ho].
  - left. left. exists e. split; [set_solver | done].
  - left. rewrite (delete_take_drop pend k). rewrite <- (take_drop_middle _ _ _ Hk) in Hr.
    apply elem_of_app in Hr as [Hr | Hr]; [right; exists r; split; [set_solver | done] |].
    apply elem_of_cons in Hr as [-> | Hr]; [| right; exists r; split; [set_solver | done]].
    left. exists {| event := BITSET_STREAM_SET; e_from := from; e_len := len |}. split; [set_solver | done].
  - by right.
Qed.

(** Before anything was sent no byte needs an event. *)
Lemma image_fresh sz off evs pend f rem : 0 <= off ->
  image_ok sz off evs pend (Some {| a_from := 0; a_len := off; a_data := [] |}) f rem.
Proof.
  intros Ho i Hi. destruct (decide (off <= i)) as [Hge | Hlt]; [right; by left |].
  right. right. left. split; [unfold in_rng; cbn; lia | left; cbn [a_data a_from]; change (@zlen Z []) with 0; lia].
Qed.

(** A piece of the file is sent. *)
Lemma image_send sz off evs pend from len data f rem n :
  image_ok sz off evs pend (Some {| a_from := from; a_len := len; a_data := data |}) f rem ->
  0 <= from -> 0 <= n ->
  image_ok sz off evs pend
    (Some {| a_from := from; a_len := len; a_data := data ++ slice f (from + zlen data) n |}) f rem.
Proof.
  intros H Hf Hn i Hi. destruct (H i Hi) as [Hc | [Ho | Hs]]; [by left | right; by left |].
  right. right. pose proof (zlen_nonneg data) as Hd. destruct Hs as [[Hin Hs] | Hs]; [left | by right].
  split; [done |]. cbn [a_from a_data] in *.
  destruct (decide (i - from < zlen data)) as [Hlt | Hge].
  { destruct Hs as [Hs | Hs]; [lia |]. right. rewrite byte_at_app. by replace (i - from <? zlen data) with true by lia. }
  destruct (decide (zlen (data ++ slice f (from + zlen data) n) <= i - from)) as [Hle | Hgt]; [by left | right].
  rewrite zlen_app in Hgt. rewrite byte_at_app. replace (i - from <? zlen data) with false by lia.
  unfold slice, byte_at in *. replace (0 <=? i - from - zlen data) with true by lia.
  replace (0 <=? i) with true by (unfold in_rng in Hin; cbn in Hin; lia).
  unfold zlen in Hgt at 2. rewrite length_take in Hgt.
  rewrite lookup_take_lt, lookup_drop by lia. f_equal. f_equal. lia.
Qed.

(** The listener stores a complete transfer. *)
Lemma image_apply sz off evs pend from len data f rem rem' :
  image_ok sz off evs pend (Some {| a_from := from; a_len := len; a_data := data |}) f rem ->
  zlen data = len -> mem_store rem from data = Ok rem' ->
  image_ok sz off evs pend None f rem'.
Proof.
  intros H Hl Hs i Hi. destruct (H i Hi) as [Hc | [Ho | Hse]]; [by left | right; by left |].
  right. right. cbn. rewrite (byte_at_store _ _ _ _ _ Hs).
  destruct Hse as [[Hin Hse] | [Hout Hse]]; unfold in_rng in *; cbn in *.
  - replace ((from <=? i) && (i <? from + zlen data)) with true by lia. destruct Hse; [lia | done].
  - replace ((from <=? i) && (i <? from + zlen data)) with false by lia. done.
Qed.

(** An event is taken off the stream: one that names bytes starts a transfer. *)
Lemma image_take_set sz off e evs pend f rem :
  image_ok sz off (e :: evs) pend None f rem -> event e = BITSET_STREAM_SET ->
  image_ok sz off evs pend (Some {| a_from := e_from e; a_len := e_len e; a_data := [] |}) f rem.
Proof.
  intros H He i Hi. destruct (decide (in_rng i (e_from e) (e_len e))) as [Hin | Hout].
  { right. right. left. split; [done |]. left. unfold in_rng in Hin. cbn [a_data a_from]. change (@zlen Z []) with 0. lia. }
  destruct (H i Hi) as [[(e' & He' & Hev & Hin) | Hp] | [Ho | Hs]].
  - apply elem_of_cons in He' as [-> | He']; [done |]. left. left. by exists e'.
  - left. by right.
  - right. by left.
  - right. right. right. done.
Qed.

Lemma image_take_other sz off e evs pend act f rem :
  image_ok sz off (e :: evs) pend act f rem -> event e <> BITSET_STREAM_SET -> image_ok sz off evs pend act f rem.
Proof.
  intros H He i Hi. destruct (H i Hi) as [[(e' & He' & Hev & Hin) | Hp] | Ho]; [| left; by right | by right].
  apply elem_of_cons in He' as [-> | He']; [done |]. left. left. by exists e'.
Qed.

Lemma image_more_events sz off e evs pend act f rem :
  image_ok sz off evs pend act f rem -> image_ok sz off (evs ++ [e]) pend act f rem.
Proof.
  intros H i Hi. destruct (H i Hi) as [[(e' & He' & Hx) | Hp] | Ho]; [left; left | left; by right | by right].
  exists e'. split; [set_solver | done].
Qed.

(** The next piece of the pass over the file. *)
Lemma image_advance sz off evs pend f rem run :
  image_ok sz off evs pend None f rem -> 0 <= run ->
  image_ok sz (off + run) evs pend (Some {| a_from := off; a_len := run; a_data := [] |}) f rem.
Proof.
  intros H Hr i Hi. destruct (decide (in_rng i off run)) as [Hin | Hout].
  { right. right. left. split; [done |]. left. unfold in_rng in Hin. cbn [a_data a_from]. change (@zlen Z []) with 0. lia. }
  destruct (H i Hi) as [Hc | [Ho | Hs]]; [by left | | right; right; by right].
  right. left. unfold in_rng in Hout. lia.
Qed.

(** A byte of a write that was cut off. *)
Definition torn_at (tn : list (Z * Z)) (i : Z) : Prop := exists r, r ∈ tn /\ in_rng i r.1 r.2.

(** Nothing is left to send. *)
Lemma image_done sz tn f rem :
  image_ok sz sz [] tn None f rem -> forall i, 0 <= i < sz -> torn_at tn i \/ byte_at rem i = byte_at f i.
Proof.
  intros H i Hi. destruct (H i Hi) as [[(e & He & _) | Hr] | [Ho | Hs]]; [set_solver | by left | lia | by right].
Qed.

Lemma image_more_pending sz off evs pend pend' act f rem :
  (forall r, r ∈ pend -> r ∈ pend') -> image_ok sz off evs pend act f rem -> image_ok sz off evs pend' act f rem.
Proof.
  intros Hp H i Hi. destruct (H i Hi) as [[He | (r & Hr & Hin)] | Ho]; [left; by left | | by right].
  left. right. exists r. split; [by apply Hp | done].
Qed.

(** ** Choosing the next transfer *)

Definition evs_of (map : bitset) : list bitset_stream_entry := contents (stream map).

Definition ev_ok (sz : Z) (e : bitset_stream_entry) : Prop :=
  event e = BITSET_STREAM_SET -> range_ok sz (e_from e, e_len e).

Record map_ok (sz : Z) (map : bitset) : Prop := {
  mo_ok : bitset_ok map;
  mo_size : bs_size map = sz;
  mo_evs : Forall (ev_ok sz) (evs_of map)
}.

Definition upd (c : mirror_ctrl) (map : bitset) (ce : bool) : mirror_ctrl :=
  (set_map c map) <| clear_events := ce |>.

Definition whole (e : bitset_stream_entry) : active := {| a_from := e_from e; a_len := e_len e; a_data := [] |}.

Lemma dequeue_map sz map e r :
  map_ok sz map -> evs_of map = e :: r ->
  exists map', bitset_stream_dequeue map = Ok (e, map') /\ map_ok sz map' /\ evs_of map' = r /\
    stream_enabled map' = stream_enabled map /\ s_size (stream map') = s_size (stream map) - 1.
Proof.
  intros [Hok Hsz Hev] Hc. pose proof Hok as [B1 B2 B3 B4 B5].
  destruct (stream_dequeue_spec (stream map) e r B5 Hc) as (s' & E & Hs & Hr).
  unfold bitset_stream_dequeue. rewrite E. cbn [mbind res_bind]. eexists. split; [reflexivity |].
  split; [| split; [done |]; split; [done |]].
  - constructor; [by constructor | done |]. unfold evs_of in *. cbn. rewrite Hr. rewrite Hc in Hev.
    by apply Forall_cons_1 in Hev as [_ ?].
  - cbn. pose proof (length_contents s' (proj1 (so_size _ Hs))) as L1.
    pose proof (length_contents (stream map) (proj1 (so_size _ B5))) as L2.
    unfold evs_of in Hc. rewrite Hc in L2. rewrite Hr in L1. unfold zlen in *. cbn in L2. lia.
Qed.

Lemma evs_nonempty map : bitset_ok map -> s_size (stream map) <> 0 -> exists e r, evs_of map = e :: r.
Proof.
  intros [_ _ _ _ Hs] Hne. pose proof (length_contents _ (proj1 (so_size _ Hs))) as L.
  unfold evs_of. destruct (contents (stream map)) as [| e r]; [unfold zlen in L; cbn in L; lia | eauto].
Qed.

Lemma evs_empty map : bitset_ok map -> s_size (stream map) = 0 -> evs_of map = [].
Proof.
  intros [_ _ _ _ Hs] He. apply zlen_nil_inv. unfold evs_of.
  by rewrite (length_contents _ (proj1 (so_size _ Hs))).
Qed.

(** What taking events off the stream keeps, whatever the data. *)
Definition keeps (sz off : Z) (evs evs' : list bitset_stream_entry) (act : option active) : Prop :=
  forall pend f rem, image_ok sz off evs pend None f rem -> image_ok sz off evs' pend act f rem.

Lemma dequeue_events_spec sz m fuel : forall c e,
  map_ok sz (allocation_map (serve c)) -> size (serve c) = sz -> event e <> BITSET_STREAM_SET ->
  (Z.to_nat (s_size (stream (allocation_map (serve c)))) < fuel)%nat ->
  exists e' map ce, dequeue_events fuel m c e = Ok (e', upd c map ce) /\ map_ok sz map /\
    stream_enabled map = stream_enabled (allocation_map (serve c)) /\
    s_size (stream map) <= s_size (stream (allocation_map (serve c))) /\
    (event e' = BITSET_STREAM_SET ->
       range_ok sz (e_from e', e_len e') /\
       s_size (stream map) < s_size (stream (allocation_map (serve c))) /\
       keeps sz (offset m) (evs_of (allocation_map (serve c))) (evs_of map) (Some (whole e'))) /\
    (event e' <> BITSET_STREAM_SET ->
       (offset m = sz -> evs_of map = []) /\
       keeps sz (offset m) (evs_of (allocation_map (serve c))) (evs_of map) None).
Proof.
  induction fuel as [| fuel IH]; intros c e Hm Hsz He Hfuel; [lia |]. cbn [dequeue_events]. rewrite Hsz.
  rewrite (bool_decide_eq_true_2 _ He), andb_true_r.
  pose proof (so_size _ (bo_stream _ (mo_ok _ _ Hm))) as Hpos.
  assert (Hstay : upd c (allocation_map (serve c)) (clear_events c) = c) by (destruct c as [[]]; done).
  destruct ((offset m =? sz) || clear_events c) eqn:Eg.
  2:{ exists e, (allocation_map (serve c)), (clear_events c). rewrite Hstay. split_and!; try done; try lia.
      intros _. split; [| by intros ? ? ?]. intros Ho. rewrite Ho, Z.eqb_refl in Eg. done. }
  unfold bitset_stream_size. destruct (s_size (stream (allocation_map (serve c))) =? 0) eqn:E0.
  { exists e, (allocation_map (serve c)), (clear_events c). rewrite Hstay. split_and!; try done; try lia.
    intros _. split; [| by intros ? ? ?]. intros _. apply evs_empty; [apply Hm | lia]. }
  destruct (evs_nonempty (allocation_map (serve c)) (mo_ok _ _ Hm) ltac:(lia)) as (e1 & r & Hc).
  destruct (dequeue_map sz _ e1 r Hm Hc) as (map1 & E1 & Hm1 & Hr1 & En1 & Hs1). rewrite E1. cbn [mbind res_bind].
  set (ce1 := if s_size (stream (allocation_map (serve c))) <? BITSET_STREAM_SIZE / 4 then false else clear_events c).
  replace (if s_size (stream (allocation_map (serve c))) <? BITSET_STREAM_SIZE / 4
           then (set_map c map1) <| clear_events := false |> else set_map c map1) with (upd c map1 ce1)
    by (subst ce1; destruct (s_size _ <? _); destruct c as [[]]; done).
  pose proof (mo_evs _ _ Hm) as Hev. rewrite Hc in Hev. apply Forall_cons_1 in Hev as [Hev1 _].
  destruct (decide (event e1 = BITSET_STREAM_SET)) as [Hset | Hnot].
  - destruct fuel as [| fuel]; [lia |]. cbn [dequeue_events].
    rewrite (bool_decide_eq_false_2 (event e1 <> BITSET_STREAM_SET)) by (intros H; by apply H).
    rewrite andb_false_r. exists e1, map1, ce1. split_and!; try done; try lia. intros _.
    split; [by apply Hev1 |]. split; [lia |]. intros pend f rem H. rewrite Hc in H. rewrite Hr1.
    by apply image_take_set.
  - destruct (IH (upd c map1 ce1) e1) as (e' & map & ce & E & H1 & H2 & H3 & H4 & H5);
      [done | done | done | cbn; lia |]. cbn [upd set_map serve allocation_map set_field] in *.
    assert (Hk : forall act, keeps sz (offset m) (evs_of map1) (evs_of map) act ->
      keeps sz (offset m) (evs_of (allocation_map (serve c))) (evs_of map) act).
    { intros act Hk pend f rem H. apply Hk. rewrite Hc in H. rewrite Hr1. by apply (image_take_other _ _ e1). }
    exists e', map, ce. split; [rewrite E; destruct c as [[]]; done |]. split_and!; [done | congruence | lia | |].
    + intros Hs. destruct (H4 Hs) as (K1 & K2 & K3). split_and!; [done | lia | by apply Hk].
    + intros Hs. destruct (H5 Hs) as (K1 & K2). split; [done | by apply Hk].
Qed.

(** The transfer set up for a range. *)
Definition new_xfer (from len : Z) : xfer :=
  {| hdr := to_wire (nbd_h2r_request (mirror_request from len)); x_from := from; x_len := len;
     written := 0; x_read := 0 |}.

Definition set_up (c : mirror_ctrl) (map : bitset) (ce : bool) (m : mirror) : mirror_ctrl :=
  c <| serve := (serve c) <| allocation_map := map |> <| s_mirror := Some m |> |> <| clear_events := ce |>.

Record srv_ok (sz : Z) (s : server) (m : mirror) : Prop := {
  sv_mirror : s_mirror s = Some m;
  sv_size : size s = sz;
  sv_range : 0 < sz < 2 ^ 62;
  sv_map : map_ok sz (allocation_map s);
  sv_off : 0 <= offset m <= sz;
  sv_state : commit_state m <> MS_DONE;
  sv_mapped : m_mapped m = true
}.

(** Work left: pieces of the pass and queued events. *)
Definition work_left (sz off : Z) (map : bitset) : Z :=
  (sz - off + mirror_longest_write - 1) / mirror_longest_write + s_size (stream map).

Lemma longest_write_value : mirror_longest_write = 8388608.
Proof. done. Qed.

(** What [mirror_setup_next_xfer] does: the next transfer is an event or a piece of the
    pass, or there is nothing left to send. *)
Definition next_xfer_post (sz : Z) (c : mirror_ctrl) (m : mirror) : Prop :=
  (exists map ce off from len,
     mirror_setup_next_xfer c =
       Ok (true, (set_up c map ce (m <| offset := off |>)) <| the_xfer := new_xfer from len |>) /\
     map_ok sz map /\ stream_enabled map = stream_enabled (allocation_map (serve c)) /\
     0 <= off <= sz /\ range_ok sz (from, len) /\
     (off = offset m \/ from = offset m /\ off = offset m + len) /\
     work_left sz off map < work_left sz (offset m) (allocation_map (serve c)) /\
     forall pend f rem, image_ok sz (offset m) (evs_of (allocation_map (serve c))) pend None f rem ->
       image_ok sz off (evs_of map) pend (Some {| a_from := from; a_len := len; a_data := [] |}) f rem) \/
  (exists map ce, mirror_setup_next_xfer c = Ok (false, set_up c map ce m) /\
     map_ok sz map /\ stream_enabled map = stream_enabled (allocation_map (serve c)) /\
     evs_of map = [] /\ offset m = sz /\
     forall pend f rem, image_ok sz (offset m) (evs_of (allocation_map (serve c))) pend None f rem ->
       image_ok sz sz [] pend None f rem).

Lemma setup_next_xfer_at sz c m :
  s_mirror (serve c) = Some m -> size (serve c) = sz -> 0 < sz < 2 ^ 62 -> map_ok sz (allocation_map (serve c)) ->
  0 <= offset m <= sz ->
  next_xfer_post sz c m.
Proof.
  intros Hmi Hsz Hr Hm Ho. unfold next_xfer_post, mirror_setup_next_xfer, with_mirror. rewrite Hmi. cbn [of_opt mbind res_bind].
  set (c0 := if _ && _ then _ else c).
  assert (Hc0 : serve c0 = serve c /\ forall map ce, upd c0 map ce = upd c map ce).
  { subst c0. destruct (_ && _); split; try done. }
  destruct Hc0 as [Hs0 Hu0].
  destruct (dequeue_events_spec sz m
    (S (Z.to_nat (bitset_stream_size (allocation_map (serve c0))))) c0 no_entry)
    as (e & map & ce & E & H1 & H2 & H3 & H4 & H5); [by rewrite Hs0 | by rewrite Hs0 | done | unfold bitset_stream_size; lia |].
  rewrite Hs0 in *. rewrite E, Hu0. cbn [mbind res_bind]. rewrite Hsz.
  assert (Hup : upd c map ce = set_up c map ce m).
  { destruct c as [[]]. cbn in *. by subst. }
  remember 8388608 as lw eqn:Hlw. rewrite <- longest_write_value in Hlw. rewrite <- Hlw.
  assert (Hlv : lw = 8388608) by (rewrite Hlw; apply longest_write_value).
  destruct (decide (event e = BITSET_STREAM_SET)) as [Hset | Hnot].
  - rewrite (bool_decide_eq_true_2 _ Hset). destruct (H4 Hset) as (K1 & K2 & K3). left.
    exists map, ce, (offset m), (e_from e), (e_len e). rewrite Hup. split_and!; try done; try lia.
    + f_equal. f_equal. by destruct m.
    + unfold work_left. lia.
  - rewrite (bool_decide_eq_false_2 _ Hnot). destruct (H5 Hnot) as (K1 & K2). destruct (offset m <? sz) eqn:El.
    + set (run := if sz <? offset m +64 lw then sz -64 offset m else lw).
      assert (Hrun : 0 < run <= lw /\ offset m + run <= sz /\ (run = lw \/ offset m + run = sz)).
      { subst run. rewrite !u64_id by lia. destruct (sz <? offset m + lw) eqn:E2; lia. }
      clearbody run. rewrite u64_id by lia. left. exists map, ce, (offset m + run), (offset m), run.
      rewrite Hup. split_and!; try done; try lia.
      * unfold range_ok. cbn [fst snd]. lia.
      * unfold work_left. rewrite <- Hlw. enough ((sz - (offset m + run) + lw - 1) / lw < (sz - offset m + lw - 1) / lw) by lia.
        destruct Hrun as (Hrun1 & Hrun2 & [-> | Hend]).
        -- replace (sz - offset m + lw - 1) with ((sz - (offset m + lw) + lw - 1) + 1 * lw) by lia.
           rewrite Z.div_add by lia. lia.
        -- replace (sz - (offset m + run) + lw - 1) with (lw - 1) by lia. rewrite Z.div_small by lia.
           apply Z.div_str_pos. lia.
      * intros pend f rem H. apply image_advance; [by apply K2 | lia].
    + right. exists map, ce. rewrite Hup. assert (offset m = sz) as Hoff by lia. split_and!; try done.
      * by apply K1.
      * intros pend f rem H. apply K2 in H. rewrite (K1 Hoff), Hoff in H. exact H.
Qed.

Lemma setup_next_xfer_spec sz c m :
  srv_ok sz (serve c) m ->
  next_xfer_post sz c m.
Proof. intros []. by apply setup_next_xfer_at. Qed.

(** ** Clients while the stream is on *)

Lemma image_weaken sz off evs pend act f rem :
  image_ok sz off [] [] act f rem -> image_ok sz off evs pend act f rem.
Proof.
  intros H i Hi. destruct (H i Hi) as [[(e & He & _) | (r & Hr & _)] | Ho]; [set_solver | set_solver | by right].
Qed.

(** A mark that went through had room in the stream. *)
Lemma set_range_room map from len map' : bitset_ok map -> bitset_set_range map from len = Ok map' -> room map 1.
Proof.
  intros Hok H Hon. unfold bitset_set_range in H. destruct (INT_FIRST_AND_LAST map from len) as [first bitlen].
  apply bind_Ok in H as (b & _ & H). rewrite Hon in H. unfold bitset_stream_enqueue in H.
  apply bind_Ok in H as (st & H & _). unfold stream_enqueue in H. cbn [with_bits stream] in H.
  destruct (s_size (stream map) =? BITSET_STREAM_SIZE) eqn:E; [done |].
  pose proof (so_size _ (bo_stream _ Hok)). lia.
Qed.

Lemma client_file_zlen sz f ev : sz <= zlen f -> zlen (client_file f ev) = zlen f.
Proof.
  intros Hz. destruct ev as [from bs | k | k]; [| done | done]. cbn [client_file].
  destruct (mem_store f from bs) as [f' |] eqn:E; [by apply (mem_store_zlen f from bs) | done].
Qed.

Lemma delete_app_left {A} (k : nat) (p tn : list A) : (k < length p)%nat -> delete k (p ++ tn) = delete k p ++ tn.
Proof. intros Hk. rewrite !delete_take_drop, take_app_le, drop_app_le by lia. by rewrite app_assoc. Qed.

Lemma client_event_spec sz map p ev map' :
  map_ok sz map -> Forall (range_ok sz) p -> cevent_ok sz ev -> client_map p map ev = Ok map' ->
  map_ok sz map' /\ stream_enabled map' = stream_enabled map /\ Forall (range_ok sz) (client_pend p ev) /\
  (stream_enabled map = true -> forall off tn act f rem, sz <= zlen f -> image_ok sz off (evs_of map) (p ++ tn) act f rem ->
     image_ok sz off (evs_of map') (client_pend p ev ++ client_torn p ev ++ tn) act (client_file f ev) rem).
Proof.
  intros Hm Hp Hev H. destruct ev as [from bs | k | k]; cbn [client_map client_pend client_file client_torn cevent_ok app] in *.
  - injection H as <-. split_and!; [done | done | by constructor |].
    intros _ off tn act f rem Hz Hi. destruct Hev as (H1 & H2 & H3). cbn [fst snd] in *.
    destruct (mem_store f from bs) as [f' |] eqn:E; [by apply (image_store _ _ _ _ _ f) |].
    rewrite mem_store_ok in E by lia. done.
  - apply bind_Ok in H as ([from len] & Hk & H). destruct (p !! k) as [r |] eqn:Er; [| done].
    cbn in Hk. injection Hk as ->.
    pose proof (proj1 (Forall_lookup _ _) Hp k _ Er) as Hr. pose proof Hr as (R1 & R2 & R3). cbn [fst snd] in *.
    pose proof (set_range_room _ _ _ _ (mo_ok _ _ Hm) H) as Hroom.
    destruct (bitset_set_range_spec map (mo_ok _ _ Hm) from len) as (map1 & E & B1 & B2 & _ & B4 & B5 & _);
      [lia | lia | rewrite (mo_size _ _ Hm); lia | done |].
    rewrite E in H. injection H as <-.
    assert (Hd : Forall (range_ok sz) (delete k p)) by (by apply Forall_delete).
    split_and!; [| done | done |].
    + constructor; [done | by rewrite B2; apply Hm |]. unfold evs_of. rewrite B5. apply Forall_app. split; [apply Hm |].
      destruct (stream_enabled map); [| constructor]. constructor; [| constructor]. by intros _.
    + intros Hon off tn act f rem _ Hi. unfold evs_of. rewrite B5, Hon. rewrite <- delete_app_left by (by eapply lookup_lt_Some).
      apply image_mark; [done |]. by apply lookup_app_l_Some.
  - apply bind_Ok in H as (r & Hk & [= <-]). destruct (p !! k) as [r' |] eqn:Er; [| done]. injection Hk as ->.
    split_and!; [done | done | by apply Forall_delete |]. intros _ off tn act f rem _ Hi. cbn [option_list app].
    revert Hi. apply image_more_pending. intros x. rewrite <- (take_drop_middle _ _ _ Er) at 1. rewrite (delete_take_drop p k).
    set_solver.
Qed.

Lemma clients_run_spec sz off act rem evs : forall p tn map f p' map',
  map_ok sz map -> Forall (range_ok sz) p -> Forall (cevent_ok sz) evs -> sz <= zlen f ->
  stream_enabled map = true -> clients_run evs p map = Ok (p', map') ->
  image_ok sz off (evs_of map) (p ++ tn) act f rem ->
  map_ok sz map' /\ stream_enabled map' = true /\ sz <= zlen (foldl client_file f evs) /\
  image_ok sz off (evs_of map') (p' ++ clients_torn evs p ++ tn) act (foldl client_file f evs) rem.
Proof.
  induction evs as [| ev evs IH]; intros p tn map f p' map' Hm Hp He Hz Hon H Hi; cbn [clients_run foldl clients_torn] in *.
  { injection H as <- <-. done. }
  apply Forall_cons_1 in He as [He1 He2]. apply bind_Ok in H as (map1 & H1 & H).
  destruct (client_event_spec sz map p ev map1 Hm Hp He1 H1) as (K1 & K2 & K3 & K4).
  rewrite <- app_assoc. apply (IH (client_pend p ev) _ map1); try done.
  - by rewrite (client_file_zlen sz).
  - congruence.
  - by apply K4.
Qed.

(** ** The invariant *)

Definition req_bytes (from len : Z) : list Z := to_wire (nbd_h2r_request (mirror_request from len)).

Lemma MIRROR_HANDLE_range : 0 <= MIRROR_HANDLE < 2 ^ 64.
Proof. by_decide. Qed.

Lemma mirror_request_wf from len : 0 <= from < 2 ^ 64 -> request_wf (mirror_request from len).
Proof.
  intros Hf. unfold request_wf, mirror_request. cbn [q_magic q_flags q_type q_handle q_from q_len].
  split; [by_decide |]. split; [by_decide |]. split; [by_decide |]. split; [exact MIRROR_HANDLE_range |].
  split; [done |]. exact (u32_range len).
Qed.

Lemma zlen_req_bytes from len : zlen (req_bytes from len) = NBD_REQUEST_SIZE.
Proof.
  unfold zlen, req_bytes. rewrite (to_wire_length (nbd_h2r_request (mirror_request from len))); [done |].
  apply h2r_request_wf. exact MIRROR_HANDLE_range.
Qed.

Lemma req_bytes_decode from len :
  0 <= from < 2 ^ 64 -> nbd_r2h_request (of_wire (req_bytes from len)) = mirror_request from len.
Proof.
  intros Hf. unfold req_bytes. rewrite of_to_wire by (apply h2r_request_wf; exact MIRROR_HANDLE_range).
  apply r2h_h2r_request. by apply mirror_request_wf.
Qed.

Definition x_of (y : sys) : xfer := the_xfer (ctl y).
Definition map_of (y : sys) : bitset := allocation_map (serve (ctl y)).

(** A request is being sent, [data] of its data so far. *)
Record sending (y : sys) (data : list Z) : Prop := {
  sd_hdr : hdr (x_of y) = req_bytes (x_from (x_of y)) (x_len (x_of y));
  sd_read : x_read (x_of y) = 0;
  sd_written : 0 <= written (x_of y) <= NBD_REQUEST_SIZE + x_len (x_of y);
  sd_wire : wire y = take (Z.to_nat (written (x_of y))) (hdr (x_of y)) ++ data;
  sd_data : zlen data = Z.max 0 (written (x_of y) - NBD_REQUEST_SIZE);
  sd_reply : reply y = None;
  sd_ww : write_watcher (ctl y) = true -> written (x_of y) < NBD_REQUEST_SIZE + x_len (x_of y);
  sd_rw : read_watcher (ctl y) = true -> written (x_of y) = NBD_REQUEST_SIZE + x_len (x_of y);
  sd_lw : limit_watcher (ctl y) = true ->
    written (x_of y) = 0 /\ write_watcher (ctl y) = false /\ begin_watcher (ctl y) = false;
  sd_bw : begin_watcher (ctl y) = true ->
    written (x_of y) = 0 /\ write_watcher (ctl y) = false /\ limit_watcher (ctl y) = false
}.

(** The listener has replied with error [e] for handle [h]; part of it was read. *)
Record replied (y : sys) (h e : Z) : Prop := {
  an_hdr : zlen (hdr (x_of y)) = NBD_REQUEST_SIZE;
  an_read : 0 <= x_read (x_of y) < NBD_REPLY_SIZE;
  an_reply : exists rest, reply y = Some rest /\
    take (Z.to_nat (x_read (x_of y))) (hdr (x_of y)) ++ rest = reply_bytes h e;
  an_wire : wire y = [];
  an_ww : write_watcher (ctl y) = false;
  an_lw : limit_watcher (ctl y) = false;
  an_bw : begin_watcher (ctl y) = false
}.

Definition act_of (x : xfer) (act : option (list Z)) : option active :=
  (fun d => {| a_from := x_from x; a_len := x_len x; a_data := d |}) <$> act.

(** The loop runs: [Some data] while a request is sent, [None] once it is stored. *)
Record run_ok (sz : Z) (m : mirror) (y : sys) (act : option (list Z)) : Prop := {
  r_srv : srv_ok sz (serve (ctl y)) m;
  r_file : sz <= zlen (file y);
  r_xfer : range_ok sz (x_from (x_of y), x_len (x_of y));
  r_pend : Forall (range_ok sz) (pending y);
  r_closed : clients_closed (ctl y) = true -> pending y = [];
  r_image : image_ok sz (offset m) (evs_of (map_of y)) (pending y ++ torn y) (act_of (x_of y) act) (file y) (remote y);
  r_on : stream_enabled (map_of y) = true \/
    (act = Some [] /\ write_watcher (ctl y) = false /\ limit_watcher (ctl y) = false /\ written (x_of y) = 0 /\
     forall f, image_ok sz (offset m) [] [] (act_of (x_of y) act) f (remote y));
  r_phase : match act with Some data => sending y data | None => replied y MIRROR_HANDLE 0 end
}.

(** The listener has refused the request. *)
Definition turned_down (m : mirror) (y : sys) : Prop :=
  s_mirror (serve (ctl y)) = Some m /\ commit_state m <> MS_DONE /\
  exists h e, 0 <= h < 2 ^ 64 /\ 0 < e < 2 ^ 32 /\ replied y h e.

(** The loop was left: if the migration is complete, both copies agree. *)
Definition left_ok (sz : Z) (m : mirror) (y : sys) : Prop :=
  ev_broken (ctl y) = true /\ s_mirror (serve (ctl y)) = Some m /\
  (commit_state m = MS_DONE -> clients_closed (ctl y) = true /\
     forall i, 0 <= i < sz -> torn_at (torn y) i \/ byte_at (remote y) i = byte_at (file y) i).

Definition inv (sz : Z) (y : sys) : Prop :=
  exists m, (ev_broken (ctl y) = false /\ ((exists act, run_ok sz m y act) \/ turned_down m y)) \/ left_ok sz m y.

(** Leaving the loop without having completed. *)
Lemma inv_left sz m y : ev_broken (ctl y) = true -> s_mirror (serve (ctl y)) = Some m -> commit_state m <> MS_DONE -> inv sz y.
Proof. intros H1 H2 H3. exists m. right. by split_and!. Qed.

(** ** The steps keep it *)

Lemma inv_client sz y ev map :
  inv sz y -> clients_closed (ctl y) = false -> cevent_ok (size (serve (ctl y))) ev ->
  client_map (pending y) (map_of y) ev = Ok map ->
  inv sz (y <| ctl := set_map (ctl y) map |> <| file := client_file (file y) ev |>
            <| pending := client_pend (pending y) ev |> <| torn := client_torn (pending y) ev ++ torn y |>).
Proof.
  intros (m & [[Hb H] | H]) Hcl Hev Hmap.
  2:{ destruct H as (H1 & H2 & H3). exists m. right. split_and!; [done | done |]. intros Hd.
      destruct (H3 Hd). congruence. }
  exists m. left. split; [done |]. destruct H as [[act H] | (H1 & H2 & h & e & Hh & He & H3)].
  2:{ right. split_and!; [done | done |]. exists h, e. split; [exact Hh |]. split; [exact He |]. destruct H3. by constructor. }
  left. exists act. destruct H as [[V1 V2 V3 V4 V5 V6 V7] Hz Hx Hp Hclo Hi Hon Hph]. rewrite V2 in Hev.
  destruct (client_event_spec sz (map_of y) (pending y) ev map V4 Hp Hev Hmap) as (K1 & K2 & K3 & K4).
  constructor; cbn [ctl file remote pending set_field]; try done.
  - by rewrite (client_file_zlen sz).
  - cbn. rewrite Hcl. done.
  - destruct Hon as [Hon | (-> & _ & _ & _ & Hon)]; [by apply K4 | apply image_weaken, Hon].
  - destruct Hon as [Hon | Hon]; [left; unfold map_of in *; cbn in *; congruence | by right].
  - destruct act; destruct Hph; by constructor.
Qed.

(** ON and OFF are queued like any event and name no range to send. *)
Lemma stream_mark_spec sz map map' ev :
  ev <> BITSET_STREAM_SET -> map_ok sz map -> bitset_stream_enqueue map ev 0 (bs_size map) = Ok map' ->
  map_ok sz map' /\ evs_of map' = evs_of map ++ [{| event := ev; e_from := 0; e_len := bs_size map |}] /\
  stream_enabled map' = stream_enabled map.
Proof.
  intros Hne [Hok Hsz Hev] H. unfold bitset_stream_enqueue in H.
  apply bind_Ok in H as (st & H & [= <-]). pose proof Hok as [B1 B2 B3 B4 B5].
  assert (s_size (stream map) < BITSET_STREAM_SIZE).
  { unfold stream_enqueue in H. destruct (s_size (stream map) =? BITSET_STREAM_SIZE) eqn:E; [done |].
    pose proof (so_size _ B5). lia. }
  destruct (stream_enqueue_spec (stream map) ev 0 (bs_size map) B5) as (s' & E & S1 & S2); [done |].
  rewrite E in H. injection H as <-. split; [| by unfold evs_of].
  constructor; [by constructor | done |]. unfold evs_of. cbn. rewrite S2. apply Forall_app. split; [done |].
  apply Forall_singleton. by intros ?.
Qed.

Lemma map_ok_enabled sz map b : map_ok sz map -> map_ok sz (with_enabled map b).
Proof. intros [[] Hsz Hev]. by constructor. Qed.

Lemma enable_stream_spec sz map map' :
  map_ok sz map -> bitset_enable_stream map = Ok map' ->
  map_ok sz map' /\ stream_enabled map' = true /\
  evs_of map' = evs_of map ++ [{| event := BITSET_STREAM_ON; e_from := 0; e_len := bs_size map |}].
Proof.
  intros Hm H. by destruct (stream_mark_spec sz _ map' BITSET_STREAM_ON (fun E => ltac:(discriminate E)) (map_ok_enabled sz map true Hm) H) as (K1 & K2 & K3).
Qed.

Lemma disable_stream_spec sz map map' :
  map_ok sz map -> bitset_disable_stream map = Ok map' -> map_ok sz map' /\ stream_enabled map' = false.
Proof.
  intros Hm H. apply bind_Ok in H as (map1 & H & [= <-]).
  destruct (stream_mark_spec sz _ map1 BITSET_STREAM_OFF (fun E => ltac:(discriminate E)) Hm H) as (K1 & _). by split; [apply map_ok_enabled |].
Qed.

Lemma inv_begin sz y c :
  inv sz y -> loop_on y -> begin_watcher (ctl y) = true -> mirror_begin_cb true (ctl y) = Ok c ->
  inv sz (y <| ctl := c |>).
Proof.
  intros (m & [[Hb H] | H]) Hl Hw E; [| by destruct H; unfold loop_on in Hl; congruence].
  destruct H as [[act H] | (_ & _ & h & e & _ & _ & [])]; [| congruence].
  destruct H as [[V1 V2 V3 V4 V5 V6 V7] Hz Hx Hp Hclo Hi Hon Hph].
  destruct act as [data |]; [| destruct Hph; congruence].
  exists m. left. unfold mirror_begin_cb in E. cbn [negb] in E.
  destruct (allocation_map_built _ || _).
  - apply bind_Ok in E as (map & E & [= <-]). split; [done |]. left. exists (Some data).
    destruct (enable_stream_spec sz (map_of y) map V4 E) as (K1 & K2 & K3).
    destruct Hph. pose proof (sd_bw0 Hw) as (H0 & H0' & H0''). destruct Hx as (X1 & X2 & X3). cbn [fst snd] in *.
    constructor; try done.
    + unfold map_of. cbn. rewrite K3. by apply image_more_events.
    + by left.
    + constructor; try done.
      * intros _. change (written (x_of y) < NBD_REQUEST_SIZE + x_len (x_of y)). unfold NBD_REQUEST_SIZE. lia.
      * cbn. congruence.
  - injection E as <-. split; [done |]. left. exists (Some data).
    constructor; try done. destruct Hph. destruct (sd_bw0 Hw) as (H0 & H1 & H2).
    constructor; try done. cbn. congruence.
Qed.

(** The mapping of a mirror that has one is the file. *)
Lemma mapped_at_ok s m lw image off len :
  s_mirror s = Some m -> m_mapped m = true ->
  mapped_at s lw image off len = (data ← mem_load image off len; Ok (Some data)).
Proof. intros H1 H2. unfold mapped_at, with_mirror. rewrite H1. cbn. by rewrite H2. Qed.

(** What one call of the write callback does to a request being sent. *)
Lemma write_cb_spec sz y data ans bs c m :
  run_ok sz m y (Some data) -> mirror_write_cb true ans (low y) (file y) (ctl y) = Ok (bs, c) ->
  write_watcher (ctl y) = true ->
  c = ev_break (ctl y) \/
  exists n, 0 <= n <= NBD_REQUEST_SIZE + x_len (x_of y) - written (x_of y) /\
    let x' := (x_of y) <| written := written (x_of y) + n |> in
    let data' := if written (x_of y) <? NBD_REQUEST_SIZE then []
                 else data ++ slice (file y) (x_from (x_of y) + zlen data) n in
    (written (x_of y) < NBD_REQUEST_SIZE -> written (x_of y) + n <= NBD_REQUEST_SIZE) /\
    wire y ++ bs = take (Z.to_nat (written (x_of y) + n)) (hdr (x_of y)) ++ data' /\
    (c = (ctl y) <| the_xfer := x' |> <| timeout_watcher := timeout_watcher c |>
         <| read_watcher := if written x' =? NBD_REQUEST_SIZE + x_len (x_of y) then true else read_watcher (ctl y) |>
         <| write_watcher := negb (written x' =? NBD_REQUEST_SIZE + x_len (x_of y)) |>).
Proof.
  intros [Hsrv Hz (X1 & X2 & X3) _ _ _ _ [S1 S2 S3 S4 S5 S6 S7 _ _ _]] E Hww. cbn [fst snd] in *.
  pose proof (sv_range _ _ _ Hsrv) as Hszr.
  specialize (S7 Hww). unfold mirror_write_cb in E. cbn [negb] in E. fold (x_of y) in E.
  set (x := x_of y) in *. pose proof (zlen_req_bytes (x_from x) (x_len x)) as Hq. rewrite <- S1 in Hq.
  assert (Hreq : NBD_REQUEST_SIZE = 28) by done.
  apply bind_Ok in E as (todo' & Hload & E). rewrite (mapped_at_ok _ m) in Hload by apply Hsrv.
  assert (exists todo, todo' = Some todo /\ (if written x <? NBD_REQUEST_SIZE
            then mem_load (hdr x) (written x) (NBD_REQUEST_SIZE -64 written x)
            else mem_load (file y) (x_from x + (written x -64 NBD_REQUEST_SIZE))
                   (x_len x -64 (written x -64 NBD_REQUEST_SIZE))) = Ok todo) as (todo & -> & Hload').
  { destruct (written x <? NBD_REQUEST_SIZE); apply bind_Ok in Hload as (todo & Hl & [= <-]); by exists todo. }
  clear Hload. rename Hload' into Hload.
  assert (Htodo : exists k, 0 <= k <= NBD_REQUEST_SIZE + x_len x - written x /\ zlen todo = k /\
    (written x < NBD_REQUEST_SIZE -> written x + k <= NBD_REQUEST_SIZE /\ todo = slice (hdr x) (written x) k) /\
    (NBD_REQUEST_SIZE <= written x -> todo = slice (file y) (x_from x + zlen data) k)).
  { destruct (written x <? NBD_REQUEST_SIZE) eqn:Ew; unfold mem_load in Hload; rewrite u64_id in Hload by lia.
    - destruct (in_range _ _ _); [| done]. injection Hload as <-. exists (NBD_REQUEST_SIZE - written x).
      fold (slice (hdr x) (written x) (NBD_REQUEST_SIZE - written x)).
      split; [lia |]. split; [apply zlen_slice; lia |]. split; [| lia]. intros _. split; [lia | done].
    - rewrite (u64_id (x_len x - _)) in Hload by lia. destruct (in_range _ _ _); [| done]. injection Hload as <-.
      exists (NBD_REQUEST_SIZE + x_len x - written x).
      assert (Hoff : x_from x + (written x - NBD_REQUEST_SIZE) = x_from x + zlen data) by lia.
      replace (x_len x - (written x - NBD_REQUEST_SIZE)) with (NBD_REQUEST_SIZE + x_len x - written x) by lia.
      rewrite Hoff. fold (slice (file y) (x_from x + zlen data) (NBD_REQUEST_SIZE + x_len x - written x)).
      split; [lia |]. split; [apply zlen_slice; lia |]. split; [lia | done]. }
  destruct Htodo as (k & Hk & Hzk & T1 & T2).
  destruct ans as [n | er]; cbn [write_nonblock] in E.
  2:{ cbn [Z.ltb Z.compare] in E. injection E as <- <-. destruct (io_transient er); [right | by left].
      exists 0. rewrite Z.add_0_r, app_nil_r. cbn zeta. split; [lia |]. split; [lia |].
      replace (written (x <| written := written x |>) =? NBD_REQUEST_SIZE + x_len x) with false by (cbn; lia).
      split; [rewrite S4; f_equal |].
      - destruct (written x <? NBD_REQUEST_SIZE) eqn:Ew; [apply zlen_nil_inv; lia |].
        unfold slice. by rewrite take_0, app_nil_r.
      - cbn [negb]. rewrite <- Hww. subst x. unfold x_of. destruct y as [[? ? ? ? ? ? ? ? ? ? ? []]]. done. }
  set (j := Z.min (Z.max 0 n) (zlen todo)) in E. replace (j <? 0) with false in E by lia. right. exists j.
  injection E as <- <-. cbn zeta.
  assert (Hj : 0 <= j <= k) by lia. clearbody j. split; [lia |].
  split; [intros Hlt; destruct (T1 Hlt); lia |]. split.
  - rewrite S4. destruct (written x <? NBD_REQUEST_SIZE) eqn:Ew.
    + destruct (T1 ltac:(lia)) as [_ ->]. assert (data = []) as -> by (apply zlen_nil_inv; lia).
      rewrite !app_nil_r. unfold slice. rewrite take_take.
      replace (Z.to_nat j `min` Z.to_nat k)%nat with (Z.to_nat j) by lia.
      exact (take_zadd (hdr x) 0 (written x) j ltac:(lia) ltac:(lia) ltac:(lia)).
    + rewrite (T2 ltac:(lia)). rewrite <- app_assoc. f_equal; [| f_equal].
      * rewrite !take_ge by (unfold zlen in Hq; lia). done.
      * unfold slice. rewrite take_take. f_equal. lia.
  - assert (Hu : u64 (written x + j) = written x + j) by (apply u64_id; lia).
    assert (Hu2 : u64 (x_len x + NBD_REQUEST_SIZE) = NBD_REQUEST_SIZE + x_len x) by (rewrite u64_id by lia; lia).
    rewrite Hu2. destruct (0 <? j) eqn:Ej.
    + rewrite Hu. cbn [the_xfer timeout_again set_field written].
      destruct (written x + j =? NBD_REQUEST_SIZE + x_len x) eqn:El; cbn [negb].
      * subst x. unfold x_of. destruct y as [[? ? ? ? ? ? ? ? ? ? ? []]]. done.
      * rewrite <- Hww. subst x. unfold x_of. destruct y as [[? ? ? ? ? ? ? ? ? ? ? []]]. done.
    + assert (j = 0) as -> by lia. rewrite Z.add_0_r. cbn [written set_field]. fold (x_of y). fold x.
      replace (written x =? NBD_REQUEST_SIZE + x_len x) with false by lia. cbn [negb]. rewrite <- Hww.
      subst x. unfold x_of. destruct y as [[? ? ? ? ? ? ? ? ? ? ? []]]. done.
Qed.

Lemma inv_write sz y ans bs c :
  inv sz y -> loop_on y -> write_watcher (ctl y) = true ->
  mirror_write_cb true ans (low y) (file y) (ctl y) = Ok (bs, c) -> inv sz (y <| ctl := c |> <| wire := wire y ++ bs |>).
Proof.
  intros (m & [[Hb H] | H]) Hl Hww E; [| by destruct H; unfold loop_on in Hl; congruence].
  destruct H as [[act H] | (_ & _ & h & e & _ & _ & [])]; [| congruence].
  destruct act as [data |]; [| destruct (r_phase _ _ _ _ H); congruence].
  destruct (write_cb_spec sz y data ans bs c m H E Hww) as [-> | (n & Hn & Hhd & Hw & Hc)].
  { destruct H as [[V1 _ _ _ _ V6 V7] _ _ _ _ _ _ _]. by apply (inv_left sz m). }
  destruct H as [Hsrv Hz Hx Hp Hclo Hi Hon [S1 S2 S3 S4 S5 S6 S7 S8 S9 S10]].
  specialize (S7 Hww). destruct Hon as [Hon | (_ & ? & _)]; [| congruence].
  set (data' := if written (x_of y) <? NBD_REQUEST_SIZE then _ else _) in Hw.
  cbn zeta in Hc. set (last := written _ =? _) in Hc. exists m. left. split; [by rewrite Hc |]. left. exists (Some data').
  assert (Hreq : NBD_REQUEST_SIZE = 28) by done. destruct Hx as (X1 & X2 & X3). cbn [fst snd] in *.
  assert (Hd : zlen data' = Z.max 0 (written (x_of y) + n - NBD_REQUEST_SIZE)).
  { subst data'. destruct (written (x_of y) <? NBD_REQUEST_SIZE) eqn:Ew; [change (@zlen Z []) with 0; lia |].
    rewrite zlen_app, zlen_slice by lia. lia. }
  assert (Hnew : x_of (y <| ctl := c |> <| wire := wire y ++ bs |>) = (x_of y) <| written := written (x_of y) + n |>)
    by (unfold x_of; cbn; by rewrite Hc).
  constructor; rewrite ?Hnew; try done.
  - cbn. by rewrite Hc.
  - cbn. by rewrite Hc.
  - unfold map_of. cbn [ctl set_field file remote pending]. rewrite Hc. cbn.
    subst data'. destruct (written (x_of y) <? NBD_REQUEST_SIZE) eqn:Ew.
    + assert (data = []) as Hnil by (apply zlen_nil_inv; lia). rewrite Hnil in Hi. exact Hi.
    + apply (image_send _ _ _ _ _ _ _ _ _ n) in Hi; [exact Hi | lia | lia].
  - left. unfold map_of. cbn. by rewrite Hc.
  - assert (Hlast : last = (written (x_of y) + n =? NBD_REQUEST_SIZE + x_len (x_of y))) by done. clearbody last.
    constructor; rewrite ?Hnew; try done.
    + cbn. lia.
    + cbn [ctl set_field written x_len]. rewrite Hc. cbn. destruct last; [done |]. intros _. lia.
    + cbn [ctl set_field written x_len]. rewrite Hc. cbn. destruct last; [intros _; lia |].
      intros Hr. specialize (S8 Hr). lia.
    + cbn [ctl set_field written x_len]. rewrite Hc. cbn. intros Hlw. destruct (S9 Hlw). intuition congruence.
    + cbn [ctl set_field written x_len]. rewrite Hc. cbn. intros Hbw. destruct (S10 Hbw). intuition congruence.
Qed.

Lemma zlen_hdr sz m y data : run_ok sz m y (Some data) -> zlen (hdr (x_of y)) = NBD_REQUEST_SIZE.
Proof. intros H. destruct (r_phase _ _ _ _ H). rewrite sd_hdr0. apply zlen_req_bytes. Qed.

(** A request the listener finds complete is the one that was sent, as a whole. *)
Lemma store_whole sz m y d q data :
  run_ok sz m y (Some d) -> zlen (wire y) = NBD_REQUEST_SIZE + zlen data ->
  q = nbd_r2h_request (of_wire (take 28 (wire y))) -> data = drop 28 (wire y) -> q_len q = zlen data ->
  q = mirror_request (x_from (x_of y)) (x_len (x_of y)) /\ d = data /\
  written (x_of y) = NBD_REQUEST_SIZE + x_len (x_of y) /\ x_len (x_of y) = zlen data.
Proof.
  intros H Hz Hq Hd Hlen.
  pose proof (zlen_hdr _ _ _ _ H) as Hh. destruct H as [Hsrv Hzf Hx Hp Hclo Hi Hon [S1 S2 S3 S4 S5 S6 S7 S8 S9 S10]].
  assert (Hreq : NBD_REQUEST_SIZE = 28) by done. pose proof (zlen_nonneg data) as Hdn.
  pose proof (sv_range _ _ _ Hsrv) as Hszr. pose proof Hx as (X1 & X2 & X3). cbn [fst snd] in *.
  assert (Hw28 : NBD_REQUEST_SIZE <= written (x_of y)).
  { rewrite S4, zlen_app in Hz. destruct (decide (written (x_of y) < NBD_REQUEST_SIZE)); [| lia].
    rewrite zlen_take in Hz by lia. lia. }
  rewrite take_ge in S4 by (unfold zlen in Hh; lia).
  assert (Hlh : length (hdr (x_of y)) = 28%nat) by (unfold zlen in Hh; lia).
  rewrite S4, take_app_length' in Hq by done. rewrite S4, drop_app_length' in Hd by done. subst d.
  rewrite S1, req_bytes_decode in Hq by lia. subst q. cbn [mirror_request q_len] in Hlen.
  rewrite u32_id in Hlen by lia. split_and!; [done | done | lia | done].
Qed.

Lemma inv_store sz y q data f :
  inv sz y -> loop_on y -> reply y = None -> zlen (wire y) = NBD_REQUEST_SIZE + zlen data ->
  q = nbd_r2h_request (of_wire (take 28 (wire y))) -> data = drop 28 (wire y) -> q_len q = zlen data ->
  mem_store (remote y) (q_from q) data = Ok f ->
  inv sz (y <| remote := f |> <| wire := [] |> <| reply := Some (reply_bytes (q_handle q) 0) |>).
Proof.
  intros (m & [[Hb H] | H]) Hl Hr Hz Hq Hd Hlen Hst; [| by destruct H; unfold loop_on in Hl; congruence].
  destruct H as [[act H] | (_ & _ & h & e & _ & _ & [])].
  2:{ destruct an_reply0 as (rest & ? & _). congruence. }
  destruct act as [d |]; [| destruct (r_phase _ _ _ _ H), an_reply0 as (rest & ? & _); congruence].
  pose proof (zlen_hdr _ _ _ _ H) as Hh. destruct (store_whole sz m y d q data H Hz Hq Hd Hlen) as (-> & -> & Hw & Hdl).
  destruct H as [Hsrv Hzf Hx Hp Hclo Hi Hon [S1 S2 S3 S4 S5 S6 S7 S8 S9 S10]].
  assert (Hreq : NBD_REQUEST_SIZE = 28) by done. pose proof Hx as (X1 & X2 & X3).
  cbn [fst snd mirror_request q_from q_handle] in *.
  exists m. left. split; [done |]. left. exists None.
  constructor; try done.
  - cbn. apply (image_apply _ _ _ _ (x_from (x_of y)) (x_len (x_of y)) data (file y) (remote y)); [exact Hi | lia | done].
  - destruct Hon as [Hon | (_ & _ & _ & H0 & _)]; [by left | lia].
  - assert (Hxe : x_of (y <| remote := f |> <| wire := [] |> <| reply := Some (reply_bytes MIRROR_HANDLE 0) |>) = x_of y)
      by done.
    constructor; rewrite ?Hxe, ?S2; cbn [ctl set_field wire reply].
    + exact Hh.
    + done.
    + by exists (reply_bytes MIRROR_HANDLE 0).
    + done.
    + destruct (write_watcher (ctl y)); [specialize (S7 eq_refl); lia | done].
    + destruct (limit_watcher (ctl y)); [destruct (S9 eq_refl); lia | done].
    + destruct (begin_watcher (ctl y)); [destruct (S10 eq_refl); lia | done].
Qed.

Lemma inv_refuse sz y h e :
  inv sz y -> loop_on y -> reply y = None -> read_watcher (ctl y) = true -> 0 <= h < 2 ^ 64 -> 0 < e < 2 ^ 32 ->
  inv sz (y <| wire := [] |> <| reply := Some (reply_bytes h e) |>).
Proof.
  intros (m & [[Hb H] | H]) Hl Hr Hrw Hh He; [| by destruct H; unfold loop_on in Hl; congruence].
  destruct H as [[act H] | (_ & _ & h0 & e0 & _ & _ & [])].
  2:{ destruct an_reply0 as (rest & ? & _). congruence. }
  destruct act as [d |]; [| destruct (r_phase _ _ _ _ H), an_reply0 as (rest & ? & _); congruence].
  pose proof (zlen_hdr _ _ _ _ H) as Hzh. destruct H as [[V1 _ _ _ _ V6 V7] _ Hx _ _ _ _ [S1 S2 S3 S4 S5 S6 S7 S8 S9 S10]].
  specialize (S8 Hrw). assert (Hreq : NBD_REQUEST_SIZE = 28) by done. destruct Hx as (_ & X2 & _). cbn [snd] in X2.
  exists m. left. split; [done |]. right. split_and!; [done | done |]. exists h, e. split; [exact Hh |]. split; [exact He |].
  assert (Hxe : x_of (y <| wire := [] |> <| reply := Some (reply_bytes h e) |>) = x_of y) by done.
  constructor; rewrite ?Hxe, ?S2; cbn [ctl set_field wire reply]; try done.
  - by exists (reply_bytes h e).
  - destruct (write_watcher (ctl y)); [specialize (S7 eq_refl); lia | done].
  - destruct (limit_watcher (ctl y)); [destruct (S9 eq_refl); lia | done].
  - destruct (begin_watcher (ctl y)); [destruct (S10 eq_refl); lia | done].
Qed.

Lemma inv_limit sz y now c :
  inv sz y -> loop_on y -> limit_watcher (ctl y) = true -> mirror_limit_cb true now (ctl y) = Ok c ->
  inv sz (y <| ctl := c |>).
Proof.
  intros (m & [[Hb H] | H]) Hl Hlw E; [| by destruct H; unfold loop_on in Hl; congruence].
  destruct H as [[act H] | (_ & _ & h & e & _ & _ & [])]; [| congruence].
  destruct act as [data |]; [| destruct (r_phase _ _ _ _ H); congruence].
  destruct H as [Hsrv Hz Hx Hp Hclo Hi Hon [S1 S2 S3 S4 S5 S6 S7 S8 S9 S10]].
  destruct Hon as [Hon | (_ & _ & ? & _)]; [| congruence]. destruct (S9 Hlw) as (W0 & W1 & W2).
  destruct Hx as (X1 & X2 & X3). cbn [fst snd] in *. assert (Hreq : NBD_REQUEST_SIZE = 28) by done.
  unfold mirror_limit_cb in E. cbn [negb] in E. apply bind_Ok in E as (wait & _ & [= <-]).
  exists m. left. split; [by destruct wait |]. left. exists (Some data).
  destruct wait; constructor; try done; try (by left).
  - constructor; try done; cbn; intros ?; first [exact (S9 Hlw) | congruence].
  - constructor; try done; [| cbn; congruence].
    intros _. change (written (x_of y) < NBD_REQUEST_SIZE + x_len (x_of y)). lia.
Qed.

Lemma inv_timeout sz y : inv sz y -> loop_on y -> inv sz (y <| ctl := mirror_timeout_cb true (ctl y) |>).
Proof.
  intros (m & [[Hb H] | H]) Hl; [| by destruct H; unfold loop_on in Hl; congruence].
  destruct H as [[act [[] _ _ _ _ _ _ _]] | (H1 & H2 & _)]; by apply (inv_left sz m).
Qed.

Lemma inv_abandon sz y c :
  inv sz y -> loop_on y -> mirror_abandon_cb true (ctl y) = Ok c -> inv sz (y <| ctl := c |>).
Proof.
  intros (m & [[Hb H] | H]) Hl E; [| by destruct H; unfold loop_on in Hl; congruence].
  assert (Hm : s_mirror (serve (ctl y)) = Some m).
  { destruct H as [[act [[] _ _ _ _ _ _ _]] | (H1 & _)]; done. }
  unfold mirror_abandon_cb, with_mirror in E. rewrite Hm in E. cbn [negb of_opt mbind res_bind] in E.
  injection E as <-. eapply inv_left; [done | done |]. cbn. discriminate.
Qed.

(** ** Closing the clients and completing *)

Lemma close_and_join_spec sz off act rem m e evs pend tn f s s' :
  srv_ok sz s m -> stream_enabled (allocation_map s) = true -> Forall (range_ok sz) pend ->
  Forall (cevent_ok sz) evs -> sz <= zlen f -> re_clients e = clients_env evs pend ->
  close_and_join e s = Ok s' -> image_ok sz off (evs_of (allocation_map s)) (pend ++ tn) act f rem ->
  srv_ok sz s' m /\ stream_enabled (allocation_map s') = true /\ sz <= zlen (foldl client_file f evs) /\
  image_ok sz off (evs_of (allocation_map s')) (clients_torn evs pend ++ tn) act (foldl client_file f evs) rem.
Proof.
  intros [V1 V2 V3 V4 V5 V6 V7] Hon Hp He Hz Hre H Hi. unfold close_and_join in H. rewrite Hre in H.
  apply bind_Ok in H as (s1 & H1 & H). apply bind_Ok in H as (s2 & H2 & H3).
  apply close_from_frame in H1. apply join_from_frame in H3.
  unfold clients_env in H2. apply bind_Ok in H2 as ([p' map] & Hrun & H2).
  destruct (decide (p' = [])) as [-> |]; [| done]. injection H2 as <-.
  assert (Hmap1 : allocation_map s1 = allocation_map s) by (by rewrite H1). rewrite Hmap1 in Hrun.
  destruct (clients_run_spec sz off act rem evs pend tn _ f [] map V4 Hp He Hz Hon Hrun Hi) as (K1 & K2 & K3 & K4).
  assert (Hmap3 : allocation_map s' = map) by (by rewrite H3). rewrite Hmap3. split_and!; try done.
  constructor; try done; [by rewrite H3; cbn; rewrite H1 | by rewrite H3; cbn; rewrite H1 | by rewrite Hmap3].
Qed.

Lemma mirror_complete_spec x s out s' m :
  s_mirror s = Some m -> mirror_complete x s = Ok (out, s') -> exists m', s_mirror s' = Some m'.
Proof.
  intros Hm H. unfold mirror_complete, with_mirror in H. rewrite Hm in H. cbn [of_opt mbind res_bind] in H.
  apply bind_Ok in H as ([o1 s1] & _ & H). apply bind_Ok in H as (m1 & _ & H). injection H as <- <-. by eexists.
Qed.

(** Between two transfers. *)
Record between (sz : Z) (c : mirror_ctrl) (m : mirror) (pend : list (Z * Z)) (f : list Z) : Prop := {
  bt_srv : srv_ok sz (serve c) m;
  bt_on : stream_enabled (allocation_map (serve c)) = true;
  bt_ww : write_watcher c = false;
  bt_lw : limit_watcher c = false;
  bt_bw : begin_watcher c = false;
  bt_brk : ev_broken c = false;
  bt_pend : Forall (range_ok sz) pend;
  bt_closed : clients_closed c = true -> pend = [];
  bt_file : sz <= zlen f
}.

(** With the next transfer set up, or with nothing left to send. *)
Definition next_ok (sz : Z) (nx : bool) (c : mirror_ctrl) (pend tn : list (Z * Z)) (f rem : list Z) : Prop :=
  exists m, between sz c m pend f /\
    if nx then exists from len, the_xfer c = new_xfer from len /\ range_ok sz (from, len) /\
      image_ok sz (offset m) (evs_of (allocation_map (serve c))) (pend ++ tn)
        (Some {| a_from := from; a_len := len; a_data := [] |}) f rem
    else offset m = sz /\ evs_of (allocation_map (serve c)) = [] /\ image_ok sz sz [] (pend ++ tn) None f rem.

Lemma setup_next_ok sz c m pend tn f rem nx c' :
  between sz c m pend f -> image_ok sz (offset m) (evs_of (allocation_map (serve c))) (pend ++ tn) None f rem ->
  mirror_setup_next_xfer c = Ok (nx, c') -> next_ok sz nx c' pend tn f rem /\ clients_closed c' = clients_closed c.
Proof.
  intros [Hs Hon B1 B2 B3 B4 B5 B6 B7] Hi H. destruct Hs as [V1 V2 V3 V4 V5 V6 V7].
  destruct (setup_next_xfer_spec sz c m) as
    [(map & ce & off & from & len & E & K1 & K2 & K3 & K4 & _ & _ & K5)
    | (map & ce & E & K1 & K2 & K3 & K4 & K5)]; [by constructor | |].
  - rewrite E in H. injection H as <- <-. split; [| done]. exists (m <| offset := off |>). split.
    + constructor; cbn; try done; first [by constructor | congruence].
    + exists from, len. cbn. split_and!; [done | apply K4 .. |]. by apply K5.
  - rewrite E in H. injection H as <- <-. split; [| done]. exists m. split.
    + constructor; cbn; try done; first [by constructor | congruence].
    + cbn. split_and!; [done | done |]. by apply K5.
Qed.

Lemma mirror_next_ok sz m e evs c pend tn f rem out c' :
  between sz c m pend f -> image_ok sz (offset m) (evs_of (allocation_map (serve c))) (pend ++ tn) None f rem ->
  re_clients e = clients_env evs pend -> Forall (cevent_ok sz) evs -> mirror_next e c = Ok (out, c') ->
  let closing := negb (clients_closed c) && clients_closed c' in
  let f' := if closing then foldl client_file f evs else f in
  let pend' := if closing then [] else pend in
  let tn' := if closing then clients_torn evs pend ++ tn else tn in
  (ev_broken c' = true /\ (exists m', s_mirror (serve c') = Some m') /\ clients_closed c' = true /\
     forall i, 0 <= i < sz -> torn_at tn' i \/ byte_at rem i = byte_at f' i) \/
  exists c1, next_ok sz true c1 pend' tn' f' rem /\
    exists t l w, c' = c1 <| read_watcher := false |> <| timeout_watcher := t |> <| limit_watcher := l |> <| write_watcher := w |> /\
      w = negb l.
Proof.
  intros Hb Hi Hre He H. unfold mirror_next in H. apply bind_Ok in H as ([nx c1] & H1 & H).
  destruct (setup_next_ok sz c m pend tn f rem nx c1 Hb Hi H1) as [Hn Hcl1].
  apply bind_Ok in H as ([nx2 c2] & H2 & H).
  assert (Hst : let closing := negb (clients_closed c) && clients_closed c2 in
    next_ok sz nx2 c2 (if closing then [] else pend) (if closing then clients_torn evs pend ++ tn else tn)
      (if closing then foldl client_file f evs else f) rem).
  { rewrite Hcl1 in H2. cbn zeta. destruct (clients_closed c) eqn:Ecl; cbn [negb andb] in *; [by injection H2 as <- <- |].
    apply bind_Ok in H2 as (eta & _ & H2).
    destruct (negb nx || (eta <? MS_CONVERGE_TIME_SECS)).
    2:{ injection H2 as <- <-. by rewrite Hcl1. }
    apply bind_Ok in H2 as (s & Hc & H2). destruct Hn as (m1 & [] & Hn).
    destruct nx.
    - injection H2 as <- <-. cbn [clients_closed set_field]. destruct Hn as (from & len & X1 & X2 & X3).
      destruct (close_and_join_spec sz _ _ _ m1 e evs pend tn f (serve c1) s bt_srv0 bt_on0 bt_pend0 He bt_file0 Hre Hc X3)
        as (K1 & K2 & K3 & K4).
      exists m1. split; [constructor; done |]. by exists from, len.
    - destruct Hn as (N1 & N2 & N3). rewrite <- N2 in N3.
      destruct (close_and_join_spec sz _ _ _ m1 e evs pend tn f (serve c1) s bt_srv0 bt_on0 bt_pend0 He bt_file0 Hre Hc N3)
        as (K1 & K2 & K3 & K4).
      rewrite <- N1 in K4.
      destruct (setup_next_ok sz (c1 <| serve := s |> <| clients_closed := true |>) m1 []
        (clients_torn evs pend ++ tn) (foldl client_file f evs) rem nx2 c2) as [Hx Hy]; [by constructor | rewrite N1 in *; done | done |].
      by rewrite Hy. }
  cbn zeta in Hst. destruct (clients_closed c2 && negb nx2) eqn:Ed.
  - apply andb_true_iff in Ed as [Ecl Enx]. destruct nx2; [done |].
    apply bind_Ok in H as ([o s] & Hc & H). injection H as <- <-. cbn [clients_closed set_field ev_break serve ev_broken].
    rewrite Ecl in *. destruct Hst as (m2 & [] & N1 & N2 & N3). left.
    destruct (mirror_complete_spec _ _ _ _ m2 (sv_mirror _ _ _ bt_srv0) Hc) as (m' & Hm').
    split_and!; [done | by exists m' | done |].
    rewrite (bt_closed0 Ecl) in N3. intros i Hi'. by apply (image_done sz _ _ _ N3).
  - destruct nx2; cbn [negb] in H; [| done]. apply bind_Ok in H as (wait & _ & H). injection H as <- <-. right.
    assert (Hcc : clients_closed (if wait then c2 <| read_watcher := false |> <| limit_watcher := true |>
      else (timeout_again (c2 <| read_watcher := false |>)) <| write_watcher := true |>) = clients_closed c2)
      by (by destruct wait).
    rewrite Hcc. exists c2. split; [done |]. destruct Hst as (m2 & [] & _). destruct wait.
    + exists (timeout_watcher c2), true, false. split; [rewrite <- bt_ww0; by destruct c2 | done].
    + exists (timeout_repeats c2), false, true. split; [rewrite <- bt_lw0; by destruct c2 | done].
Qed.

(** ** The read callback *)

Lemma reply_bytes_decode h e :
  0 <= h < 2 ^ 64 -> 0 <= e < 2 ^ 32 ->
  nbd_r2h_reply (of_wire (reply_bytes h e)) = {| p_magic := REPLY_MAGIC; p_error := e; p_handle := h |}.
Proof.
  intros Hh He. unfold reply_bytes. rewrite of_to_wire by (by apply h2r_reply_wf).
  apply r2h_h2r_reply. split; [by_decide |]. by split.
Qed.

(** More of the reply arrives: it is still incomplete, or it is judged. *)
Lemma read_bytes_spec y m h e bs rest env out c :
  replied y h e -> 0 <= h < 2 ^ 64 -> 0 <= e < 2 ^ 32 -> s_mirror (serve (ctl y)) = Some m ->
  bs <> [] -> default [] (reply y) = bs ++ rest -> mirror_read_cb true (RdBytes bs) env (ctl y) = Ok (out, c) ->
  (exists x', rest <> [] /\ c = timeout_again ((ctl y) <| the_xfer := x' |>) /\
     x_from x' = x_from (x_of y) /\ x_len x' = x_len (x_of y) /\ zlen (hdr x') = NBD_REQUEST_SIZE /\
     0 <= x_read x' < NBD_REPLY_SIZE /\ take (Z.to_nat (x_read x')) (hdr x') ++ rest = reply_bytes h e) \/
  rest = [] /\
  if reply_ok {| p_magic := REPLY_MAGIC; p_error := e; p_handle := h |}
  then exists m1 x1 t, offset m1 = offset m /\ commit_state m1 = commit_state m /\ m_mapped m1 = m_mapped m /\
         mirror_next env ((ctl y) <| serve := (serve (ctl y)) <| s_mirror := Some m1 |> |>
                            <| the_xfer := x1 |> <| timeout_watcher := t |>) = Ok (out, c)
  else ev_broken c = true /\ serve c = serve (ctl y).
Proof.
  intros [A1 A2 (rest0 & A3 & A4) A5 _ _ _] Hh He Hm Hbs Hr E. rewrite A3 in Hr. cbn in Hr. subst rest0.
  assert (Hq : NBD_REQUEST_SIZE = 28) by done. assert (Hp : NBD_REPLY_SIZE = 16) by done.
  assert (Hlen : zlen (take (Z.to_nat (x_read (x_of y))) (hdr (x_of y)) ++ bs ++ rest) = 16).
  { rewrite A4. unfold zlen. by rewrite length_reply_bytes. }
  rewrite !zlen_app, zlen_take in Hlen by lia. pose proof (zlen_nonneg rest) as Hrn. pose proof (zlen_nonneg bs) as Hbn.
  assert (Hbp : 0 < zlen bs) by (destruct bs; [done | unfold zlen; cbn; lia]).
  unfold mirror_read_cb in E. cbn [negb deliver] in E. fold (x_of y) in E.
  rewrite (u64_id (NBD_REPLY_SIZE - _)) in E by lia.
  replace (zlen bs <=? NBD_REPLY_SIZE - x_read (x_of y)) with true in E by lia.
  apply bind_Ok in E as (h' & Hst & E).
  assert (Hfit : x_read (x_of y) + zlen bs <= zlen (hdr (x_of y))) by lia.
  pose proof (mem_store_prefix _ _ _ _ (proj1 A2) Hfit Hst) as Hpre.
  pose proof (mem_store_zlen _ _ _ _ Hst) as Hzh.
  replace (zlen bs <? 0) with false in E by lia. replace (zlen bs =? 0) with false in E by lia.
  rewrite (u64_id (x_read (x_of y) + zlen bs)) in E by lia.
  rewrite app_assoc, <- Hpre in A4. remember (x_read (x_of y) + zlen bs) as k eqn:Hkd.
  cbn [x_read set_field hdr] in E. destruct (k <? NBD_REPLY_SIZE) eqn:Ek.
  - left. exists ((x_of y) <| hdr := h' |> <| x_read := k |>). injection E as <- <-.
    split; [intros ->; change (@zlen Z []) with 0 in Hlen; lia |].
    split; [done |]. cbn. split_and!; [done | done | lia | lia | lia | done].
  - right. assert (rest = []) as -> by (apply zlen_nil_inv; lia). split; [done |].
    assert (k = 16) as Hk by lia. rewrite app_nil_r, Hk in A4. change (Z.to_nat 16) with 16%nat in A4.
    rewrite A4, reply_bytes_decode in E by done.
    destruct (reply_ok _); cbn [negb] in E; [| by injection E as <- <-].
    unfold with_mirror in E. cbn [serve timeout_again set_field] in E. rewrite Hm in E. cbn [of_opt mbind res_bind] in E.
    match type of E with context [if ?b then _ else _] => destruct b end.
    + exists m, ((x_of y) <| hdr := h' |> <| x_read := 0 |> <| written := 0 |>), false.
      do 3 (split; [done |]). rewrite <- E. f_equal. clear - Hm. unfold x_of.
      destruct y as [[s0 ? ? ? ? ? ? ? ? ? ? []] ? ? ? ? ?]. destruct s0. cbn in Hm. by subst.
    + do 3 eexists. split; [| split; [| split; [| exact E]]]; done.
Qed.

(** An end of file or an error leaves things as they are, or the loop. *)
Lemma read_idle ans e c out c' :
  (forall bs, ans <> RdBytes bs) -> mirror_read_cb true ans e c = Ok (out, c') -> c' = c \/ c' = ev_break c.
Proof.
  intros Ha E. unfold mirror_read_cb in E. cbn [negb] in E.
  destruct ans as [bs | | er]; [by destruct (Ha bs) | |]; cbn [deliver] in E; apply bind_Ok in E as (h & _ & E).
  - injection E as <- <-. by right.
  - cbn [Z.ltb Z.compare] in E. injection E as <- <-. destruct (io_transient er); [by left | by right].
Qed.

Lemma answered_rest y h e : replied y h e -> exists rest, reply y = Some rest /\ rest <> [].
Proof.
  intros [A1 A2 (rest & A3 & A4) _ _ _ _]. exists rest. split; [done |]. intros ->.
  apply (f_equal length) in A4. rewrite length_app, length_take, length_reply_bytes in A4. cbn in A4.
  unfold zlen, NBD_REQUEST_SIZE, NBD_REPLY_SIZE in *. lia.
Qed.

Lemma loop_cases sz y : inv sz y -> loop_on y ->
  exists m, s_mirror (serve (ctl y)) = Some m /\ commit_state m <> MS_DONE /\
    ((exists act, run_ok sz m y act) \/ turned_down m y) /\
    (reply y = None \/ exists rest, reply y = Some rest /\ rest <> []).
Proof.
  intros (m & [[Hb H] | H]) Hl; [| by destruct H; unfold loop_on in Hl; congruence]. exists m.
  destruct H as [[act H] | H].
  - split; [apply H |]. split; [apply H |]. split; [left; by exists act |].
    pose proof (r_phase _ _ _ _ H) as Hp. destruct act; [left; apply Hp | right; by apply (answered_rest y MIRROR_HANDLE 0)].
  - pose proof H as (H1 & H2 & h & e & _ & _ & Ha). split_and!; [done | done | by right |]. right. by apply (answered_rest y h e).
Qed.

Lemma inv_read_other sz y ans e out c rest f p tn :
  inv sz y -> loop_on y -> (forall bs, ans <> RdBytes bs) -> mirror_read_cb true ans e (ctl y) = Ok (out, c) ->
  rest = default [] (reply y) ->
  let closing := negb (clients_closed (ctl y)) && clients_closed c in
  inv sz (y <| ctl := c |> <| file := if closing then f else file y |> <| pending := if closing then p else pending y |>
            <| torn := if closing then tn else torn y |> <| reply := if bool_decide (rest = []) then None else Some rest |>).
Proof.
  intros Hi Hl Ha E -> closing. destruct (loop_cases sz y Hi Hl) as (m & Hm & Hs & _ & Hrep).
  assert (Hcl : closing = false).
  { subst closing. destruct (read_idle ans e (ctl y) out c Ha E) as [-> | ->]; cbn; by destruct (clients_closed _). }
  rewrite Hcl. destruct (read_idle ans e (ctl y) out c Ha E) as [-> | ->]; [| by apply (inv_left sz m)].
  replace (y <| ctl := ctl y |> <| file := file y |> <| pending := pending y |> <| torn := torn y |>
             <| reply := if bool_decide (default [] (reply y) = []) then None else Some (default [] (reply y)) |>)
    with y; [done |].
  destruct Hrep as [Hr | (r0 & Hr & Hne)]; rewrite Hr; cbn.
  - destruct y; cbn in *; by subst.
  - rewrite bool_decide_eq_false_2 by done. destruct y; cbn in *; by subst.
Qed.

Lemma inv_read_stored sz m y bs e evs out c rest :
  run_ok sz m y None -> loop_on y -> re_clients e = clients_env evs (pending y) -> Forall (cevent_ok sz) evs ->
  bs <> [] -> default [] (reply y) = bs ++ rest -> mirror_read_cb true (RdBytes bs) e (ctl y) = Ok (out, c) ->
  let closing := negb (clients_closed (ctl y)) && clients_closed c in
  inv sz (y <| ctl := c |> <| file := if closing then foldl client_file (file y) evs else file y |>
            <| pending := if closing then [] else pending y |>
            <| torn := if closing then clients_torn evs (pending y) ++ torn y else torn y |>
            <| reply := if bool_decide (rest = []) then None else Some rest |>).
Proof.
  intros [Hsrv Hz Hx Hp Hclo Hi Hon Hph] Hl Hre He Hbs Hr E closing. pose proof Hsrv as [V1 V2 V3 V4 V5 V6 V7].
  assert (Hlive : stream_enabled (map_of y) = true) by (destruct Hon as [? | [? _]]; done).
  destruct (read_bytes_spec y m MIRROR_HANDLE 0 bs rest e out c Hph MIRROR_HANDLE_range ltac:(lia) V1 Hbs Hr E)
    as [(x' & N1 & N2 & N3 & N4 & N5 & N6 & N7) | [-> N]].
  - assert (closing = false) as -> by (subst closing; rewrite N2; cbn; by destruct (clients_closed _)).
    rewrite (bool_decide_eq_false_2 (rest = [])) by done. subst c. exists m. left. split; [done |]. left. exists None.
    constructor; try done.
    + unfold x_of. cbn. by rewrite N3, N4.
    + by left.
    + destruct Hph. constructor; try done. exists rest. done.
  - change (reply_ok _) with true in N. destruct N as (m1 & x1 & t & O1 & O2 & O3 & E1).
    rewrite (bool_decide_eq_true_2 (@nil Z = [])) by done.
    match type of E1 with mirror_next _ ?d = _ => set (c0 := d) in E1 end.
    assert (Hb0 : between sz c0 m1 (pending y) (file y)).
    { destruct Hph. constructor; try done. cbn. constructor; try done; cbn; congruence. }
    assert (Hi0 : image_ok sz (offset m1) (evs_of (allocation_map (serve c0))) (pending y ++ torn y) None (file y) (remote y))
      by (rewrite O1; exact Hi).
    destruct (mirror_next_ok sz m1 e evs c0 (pending y) (torn y) (file y) (remote y) out c Hb0 Hi0 Hre He E1)
      as [(K1 & (m' & K2) & K3 & K4) | (c1 & (m' & B & from & len & X1 & X2 & X3) & t' & l & w & Hc & Hlw)].
    + change (negb (clients_closed c0) && clients_closed c) with closing in K4. exists m'. right. split_and!; [done | done |]. intros _.
      split; [done | exact K4].
    + change (negb (clients_closed c0) && clients_closed c) with closing in B, X3. destruct B.
      exists m'. left. split; [by rewrite Hc |]. left. exists (Some []).
      assert (Hxn : x_of (y <| ctl := c |> <| file := if closing then foldl client_file (file y) evs else file y |>
        <| pending := if closing then [] else pending y |>
        <| torn := if closing then clients_torn evs (pending y) ++ torn y else torn y |> <| reply := None |>) = new_xfer from len)
        by (unfold x_of; cbn; by rewrite Hc).
      assert (Hpos : 0 < len) by (destruct X2 as (_ & X2 & _); cbn in X2; lia).
      constructor; rewrite ?Hxn; try done; cbn [ctl file remote pending set_field].
      * by rewrite Hc.
      * rewrite Hc. cbn. done.
      * unfold map_of. cbn. rewrite Hc. exact X3.
      * left. unfold map_of. cbn. by rewrite Hc.
      * constructor; rewrite ?Hxn; cbn [ctl wire reply set_field]; try done.
        -- cbn. unfold NBD_REQUEST_SIZE. lia.
        -- rewrite (an_wire _ _ _ Hph). done.
        -- intros _. cbn. unfold NBD_REQUEST_SIZE. lia.
        -- rewrite Hc. done.
        -- rewrite Hc. cbn. intros Hl'. split_and!; [done | by rewrite Hlw, Hl' | done].
        -- rewrite Hc. cbn. congruence.
Qed.

Lemma inv_read_refused sz m y bs e evs out c rest :
  turned_down m y -> loop_on y -> bs <> [] -> default [] (reply y) = bs ++ rest ->
  mirror_read_cb true (RdBytes bs) e (ctl y) = Ok (out, c) ->
  let closing := negb (clients_closed (ctl y)) && clients_closed c in
  inv sz (y <| ctl := c |> <| file := if closing then foldl client_file (file y) evs else file y |>
            <| pending := if closing then [] else pending y |>
            <| torn := if closing then clients_torn evs (pending y) ++ torn y else torn y |>
            <| reply := if bool_decide (rest = []) then None else Some rest |>).
Proof.
  intros (H1 & H2 & h & er & Hh & Her & Ha) Hl Hbs Hr E closing.
  destruct (read_bytes_spec y m h er bs rest e out c Ha Hh ltac:(lia) H1 Hbs Hr E)
    as [(x' & N1 & N2 & N3 & N4 & N5 & N6 & N7) | [-> N]].
  - rewrite (bool_decide_eq_false_2 (rest = [])) by done. exists m. left. subst c. split; [done |]. right.
    split_and!; [done | done |]. exists h, er. split; [exact Hh |]. split; [exact Her |].
    destruct Ha. constructor; try done. exists rest. done.
  - replace (reply_ok _) with false in N.
    2:{ symmetry. unfold reply_ok. cbn. replace (er =? 0) with false by lia. done. }
    destruct N as [N1 N2]. apply (inv_left sz m); cbn; [done | by rewrite N2 | done].
Qed.

Lemma inv_step sz y y' : inv sz y -> sys_step y y' -> inv sz y'.
Proof.
  intros Hi Hs. destruct Hs as [ev map Hc Hev Hm | c Hl Hw E | ans bs c Hl Hw E
    | q data f Hl Hr Hz Hq Hd _ _ Hlen Hst | h e Hl Hr Hrw Hh He | ans e evs out c rest Hl Hw Hre Hev Hans E closing
    | now c Hl Hw E | Hl Hw | c Hl Hw E].
  - by apply inv_client.
  - by apply inv_begin.
  - by apply (inv_write sz y ans).
  - by apply (inv_store sz y q data).
  - by apply inv_refuse.
  - destruct ans as [bs | | er].
    + destruct Hans as [Hbs Hr]. destruct (loop_cases sz y Hi Hl) as (m & _ & _ & [[[d |] H] | H] & _).
      * destruct (r_phase _ _ _ _ H). rewrite sd_reply0 in Hr. by destruct bs.
      * rewrite (sv_size _ _ _ (r_srv _ _ _ _ H)) in Hev.
        exact (inv_read_stored sz m y bs e evs out c rest H Hl Hre Hev Hbs Hr E).
      * exact (inv_read_refused sz m y bs e evs out c rest H Hl Hbs Hr E).
    + by apply (inv_read_other sz y RdEof e out c rest (foldl client_file (file y) evs) [] (clients_torn evs (pending y) ++ torn y)).
    + by apply (inv_read_other sz y (RdErr er) e out c rest (foldl client_file (file y) evs) [] (clients_torn evs (pending y) ++ torn y)).
  - by apply (inv_limit sz y now).
  - by apply inv_timeout.
  - by apply inv_abandon.
Qed.

(** ** The start *)

(** What the mirror needs of the server when a run starts. *)
Record start_ok (s : server) (m : mirror) (pend : list (Z * Z)) (f : list Z) : Prop := {
  sa_srv : srv_ok (size s) s m;
  sa_off : offset m = 0;
  sa_file : size s <= zlen f;
  sa_pend : Forall (range_ok (size s)) pend
}.

Definition start_sys (lw : Z -> Z -> option (list Z)) (c : mirror_ctrl) (f rem : list Z) (pend : list (Z * Z)) : sys :=
  {| ctl := c; file := f; remote := rem; pending := pend; torn := []; wire := []; reply := None; low := lw |}.

Lemma start_inv now repeats x s m lw pend f rem c :
  start_ok s m pend f -> mirror_run_start now repeats x s = Ok (inr c) -> inv (size s) (start_sys lw c f rem pend).
Proof.
  intros [[V1 _ V3 V4 V5 V6 V7] Ho Hz Hp] E. unfold mirror_run_start, with_mirror in E. rewrite V1 in E.
  cbn [of_opt mbind res_bind] in E.
  change (size (s <| s_mirror := Some (m <| migration_started := now |>) |>)) with (size s) in E.
  destruct (size s =? 0) eqn:E0; [lia |].
  match type of E with context [mirror_setup_next_xfer ?d] => set (c0 := d) in E end.
  set (m0 := m <| migration_started := now |>).
  destruct (setup_next_xfer_spec (size s) c0 m0) as
    [(map & ce & off & from & len & E1 & K1 & K2 & K3 & K4 & K5 & _ & K6) | (map & ce & E1 & _ & _ & _ & K4 & _)];
    [by constructor | | change (offset m0) with (offset m) in K4; lia].
  rewrite E1 in E. cbn [mbind res_bind negb] in E. change (offset m0) with (offset m) in *. rewrite Ho in *.
  assert (Hall : forall evs p g r, image_ok (size s) 0 evs p None g r) by (intros evs p g r i Hi; right; left; lia).
  assert (Hfresh : forall g, image_ok (size s) off [] [] (Some {| a_from := from; a_len := len; a_data := [] |}) g rem).
  { intros g. destruct K5 as [-> | [-> ->]]; [intros i Hi; right; left; lia |].
    rewrite Z.add_0_l in *. apply image_fresh. lia. }
  pose proof K4 as (X1 & X2 & X3). cbn [fst snd] in X1, X2, X3. assert (Hq : NBD_REQUEST_SIZE = 28) by done.
  match type of E with context [if ?b then _ else _] => destruct b end.
  - apply bind_Ok in E as (map' & E2 & [= <-]).
    destruct (enable_stream_spec (size s) map map' K1 E2) as (L1 & L2 & L3).
    exists (m0 <| offset := off |>). left. split; [done |]. left. exists (Some []).
    constructor; try first [done | exact K4 | by constructor | by apply image_weaken | by left].
    constructor; try done; [cbn; lia | intros _; cbn; lia].
  - injection E as <-. exists (m0 <| offset := off |>). left. split; [done |]. left. exists (Some []).
    constructor; try first [done | exact K4 | by constructor | by apply image_weaken | right; by split_and!].
    constructor; try done. cbn. lia.
Qed.

(** A full stream does not move while the mirror waits for the clients. *)
Lemma clients_stuck evs : forall p map p' map',
  stream_enabled map = true -> s_size (stream map) = BITSET_STREAM_SIZE -> p <> [] ->
  clients_torn evs p = [] -> clients_run evs p map = Ok (p', map') -> p' <> [].
Proof.
  induction evs as [| ev evs IH]; intros p map p' map' Hon Hfull Hp Ht H; cbn [clients_run clients_torn] in *.
  { by injection H as <- <-. }
  apply app_eq_nil in Ht as [Ht1 Ht2].
  apply bind_Ok in H as (map1 & H1 & H). destruct ev as [from bs | k | k]; cbn [client_map client_pend client_torn] in *.
  - injection H1 as <-. by apply (IH _ map) in H.
  - apply bind_Ok in H1 as ([from len] & _ & H1). unfold bitset_set_range in H1.
    destruct (INT_FIRST_AND_LAST map from len). apply bind_Ok in H1 as (b & _ & H1). rewrite Hon in H1.
    unfold bitset_stream_enqueue, stream_enqueue in H1. cbn [with_bits stream] in H1. by rewrite Hfull, Z.eqb_refl in H1.
  - apply bind_Ok in H1 as (r & Hr & _). by destruct (p !! k).
Qed.

(** ** A migration to instantiate the properties with *)

(** Steps as functions: the state stays when the callback does not go through. *)
Definition mig_client (ev : cevent) (y : sys) : sys :=
  match client_map (pending y) (allocation_map (serve (ctl y))) ev with
  | Ok map => y <| ctl := set_map (ctl y) map |> <| file := client_file (file y) ev |>
                <| pending := client_pend (pending y) ev |> <| torn := client_torn (pending y) ev ++ torn y |>
  | Stop _ => y
  end.

Definition mig_write (ans : wr_event) (y : sys) : sys :=
  match mirror_write_cb true ans (low y) (file y) (ctl y) with
  | Ok (bs, c) => y <| ctl := c |> <| wire := wire y ++ bs |>
  | Stop _ => y
  end.

Definition mig_store (y : sys) : sys :=
  let q := nbd_r2h_request (of_wire (take 28 (wire y))) in
  match mem_store (remote y) (q_from q) (drop 28 (wire y)) with
  | Ok f => y <| remote := f |> <| wire := [] |> <| reply := Some (reply_bytes (q_handle q) 0) |>
  | Stop _ => y
  end.

(** The whole reply arrives; clients have nothing to finish. *)
Definition mig_read (e : read_env) (y : sys) : sys :=
  match mirror_read_cb true (RdBytes (default [] (reply y))) e (ctl y) with
  | Ok (_, c) =>
      let closing := negb (clients_closed (ctl y)) && clients_closed c in
      y <| ctl := c |> <| file := if closing then file y else file y |>
        <| pending := if closing then [] else pending y |>
        <| torn := if closing then torn y else torn y |> <| reply := None |>
  | Stop _ => y
  end.

Definition is_ok {A} (r : res A) : bool := match r with Ok _ => true | Stop _ => false end.

Definition client_may (ev : cevent) (y : sys) : bool :=
  negb (clients_closed (ctl y)) && is_ok (client_map (pending y) (allocation_map (serve (ctl y))) ev).

Lemma mig_client_step y0 y ev :
  migrating y0 y -> client_may ev y = true -> cevent_ok (size (serve (ctl y))) ev -> migrating y0 (mig_client ev y).
Proof.
  intros Hm H Hev. apply andb_true_iff in H as [Hc H]. apply (mig_step _ y); [done |]. unfold mig_client.
  destruct (client_map _ _ ev) eqn:E; [| done]. apply sy_client; [by destruct (clients_closed _) | done | done].
Qed.

Definition write_may (ans : wr_event) (y : sys) : bool :=
  negb (ev_broken (ctl y)) && write_watcher (ctl y) && is_ok (mirror_write_cb true ans (low y) (file y) (ctl y)).

Lemma mig_write_step y0 y ans : migrating y0 y -> write_may ans y = true -> migrating y0 (mig_write ans y).
Proof.
  intros Hm H. apply andb_true_iff in H as [H Hok]. apply andb_true_iff in H as [Hb Hw].
  apply (mig_step _ y); [done |]. unfold mig_write. destruct (mirror_write_cb _ _ _ _ _) as [[bs c] |] eqn:E; [| done].
  apply (sy_write y ans bs c); [unfold loop_on; by destruct (ev_broken _) | done | done].
Qed.

Definition store_may (y : sys) : bool :=
  let q := nbd_r2h_request (of_wire (take 28 (wire y))) in
  negb (ev_broken (ctl y)) && bool_decide (reply y = None) && (zlen (wire y) =? 28 + zlen (drop 28 (wire y))) &&
  (q_magic q =? REQUEST_MAGIC) && (q_type q =? REQUEST_WRITE) && (q_len q =? zlen (drop 28 (wire y))) &&
  is_ok (mem_store (remote y) (q_from q) (drop 28 (wire y))).

Lemma mig_store_step y0 y : migrating y0 y -> store_may y = true -> migrating y0 (mig_store y).
Proof.
  intros Hm H. unfold store_may in H. rewrite !andb_true_iff in H. destruct H as ((((((H1 & H2) & H3) & H4) & H5) & H6) & H7).
  apply (mig_step _ y); [done |]. unfold mig_store. destruct (mem_store _ _ _) as [f |] eqn:E; [| done].
  apply (sy_store y _ (drop 28 (wire y))); try done; try by apply Z.eqb_eq.
  - unfold loop_on. by destruct (ev_broken _).
  - by apply bool_decide_eq_true_1 in H2.
Qed.

Definition read_may (e : read_env) (y : sys) : bool :=
  negb (ev_broken (ctl y)) && read_watcher (ctl y) && bool_decide (default [] (reply y) <> []) &&
  bool_decide (pending y = []) && is_ok (mirror_read_cb true (RdBytes (default [] (reply y))) e (ctl y)).

Lemma mig_read_step y0 y e :
  migrating y0 y -> read_may e y = true -> re_clients e = clients_env [] [] -> migrating y0 (mig_read e y).
Proof.
  intros Hm H He. unfold read_may in H. rewrite !andb_true_iff in H. destruct H as ((((H1 & H2) & H3) & H4) & H5).
  apply bool_decide_eq_true_1 in H3, H4. apply (mig_step _ y); [done |]. unfold mig_read.
  destruct (mirror_read_cb _ _ _ _) as [[out c] |] eqn:E; [| done].
  apply (sy_read y (RdBytes (default [] (reply y))) e [] out c []); try done.
  - unfold loop_on. by destruct (ev_broken _).
  - by rewrite H4.
  - split; [done |]. by rewrite app_nil_r.
Qed.

(** A 512-byte image, with one client that writes while it is copied and one whose
    write is cut off. *)
Definition sample_mirror : mirror :=
  (mirror_alloc (2 ^ 64 - 1) ACTION_NOTHING) <| m_mapped := true |> <| commit_state := MS_GO |> <| m_client := 5 |>.

Definition sample_map : bitset :=
  {| bs_size := 512; resolution := 4096; stream := stream_alloc; stream_enabled := false; bits := [0] |}.

Lemma sample_map_ok : map_ok 512 sample_map.
Proof.
  constructor; [| done |].
  - constructor; cbn [sample_map resolution bs_size bits stream]; [lia | lia | by_decide | | apply stream_alloc_ok].
    apply Z.leb_le. reflexivity.
  - unfold evs_of. cbn [sample_map stream]. rewrite contents_alloc. constructor.
Qed.

Definition mirrored_server : server :=
  (sample_server false) <| size := 512 |> <| allocation_map := sample_map |>
    <| s_mirror := Some sample_mirror |> <| mirror_super := true |>.

Definition sample_exit : exit_env := {| xe_unlink := 0; xe_write := true; xe_rand1 := 1; xe_rand2 := 2 |}.

Definition sample_env : read_env :=
  {| re_now := 0; re_join := fun _ => 0; re_clients := clients_env [] []; re_exit := sample_exit |}.

(** The control block [mirror_run] enters its loop with. *)
Definition sample_ctl : mirror_ctrl :=
  match mirror_run_start 0 true sample_exit mirrored_server with
  | Ok (inr c) => c
  | _ => {| serve := mirrored_server; begin_watcher := false; read_watcher := false; write_watcher := false;
            timeout_watcher := false; timeout_repeats := false; limit_watcher := false; abandon_watcher := false;
            ev_broken := false; clear_events := false; clients_closed := false; the_xfer := new_xfer 0 0 |}
  end.

Lemma sample_ctl_eq : mirror_run_start 0 true sample_exit mirrored_server = Ok (inr sample_ctl).
Proof.
  assert (H : match mirror_run_start 0 true sample_exit mirrored_server with Ok (inr _) => true | _ => false end = true)
    by (vm_compute; reflexivity).
  unfold sample_ctl. destruct (mirror_run_start 0 true sample_exit mirrored_server) as [[|] |]; done.
Qed.

Definition sample_file : list Z := replicate 512 5.
Definition sample_start : sys := start_sys (fun _ _ => None) sample_ctl sample_file (replicate 512 0) [].

Definition sample_y0 : sys := mig_client (CLost 0) (mig_client (CStore 200 [7; 7]) sample_start).
Definition sample_y1 : sys := mig_write (WrAccept 100) (mig_client (CStore 3 [9; 9]) sample_y0).
Definition sample_y2 : sys := mig_client (CMark 0) (mig_store (mig_write (WrAccept 1000) sample_y1)).
Definition sample_y3 : sys := mig_write (WrAccept 100) (mig_read sample_env sample_y2).
Definition sample_end : sys := mig_read sample_env (mig_store (mig_write (WrAccept 1000) sample_y3)).

Lemma sample_run : migrating sample_start sample_end.
Proof.
  unfold sample_end. apply mig_read_step; [| vm_compute; reflexivity | reflexivity].
  apply mig_store_step; [| vm_compute; reflexivity]. apply mig_write_step; [| vm_compute; reflexivity].
  unfold sample_y3. apply mig_write_step; [| vm_compute; reflexivity].
  apply mig_read_step; [| vm_compute; reflexivity | reflexivity].
  unfold sample_y2. apply mig_client_step; [| vm_compute; reflexivity | exact I].
  apply mig_store_step; [| vm_compute; reflexivity]. apply mig_write_step; [| vm_compute; reflexivity].
  unfold sample_y1. apply mig_write_step; [| vm_compute; reflexivity].
  apply mig_client_step; [| vm_compute; reflexivity | vm_compute; repeat split; discriminate].
  unfold sample_y0. apply mig_client_step; [| vm_compute; reflexivity | exact I].
  apply mig_client_step; [apply mig_start | vm_compute; reflexivity | vm_compute; repeat split; discriminate].
Qed.

Lemma mirrored_ok : srv_ok 512 mirrored_server sample_mirror.
Proof.
  constructor; [reflexivity | reflexivity | lia | exact sample_map_ok | by vm_compute | discriminate | reflexivity].
Qed.

Lemma sample_start_ok : start_ok mirrored_server sample_mirror [] sample_file.
Proof.
  constructor; [exact mirrored_ok | reflexivity | by vm_compute | constructor].
Qed.

(** * Properties *)

(** C1: when a migration completes, the listener has the image: whatever the clients
    wrote meanwhile, in whatever pieces the connection took the data, every byte of
    the image is the same on both sides, and no client is left that could change it.
    A client's write is a store followed later by a mark in the allocation map, unless
    its connection breaks in between: then the bytes of that write, which was never
    acknowledged, may differ, and no others. The listener answers a request with
    success only after storing it. *)
Theorem migration_converges now repeats x s m lw pend f rem c y :
  start_ok s m pend f -> mirror_run_start now repeats x s = Ok (inr c) ->
  migrating (start_sys lw c f rem pend) y ->
  (exists m', s_mirror (serve (ctl y)) = Some m' /\ commit_state m' = MS_DONE) ->
  clients_closed (ctl y) = true /\
  forall i, 0 <= i < size s -> torn_at (torn y) i \/ byte_at (remote y) i = byte_at (file y) i.
Proof.
  intros Hs E Hm (m' & Hm' & Hd).
  assert (Hi : inv (size s) y).
  { clear Hm' Hd. induction Hm as [| y1 y2 _ IH Hst]; [by apply (start_inv now repeats x s m) | by apply (inv_step _ y1)]. }
  destruct Hi as (m1 & [[_ H] | (_ & H1 & H2)]).
  - destruct H as [[act [[V1 _ _ _ _ V6 V7] _ _ _ _ _ _ _]] | (H1 & H2 & _)]; congruence.
  - apply H2. congruence.
Qed.

Lemma migration_converges_witness :
  clients_closed (ctl sample_end) = true /\
  forall i, 0 <= i < 512 -> torn_at (torn sample_end) i \/ byte_at (remote sample_end) i = byte_at (file sample_end) i.
Proof.
  apply (migration_converges 0 true sample_exit mirrored_server sample_mirror (fun _ _ => None) [] sample_file (replicate 512 0)
    sample_ctl sample_end).
  - exact sample_start_ok.
  - exact sample_ctl_eq.
  - exact sample_run.
  - exists (default sample_mirror (s_mirror (serve (ctl sample_end)))). split; vm_compute; reflexivity.
Defined.

(** The mirror always knows what to do next, and makes headway: setting up a
    transfer succeeds; either it names a range of the image that is not empty and fits
    a request, and the work left (pieces of the pass over the file and queued events)
    becomes smaller, or the pass is over and no event is queued. So without new writes
    a migration needs at most as many transfers as there is work left. *)
Theorem next_xfer_progress sz c m :
  srv_ok sz (serve c) m ->
  exists nx c' m', mirror_setup_next_xfer c = Ok (nx, c') /\ s_mirror (serve c') = Some m' /\
    if (nx : bool)
    then range_ok sz (x_from (the_xfer c'), x_len (the_xfer c')) /\
         work_left sz (offset m') (allocation_map (serve c')) < work_left sz (offset m) (allocation_map (serve c))
    else offset m' = sz /\ evs_of (allocation_map (serve c')) = [].
Proof.
  intros H. destruct (setup_next_xfer_spec sz c m H) as
    [(map & ce & off & from & len & E & _ & _ & _ & K4 & _ & K5 & _) | (map & ce & E & _ & _ & K3 & K4 & _)].
  - eexists true, _, _. split; [exact E |]. split; [reflexivity |]. done.
  - eexists false, _, _. split; [exact E |]. split; [reflexivity |]. done.
Qed.

Lemma next_xfer_progress_witness :
  exists nx c' m', mirror_setup_next_xfer (sample_ctl <| serve := mirrored_server |>) = Ok (nx, c') /\ s_mirror (serve c') = Some m' /\
    if (nx : bool)
    then range_ok 512 (x_from (the_xfer c'), x_len (the_xfer c')) /\
         work_left 512 (offset m') (allocation_map (serve c')) <
           work_left 512 (offset sample_mirror)
             (allocation_map (serve (sample_ctl <| serve := mirrored_server |>)))
    else offset m' = 512 /\ evs_of (allocation_map (serve c')) = [].
Proof.
  exact (next_xfer_progress 512 (sample_ctl <| serve := mirrored_server |>) sample_mirror mirrored_ok).
Defined.

(** C40: closing the clients can wait for ever: when the event stream is full and a
    client has stored data that it has not marked yet, the client waits for room in
    the stream, and only the mirror, which waits for the client, could make room. No
    write is cut off. *)
Theorem closing_with_full_stream_blocks e evs pend s s' :
  stream_enabled (allocation_map s) = true -> s_size (stream (allocation_map s)) = BITSET_STREAM_SIZE ->
  pend <> [] -> clients_torn evs pend = [] -> re_clients e = clients_env evs pend -> close_and_join e s <> Ok s'.
Proof.
  intros Hon Hfull Hp Ht Hre H. unfold close_and_join in H. rewrite Hre in H.
  apply bind_Ok in H as (s1 & H1 & H). apply bind_Ok in H as (s2 & H2 & _). apply close_from_frame in H1.
  unfold clients_env in H2. apply bind_Ok in H2 as ([p' map] & Hrun & H2).
  destruct (decide (p' = [])) as [-> |]; [| done].
  rewrite H1 in Hrun. by apply clients_stuck in Hrun.
Qed.

Lemma closing_with_full_stream_blocks_witness :
  let full := {| entries := entries stream_alloc; s_in := 0; s_out := 0; s_size := BITSET_STREAM_SIZE;
                 queued_bytes := queued_bytes stream_alloc |} in
  let map := {| bs_size := 512; resolution := 4096; stream := full; stream_enabled := true; bits := [0] |} in
  let e := {| re_now := 0; re_join := fun _ => 0; re_clients := clients_env [CMark 0] [(3, 2)];
              re_exit := sample_exit |} in
  close_and_join e (mirrored_server <| allocation_map := map |>) <> Ok mirrored_server.
Proof.
  intros full map e.
  apply (closing_with_full_stream_blocks e [CMark 0] [(3, 2)]); [reflexivity | reflexivity | discriminate | reflexivity | reflexivity].
Defined.

(** The supervisor reports the state of the first attempt, tries again only when
    that attempt got a connection, and after a migration that succeeded at once it
    resets the mirror: the state is MS_INIT, not MS_DONE. *)
Theorem supervisor_resets_success attempt attempts s s1 m :
  attempt s = Ok (MS_GO, s1) -> s_mirror s1 = Some m -> commit_state m = MS_DONE ->
  exists s', mirror_super_runner (attempt :: attempts) true false None 0 s = Ok (Some MS_GO, 1, s') /\
    exists m', s_mirror s' = Some m' /\ commit_state m' = MS_INIT /\ offset m' = 0.
Proof.
  intros Ha Hm Hd. cbn [mirror_super_runner]. rewrite Ha. cbn [mbind res_bind]. unfold with_mirror. rewrite Hm.
  cbn [of_opt mbind res_bind]. destruct (self_pipe_signal_clear (abandon_signal m)) as [sig p].
  unfold mirror_get_state. rewrite Hd. rewrite (bool_decide_eq_false_2 (MS_DONE = MS_ABANDONED)) by done.
  cbn [commit_state set_field]. rewrite Hd.
  rewrite (bool_decide_eq_true_2 (MS_DONE = MS_DONE)), (bool_decide_eq_true_2 (MS_GO = MS_GO)) by done.
  cbn [andb negb]. eexists. split; [reflexivity |]. eexists. split; [reflexivity |]. done.
Qed.

Lemma supervisor_resets_success_witness :
  let done := mirrored_server <| s_mirror := Some (sample_mirror <| commit_state := MS_DONE |>) |> in
  exists s', mirror_super_runner [fun _ => Ok (MS_GO, done)] true false None 0 mirrored_server = Ok (Some MS_GO, 1, s') /\
    exists m', s_mirror s' = Some m' /\ commit_state m' = MS_INIT /\ offset m' = 0.
Proof.
  intros done.
  apply (supervisor_resets_success (fun _ => Ok (MS_GO, done)) [] mirrored_server done
    (sample_mirror <| commit_state := MS_DONE |>)); reflexivity.
Defined.
