(* ===== verification/MirrorLive.v ===== *)
(** * Migration: completion

    Mirror.v shows that a migration that completes has copied the file. Here: it can
    always be completed. From any state a run reaches, once the clients pause and the
    listener goes on answering, the callbacks lead to MS_DONE. *)

From S2P Require Import Prelude Bitset NbdTypes IoUtil SockUtil ReadWrite Serve Mirror.

Open Scope Z_scope.

(** * Lemmas *)

(** ** The event loop always waits for something that comes *)

Definition awake (y : sys) : Prop :=
  read_watcher (ctl y) = true \/
  reply y = None /\ write_watcher (ctl y) || limit_watcher (ctl y) || begin_watcher (ctl y) = true.

(** No reply under way: a request is being sent. *)
Lemma sending_of sz y : inv sz y -> loop_on y -> reply y = None -> exists m data, run_ok sz m y (Some data).
Proof.
  intros Hi Hl Hr. destruct (loop_cases sz y Hi Hl) as (m & _ & _ & [[[data |] H] | (_ & _ & h & e & _ & _ & H)] & _).
  - eauto.
  - destruct (answered_rest _ _ _ (r_phase _ _ _ _ H)) as (rest & ? & _). congruence.
  - destruct (answered_rest _ _ _ H) as (rest & ? & _). congruence.
Qed.

Lemma watched_no_reply sz y : inv sz y -> loop_on y ->
  write_watcher (ctl y) || limit_watcher (ctl y) || begin_watcher (ctl y) = true -> reply y = None.
Proof.
  intros Hi Hl Hw. destruct (loop_cases sz y Hi Hl) as (m & _ & _ & [[[data |] H] | (_ & _ & h & e & _ & _ & H)] & _).
  - apply (r_phase _ _ _ _ H).
  - destruct (r_phase _ _ _ _ H) as [_ _ _ _ A1 A2 A3]. by rewrite A1, A2, A3 in Hw.
  - destruct H as [_ _ _ _ A1 A2 A3]. by rewrite A1, A2, A3 in Hw.
Qed.

Lemma awake_write sz y ans bs c :
  inv sz y -> loop_on y -> write_watcher (ctl y) = true -> mirror_write_cb true ans (low y) (file y) (ctl y) = Ok (bs, c) ->
  ev_broken c = false -> awake (y <| ctl := c |> <| wire := wire y ++ bs |>).
Proof.
  intros Hi Hl Hw E Hb. assert (Hr : reply y = None) by (apply (watched_no_reply sz y Hi Hl); by rewrite Hw).
  destruct (sending_of sz y Hi Hl Hr) as (m & data & H).
  destruct (write_cb_spec sz y data ans bs c m H E Hw) as [-> | (n & _ & _ & _ & Hc)]; [done |]. cbn zeta in Hc.
  set (full := written _ =? _) in Hc. unfold awake. cbn [ctl reply set_field]. rewrite Hc. cbn.
  destruct full; [by left | by right].
Qed.

Lemma awake_store sz y q data :
  inv sz y -> loop_on y -> awake y -> reply y = None -> zlen (wire y) = NBD_REQUEST_SIZE + zlen data ->
  q = nbd_r2h_request (of_wire (take 28 (wire y))) -> data = drop 28 (wire y) -> q_len q = zlen data ->
  read_watcher (ctl y) = true.
Proof.
  intros Hi Hl Ha Hr Hz Hq Hd Hlen. destruct Ha as [Ha | [_ Ha]]; [done | exfalso].
  destruct (sending_of sz y Hi Hl Hr) as (m & d & H).
  destruct (store_whole sz m y d q data H Hz Hq Hd Hlen) as (_ & _ & Hw & _).
  assert (Hreq : NBD_REQUEST_SIZE = 28) by done. destruct (r_xfer _ _ _ _ H) as (_ & X2 & _). cbn [snd] in X2.
  destruct (r_phase _ _ _ _ H) as [_ _ _ _ _ _ S7 _ S9 S10]. rewrite !orb_true_iff in Ha. destruct Ha as [[Ha | Ha] | Ha].
  - specialize (S7 Ha). lia.
  - destruct (S9 Ha). lia.
  - destruct (S10 Ha). lia.
Qed.

(** After a whole reply the loop is left, or goes on to write or to wait for the limit. *)
Lemma awake_read sz y bs e evs out c rest :
  inv sz y -> loop_on y -> read_watcher (ctl y) = true -> re_clients e = clients_env evs (pending y) ->
  Forall (cevent_ok (size (serve (ctl y)))) evs -> bs <> [] -> default [] (reply y) = bs ++ rest ->
  mirror_read_cb true (RdBytes bs) e (ctl y) = Ok (out, c) -> ev_broken c = false ->
  read_watcher c = true \/ rest = [] /\ write_watcher c || limit_watcher c || begin_watcher c = true.
Proof.
  intros Hi Hl Hw Hre Hev Hbs Hr E Hb.
  destruct (loop_cases sz y Hi Hl) as (m & Hm & _ & [[[d |] H] | (_ & _ & h & er & Hh & Her & H)] & _).
  - rewrite (sd_reply _ _ (r_phase _ _ _ _ H)) in Hr. by destruct bs.
  - destruct H as [Hsrv Hz Hx Hp Hclo Him Hon Hph]. rewrite (sv_size _ _ _ Hsrv) in Hev.
    destruct (read_bytes_spec y m MIRROR_HANDLE 0 bs rest e out c Hph MIRROR_HANDLE_range ltac:(lia) Hm Hbs Hr E)
      as [(x' & _ & -> & _) | [-> N]]; [left; exact Hw |].
    change (reply_ok _) with true in N. destruct N as (m1 & x1 & t & O1 & O2 & O3 & E1). right. split; [done |].
    match type of E1 with mirror_next _ ?d = _ => set (c0 := d) in E1 end.
    assert (Hb0 : between sz c0 m1 (pending y) (file y)).
    { destruct Hsrv as [V1 V2 V3 V4 V5 V6 V7]. destruct Hon as [Hon | [? _]]; [| done].
      destruct Hph as [_ _ _ _ A1 A2 A3]. constructor; try done. cbn. constructor; try done; cbn; congruence. }
    destruct (mirror_next_ok sz m1 e evs c0 (pending y) (torn y) (file y) (remote y) out c Hb0) as
      [(K1 & _) | (c1 & _ & t' & l & w & -> & ->)]; [by rewrite O1 | done | done | done | congruence |].
    cbn. by destruct l.
  - destruct (read_bytes_spec y m h er bs rest e out c H Hh ltac:(lia) Hm Hbs Hr E)
      as [(x' & _ & -> & _) | [-> N]]; [left; exact Hw |].
    replace (reply_ok _) with false in N by (unfold reply_ok; cbn; replace (er =? 0) with false by lia; done).
    destruct N. congruence.
Qed.

Lemma awake_step sz y y' : inv sz y -> (loop_on y -> awake y) -> sys_step y y' -> loop_on y' -> awake y'.
Proof.
  intros Hi Ha Hs Hl'. destruct Hs as [ev map Hc Hev Hm | c Hl Hw E | ans bs c Hl Hw E
    | q data f Hl Hr Hz Hq Hd _ _ Hlen Hst | h e Hl Hr Hrw Hh He | ans e evs out c rest Hl Hw Hre Hev Hans E closing
    | now c Hl Hw E | Hl Hw | c Hl Hw E].
  - exact (Ha Hl').
  - right. split; [apply (watched_no_reply sz y Hi Hl); rewrite Hw; by rewrite orb_true_r |]. cbn.
    unfold mirror_begin_cb in E. cbn [negb] in E. destruct (_ || _).
    + apply bind_Ok in E as (map & _ & [= <-]). done.
    + injection E as <-. cbn. by rewrite orb_true_r.
  - by apply (awake_write sz y ans).
  - left. exact (awake_store sz y q data Hi Hl (Ha Hl) Hr Hz Hq Hd Hlen).
  - by left.
  - destruct ans as [bs | | er].
    + destruct Hans as [Hbs Hr].
      destruct (awake_read sz y bs e evs out c rest Hi Hl Hw Hre Hev Hbs Hr E Hl') as [H | [-> H]]; [by left |].
      by right.
    + destruct (read_idle RdEof e (ctl y) out c) as [-> | ->]; [done | done | by left | done].
    + destruct (read_idle (RdErr er) e (ctl y) out c) as [-> | ->]; [done | done | by left | done].
  - right. split; [apply (watched_no_reply sz y Hi Hl); rewrite Hw; by rewrite orb_true_r |]. cbn.
    unfold mirror_limit_cb in E. cbn [negb] in E. apply bind_Ok in E as (wait & _ & [= <-]).
    destruct wait; cbn; by rewrite ?orb_true_r.
  - done.
  - unfold mirror_abandon_cb, with_mirror in E. cbn [negb] in E. by apply bind_Ok in E as (m & _ & [= <-]).
Qed.

Lemma start_awake now repeats x s c lw f rem pend :
  mirror_run_start now repeats x s = Ok (inr c) -> awake (start_sys lw c f rem pend).
Proof.
  intros E. unfold mirror_run_start, with_mirror in E. apply bind_Ok in E as (m & _ & E).
  destruct (size _ =? 0); [by apply bind_Ok in E as (r & _ & [=]) |].
  apply bind_Ok in E as ([ok c0] & _ & E). destruct ok; [| done]. cbn [negb] in E. right. split; [done |]. cbn.
  destruct (allocation_map_built _).
  - by apply bind_Ok in E as (map & _ & [= <-]).
  - injection E as <-. cbn. by rewrite orb_true_r.
Qed.

(** ** Steps that go through *)

(** No bandwidth limit is set. *)
Definition unlimited (m : mirror) : Prop :=
  max_bytes_per_second m = UINT64_MAX /\ 0 <= all_dirty m <= UINT64_MAX.

(** The close signal can be sent. *)
Definition closes (s : server) : Prop :=
  sp_open (close_signal s) = true /\ sp_bytes (close_signal s) < PIPE_CAPACITY.

(** The clients have paused, they can be stopped, the listener's file is large enough,
    the map is ready and there is no bandwidth limit. *)
Record calm (y : sys) : Prop := {
  cm_pend : pending y = [];
  cm_built : allocation_map_built (serve (ctl y)) || allocation_map_not_built (serve (ctl y)) = true;
  cm_room : s_size (stream (map_of y)) < BITSET_STREAM_SIZE;
  cm_remote : size (serve (ctl y)) <= zlen (remote y);
  cm_limit : forall m, s_mirror (serve (ctl y)) = Some m -> unlimited m;
  cm_close : clients_closed (ctl y) = false -> tbl_ok (serve (ctl y)) /\ signals_left 1 (serve (ctl y));
  cm_exit : closes (serve (ctl y))
}.

(** Between the first event and the end, with no reply under way. *)
Record steady (sz : Z) (y : sys) : Prop := {
  st_inv : inv sz y;
  st_loop : loop_on y;
  st_awake : awake y;
  st_reply : reply y = None;
  st_begin : begin_watcher (ctl y) = false;
  st_pend : pending y = [];
  st_remote : sz <= zlen (remote y);
  st_limit : forall m, s_mirror (serve (ctl y)) = Some m -> unlimited m;
  st_close : clients_closed (ctl y) = false -> tbl_ok (serve (ctl y)) /\ signals_left 1 (serve (ctl y));
  st_exit : closes (serve (ctl y))
}.

(** A step that does not touch the server. *)
Lemma steady_step sz y y' :
  steady sz y -> sys_step y y' -> loop_on y' -> reply y' = None -> begin_watcher (ctl y') = false ->
  pending y' = pending y -> remote y' = remote y -> serve (ctl y') = serve (ctl y) ->
  clients_closed (ctl y') = clients_closed (ctl y) -> steady sz y'.
Proof.
  intros [] Hs Hl Hr Hb E1 E2 E3 E4. constructor; rewrite ?E1, ?E2, ?E3, ?E4; try done.
  - by apply (inv_step sz y).
  - by apply (awake_step sz y y').
Qed.

(** The image, and where writes to it were cut off. *)
Definition disk (y : sys) : list Z * list (Z * Z) := (file y, torn y).

Lemma write_cb_all sz y data m :
  run_ok sz m y (Some data) -> write_watcher (ctl y) = true ->
  let w := written (x_of y) in
  let n := (if w <? NBD_REQUEST_SIZE then NBD_REQUEST_SIZE else NBD_REQUEST_SIZE + x_len (x_of y)) - w in
  let c := timeout_again ((ctl y) <| the_xfer := (x_of y) <| written := w + n |> |>) in
  exists bs, mirror_write_cb true (WrAccept n) (low y) (file y) (ctl y) =
    Ok (bs, if w <? NBD_REQUEST_SIZE then c else c <| read_watcher := true |> <| write_watcher := false |>).
Proof.
  intros H Hww. pose proof (zlen_hdr _ _ _ _ H) as Hh. destruct H as [Hsrv Hz (X1 & X2 & X3) _ _ _ _ Hph].
  destruct Hph as [S1 S2 S3 S4 S5 S6 S7 _ _ _]. specialize (S7 Hww). cbn [fst snd] in *.
  pose proof (sv_range _ _ _ Hsrv) as Hszr. assert (Hreq : NBD_REQUEST_SIZE = 28) by done. cbn zeta.
  unfold mirror_write_cb. cbn [negb]. fold (x_of y). set (x := x_of y) in *. rewrite (u64_id (x_len x + _)) by lia.
  rewrite (mapped_at_ok _ m) by apply Hsrv.
  assert (Hld : forall n l off, 0 < n -> 0 <= off -> off + n <= zlen l ->
    mem_load l off n = Ok (slice l off n) /\ zlen (slice l off n) = n).
  { intros n l off Hn Ho Hf. unfold mem_load. rewrite (proj2 (in_range_true _ _ _)) by (right; lia).
    split; [done |]. apply zlen_slice; lia. }
  destruct (written x <? NBD_REQUEST_SIZE) eqn:Ew; rewrite (u64_id (_ - _)) by lia.
  - destruct (Hld (NBD_REQUEST_SIZE - written x) (hdr x) (written x)) as [-> Hs]; [lia | lia | lia |].
    cbn [mbind res_bind write_nonblock]. rewrite Hs. rewrite Z.max_r, Z.min_l by lia.
    replace (_ - _ <? 0) with false by lia. replace (0 <? _ - _) with true by lia. rewrite (u64_id (written x + _)) by lia.
    eexists. cbn [the_xfer timeout_again set_field written].
    by replace (written x + (NBD_REQUEST_SIZE - written x) =? x_len x + NBD_REQUEST_SIZE) with false by lia.
  - rewrite (u64_id (x_len x - _)) by lia.
    replace (x_len x - (written x - NBD_REQUEST_SIZE)) with (NBD_REQUEST_SIZE + x_len x - written x) by lia.
    destruct (Hld (NBD_REQUEST_SIZE + x_len x - written x) (file y) (x_from x + (written x - NBD_REQUEST_SIZE)))
      as [-> Hs]; [lia | lia | lia |].
    cbn [mbind res_bind write_nonblock]. rewrite Hs. rewrite Z.max_r, Z.min_l by lia.
    replace (_ - _ <? 0) with false by lia. replace (0 <? _ - _) with true by lia. rewrite (u64_id (written x + _)) by lia.
    eexists. cbn [the_xfer timeout_again set_field written].
    by replace (written x + (NBD_REQUEST_SIZE + x_len x - written x) =? x_len x + NBD_REQUEST_SIZE) with true by lia.
Qed.

(** One call of the write callback: the rest of the header, or the rest of the data. *)
Lemma write_hop sz y :
  steady sz y -> write_watcher (ctl y) = true ->
  exists y', sys_step y y' /\ steady sz y' /\ serve (ctl y') = serve (ctl y) /\ disk y' = disk y /\
    clients_closed (ctl y') = clients_closed (ctl y) /\
    if written (x_of y) <? NBD_REQUEST_SIZE
    then write_watcher (ctl y') = true /\ NBD_REQUEST_SIZE <= written (x_of y') else read_watcher (ctl y') = true.
Proof.
  intros Hst Hw. destruct (sending_of sz y) as (m & data & H); [apply Hst .. |].
  destruct (write_cb_all sz y data m H Hw) as (bs & E).
  match type of E with _ = Ok (bs, ?c) =>
    set (c' := c) in E; assert (Hs : sys_step y (y <| ctl := c' |> <| wire := wire y ++ bs |>)) end.
  { eapply sy_write; [apply Hst | done | exact E]. }
  eexists. split; [exact Hs |]. subst c'. destruct (written (x_of y) <? NBD_REQUEST_SIZE) eqn:Ew.
  - split; [apply (steady_step sz y _ Hst Hs); try done; apply Hst |]. split_and!; try done. cbn. lia.
  - split; [apply (steady_step sz y _ Hst Hs); try done; apply Hst |]. by split_and!.
Qed.

(** From a writable socket to a request that is sent. *)
Lemma send_request sz y :
  steady sz y -> write_watcher (ctl y) = true ->
  exists y', migrating y y' /\ steady sz y' /\ serve (ctl y') = serve (ctl y) /\ disk y' = disk y /\
    clients_closed (ctl y') = clients_closed (ctl y) /\ read_watcher (ctl y') = true.
Proof.
  intros Hst Hw. destruct (write_hop sz y Hst Hw) as (y1 & Hs1 & St1 & E1 & G1 & C1 & K1).
  destruct (written (x_of y) <? NBD_REQUEST_SIZE).
  - destruct K1 as [Hw1 Hn1]. destruct (write_hop sz y1 St1 Hw1) as (y2 & Hs2 & St2 & E2 & G2 & C2 & K2).
    replace (written (x_of y1) <? NBD_REQUEST_SIZE) with false in K2 by lia.
    exists y2. split; [by apply (mig_step _ y1), Hs2; apply migrating_one |]. split_and!; [done | congruence | congruence | congruence | done].
  - exists y1. split; [by apply migrating_one |]. by split_and!.
Qed.

(** ** The estimates without a limit *)

Lemma bps_bound now s m :
  s_mirror s = Some m -> unlimited m -> exists bps, server_mirror_bps now s = Ok bps /\ 0 <= bps <= all_dirty m.
Proof.
  intros Hm [_ Hd]. unfold server_mirror_bps. rewrite Hm. destruct (server_is_mirroring s).
  2:{ exists 0. split; [done | lia]. }
  cbn [of_opt mbind res_bind]. eexists. split; [reflexivity |]. pose proof (u64_range (now - migration_started m)) as Hu.
  set (d := u64 _) in *. assert (0 <= d / 1000) by (apply Z.div_pos; lia).
  split; [apply Z.div_pos; lia |]. apply Z.div_le_upper_bound; [lia |]. nia.
Qed.

Lemma never_waits now c m : s_mirror (serve c) = Some m -> unlimited m -> mirror_should_wait now c = Ok false.
Proof.
  intros Hm Hu. unfold mirror_should_wait, with_mirror. rewrite Hm. cbn [of_opt mbind res_bind].
  destruct (bps_bound now (serve c) m Hm Hu) as (bps & -> & Hb). cbn [mbind res_bind]. destruct Hu as [-> Hd].
  by replace (UINT64_MAX <? bps) with false by lia.
Qed.

(** One second into the migration the estimate does not divide by 0. *)
Lemma eta_ok s m : s_mirror s = Some m -> unlimited m ->
  exists eta, server_mirror_eta (migration_started m + 1000) s = Ok eta.
Proof.
  intros Hm [_ Hd]. unfold server_mirror_eta, server_mirror_bytes_remaining, server_mirror_bps. rewrite Hm.
  destruct (server_is_mirroring s); [| by eexists]. cbn [of_opt mbind res_bind].
  replace (migration_started m + 1000 - migration_started m) with 1000 by lia. rewrite (u64_id 1000) by lia.
  change (1000 / 1000 + 1) with 2. unfold UINT64_MAX in Hd.
  assert (0 <= all_dirty m / 2 < 2 ^ 63) by (split; [apply Z.div_pos; lia | apply Z.div_lt_upper_bound; lia]).
  rewrite (u64_id (all_dirty m / 2 + 1)) by lia. replace (all_dirty m / 2 + 1 =? 0) with false by lia. by eexists.
Qed.

(** From a state that waits for the timer to a request that is sent. *)
Lemma limit_hop sz y :
  steady sz y -> limit_watcher (ctl y) = true ->
  exists y', sys_step y y' /\ steady sz y' /\ serve (ctl y') = serve (ctl y) /\ disk y' = disk y /\
    clients_closed (ctl y') = clients_closed (ctl y) /\ write_watcher (ctl y') = true.
Proof.
  intros Hst Hw. destruct (sending_of sz y) as (m & data & H); [apply Hst .. |].
  pose proof (sv_mirror _ _ _ (r_srv _ _ _ _ H)) as Hm.
  assert (E : mirror_limit_cb true 0 (ctl y) =
    Ok (timeout_again ((ctl y) <| write_watcher := true |> <| limit_watcher := false |>))).
  { unfold mirror_limit_cb. cbn [negb]. by rewrite (never_waits 0 (ctl y) m Hm (st_limit _ _ Hst m Hm)). }
  assert (Hs := sy_limit y 0 _ (st_loop _ _ Hst) Hw E).
  eexists. split; [exact Hs |]. split; [| done].
  apply (steady_step sz y _ Hst Hs); try done; apply Hst.
Qed.

Lemma to_sent sz y :
  steady sz y ->
  exists y', migrating y y' /\ steady sz y' /\ serve (ctl y') = serve (ctl y) /\ disk y' = disk y /\
    clients_closed (ctl y') = clients_closed (ctl y) /\ read_watcher (ctl y') = true.
Proof.
  intros Hst. destruct (st_awake _ _ Hst) as [Hr | [_ Hw]].
  { exists y. split_and!; [apply mig_start | done ..]. }
  rewrite (st_begin _ _ Hst), orb_false_r in Hw. destruct (write_watcher (ctl y)) eqn:Ew; [by apply send_request |].
  destruct (limit_hop sz y Hst Hw) as (y1 & Hs1 & St1 & E1 & G1 & C1 & K1).
  destruct (send_request sz y1 St1 K1) as (y2 & M2 & St2 & E2 & G2 & C2 & K2).
  exists y2. split; [apply (migrating_trans _ y1); [by apply migrating_one | done] |].
  split_and!; [done | congruence | congruence | congruence | done].
Qed.

(** The listener stores the request. *)
Lemma store_hop sz y :
  steady sz y -> read_watcher (ctl y) = true ->
  exists y', sys_step y y' /\ inv sz y' /\ reply y' = Some (reply_bytes MIRROR_HANDLE 0) /\ ctl y' = ctl y /\ disk y' = disk y /\
    pending y' = [] /\ zlen (remote y') = zlen (remote y) /\ x_read (x_of y) = 0 /\
    zlen (hdr (x_of y)) = NBD_REQUEST_SIZE.
Proof.
  intros Hst Hr. destruct (sending_of sz y) as (m & data & H); [apply Hst .. |].
  pose proof (zlen_hdr _ _ _ _ H) as Hh. pose proof (st_remote _ _ Hst) as Hrem.
  destruct H as [Hsrv Hz (X1 & X2 & X3) _ _ _ _ Hph]. destruct Hph as [S1 S2 S3 S4 S5 S6 _ S8 _ _].
  specialize (S8 Hr). cbn [fst snd] in *. pose proof (sv_range _ _ _ Hsrv) as Hszr.
  assert (Hreq : NBD_REQUEST_SIZE = 28) by done. rewrite take_ge in S4 by (unfold zlen in Hh; lia).
  assert (Hlh : length (hdr (x_of y)) = 28%nat) by (unfold zlen in Hh; lia).
  assert (Hq : nbd_r2h_request (of_wire (take 28 (wire y))) = mirror_request (x_from (x_of y)) (x_len (x_of y))).
  { rewrite S4, take_app_length' by done. rewrite S1. apply req_bytes_decode. lia. }
  assert (Hd : drop 28 (wire y) = data) by (by rewrite S4, drop_app_length').
  assert (Hdl : zlen data = x_len (x_of y)) by lia.
  pose proof (mem_store_ok (remote y) (x_from (x_of y)) data X1 ltac:(lia)) as Hms.
  assert (Hs := sy_store y _ data _ (st_loop _ _ Hst) (st_reply _ _ Hst) ltac:(rewrite S4, zlen_app; lia) (eq_sym Hq)
    (eq_sym Hd) eq_refl eq_refl ltac:(cbn [mirror_request q_len]; rewrite u32_id; lia) Hms).
  eexists. split; [exact Hs |]. split; [apply (inv_step sz y _ (st_inv _ _ Hst) Hs) |].
  split_and!; try done; [apply Hst |]. exact (mem_store_zlen _ _ _ _ Hms).
Qed.

(** ** After a stored request *)

(** What the system answers in the run: joins succeed and nothing fails. *)
Definition quiet_env (m : mirror) : read_env :=
  {| re_now := migration_started m + 1000; re_join := fun _ => 0; re_clients := clients_env [] [];
     re_exit := {| xe_unlink := 0; xe_write := true; xe_rand1 := 0; xe_rand2 := 0 |} |}.

Lemma read_whole e c m :
  s_mirror (serve c) = Some m -> x_read (the_xfer c) = 0 -> zlen (hdr (the_xfer c)) = NBD_REQUEST_SIZE ->
  exists m1 x1, offset m1 = offset m /\ commit_state m1 = commit_state m /\
    migration_started m1 = migration_started m /\ m_mapped m1 = m_mapped m /\ (unlimited m -> unlimited m1) /\
    mirror_read_cb true (RdBytes (reply_bytes MIRROR_HANDLE 0)) e c =
      mirror_next e (c <| serve := (serve c) <| s_mirror := Some m1 |> |> <| the_xfer := x1 |>
                       <| timeout_watcher := false |>).
Proof.
  intros Hm Hx Hh. unfold mirror_read_cb. cbn [negb]. rewrite Hx. change (NBD_REPLY_SIZE -64 0) with 16.
  assert (Hl : zlen (reply_bytes MIRROR_HANDLE 0) = 16) by (unfold zlen; by rewrite length_reply_bytes).
  unfold deliver. rewrite Hl. change (16 <=? 16) with true. cbn iota beta.
  assert (Hfit : 0 + zlen (reply_bytes MIRROR_HANDLE 0) <= zlen (hdr (the_xfer c))) by (rewrite Hl, Hh; done).
  pose proof (mem_store_ok _ _ (reply_bytes MIRROR_HANDLE 0) (Z.le_refl 0) Hfit) as Hst.
  pose proof (mem_store_prefix _ _ _ _ (Z.le_refl 0) Hfit Hst) as Hpre. rewrite Hst. cbn [mbind res_bind].
  set (h' := take _ _ ++ _ ++ _) in *. clearbody h'. rewrite Hl in Hpre. cbn [app take] in Hpre.
  change (Z.to_nat (0 + 16)) with 16%nat in Hpre. change (take (Z.to_nat 0) (hdr (the_xfer c))) with (@nil Z) in Hpre.
  change (16 <? 0) with false. change (16 =? 0) with false. change (0 +64 16) with 16.
  cbn [x_read set_field hdr]. change (16 <? NBD_REPLY_SIZE) with false. cbn iota. rewrite Hpre, app_nil_l.
  rewrite reply_bytes_decode by first [exact MIRROR_HANDLE_range | lia].
  change (reply_ok _) with true. cbn [negb]. unfold with_mirror. cbn [serve timeout_again set_field]. rewrite Hm.
  cbn [of_opt mbind res_bind clear_events set_field].
  match goal with |- context [clear_events ?d] => destruct (clear_events d) end.
  - exists m, ((the_xfer c) <| hdr := h' |> <| x_read := 0 |> <| written := 0 |>).
    do 5 (split; [done |]). f_equal. clear - Hm.
    destruct c as [s0 ? ? ? ? ? ? ? ? ? ? []]. destruct s0. cbn in Hm. by subst.
  - eexists _, _. split; [| split; [| split; [| split; [| split; [| reflexivity]]]]]; try done.
    intros [H1 H2]. split; [exact H1 |]. cbn. pose proof (u64_range (all_dirty m + x_len (the_xfer c))). unfold UINT64_MAX. lia.
Qed.

Lemma join_from_total joinfunc n : forall i s,
  length (nbd_client s) = (i + n)%nat -> exists s', join_from joinfunc i n s = Ok s'.
Proof.
  induction n as [| n IH]; intros i s Hl; cbn [join_from]; [by eexists |].
  destruct (lookup_lt_is_Some_2 (nbd_client s) i) as [e He]; [lia |]. rewrite He. cbn [of_opt mbind res_bind].
  apply IH. destruct (_ && _); cbn [set_entry nbd_client set_field]; [rewrite length_insert |]; lia.
Qed.

(** With no client writing, closing them changes only the table and their objects. *)
Lemma close_total m s :
  tbl_ok s -> signals_left 1 s ->
  exists s', close_and_join (quiet_env m) s = Ok s' /\ s_mirror s' = s_mirror s /\ size s' = size s /\
    allocation_map s' = allocation_map s /\ close_signal s' = close_signal s.
Proof.
  intros Ht Hl. unfold close_and_join. cbn [quiet_env re_clients re_join].
  destruct (server_close_clients_spec (server_forbid_new_clients s)) as (s1 & E1 & Hs1 & _).
  { by destruct Ht. }
  { exact Hl. }
  rewrite E1. cbn [mbind res_bind clients_env clients_run]. rewrite decide_True by done. cbn [mbind res_bind].
  match goal with |- context [server_join_clients ?j ?x] =>
    destruct (join_from_total j (max_nbd_clients x) 0 x) as (s2 & E2) end.
  { rewrite Hs1. cbn. apply (tb_len _ Ht). }
  unfold server_join_clients. rewrite E2. exists s2. split; [done |]. apply join_from_frame in E2.
  rewrite E2, Hs1. done.
Qed.

Lemma complete_total e s m :
  re_exit e = re_exit (quiet_env m) -> s_mirror s = Some m -> closes s ->
  exists out s' m', mirror_complete (re_exit e) s = Ok (out, s') /\ s_mirror s' = Some m' /\ commit_state m' = MS_DONE.
Proof.
  intros He Hm [Ho Hb]. rewrite He. unfold mirror_complete, with_mirror. rewrite Hm. cbn [of_opt mbind res_bind].
  destruct (mirror_should_quit m).
  2:{ cbn [mbind res_bind]. rewrite Hm. by do 3 eexists. }
  unfold mirror_on_exit, serve_signal_close, self_pipe_signal. rewrite Ho.
  replace (PIPE_CAPACITY <=? sp_bytes (close_signal s)) with false by lia. cbn [negb orb mbind res_bind].
  unfold with_mirror. cbn [s_mirror set_field]. rewrite Hm. cbn [of_opt mbind res_bind quiet_env re_exit xe_unlink xe_write].
  change (0 <? 0) with false. rewrite andb_false_r. cbn [negb mbind res_bind s_mirror set_field]. rewrite Hm.
  cbn [of_opt mbind res_bind]. by do 3 eexists.
Qed.

Lemma evs_of_nil map : bitset_ok map -> evs_of map = [] -> s_size (stream map) = 0.
Proof.
  intros [_ _ _ _ Hs] He. pose proof (length_contents _ (proj1 (so_size _ Hs))) as L.
  unfold evs_of in He. rewrite He in L. change (@zlen bitset_stream_entry []) with 0 in L. lia.
Qed.

Lemma work_left_nonneg sz off map : map_ok sz map -> 0 <= off <= sz -> 0 <= work_left sz off map.
Proof.
  intros Hm Ho. pose proof (so_size _ (bo_stream _ (mo_ok _ _ Hm))). pose proof longest_write_value as Hlw.
  unfold work_left. assert (0 <= (sz - off + mirror_longest_write - 1) / mirror_longest_write) by (apply Z.div_pos; lia). lia.
Qed.

(** The mirror's next move: it completes, or sets up a transfer and has less to do. *)
Lemma mirror_next_total sz c m :
  srv_ok sz (serve c) m -> unlimited m -> closes (serve c) ->
  (clients_closed c = false -> tbl_ok (serve c) /\ signals_left 1 (serve c)) ->
  exists out c' m', mirror_next (quiet_env m) c = Ok (out, c') /\ s_mirror (serve c') = Some m' /\
    (commit_state m' = MS_DONE \/
     unlimited m' /\ ev_broken c' = ev_broken c /\ begin_watcher c' = begin_watcher c /\ closes (serve c') /\
     (clients_closed c' = false -> tbl_ok (serve c') /\ signals_left 1 (serve c')) /\
     size (serve c') = sz /\
     work_left sz (offset m') (allocation_map (serve c')) < work_left sz (offset m) (allocation_map (serve c))).
Proof.
  intros Hsrv Hu Hcs Hcl. pose proof Hsrv as [V1 V2 V3 V4 V5 V6 V7]. unfold mirror_next.
  destruct (setup_next_xfer_spec sz c m Hsrv) as
    [(map & ce & off & from & len & -> & K1 & _ & K2 & _ & _ & K3 & _) | (map & ce & -> & K1 & _ & K2 & K3 & _)];
    cbn [mbind res_bind].
  - set (c1 := (set_up c map ce (m <| offset := off |>)) <| the_xfer := new_xfer from len |>).
    set (m1 := m <| offset := off |>) in *. assert (Hu1 : unlimited m1) by exact Hu.
    assert (exists c2, (if negb (clients_closed c1) then
       eta ← server_mirror_eta (re_now (quiet_env m)) (serve c1);
       if negb true || (eta <? MS_CONVERGE_TIME_SECS) then
         s ← close_and_join (quiet_env m) (serve c1);
         let c := c1 <| serve := s |> <| clients_closed := true |> in Ok (true, c)
       else Ok (true, c1)
     else Ok (true, c1)) = Ok (true, c2) /\ s_mirror (serve c2) = Some m1 /\ ev_broken c2 = ev_broken c /\
       begin_watcher c2 = begin_watcher c /\ closes (serve c2) /\ size (serve c2) = sz /\ allocation_map (serve c2) = map /\
       (clients_closed c2 = false -> tbl_ok (serve c2) /\ signals_left 1 (serve c2))) as (c2 & E2 & F1 & F2 & F3 & F4 & F5 & F6 & F7).
    { change (clients_closed c1) with (clients_closed c). destruct (clients_closed c) eqn:Ec; cbn [negb].
      { exists c1. split_and!; try done. change (clients_closed c1) with (clients_closed c). congruence. }
      destruct (Hcl eq_refl) as [Ht Hl]. destruct (eta_ok (serve c1) m1 eq_refl Hu1) as (eta & Eeta).
      change (re_now (quiet_env m)) with (migration_started m1 + 1000). rewrite Eeta. cbn [mbind res_bind orb].
      assert (Ht1 : tbl_ok (serve c1)) by (by destruct Ht).
      destruct (eta <? MS_CONVERGE_TIME_SECS).
      - destruct (close_total m (serve c1) Ht1 Hl) as (s' & -> & G1 & G2 & G3 & G4). cbn [mbind res_bind].
        eexists. split; [reflexivity |]. cbn. unfold closes. rewrite G1, G2, G3, G4. split_and!; try done; apply Hcs.
      - exists c1. by split_and!. }
    cbn [negb orb] in E2 |- *. rewrite E2. cbn [mbind res_bind]. rewrite andb_false_r.
    rewrite (never_waits _ _ m1) by done. cbn [mbind res_bind].
    eexists _, _, m1. split; [reflexivity |]. split; [exact F1 |]. right. rewrite <- F6 in K3. by split_and!.
  - set (c1 := set_up c map ce m).
    assert (Hdone : forall s, s_mirror s = Some m -> closes s -> exists out s' m',
      mirror_complete (re_exit (quiet_env m)) s = Ok (out, s') /\ s_mirror s' = Some m' /\ commit_state m' = MS_DONE)
      by (intros s; by apply complete_total).
    change (clients_closed c1) with (clients_closed c). destruct (clients_closed c) eqn:Ec; cbn [negb mbind res_bind].
    { change (clients_closed c1) with (clients_closed c). rewrite Ec. cbn [andb].
      destruct (Hdone (serve c1)) as (out & s' & m' & -> & D1 & D2); [done | done |]. cbn [mbind res_bind].
      eexists _, _, m'. split; [reflexivity |]. split; [done | by left]. }
    destruct (Hcl eq_refl) as [Ht Hl]. assert (Ht1 : tbl_ok (serve c1)) by (by destruct Ht). cbn [orb].
    destruct (close_total m (serve c1) Ht1 Hl) as (s2 & -> & G1 & G2 & G3 & G4). cbn [mbind res_bind].
    set (c2 := c1 <| serve := s2 |> <| clients_closed := true |>).
    assert (Hw0 : work_left sz (offset m) (allocation_map (serve c2)) = 0).
    { unfold work_left. rewrite K3. cbn [serve set_field c2]. rewrite G3. cbn. change (evs_of map = []) in K2.
      rewrite (evs_of_nil map (mo_ok _ _ K1) K2). replace (sz - sz + mirror_longest_write - 1) with (mirror_longest_write - 1) by lia.
      by rewrite Z.div_small. }
    destruct (setup_next_xfer_spec sz c2 m) as
      [(map' & ce' & off & from & len & _ & L1 & _ & L2 & _ & _ & L3 & _) | (map' & ce' & -> & _)].
    { constructor; cbn; rewrite ?G1, ?G2, ?G3; done. }
    { rewrite Hw0 in L3. pose proof (work_left_nonneg sz off map' L1 L2). lia. }
    cbn [mbind res_bind clients_closed set_up c2 c1 set_field andb negb].
    destruct (Hdone (serve (set_up c2 map' ce' m))) as (out & s' & m' & -> & D1 & D2).
    { done. }
    { unfold closes. cbn. rewrite G4. exact Hcs. }
    cbn [mbind res_bind]. eexists _, _, m'. split; [reflexivity |]. split; [done | by left].
Qed.

Definition work (y : sys) : Z :=
  match s_mirror (serve (ctl y)) with
  | Some m => work_left (size (serve (ctl y))) (offset m) (map_of y)
  | None => 0
  end.

Definition completed (y : sys) : Prop :=
  exists m, s_mirror (serve (ctl y)) = Some m /\ commit_state m = MS_DONE.

(** One transfer: the request is sent, stored and answered, and the mirror moves on. *)
Lemma transfer sz y :
  steady sz y -> exists y', migrating y y' /\ disk y' = disk y /\ (completed y' \/ steady sz y' /\ work y' < work y).
Proof.
  intros Hst. destruct (to_sent sz y Hst) as (y1 & M1 & St1 & E1 & G1 & C1 & R1).
  destruct (store_hop sz y1 St1 R1) as (y2 & S2 & I2 & P2 & Ec & G2 & Pe & Rm & Xr & Xh).
  destruct (sending_of sz y1) as (m & data & Hrun); [apply St1 .. |].
  pose proof (r_srv _ _ _ _ Hrun) as Hsrv. pose proof (sv_mirror _ _ _ Hsrv) as Hm.
  pose proof (st_limit _ _ St1 m Hm) as Hu.
  destruct (read_whole (quiet_env m) (ctl y1) m Hm Xr Xh) as (m1 & x1 & O1 & O2 & O3 & O5 & O4 & Erd).
  set (c0 := (ctl y1) <| serve := (serve (ctl y1)) <| s_mirror := Some m1 |> |> <| the_xfer := x1 |>
               <| timeout_watcher := false |>) in Erd.
  assert (Hsrv0 : srv_ok sz (serve c0) m1) by (destruct Hsrv; constructor; cbn; congruence).
  assert (Hcl0 : clients_closed c0 = false -> tbl_ok (serve c0) /\ signals_left 1 (serve c0)).
  { intros Hc. destruct (st_close _ _ St1 Hc) as [Ht Hl]. split; [by destruct Ht | exact Hl]. }
  destruct (mirror_next_total sz c0 m1 Hsrv0 (O4 Hu) (st_exit _ _ St1) Hcl0) as (out & c' & m' & En & Hm' & Hres).
  assert (He : quiet_env m1 = quiet_env m) by (unfold quiet_env; by rewrite O3). rewrite He in En. rewrite En in Erd.
  rewrite <- Ec in Erd, R1.
  assert (Hl2 : loop_on y2) by (unfold loop_on; rewrite Ec; apply St1).
  pose proof (sy_read y2 (RdBytes (reply_bytes MIRROR_HANDLE 0)) (quiet_env m) [] out c' [] Hl2 R1) as S3.
  rewrite Pe, P2 in S3.
  specialize (S3 eq_refl (Forall_nil_2 _)).
  assert (Hans : reply_bytes MIRROR_HANDLE 0 <> [] /\ default [] (Some (reply_bytes MIRROR_HANDLE 0)) = reply_bytes MIRROR_HANDLE 0 ++ []).
  { split; [| by rewrite app_nil_r]. intros H. apply (f_equal length) in H. by rewrite length_reply_bytes in H. }
  specialize (S3 Hans Erd). cbn zeta in S3.
  match type of S3 with sys_step _ ?z => set (y3 := z) in S3 end.
  assert (M3 : migrating y y3).
  { apply (migrating_trans _ y1); [done |]. apply (mig_step _ y2), S3. by apply migrating_one. }
  exists y3. split; [exact M3 |]. assert (Hd3 : disk y3 = disk y).
  { rewrite <- G1, <- G2. unfold disk. subst y3. cbn. by destruct (_ && _). }
  split; [exact Hd3 |]. destruct Hres as [Hd | (F1 & F2 & F3 & F4 & F5 & F6 & F7)].
  { left. by exists m'. }
  right. pose proof (inv_step sz y2 y3 I2 S3) as I3.
  assert (Hl3 : loop_on y3) by (unfold loop_on; cbn; rewrite F2; apply St1).
  split.
  - constructor; cbn [ctl y3 set_field serve remote pending reply]; try done.
    + apply (awake_step sz y2 y3 I2); [| done | done]. intros _. left. exact R1.
    + cbn. rewrite F3. apply St1.
    + by destruct (_ && _).
    + pose proof (st_remote _ _ St1). cbn. lia.
    + intros m2 E2. cbn in E2. rewrite Hm' in E2. by injection E2 as <-.
  - unfold work. rewrite <- E1, Hm. change (serve (ctl y3)) with (serve c'). rewrite Hm', F6, (sv_size _ _ _ Hsrv).
    unfold map_of. rewrite <- E1. cbn [y3 ctl set_field]. rewrite O1 in F7. exact F7.
Qed.

Lemma work_nonneg sz y : steady sz y -> 0 <= work y.
Proof.
  intros Hst. destruct (sending_of sz y) as (m & data & Hrun); [apply Hst .. |].
  destruct (r_srv _ _ _ _ Hrun) as [V1 V2 V3 V4 V5 V6 V7]. unfold work. rewrite V1, V2. by apply work_left_nonneg.
Qed.

Lemma steady_completes sz n : forall y,
  steady sz y -> work y < Z.of_nat n -> exists y', migrating y y' /\ disk y' = disk y /\ completed y'.
Proof.
  induction n as [| n IH]; intros y Hst Hw; [pose proof (work_nonneg sz y Hst); lia |].
  destruct (transfer sz y Hst) as (y1 & M1 & G1 & [Hd | [St1 Hlt]]); [by exists y1 |].
  destruct (IH y1 St1) as (y2 & M2 & G2 & Hd); [lia |].
  exists y2. split; [by apply (migrating_trans _ y1) |]. split; [congruence | done].
Qed.

(** The first event, once the map is ready. *)
Lemma to_steady sz y :
  inv sz y -> loop_on y -> awake y -> reply y = None -> calm y ->
  exists y', migrating y y' /\ disk y' = disk y /\ steady sz y'.
Proof.
  intros Hi Hl Ha Hr [C1 C2 C3 C4 C5 C6 C7]. destruct (sending_of sz y Hi Hl Hr) as (m & data & Hrun).
  pose proof (r_srv _ _ _ _ Hrun) as [V1 V2 V3 V4 V5 V6 V7]. rewrite V2 in C4.
  destruct (begin_watcher (ctl y)) eqn:Eb.
  2:{ exists y. split; [apply mig_start |]. split; [done |]. by constructor. }
  assert (exists map, bitset_enable_stream (map_of y) = Ok map) as (map & Em).
  { unfold bitset_enable_stream, bitset_stream_enqueue. cbn [with_enabled stream].
    destruct (stream_enqueue_spec (stream (map_of y)) BITSET_STREAM_ON 0 (bs_size (map_of y))) as (st & -> & _);
      [apply V4 | done | by eexists]. }
  assert (E : mirror_begin_cb true (ctl y) =
    Ok (set_map (timeout_again ((ctl y) <| begin_watcher := false |> <| write_watcher := true |>)) map)).
  { unfold mirror_begin_cb. cbn [negb]. rewrite C2. unfold map_of in Em. by rewrite Em. }
  pose proof (sy_begin y _ Hl Eb E) as Hs. eexists. split; [by apply migrating_one |]. split; [done |].
  constructor; try done.
  - by apply (inv_step sz y).
  - apply (awake_step sz y _ Hi); [done | exact Hs | exact Hl].
  - intros Hc. destruct (C6 Hc) as [Ht Hsl]. split; [by destruct Ht | exact Hsl].
Qed.

Lemma reached now repeats x s m lw pend f rem c y :
  start_ok s m pend f -> mirror_run_start now repeats x s = Ok (inr c) -> migrating (start_sys lw c f rem pend) y ->
  inv (size s) y /\ (loop_on y -> awake y).
Proof.
  intros Hs E Hm. induction Hm as [| y1 y2 _ [IH1 IH2] Hst].
  - split; [by apply (start_inv now repeats x s m) |]. intros _. by apply (start_awake now repeats x s).
  - split; [by apply (inv_step _ y1) | by apply (awake_step (size s) y1)].
Qed.

Lemma completed_copies sz y : inv sz y -> completed y ->
  forall i, 0 <= i < sz -> torn_at (torn y) i \/ byte_at (remote y) i = byte_at (file y) i.
Proof.
  intros (m1 & [[_ H] | (_ & H1 & H2)]) (m' & Hm' & Hd).
  - destruct H as [[act [[V1 _ _ _ _ V6 V7] _ _ _ _ _ _ _]] | (H1 & H2 & _)]; congruence.
  - apply H2. congruence.
Qed.

Lemma inv_migrating sz y y' : inv sz y -> migrating y y' -> inv sz y'.
Proof. intros Hi Hm. induction Hm as [| y1 y2 _ IH Hs]; [done | by apply (inv_step _ y1)]. Qed.

Lemma sample_start_calm : calm sample_start.
Proof.
  assert (H : allocation_map_built (serve (ctl sample_start)) || allocation_map_not_built (serve (ctl sample_start)) = true)
    by (vm_compute; reflexivity).
  assert (Hs : nbd_client (serve (ctl sample_start)) = nbd_client (sample_server false) /\
    heap (serve (ctl sample_start)) = heap (sample_server false) /\
    max_nbd_clients (serve (ctl sample_start)) = max_nbd_clients (sample_server false))
    by (split_and!; vm_compute; reflexivity).
  destruct Hs as (H1 & H2 & H3).
  constructor; [reflexivity | exact H | by vm_compute | by vm_compute | | |].
  - assert (E : match s_mirror (serve (ctl sample_start)) with
                | Some m => (max_bytes_per_second m, all_dirty m) | None => (0, 0) end = (UINT64_MAX, 0))
      by (vm_compute; reflexivity).
    intros m Hm. rewrite Hm in E. injection E as E1 E2. split; [done |]. rewrite E2. unfold UINT64_MAX. lia.
  - intros _. split.
    + destruct (sample_server_ok false). constructor; rewrite H1, ?H2, ?H3; done.
    + intros p c. rewrite H2. apply (sample_signals false 1). unfold PIPE_CAPACITY. lia.
  - split; [vm_compute; reflexivity | by vm_compute].
Qed.

(** * Properties *)

(** C9: a migration can always be completed: from every state the event loop reaches,
    whatever the clients and the connection did before, when no reply is under way,
    the clients have paused and can be stopped, the builder of the allocation map has
    finished, the event stream has room and there is no bandwidth limit, the callbacks lead to MS_DONE with a listener that stores what it is sent. Then the
    listener has the image as it was when the clients paused, but for bytes of writes
    that were cut off before. *)
Theorem migration_can_complete now repeats x s m lw pend f rem c y :
  start_ok s m pend f -> mirror_run_start now repeats x s = Ok (inr c) ->
  migrating (start_sys lw c f rem pend) y -> loop_on y -> reply y = None -> calm y ->
  exists y', migrating y y' /\ completed y' /\
    forall i, 0 <= i < size s -> torn_at (torn y) i \/ byte_at (remote y') i = byte_at (file y) i.
Proof.
  intros Hs E Hm Hl Hr Hc. destruct (reached now repeats x s m lw pend f rem c y Hs E Hm) as [Hi Ha].
  destruct (to_steady (size s) y Hi Hl (Ha Hl) Hr Hc) as (y1 & M1 & G1 & St1).
  destruct (steady_completes (size s) (S (Z.to_nat (work y1))) y1 St1) as (y2 & M2 & G2 & Hd); [lia |].
  pose proof (migrating_trans _ _ _ M1 M2) as M. exists y2. split; [done |]. split; [done |].
  rewrite G1 in G2. injection G2 as <- <-. apply completed_copies; [by apply (inv_migrating _ y) | done].
Qed.

Lemma migration_can_complete_witness :
  exists y', migrating sample_start y' /\ completed y' /\
    forall i, 0 <= i < 512 -> torn_at (torn sample_start) i \/ byte_at (remote y') i = byte_at (file sample_start) i.
Proof.
  apply (migration_can_complete 0 true sample_exit mirrored_server sample_mirror (fun _ _ => None) [] sample_file (replicate 512 0)
    sample_ctl sample_start).
  - exact sample_start_ok.
  - exact sample_ctl_eq.
  - apply mig_start.
  - vm_compute. reflexivity.
  - reflexivity.
  - exact sample_start_calm.
Defined.
