(* ===== verification/Writers.v ===== *)
(** * The clients of a migration

    Mirror.v follows the clients of a server only as far as a migration sees them: a
    write is a store into the file, followed by a mark in the allocation map, or by
    nothing when the write is cut off. This file shows that the threads of Client.v
    (src/src/server/client.c) are such clients: a request of any thread, on any input
    and with any outcome, acts on the file and on the map as a run of those events, and
    so does any interleaving of the requests of several threads. *)

From S2P Require Import Prelude Bitset NbdTypes IoUtil SockUtil ReadWrite Serve Mirror Client.

Open Scope Z_scope.

(** ** Threads on a shared file and map *)

(** The thread looks at the file and the map as they are now. *)
Definition share (f : list Z) (map : bitset) (c : client) : client :=
  c <| file := f |> <| serve := (serve c) <| allocation_map := map |> |>.

Record world := {
  w_clients : list client;
  w_file : list Z;
  w_map : bitset
}.

(** One round of the loop of [client_serve] in the [i]-th thread. A thread that ends,
    or waits for ever, makes no further round. *)
Definition turn (w : world) (i : nat) : world :=
  match w_clients w !! i with
  | None => w
  | Some c =>
      let '(r, c') := client_serve_request (share (w_file w) (w_map w) c) in
      {| w_clients := match r with Ok false => <[i := c']> (w_clients w) | _ => delete i (w_clients w) end;
         w_file := file c'; w_map := map_of c' |}
  end.

(** ** What a thread does to the file and the map *)

Record map_fits (sz : Z) (map : bitset) : Prop := {
  mf_ok : bitset_ok map;
  mf_res : resolution map = block_allocation_resolution;
  mf_size : bs_size map = sz;
  mf_bits : nbits (bits map) < 2 ^ 51
}.

Record fits (sz : Z) (c : client) : Prop := {
  ft_map : map_fits sz (map_of c);
  ft_mapped : mapped_size c = sz;
  ft_view : sv_size (serve c) = sz
}.

(** The events of one thread: it does not give up a write itself. *)
Definition write_ok (sz : Z) (ev : cevent) : Prop :=
  cevent_ok sz ev /\ match ev with CLost _ => False | _ => True end.

(** [c'] is [c] after some writes; [p] is stored and not marked. *)
Definition acts (sz : Z) (c c' : client) (p : list (Z * Z)) : Prop :=
  fits sz c' /\ allocation_map_built (serve c') = allocation_map_built (serve c) /\
  exists evs, Forall (write_ok sz) evs /\ clients_run evs [] (map_of c) = Ok (p, map_of c') /\
    file c' = foldl client_file (file c) evs.

Definition outcome_ok {A} (sz : Z) (c : client) (x : res A * client) : Prop :=
  match x.1 with
  | Ok _ => acts sz c x.2 []
  | Stop _ => exists p, (length p <= 1)%nat /\ acts sz c x.2 p
  end.

(** The program marks what it stores, unless it stops. *)
Definition marks {A} (m : M client A) : Prop := forall sz c, fits sz c -> outcome_ok sz c (m c).

(** The program leaves the file and the map alone. *)
Definition shared_part (c : client) :=
  (file c, map_of c, mapped_size c, sv_size (serve c), allocation_map_built (serve c)).

Definition hands_off {A} (m : M client A) : Prop := forall c, shared_part (m c).2 = shared_part c.

Create HintDb marks.

(** * Lemmas *)

Lemma clients_run_app e1 e2 p map :
  clients_run (e1 ++ e2) p map = '(p1, map1) ← clients_run e1 p map; clients_run e2 p1 map1.
Proof.
  revert p map. induction e1 as [| ev e1 IH]; intros p map; [done |]. cbn [app clients_run].
  destruct (client_map p map ev); cbn [mbind res_bind]; [apply IH | done].
Qed.

Lemma acts_refl sz c : fits sz c -> acts sz c c [].
Proof. intros H. split; [done |]. split; [done |]. by exists []. Qed.

Lemma acts_same sz c c' : fits sz c -> shared_part c' = shared_part c -> acts sz c c' [].
Proof.
  intros [H1 H2 H3] [= E1 E2 E3 E4 E5]. split; [constructor; congruence |]. split; [done |].
  exists []. cbn. by rewrite E1, E2.
Qed.

Lemma acts_trans sz c c1 c2 p : acts sz c c1 [] -> acts sz c1 c2 p -> acts sz c c2 p.
Proof.
  intros (_ & B1 & e1 & F1 & R1 & D1) (Hf & B2 & e2 & F2 & R2 & D2). split; [done |]. split; [congruence |].
  exists (e1 ++ e2). split_and!.
  - by apply Forall_app.
  - by rewrite clients_run_app, R1.
  - by rewrite foldl_app, D2, D1.
Qed.

Lemma outcome_stop {A} sz c c' e p : (length p <= 1)%nat -> acts sz c c' p -> outcome_ok (A := A) sz c (Stop e, c').
Proof. intros H1 H2. exists p. done. Qed.

Lemma outcome_trans {A} sz c c1 (x : res A * client) :
  acts sz c c1 [] -> outcome_ok sz c1 x -> outcome_ok sz c x.
Proof.
  intros H1 H2. destruct x as [[a | e] c2]; [by apply (acts_trans _ _ c1) |].
  destruct H2 as (p & Hp & H2). exists p. split; [done |]. by apply (acts_trans _ _ c1).
Qed.

Lemma outcome_bind {A B} sz c (m : M client A) (k : A -> M client B) :
  outcome_ok sz c (m c) ->
  (forall a c1, m c = (Ok a, c1) -> acts sz c c1 [] -> outcome_ok sz c1 (k a c1)) ->
  outcome_ok sz c ((m ≫= k) c).
Proof.
  intros Hm Hk. destruct (m c) as [[a | e] c1] eqn:E; rewrite (bindM_eq _ _ _ _ _ E).
  - apply (outcome_trans _ _ c1); [done |]. by apply Hk.
  - exact Hm.
Qed.

Lemma marks_bind {A B} (m : M client A) (k : A -> M client B) :
  marks m -> (forall a, marks (k a)) -> marks (m ≫= k).
Proof.
  intros Hm Hk sz c Hf. apply outcome_bind; [by apply Hm |]. intros a c1 _ Ha. apply Hk, Ha.
Qed.

Lemma marks_hands_off {A} (m : M client A) : hands_off m -> marks m.
Proof.
  intros H sz c Hf. specialize (H c). pose proof (acts_same _ _ _ Hf H) as Ha.
  unfold outcome_ok. destruct (m c) as [[a | e] c']; [exact Ha |]. exists []. split; [cbn; lia | exact Ha].
Qed.

Lemma marks_if {A} (b : bool) (m n : M client A) : marks m -> marks n -> marks (if b then m else n).
Proof. by destruct b. Qed.

(** ** Programs that leave the file and the map alone *)

Lemma off_ret {A} (a : A) : hands_off (mret a).
Proof. done. Qed.

Lemma off_stop {A} e : hands_off (stopM e : M client A).
Proof. done. Qed.

Lemma off_gets {A} (f : client -> A) : hands_off (gets f).
Proof. done. Qed.

Lemma off_liftR {A} (r : res A) : hands_off (liftR r).
Proof. done. Qed.

Lemma off_on_sock {A} (m : M conn A) : hands_off (on_sock m).
Proof. intros c. unfold on_sock. by destruct (m (sock c)). Qed.

Lemma off_bind {A B} (m : M client A) (k : A -> M client B) :
  hands_off m -> (forall a, hands_off (k a)) -> hands_off (m ≫= k).
Proof.
  intros Hm Hk c. specialize (Hm c). unfold mbind, M_bind. destruct (m c) as [[a | e] c']; [| done].
  by rewrite Hk.
Qed.

Lemma off_if {A} (b : bool) (m n : M client A) : hands_off m -> hands_off n -> hands_off (if b then m else n).
Proof. by destruct b. Qed.

#[export] Hint Resolve off_ret off_stop off_gets off_liftR off_on_sock off_bind off_if marks_if marks_bind : marks.
#[export] Hint Resolve marks_hands_off | 10 : marks.

(** Decomposes a program; what it gives back is up to the lemmas of the base. *)
Ltac off_steps :=
  repeat first
    [ progress intros
    | match goal with
      | |- hands_off (match ?x with _ => _ end) => destruct x
      | |- hands_off (let '(_, _) := ?x in _) => destruct x
      end
    | apply off_bind
    | solve [eauto 3 with marks] ].

Lemma off_set_disconnect b : hands_off (set_disconnect b).
Proof. done. Qed.

Lemma off_set_cork b : hands_off (set_cork b).
Proof. done. Qed.

Lemma off_arm : hands_off client_arm_killswitch.
Proof. intros c. unfold client_arm_killswitch, modify. cbn. by destruct (use_killswitch (serve c)). Qed.

Lemma off_disarm : hands_off client_disarm_killswitch.
Proof. intros c. unfold client_disarm_killswitch, modify. cbn. by destruct (use_killswitch (serve c)). Qed.

Lemma off_flush len : hands_off (client_flush len).
Proof. intros c. unfold client_flush. by destruct (flush_loop (sk_rx (sock c)) len). Qed.

Lemma off_send_file from len : hands_off (send_file from len).
Proof.
  intros c. unfold send_file. destruct (_ && _); [done |]. cbn zeta. by destruct (so_result _) as [[] |].
Qed.

Lemma off_msync off len st : hands_off (do_msync off len st).
Proof. intros c. unfold do_msync. cbn zeta. by destruct (_ <? 0). Qed.

#[export] Hint Resolve off_set_disconnect off_set_cork off_arm off_disarm off_flush off_send_file off_msync : marks.

Lemma off_write_reply q e : hands_off (client_write_reply q e).
Proof. apply off_on_sock. Qed.

#[export] Hint Resolve off_write_reply : marks.

Lemma off_read_request : hands_off client_read_request.
Proof. unfold client_read_request. off_steps. Qed.

Lemma off_needs_reply q : hands_off (client_request_needs_reply q).
Proof. unfold client_request_needs_reply. off_steps. Qed.

Lemma off_reply_to_read q : hands_off (client_reply_to_read q).
Proof. unfold client_reply_to_read. off_steps. Qed.

Lemma off_reply_to_flush q : hands_off (client_reply_to_flush q).
Proof. unfold client_reply_to_flush. off_steps. Qed.

#[export] Hint Resolve off_read_request off_needs_reply off_reply_to_read off_reply_to_flush : marks.

(** ** Stores and marks *)

Lemma set_range_bits map from len map' :
  bitset_ok map -> 0 <= from -> 0 < len -> from + len <= bs_size map ->
  bitset_set_range map from len = Ok map' -> nbits (bits map') = nbits (bits map).
Proof.
  intros Hok Hf Hl Hn H. destruct (first_last_spec map Hok from len Hf Hl Hn) as (E & H1 & H2 & H3 & _).
  unfold bitset_set_range in H. rewrite E in H.
  destruct (bit_set_range_spec (bits map) _ _ (bo_words _ Hok) H1 (Z.lt_le_incl _ _ H2) H3) as (b & Eb & F).
  rewrite Eb in H. cbn [mbind res_bind] in H. destruct (stream_enabled map).
  - unfold bitset_stream_enqueue in H. apply bind_Ok in H as (s & _ & [= <-]). exact (fills_nbits _ _ _ _ _ F).
  - injection H as <-. exact (fills_nbits _ _ _ _ _ F).
Qed.

Lemma map_fits_mark sz map from len map' :
  map_fits sz map -> range_ok sz (from, len) -> bitset_set_range map from len = Ok map' -> map_fits sz map'.
Proof.
  intros [H1 H2 H3 H4] (R1 & R2 & R3) E. cbn [fst snd] in *.
  destruct (bitset_set_range_spec map H1 from len) as (m & E' & K1 & K2 & K3 & _);
    [lia | lia | lia | by apply (set_range_room map from len map') |].
  pose proof (set_range_bits map from len map' H1 ltac:(lia) ltac:(lia) ltac:(lia) E) as Hb.
  rewrite E in E'. injection E' as <-. constructor; congruence || (rewrite Hb; done).
Qed.

(** A store goes through as a whole or not at all. *)
Lemma store_acts sz c from bs :
  fits sz c -> 0 < zlen bs < 2 ^ 32 ->
  (exists c1, store_mapped from bs c = (Ok tt, c1) /\ range_ok sz (from, zlen bs) /\
     acts sz c c1 [(from, zlen bs)]) \/
  (exists e, store_mapped from bs c = (Stop e, c)).
Proof.
  intros [H1 H2 H3] Hl. unfold store_mapped. destruct (in_range _ _ _) eqn:Er; [| by right; eexists].
  apply in_range_true in Er. destruct (mem_store (file c) from bs) as [f |] eqn:Em; [| by right; eexists].
  left. eexists. split; [reflexivity |].
  assert (Hr : range_ok sz (from, zlen bs)) by (unfold range_ok; cbn; lia).
  split; [done |]. split; [by constructor |]. split; [done |]. exists [CStore from bs].
  split_and!; [by constructor | done |]. cbn. by rewrite Em.
Qed.

(** The mark after a store. *)
Lemma mark_outcome sz c c1 from len :
  acts sz c c1 [(from, len)] -> range_ok sz (from, len) -> outcome_ok sz c (map_set_range from len c1).
Proof.
  intros Ha Hr. unfold map_set_range. destruct (bitset_set_range (map_of c1) from len) as [m |] eqn:E.
  2:{ apply (outcome_stop _ _ _ _ [(from, len)]); [cbn; lia | done]. }
  destruct Ha as ([F1 F2 F3] & B & evs & Hw & Hrun & Hd). split; [| split; [done |]].
  { constructor; [by apply (map_fits_mark _ (map_of c1) from len) | done | done]. }
  exists (evs ++ [CMark 0]). cbn. split_and!.
  - apply Forall_app. split; [done |]. by constructor.
  - rewrite clients_run_app, Hrun. cbn. rewrite E. done.
  - by rewrite foldl_app.
Qed.

Lemma outcome_sock {A} sz c s (x : res A * client) :
  outcome_ok sz (c <| sock := s |>) x -> fits sz c -> outcome_ok sz c x.
Proof. intros H Hf. refine (outcome_trans _ _ _ _ _ H). by apply acts_same. Qed.

Lemma fits_sock sz c s : fits sz c -> fits sz (c <| sock := s |>).
Proof. by intros []. Qed.

(** [DO_READ] into the mapping, then the mark of what was read. *)
Lemma read_and_mark sz c from run :
  fits sz c -> 0 < run < 2 ^ 32 -> outcome_ok sz c ((_ ← read_to_mapped from run; map_set_range from run) c).
Proof.
  intros Hf Hr. unfold read_to_mapped.
  unfold mbind at 1, M_bind at 1. rewrite (bindM_eq _ _ _ _ _ (on_sock_readloop run c)). cbn zeta beta iota.
  pose proof (readloop_bytes_le (sk_rx (sock c)) (sk_errno (sock c)) run ltac:(lia)) as Hle.
  pose proof (readloop_done_zlen (sk_rx (sock c)) (sk_errno (sock c)) run ltac:(lia)) as Hd.
  set (o := readloop _ _ _) in *. set (c0 := c <| sock := sock_read (sock c) run |>).
  apply (outcome_sock _ _ (sock_read (sock c) run)); [fold c0 | done].
  assert (Hf0 : fits sz c0) by (by apply fits_sock).
  destruct (decide (zlen (ro_bytes o) = 0)) as [Hz | Hz].
  - apply zlen_nil_inv in Hz. rewrite Hz in *.
    assert (Hs : exists x, store_mapped from [] c0 = (Ok tt, x) /\ shared_part x = shared_part c0).
    { eexists. split; reflexivity. }
    destruct Hs as (x & Es & Hx). rewrite (bindM_eq _ _ _ _ _ Es).
    pose proof (acts_same _ _ _ Hf0 Hx). destruct (ro_res o) eqn:Eo.
    + specialize (Hd eq_refl). change (0 = run) in Hd. lia.
    + apply (outcome_stop _ _ _ _ []); [cbn; lia | done].
    + apply (outcome_stop _ _ _ _ []); [cbn; lia | done].
  - pose proof (zlen_nonneg (ro_bytes o)).
    destruct (store_acts sz c0 from (ro_bytes o) Hf0) as [(c1 & Es & Hrg & Ha) | (e & Es)]; [lia | |];
      rewrite (bindM_eq _ _ _ _ _ Es).
    2:{ apply (outcome_stop _ _ _ _ []); [cbn; lia | by apply acts_refl]. }
    destruct (ro_res o) eqn:Eo.
    + rewrite Hd in * by done. by apply mark_outcome.
    + apply (outcome_stop _ _ _ _ [(from, zlen (ro_bytes o))]); [cbn; lia | done].
    + apply (outcome_stop _ _ _ _ [(from, zlen (ro_bytes o))]); [cbn; lia | done].
Qed.

Lemma zero_block_outcome sz c from br :
  fits sz c -> 0 < br < 2 ^ 32 -> outcome_ok sz c (zero_block from br c).
Proof.
  intros Hf Hr. unfold zero_block. rewrite (bindM_eq _ _ _ _ _ (on_sock_read_all br SError c)). cbn zeta.
  pose proof (readloop_done_zlen (sk_rx (sock c)) (sk_errno (sock c)) br ltac:(lia)) as Hd.
  apply (outcome_sock _ _ (sock_read (sock c) br)); [| done]. apply (fits_sock _ _ (sock_read (sock c) br)) in Hf.
  set (o := readloop _ _ _) in *. set (c0 := c <| sock := _ |>) in *. clearbody o c0.
  destruct (ro_res o); [| by apply (outcome_stop _ _ _ _ []); [cbn; lia | apply acts_refl] ..].
  specialize (Hd eq_refl). destruct (negb _); [| by apply acts_refl].
  rewrite take_ge by (unfold zlen in Hd; lia). rewrite <- Hd in Hr |- *.
  destruct (store_acts _ _ from (ro_bytes o) Hf) as [(c1 & Es & Hrg & Ha) | (e & Es)]; [lia | |];
    rewrite (bindM_eq _ _ _ _ _ Es).
  - by apply mark_outcome.
  - apply (outcome_stop _ _ _ _ []); [cbn; lia | by apply acts_refl].
Qed.

Lemma zero_loop_outcome fuel : forall sz c from run,
  fits sz c -> 0 <= from -> run < 2 ^ 32 -> outcome_ok sz c (zero_loop fuel from run c).
Proof.
  induction fuel as [| fuel IH]; intros sz c from run Hf Hfr Hr; cbn [zero_loop].
  { apply (outcome_stop _ _ _ _ []); [cbn; lia | by apply acts_refl]. }
  destruct (0 <? run) eqn:E; [| by apply acts_refl].
  destruct (blockrun_at_spec from run Hfr ltac:(lia)) as (Hb & _).
  apply outcome_bind; [apply zero_block_outcome; [done | lia] |].
  intros _ c1 _ Ha. apply IH; [apply Ha | apply u64_range | lia].
Qed.

(** A range that lies behind the map is not looked at. *)
Lemma behind_the_map sz map from :
  map_fits sz map -> 2 ^ 64 - 2 ^ 32 <= from -> bitset_is_set_at map from = Stop SFault.
Proof.
  intros [H1 H2 H3 H4] Hf. unfold bitset_is_set_at, bit_is_set, bit_get, BIT_WORD. rewrite H2.
  unfold block_allocation_resolution.
  assert (Hq : 2 ^ 52 - 2 ^ 20 <= from / 4096) by (apply Z.div_le_lower_bound; lia).
  replace (0 <=? from / 4096) with true by lia.
  assert (Hn : (length (bits map) <= Z.to_nat (from / 4096 / BITS_PER_WORD))%nat).
  { rewrite nbits_eq in H4. unfold zlen in H4. change BITS_PER_WORD with 64.
    assert (2 ^ 46 - 2 ^ 14 <= from / 4096 / 64) by (apply Z.div_le_lower_bound; lia). lia. }
  by rewrite (proj2 (lookup_ge_None _ _) Hn).
Qed.

(** The sparse write path on a range inside the export, or one that wraps around. *)
Lemma write_loop_outcome fuel : forall sz c from len,
  fits sz c -> 0 <= from -> len < 2 ^ 32 -> from + len <= sz \/ 2 ^ 64 - 2 ^ 32 <= from ->
  outcome_ok sz c (write_loop fuel from len c).
Proof.
  induction fuel as [| fuel IH]; intros sz c from len Hf Hfr Hl Hn; cbn [write_loop].
  { apply (outcome_stop _ _ _ _ []); [cbn; lia | by apply acts_refl]. }
  destruct (0 <? len) eqn:E; [| by apply acts_refl]. rewrite bind_gets.
  pose proof (ft_map _ _ Hf) as Hmap. pose proof (mf_size _ _ Hmap) as Hsz.
  apply outcome_bind; [by apply marks_hands_off; [apply off_liftR |] |]. intros run0 c1 [= Hrun <-] _. cbn zeta. rewrite run_clip.
  apply outcome_bind; [by apply marks_hands_off; [apply off_liftR |] |]. intros is_set c1 [= Hset <-] _.
  destruct Hn as [Hn | Hn].
  2:{ rewrite (behind_the_map _ _ _ Hmap Hn) in Hset. done. }
  destruct (bitset_run_count_spec (map_of c) (mf_ok _ _ Hmap) from len) as (run & Er & Hr1 & _); [lia | lia | lia |].
  rewrite Er in Hrun. injection Hrun as <-.
  pose proof (bo_size _ (mf_ok _ _ Hmap)). pose proof (bo_res _ (mf_ok _ _ Hmap)).
  rewrite (u64_id (from + _)) by lia.
  apply outcome_bind.
  - destruct is_set; [apply read_and_mark; [done | lia] | apply zero_loop_outcome; [done | lia | lia]].
  - intros _ c1 _ Ha. apply IH; [apply Ha | lia | lia | lia].
Qed.

(** ** Requests *)

Lemma msync_and_reply off len st q : marks (_ ← do_msync off len st; _ ← client_write_reply q 0; mret tt).
Proof. apply marks_hands_off. off_steps. Qed.

(** While the map is not built, a write of no bytes marks a range that was not stored. *)
Lemma reply_to_write_outcome sz c q :
  fits sz c -> allocation_map_built (serve c) = true \/ 0 < q_len q ->
  0 <= q_from q -> 0 <= q_len q < 2 ^ 32 -> q_from q + q_len q <= sz \/ 2 ^ 64 - 2 ^ 32 <= q_from q ->
  outcome_ok sz c (client_reply_to_write q c).
Proof.
  intros Hf Hb Hfr Hl Hn. unfold client_reply_to_write. rewrite bind_gets. cbn zeta. apply outcome_bind.
  - destruct (allocation_map_built (serve c)).
    + apply write_loop_outcome; [done | done | lia | done].
    + apply read_and_mark; [done |]. destruct Hb; [done | lia].
  - intros _ c1 _ Ha. apply msync_and_reply, Ha.
Qed.

(** The range check lets a request pass when its end, in 64 bits, is inside. *)
Lemma needs_reply_range q c c' :
  client_request_needs_reply q c = (Ok true, c') -> q_from q +64 q_len q <= sv_size (serve c).
Proof.
  unfold client_request_needs_reply. destruct (negb _).
  { unfold mbind, M_bind. by destruct (client_write_reply q EBADMSG c) as [[] ?]. }
  rewrite bind_gets. destruct (_ <? _) eqn:E; [| intros _; lia].
  set (m := if q_type q =? REQUEST_WRITE then _ else _).
  unfold mbind, M_bind. destruct (m c) as [[] c1]; [| done].
  by destruct (client_write_reply q ENOSPC c1) as [[] ?].
Qed.

Lemma request_range sz q :
  0 <= sz -> 0 <= q_from q < 2 ^ 64 -> 0 <= q_len q < 2 ^ 32 -> q_from q +64 q_len q <= sz ->
  q_from q + q_len q <= sz \/ 2 ^ 64 - 2 ^ 32 <= q_from q.
Proof.
  intros Hs Hf Hl H. destruct (decide (q_from q + q_len q < 2 ^ 64)); [| lia].
  rewrite u64_id in H by lia. by left.
Qed.

Lemma read_request_fields c q c' :
  client_read_request c = (Ok (Some q), c') -> 0 <= q_from q < 2 ^ 64 /\ 0 <= q_len q < 2 ^ 32.
Proof.
  unfold client_read_request, fd_read_request. rewrite (bindM_eq _ _ _ _ _ (on_sock_readloop _ c)). cbn zeta beta iota.
  destruct (ro_res _).
  - intros [= <- _]. split; apply bswap_bits.
  - unfold mbind, M_bind, gets. by destruct (_ || _).
  - done.
Qed.

Lemma reply_outcome sz c q :
  fits sz c -> allocation_map_built (serve c) = true \/ 0 < q_len q ->
  0 <= q_from q -> 0 <= q_len q < 2 ^ 32 -> q_from q + q_len q <= sz \/ 2 ^ 64 - 2 ^ 32 <= q_from q ->
  outcome_ok sz c (client_reply q c).
Proof.
  intros Hf Hb Hfr Hl Hn. unfold client_reply. destruct (_ =? REQUEST_READ).
  { by apply marks_hands_off; [apply off_reply_to_read |]. }
  destruct (_ =? REQUEST_WRITE); [by apply reply_to_write_outcome |].
  apply marks_hands_off; [| done]. off_steps.
Qed.

Lemma off_outcome {A} (m : M client A) sz c : fits sz c -> hands_off m -> outcome_ok sz c (m c).
Proof. intros Hf Hm. by apply marks_hands_off. Qed.

Lemma serve_request_outcome sz c :
  fits sz c -> allocation_map_built (serve c) = true -> outcome_ok sz c (client_serve_request c).
Proof.
  intros Hf Hb. unfold client_serve_request.
  apply outcome_bind; [by apply off_outcome; [| apply off_on_sock] |]. intros sel c1 _ H1.
  destruct (_ =? 0); [by apply off_outcome; [apply H1 | apply off_stop] |].
  destruct (_ <? 0); [by apply off_outcome; [apply H1 | apply off_stop] |]. rewrite bind_gets.
  destruct (FD_ISSET _ _); [apply acts_refl, H1 |]. destruct (FD_ISSET _ _); [apply acts_refl, H1 |].
  apply outcome_bind; [apply off_outcome; [apply H1 | apply off_arm] |]. intros _ c2 _ H2.
  apply outcome_bind; [apply off_outcome; [apply H2 | apply off_read_request] |]. intros [q |] c3 E3 H3.
  2:{ apply off_outcome; [apply H3 |]. off_steps; apply off_disarm. }
  apply read_request_fields in E3 as [Hqf Hql].
  apply outcome_bind; [apply off_outcome; [apply H3 | apply off_needs_reply] |]. intros [] c4 E4 H4; cbn [negb].
  2:{ apply off_outcome; [apply H4 |]. off_steps; apply off_disarm. }
  apply needs_reply_range in E4. rewrite (ft_view _ _ (proj1 H3)) in E4.
  pose proof (mf_ok _ _ (ft_map _ _ Hf)) as Hok. pose proof (bo_size _ Hok). rewrite (mf_size _ _ (ft_map _ _ Hf)) in *.
  pose proof (request_range sz q ltac:(lia) Hqf Hql E4) as Hrg.
  rewrite bind_gets. apply outcome_bind.
  - destruct (server_fd_closed (serve c4)); [apply acts_refl, H4 |].
    apply outcome_bind; [| intros _ c5 _ H5; apply acts_refl, H5].
    apply reply_outcome; [apply H4 | left | lia | lia | done].
    destruct H1 as (_ & B1 & _), H2 as (_ & B2 & _), H3 as (_ & B3 & _), H4 as (_ & B4 & _). congruence.
  - intros st c5 _ H5. apply off_outcome; [apply H5 |]. off_steps; apply off_disarm.
Qed.

(** ** The migration's view *)

Definition sys_map (y : sys) : bitset := Serve.allocation_map (Mirror.serve (ctl y)).

(** [y'] is [y] with the file, the map and the clients' ranges changed. *)
Definition clients_only (y y' : sys) : Prop :=
  ctl y' = set_map (ctl y) (sys_map y') /\ remote y' = remote y /\ wire y' = wire y /\ reply y' = reply y.

Lemma set_map_id c : set_map c (Serve.allocation_map (Mirror.serve c)) = c.
Proof. destruct c as [[]]. done. Qed.

Lemma clients_only_refl y : clients_only y y.
Proof. split_and!; [by rewrite set_map_id | done ..]. Qed.

Lemma clients_only_trans y y1 y2 : clients_only y y1 -> clients_only y1 y2 -> clients_only y y2.
Proof. intros (A1 & A2 & A3 & A4) (B1 & B2 & B3 & B4). split_and!; [by rewrite B1, A1 | congruence ..]. Qed.

Lemma clients_only_view y y' : clients_only y y' ->
  clients_closed (ctl y') = clients_closed (ctl y) /\ size (Mirror.serve (ctl y')) = size (Mirror.serve (ctl y)).
Proof. intros (E & _). by rewrite E. Qed.

(** The events of one thread, while others have [p0] stored and not marked. *)
Lemma events_migrate sz p0 evs : forall y p p' map',
  clients_closed (ctl y) = false -> size (Mirror.serve (ctl y)) = sz -> Forall (write_ok sz) evs ->
  pending y = p ++ p0 -> clients_run evs p (sys_map y) = Ok (p', map') ->
  exists y', migrating y y' /\ clients_only y y' /\ sys_map y' = map' /\
    Mirror.file y' = foldl client_file (Mirror.file y) evs /\ pending y' = p' ++ p0 /\ torn y' = torn y.
Proof.
  induction evs as [| ev evs IH]; intros y p p' map' Hc Hsz Hw Hp H; cbn [clients_run foldl] in *.
  { injection H as <- <-. exists y. split_and!; [constructor | apply clients_only_refl | done ..]. }
  apply Forall_cons_1 in Hw as [[Hev Hne] Hw]. apply bind_Ok in H as (map1 & H1 & H).
  assert (Hd : client_map (pending y) (sys_map y) ev = Ok map1 /\ client_pend (pending y) ev = client_pend p ev ++ p0 /\
    client_torn (pending y) ev = []).
  { rewrite Hp. destruct ev as [from bs | k | k]; [done | | done]. cbn [client_map client_pend client_torn] in *.
    destruct (p !! k) as [r |] eqn:Ek; [| done]. rewrite (lookup_app_l_Some _ _ _ _ Ek).
    by rewrite delete_app_left by (by eapply lookup_lt_Some). }
  destruct Hd as (Hd1 & Hd2 & Hd3).
  pose proof (sy_client y ev map1 Hc ltac:(by rewrite Hsz) Hd1) as Hs.
  match type of Hs with sys_step _ ?z => set (y1 := z) in Hs end.
  destruct (IH y1 (client_pend p ev) p' map') as (y' & M & C & E1 & E2 & E3 & E4); [done | done | done | exact Hd2 | exact H |].
  exists y'. split_and!; [| | done | done | done |].
  - apply (migrating_trans _ y1); [by apply migrating_one | done].
  - apply (clients_only_trans _ y1); [by split_and! | done].
  - rewrite E4. cbn. by rewrite Hd3.
Qed.

(** What is left of a thread that ended is lost. *)
Lemma lost_migrates y p p0 :
  (length p <= 1)%nat -> clients_closed (ctl y) = false -> pending y = p ++ p0 ->
  exists y', migrating y y' /\ clients_only y y' /\ sys_map y' = sys_map y /\ Mirror.file y' = Mirror.file y /\
    pending y' = p0 /\ torn y' = p ++ torn y.
Proof.
  intros Hl Hc Hp. destruct p as [| r [| r' p]]; [| | cbn in Hl; lia].
  { exists y. split_and!; [constructor | apply clients_only_refl | done ..]. }
  assert (Hm : client_map (pending y) (sys_map y) (CLost 0) = Ok (sys_map y)) by (by rewrite Hp).
  pose proof (sy_client y (CLost 0) _ Hc I Hm) as Hs.
  eexists. split; [by apply migrating_one |]. split; [by split_and! |].
  split_and!; [done | done | by cbn; rewrite Hp | by cbn; rewrite Hp].
Qed.

(** ** Turns *)

Record client_of (sz : Z) (c : client) : Prop := {
  co_mapped : mapped_size c = sz;
  co_view : sv_size (serve c) = sz;
  co_built : allocation_map_built (serve c) = true
}.

(** The threads work on the file and the map of the migration. *)
Record follows (w : world) (y : sys) : Prop := {
  fo_file : w_file w = Mirror.file y;
  fo_map : w_map w = sys_map y;
  fo_open : clients_closed (ctl y) = false;
  fo_fits : map_fits (size (Mirror.serve (ctl y))) (w_map w);
  fo_clients : Forall (client_of (size (Mirror.serve (ctl y)))) (w_clients w)
}.

(** The turns of [w'] are steps of the clients in [y']: what a migration holds for
    lost or unfinished only grows, by at most one range for each thread that ended. *)
Definition turns_migrate (w w' : world) (y y' : sys) : Prop :=
  migrating y y' /\ clients_only y y' /\ follows w' y' /\
  pending y `suffix_of` pending y' /\ torn y `suffix_of` torn y' /\
  (length (pending y') + length (torn y') + length (w_clients w') <=
   length (pending y) + length (torn y) + length (w_clients w))%nat.

Lemma turns_refl w y : follows w y -> turns_migrate w w y y.
Proof. intros H. split_and!; [constructor | apply clients_only_refl | done ..]. Qed.

Lemma turns_trans w w1 w2 y y1 y2 : turns_migrate w w1 y y1 -> turns_migrate w1 w2 y1 y2 -> turns_migrate w w2 y y2.
Proof.
  intros (A1 & A2 & A3 & A4 & A5 & A6) (B1 & B2 & B3 & B4 & B5 & B6). split_and!; [| | done | | | lia].
  - by apply (migrating_trans _ y1).
  - by apply (clients_only_trans _ y1).
  - by trans (pending y1).
  - by trans (torn y1).
Qed.

(** A thread that stops leaves at most one range behind: for ever waiting, or lost. *)
Lemma stopped_migrates y (e : stop) p p0 :
  (length p <= 1)%nat -> clients_closed (ctl y) = false -> pending y = p ++ p0 ->
  exists y', migrating y y' /\ clients_only y y' /\ sys_map y' = sys_map y /\ Mirror.file y' = Mirror.file y /\
    p0 `suffix_of` pending y' /\ torn y `suffix_of` torn y' /\
    (length (pending y') + length (torn y') = length (pending y) + length (torn y))%nat.
Proof.
  intros Hl Hc Hp. destruct (decide (e = SBlock)) as [-> | He].
  - exists y. split_and!; [constructor | apply clients_only_refl | done | done | by exists p | done | done].
  - destruct (lost_migrates y p p0 Hl Hc Hp) as (y' & K1 & K2 & K3 & K4 & K5 & K6). exists y'.
    split_and!; [done .. | by rewrite K5 | by exists p | rewrite K5, K6, Hp, !length_app; lia].
Qed.

Lemma share_fits w y c :
  follows w y -> client_of (size (Mirror.serve (ctl y))) c -> fits (size (Mirror.serve (ctl y))) (share (w_file w) (w_map w) c).
Proof. intros [H1 H2 H3 H4 H5] [K1 K2 K3]. by constructor. Qed.

Lemma fits_client_of sz c c' p :
  acts sz c c' p -> allocation_map_built (serve c) = true -> client_of sz c'.
Proof. intros ([H1 H2 H3] & Hb & _) Hc. constructor; [done | done | congruence]. Qed.

(** A thread's writes, up to the range it leaves behind. *)
Lemma acts_migrate w y c c' p :
  follows w y -> acts (size (Mirror.serve (ctl y))) (share (w_file w) (w_map w) c) c' p ->
  exists y', migrating y y' /\ clients_only y y' /\ sys_map y' = map_of c' /\ Mirror.file y' = file c' /\
    pending y' = p ++ pending y /\ torn y' = torn y.
Proof.
  intros [H1 H2 H3 H4 H5] (_ & _ & evs & Hw & Hrun & Hd). cbn in Hrun, Hd. rewrite H1 in Hd. rewrite H2 in Hrun.
  destruct (events_migrate _ (pending y) evs y [] p (map_of c') H3 eq_refl Hw eq_refl Hrun) as (y' & K1 & K2 & K3 & K4 & K5 & K6).
  exists y'. split_and!; [done .. | congruence | done | done].
Qed.

Lemma follows_next y y' w' c' :
  clients_only y y' -> clients_closed (ctl y) = false -> sys_map y' = map_of c' -> Mirror.file y' = file c' ->
  fits (size (Mirror.serve (ctl y))) c' -> w_file w' = file c' -> w_map w' = map_of c' ->
  Forall (client_of (size (Mirror.serve (ctl y)))) (w_clients w') -> follows w' y'.
Proof.
  intros Hc Ho Hm Hf [F1 F2 F3] W1 W2 Hcl. destruct (clients_only_view _ _ Hc) as [V1 V2].
  constructor; rewrite ?V1, ?V2, ?W1, ?W2; done.
Qed.

Lemma turn_migrates w y i : follows w y -> exists y', turns_migrate w (turn w i) y y'.
Proof.
  intros Hfo. unfold turn. destruct (w_clients w !! i) as [c |] eqn:Ei; [| exists y; by apply turns_refl].
  pose proof (proj1 (Forall_lookup _ _) (fo_clients _ _ Hfo) _ _ Ei) as Hco.
  pose proof (serve_request_outcome _ _ (share_fits _ _ _ Hfo Hco) (co_built _ _ Hco)) as Ho.
  destruct (client_serve_request _) as [r c']. pose proof (fo_open _ _ Hfo) as Hop. pose proof (fo_clients _ _ Hfo) as Hcl.
  pose proof (lookup_lt_Some _ _ _ Ei) as Hlt.
  assert (Hdel : forall A (l : list A), (i < length l)%nat -> (length (delete i l) + 1 = length l)%nat).
  { intros A l Hl. apply lookup_lt_is_Some in Hl as [x Hx]. rewrite (length_delete l i) by done.
    apply lookup_lt_Some in Hx. lia. }
  specialize (Hdel _ _ Hlt). destruct r as [st | e].
  - destruct (acts_migrate _ _ _ _ _ Hfo Ho) as (y' & K1 & K2 & K3 & K4 & K5 & K6). exists y'.
    assert (Hnew : client_of (size (Mirror.serve (ctl y))) c') by (by apply (fits_client_of _ _ _ _ Ho); apply Hco).
    split_and!; [done | done | | by rewrite K5 | by rewrite K6 |].
    + apply (follows_next y y' _ c'); try done; [apply Ho |]. cbn.
      destruct st; [by apply Forall_delete | by apply Forall_insert].
    + cbn. rewrite K5, K6. destruct st; [cbn; lia | rewrite length_insert; cbn; lia].
  - destruct Ho as (p & Hp & Ho). destruct (acts_migrate _ _ _ _ _ Hfo Ho) as (y1 & K1 & K2 & K3 & K4 & K5 & K6).
    destruct (clients_only_view _ _ K2) as [V1 V2].
    destruct (stopped_migrates y1 e p (pending y) Hp ltac:(congruence) K5) as (y' & L1 & L2 & L3 & L4 & L5 & L6 & L7).
    exists y'. pose proof (clients_only_trans _ _ _ K2 L2) as Hc. split_and!; [by apply (migrating_trans _ y1) | done | | done | by rewrite <- K6 |].
    + apply (follows_next y y' _ c'); try done; [by rewrite L3 | by rewrite L4 | apply Ho | by apply Forall_delete].
    + cbn. rewrite L7, K5, K6, length_app. lia.
Qed.

Lemma schedule_migrates schedule : forall w y, follows w y -> exists y', turns_migrate w (foldl turn w schedule) y y'.
Proof.
  induction schedule as [| i schedule IH]; intros w y Hfo; cbn [foldl].
  { exists y. by apply turns_refl. }
  destruct (turn_migrates w y i Hfo) as (y1 & H1). pose proof H1 as (_ & _ & Hfo1 & _).
  destruct (IH _ _ Hfo1) as (y' & H2). exists y'. by apply (turns_trans _ (turn w i) _ _ y1).
Qed.

(** * Properties *)

(** C2: the client threads are the clients that a migration reckons with. While the
    mirror runs and the clients are not closed, let any threads serve requests in any
    order, whatever their peers send and however each request ends: the file and the
    allocation map become what steps of the migration's clients make of them, and the
    rest of the migration is as it was. Each write is marked after it is stored, but
    for at most one range for each thread that ended: that range is lost, or waits
    with its thread. The map is built, the export has one size for all. *)
Theorem threads_are_migration_clients schedule w y :
  follows w y ->
  let w' := foldl turn w schedule in
  exists y', migrating y y' /\ Mirror.file y' = w_file w' /\ ctl y' = set_map (ctl y) (w_map w') /\
    remote y' = remote y /\ wire y' = wire y /\ reply y' = reply y /\
    pending y `suffix_of` pending y' /\ torn y `suffix_of` torn y' /\
    (length (pending y') + length (torn y') <=
     length (pending y) + length (torn y) + (length (w_clients w) - length (w_clients w')))%nat.
Proof.
  intros Hfo w'. destruct (schedule_migrates schedule w y Hfo) as (y' & M & (C1 & C2 & C3 & C4) & F & P & T & L).
  fold w' in F, L. exists y'. rewrite (fo_file _ _ F), (fo_map _ _ F). split_and!; try done. lia.
Qed.

(** Two clients of the image of 512 bytes: one writes three bytes, the other goes away
    in the middle of its write. *)
Definition write_request (from len : Z) : list Z :=
  request_bytes {| q_magic := REQUEST_MAGIC; q_flags := 0; q_type := REQUEST_WRITE; q_handle := 7;
                   q_from := from; q_len := len |}.

Definition writer (rx : list rd_event) : client :=
  (example_client true rx) <| mapped_size := 512 |>
    <| serve := (example_serve true) <| sv_size := 512 |> <| allocation_map := sample_map |> |>.

Definition sample_world : world :=
  {| w_clients := [writer [RdBytes (write_request 10 3); RdBytes [1; 2; 3]];
                   writer [RdBytes (write_request 20 3); RdBytes [9]; RdErr ECONNRESET]];
     w_file := sample_file; w_map := sys_map sample_start |}.

Lemma sample_map_fits : map_fits 512 (sys_map sample_start).
Proof.
  constructor; [| vm_compute; reflexivity ..].
  destruct (start_inv 0 true sample_exit mirrored_server sample_mirror (fun _ _ => None) [] sample_file (replicate 512 0) sample_ctl
    sample_start_ok sample_ctl_eq) as (m & [[_ [[act H] | (_ & _ & h & e & _ & _ & [_ _ H _ _ _ _])]] | [H _]]).
  - apply (r_srv _ _ _ _ H).
  - by destruct H as (rest & H & _).
  - vm_compute in H. discriminate H.
Qed.

Lemma threads_are_migration_clients_witness :
  let w' := foldl turn sample_world [1%nat; 0%nat] in
  (length (w_clients w') = 1%nat /\ slice (w_file w') 10 3 = [1; 2; 3]) /\
  exists y', migrating sample_start y' /\ Mirror.file y' = w_file w' /\ ctl y' = set_map (ctl sample_start) (w_map w') /\
    remote y' = remote sample_start /\ wire y' = wire sample_start /\ reply y' = reply sample_start /\
    pending sample_start `suffix_of` pending y' /\ torn sample_start `suffix_of` torn y' /\
    (length (pending y') + length (torn y') <=
     length (pending sample_start) + length (torn sample_start) +
       (length (w_clients sample_world) - length (w_clients w')))%nat.
Proof.
  split; [split; vm_compute; reflexivity |].
  apply (threads_are_migration_clients [1%nat; 0%nat] sample_world sample_start). constructor.
  - reflexivity.
  - reflexivity.
  - vm_compute. reflexivity.
  - replace (size (Mirror.serve (ctl sample_start))) with 512 by (vm_compute; reflexivity). exact sample_map_fits.
  - replace (size (Mirror.serve (ctl sample_start))) with 512 by (vm_compute; reflexivity).
    repeat constructor.
Defined.
