(* ===== verification/Mbox.v ===== *)
(** * The mailbox

    Models src/src/server/mbox.c: a box for one pointer between two threads, with a
    mutex and two condition variables. A critical section runs in one step, up to its
    end or to the wait in it; a thread that waits is woken by a signal and then takes
    the mutex again in a step of its own. POSIX allows a wait to return without a
    signal: the relation has these steps when [spurious] is true. *)

From S2P Require Import Prelude.

Open Scope Z_scope.

(** [contents] is a pointer, 0 is NULL. *)
Record mbox := { contents : Z; full : bool }.

Definition mbox_create : mbox := {| contents := 0; full := false |}.
Definition mbox_contents (b : mbox) : Z := contents b.
Definition mbox_is_full (b : mbox) : bool := full b.

(** The end of [mbox_post] and of [mbox_receive], behind the [if]. *)
Definition post_finish (v : Z) (b : mbox) : mbox := {| contents := v; full := true |}.
Definition receive_finish (b : mbox) : Z * mbox := (contents b, {| contents := 0; full := false |}).

(** A call that finds the mutex free; [None]: it waits on its condition. *)
Definition mbox_post (v : Z) (b : mbox) : option mbox :=
  if full b then None else Some (post_finish v b).

Definition mbox_receive (b : mbox) : option (Z * mbox) :=
  if negb (full b) then None else Some (receive_finish b).

(** ** One thread that posts and one that receives *)

Inductive poster_state := PIdle | PWait (v : Z) | PWoken (v : Z).
Inductive receiver_state := RIdle | RWait | RWoken.

(** [to_post] are the pointers still to be posted, [got] the ones received. *)
Record mb_state := {
  box : mbox;
  poster : poster_state;
  receiver : receiver_state;
  to_post : list Z;
  got : list Z
}.

(** [pthread_cond_signal] on [filled_cond] and on [emptied_cond]. *)
Definition signal_filled (r : receiver_state) : receiver_state :=
  match r with RWait => RWoken | _ => r end.

Definition signal_emptied (p : poster_state) : poster_state :=
  match p with PWait v => PWoken v | _ => p end.

Inductive mb_step (spurious : bool) : mb_state -> mb_state -> Prop :=
| mb_post b b' v vs r g : mbox_post v b = Some b' ->
    mb_step spurious {| box := b; poster := PIdle; receiver := r; to_post := v :: vs; got := g |}
      {| box := b'; poster := PIdle; receiver := signal_filled r; to_post := vs; got := g |}
| mb_post_wait b v vs r g : mbox_post v b = None ->
    mb_step spurious {| box := b; poster := PIdle; receiver := r; to_post := v :: vs; got := g |}
      {| box := b; poster := PWait v; receiver := r; to_post := vs; got := g |}
| mb_post_woken b v vs r g :
    mb_step spurious {| box := b; poster := PWoken v; receiver := r; to_post := vs; got := g |}
      {| box := post_finish v b; poster := PIdle; receiver := signal_filled r; to_post := vs; got := g |}
| mb_receive b b' v p vs g : mbox_receive b = Some (v, b') ->
    mb_step spurious {| box := b; poster := p; receiver := RIdle; to_post := vs; got := g |}
      {| box := b'; poster := signal_emptied p; receiver := RIdle; to_post := vs; got := g ++ [v] |}
| mb_receive_wait b p vs g : mbox_receive b = None ->
    mb_step spurious {| box := b; poster := p; receiver := RIdle; to_post := vs; got := g |}
      {| box := b; poster := p; receiver := RWait; to_post := vs; got := g |}
| mb_receive_woken b p vs g :
    mb_step spurious {| box := b; poster := p; receiver := RWoken; to_post := vs; got := g |}
      {| box := (receive_finish b).2; poster := signal_emptied p; receiver := RIdle; to_post := vs;
         got := g ++ [(receive_finish b).1] |}
| mb_spurious_post b v r vs g : spurious = true ->
    mb_step spurious {| box := b; poster := PWait v; receiver := r; to_post := vs; got := g |}
      {| box := b; poster := PWoken v; receiver := r; to_post := vs; got := g |}
| mb_spurious_receive b p vs g : spurious = true ->
    mb_step spurious {| box := b; poster := p; receiver := RWait; to_post := vs; got := g |}
      {| box := b; poster := p; receiver := RWoken; to_post := vs; got := g |}.

Definition mb_start (xs : list Z) : mb_state :=
  {| box := mbox_create; poster := PIdle; receiver := RIdle; to_post := xs; got := [] |}.

Inductive mb_reach (spurious : bool) (s0 : mb_state) : mb_state -> Prop :=
| mb_here : mb_reach spurious s0 s0
| mb_more s s' : mb_reach spurious s0 s -> mb_step spurious s s' -> mb_reach spurious s0 s'.

(** * Lemmas *)

(** Pointers on their way: in the box, and held by a poster that waits. *)
Definition in_box (b : mbox) : list Z := if full b then [contents b] else [].

Definition in_hand (p : poster_state) : list Z :=
  match p with PIdle => [] | PWait v | PWoken v => [v] end.

(** Who waits for what: a woken thread finds what it was woken for. *)
Record mb_ok (xs : list Z) (s : mb_state) : Prop := {
  ok_all : got s ++ in_box (box s) ++ in_hand (poster s) ++ to_post s = xs;
  ok_rwait : receiver s = RWait -> full (box s) = false;
  ok_rwoken : receiver s = RWoken -> full (box s) = true;
  ok_pwait : forall v, poster s = PWait v -> full (box s) = true;
  ok_pwoken : forall v, poster s = PWoken v -> full (box s) = false
}.

Lemma mb_step_ok xs s s' : mb_ok xs s -> mb_step false s s' -> mb_ok xs s'.
Proof.
  intros [A1 A2 A3 A4 A5] Hs.
  destruct Hs as [b b' v vs r g E | b v vs r g E | b v vs r g | b b' v p vs g E | b p vs g E | b p vs g | |]; try done;
    cbn [box poster receiver to_post got] in *; destruct b as [c f]; cbn [full contents] in *.
  - destruct f; [done |]. injection E as <-.
    constructor; cbn; [exact A1 | by destruct r | done | done | done].
  - destruct f; [| done]. by constructor.
  - rewrite (A5 v eq_refl) in A1. constructor; cbn; [exact A1 | by destruct r | done | done | done].
  - destruct f; [| done]. injection E as <- <-.
    constructor; cbn; [| done | done | by destruct p | done].
    rewrite <- app_assoc. by destruct p.
  - destruct f; [done |]. by constructor.
  - rewrite (A3 eq_refl) in A1. constructor; cbn; [| done | done | by destruct p | done].
    rewrite <- app_assoc. by destruct p.
Qed.

Lemma mb_reach_ok xs s : mb_reach false (mb_start xs) s -> mb_ok xs s.
Proof.
  intros H. induction H as [| s s' _ IH Hs]; [by constructor | by apply (mb_step_ok xs s)].
Qed.

(** Steps left: a bound that every step lowers. *)
Definition mb_left (s : mb_state) : nat :=
  6 * length (to_post s) + (match poster s with PIdle => 0 | PWait _ => 5 | PWoken _ => 4 end) +
  (if full (box s) then 2 else 0) + (match receiver s with RIdle => 1 | RWait => 0 | RWoken => 1 end).

Lemma mb_left_decreases xs s s' : mb_ok xs s -> mb_step false s s' -> (mb_left s' < mb_left s)%nat.
Proof.
  intros [A1 A2 A3 A4 A5] Hs.
  destruct Hs as [b b' v vs r g E | b v vs r g E | b v vs r g | b b' v p vs g E | b p vs g E | b p vs g | |]; try done;
    cbn [box poster receiver to_post got] in *; destruct b as [c f]; unfold mb_left; cbn [full contents] in *.
  - destruct f; [done |]. injection E as <-. cbn. destruct r; cbn; lia.
  - destruct f; [| done]. cbn. lia.
  - rewrite (A5 v eq_refl). cbn. destruct r; cbn; lia.
  - destruct f; [| done]. injection E as <- <-. cbn. destruct p; cbn; lia.
  - destruct f; [done |]. cbn. lia.
  - rewrite (A3 eq_refl). cbn. destruct p; cbn; lia.
Qed.

(** Nobody can move only when everything was received. *)
Lemma mb_progress xs s : mb_ok xs s -> (exists s', mb_step false s s') \/ got s = xs.
Proof.
  intros [A1 A2 A3 A4 A5]. destruct s as [[c f] p r vs g]. cbn [box poster receiver to_post got full] in *.
  destruct r.
  - left. destruct f; eexists; [by apply mb_receive | by apply mb_receive_wait].
  - specialize (A2 eq_refl). subst f. destruct p as [| v | v].
    + destruct vs as [| v vs]; [right; by rewrite app_nil_r in A1 |]. left. eexists. by apply mb_post.
    + by specialize (A4 v eq_refl).
    + left. eexists. apply mb_post_woken.
  - left. eexists. apply mb_receive_woken.
Qed.

(** * Properties *)

(** C26: the mailbox hands over pointers like a channel: when one thread posts [xs] and
    one receives, in every interleaving of their steps what was received, what is in
    the box, what the poster holds and what is still to be posted make up [xs] in
    order; every step lowers a bound, so that every run ends, and a run can only end
    when all of [xs] was received. This is without waits that return by themselves. *)
Theorem mailbox_exchange xs s :
  mb_reach false (mb_start xs) s ->
  got s ++ in_box (box s) ++ in_hand (poster s) ++ to_post s = xs /\
  (forall s', mb_step false s s' -> (mb_left s' < mb_left s)%nat) /\
  ((exists s', mb_step false s s') \/ got s = xs).
Proof.
  intros H. pose proof (mb_reach_ok xs s H) as Hok. split; [apply Hok |].
  split; [intros s'; by apply (mb_left_decreases xs) | by apply mb_progress].
Qed.

Definition mb_mid : mb_state :=
  {| box := {| contents := 7; full := true |}; poster := PWait 8; receiver := RWoken; to_post := []; got := [] |}.

Lemma mailbox_exchange_witness :
  mb_reach false (mb_start [7; 8]) mb_mid /\
  (forall s', mb_step false mb_mid s' -> (mb_left s' < mb_left mb_mid)%nat).
Proof.
  assert (H : mb_reach false (mb_start [7; 8]) mb_mid).
  { eapply mb_more; [eapply mb_more; [eapply mb_more; [apply mb_here |] |] |].
    - apply mb_receive_wait. reflexivity.
    - apply mb_post. reflexivity.
    - apply mb_post_wait. reflexivity. }
  split; [exact H |]. apply (mailbox_exchange [7; 8] mb_mid H).
Defined.

(** With waits that return by themselves the receiver gets a NULL nobody posted:
    [mbox_receive] does not look at [full] again. *)
Theorem spurious_wakeup_gives_null xs :
  exists s, mb_reach true (mb_start xs) s /\ got s = [0] /\ to_post s = xs.
Proof.
  eexists. split.
  - eapply mb_more; [eapply mb_more; [eapply mb_more; [apply mb_here |] |] |].
    + apply mb_receive_wait. reflexivity.
    + apply mb_spurious_receive. reflexivity.
    + apply mb_receive_woken.
  - by split.
Qed.
