(* ===== verification/Text.v ===== *)
(** * Text: string literals, numbers, and the libc calls that read and print them

    What control.c, status.c, remote.c and mode.c use of the C library, and the address
    functions of src/src/common/sockutil.c that print. A C string is the list of its
    bytes before the NUL; a literal is written with [str]. *)

From S2P Require Import Prelude IoUtil Parse.
From stdpp Require Export strings.

Open Scope Z_scope.

(** The bytes of a string literal. *)
Definition str (s : string) : list Z := (fun a => Z.of_N (Ascii.N_of_ascii a)) <$> String.list_ascii_of_string s.

(** [strcmp(a, b) == 0]. *)
Definition streq (a b : list Z) : bool := bool_decide (a = b).

(** [strncmp(a, b, n) == 0]: equal up to [n] bytes or to the end of both. *)
Definition strneq (n : nat) (a b : list Z) : bool := bool_decide (take n a = take n b).

(** ** Numbers *)

(** An optional sign and digits: whether the sign is a minus, and the digits' value. *)
Definition signed_digits (s : list Z) : bool * Z :=
  match skip_space s with
  | c :: s' =>
      if c =? 45 then (true, digits_value 0 s')
      else if c =? 43 then (false, digits_value 0 s')
      else (false, digits_value 0 (c :: s'))
  | [] => (false, 0)
  end.

(** [atol], on a 64-bit [long]. *)
Definition atol (s : list Z) : Z :=
  let '(neg, v) := signed_digits s in clamp_long (if neg then - v else v).

(** [strtoull(s, NULL, 10)]: the value, and whether [errno] is ERANGE. A minus sign
    negates in 64 bits. *)
Definition strtoull (s : list Z) : Z * bool :=
  let '(neg, v) := signed_digits s in
  if UINT64_MAX <? v then (UINT64_MAX, true) else (if neg then u64 (- v) else v, false).

Fixpoint print_digits (fuel : nat) (n : Z) (acc : list Z) : list Z :=
  match fuel with
  | O => acc
  | S fuel' =>
      let acc := (48 + n mod 10) :: acc in
      if n <? 10 then acc else print_digits fuel' (n / 10) acc
  end.

(** [%PRIu64]: 2^64 has 20 digits. *)
Definition print_uint64 (n : Z) : list Z := print_digits 20 n [].

(** [%d]. *)
Definition print_int (n : Z) : list Z := if n <? 0 then 45 :: print_uint64 (- n) else print_uint64 n.

(** ** Addresses *)

(** The macro of the C library: the family and the path. *)
Definition SUN_LEN (un : mysockaddr) : Z := 2 + zlen (c_str (sun_path un)).

Definition sockaddr_size (sa : mysockaddr) : Z :=
  if family sa =? AF_INET then 16
  else if family sa =? AF_INET6 then 28
  else if family sa =? AF_UNIX then 2 + SUN_LEN sa
  else 0.

(** [sockaddr_address_string]: [ntop4] and [ntop6] are [inet_ntop] with this length.
    Whether the result is not NULL, and the string in [dest]. *)
Definition sockaddr_address_string (ntop4 ntop6 : list Z -> option (list Z)) (sa : mysockaddr) (len : Z)
    : res (bool * list Z) :=
  let real_port := be16toh (sin_port sa) in
  ret ← (if family sa =? AF_INET then Ok (ntop4 (sin_addr sa))
         else if family sa =? AF_INET6 then Ok (ntop6 (sin6_addr sa))
         else if family sa =? AF_UNIX then
           if len <? SUN_LEN sa then Stop SFault else Ok (Some (c_str (sun_path sa)))
         else Ok None);
  match (ret : option (list Z)) with
  | None => Ok (false, take (Z.to_nat len) (str "???"))
  | Some dest =>
      if (0 <? real_port) && negb (family sa =? AF_UNIX)
      then Ok (true, take (Z.to_nat (len - 1)) (dest ++ str " port " ++ print_int real_port))
      else Ok (true, dest)
  end.

(** * Lemmas *)

Lemma streq_true a b : streq a b = true <-> a = b.
Proof. apply bool_decide_eq_true. Qed.

Lemma streq_refl a : streq a a = true.
Proof. by apply streq_true. Qed.

(** A prefix comparison of a short name is an equality. *)
Lemma strneq_eq n a b : (length a < n)%nat -> strneq n a b = streq a b.
Proof.
  intros Hl. unfold strneq, streq. apply bool_decide_ext. split; [| by intros ->].
  intros H. destruct (decide (length b < n)%nat) as [Hb | Hb]; [by rewrite !take_ge in H by lia |].
  apply (f_equal length) in H. rewrite !length_take in H. lia.
Qed.

(** ** Printed numbers are read back *)

Lemma print_digits_value fuel : forall n acc,
  0 <= n < 10 ^ Z.of_nat fuel -> decimal acc ->
  decimal (print_digits fuel n acc) /\ (fuel <> 0%nat -> print_digits fuel n acc <> []) /\
  forall r, digits_value 0 (print_digits fuel n acc ++ r) = digits_value n (acc ++ r).
Proof.
  induction fuel as [| fuel IH]; intros n acc Hn Hacc; cbn [print_digits].
  { change (10 ^ Z.of_nat 0) with 1 in Hn. assert (n = 0) as -> by lia. by split_and!. }
  pose proof (Z.mod_pos_bound n 10 ltac:(lia)) as Hm. pose proof (Z.div_mod n 10 ltac:(lia)) as Hdm.
  assert (Hd : is_digit (48 + n mod 10) = true) by (unfold is_digit; lia).
  assert (Hacc' : decimal ((48 + n mod 10) :: acc)) by (by constructor).
  destruct (n <? 10) eqn:E.
  - split_and!; [done | done |]. intros r. cbn [app digits_value]. rewrite Hd. f_equal.
    rewrite Z.mod_small by lia. lia.
  - assert (Hn' : 0 <= n / 10 < 10 ^ Z.of_nat fuel).
    { split; [apply Z.div_pos; lia |]. apply Z.div_lt_upper_bound; [lia |].
      rewrite Nat2Z.inj_succ, Z.pow_succ_r in Hn by lia. lia. }
    destruct (IH (n / 10) _ Hn' Hacc') as (K1 & K2 & K3). split; [exact K1 |]. split.
    + intros _. destruct fuel as [| fuel]; [| by apply K2]. change (10 ^ Z.of_nat 0) with 1 in Hn'. lia.
    + intros r. rewrite K3. cbn [app digits_value]. rewrite Hd. f_equal. lia.
Qed.

Lemma pow10_20 : 2 ^ 64 <= 10 ^ Z.of_nat 20.
Proof. vm_compute. discriminate. Qed.

Lemma print_uint64_decimal n : 0 <= n < 2 ^ 64 -> decimal (print_uint64 n) /\ print_uint64 n <> [].
Proof.
  intros Hn. pose proof pow10_20 as Hp.
  destruct (print_digits_value 20 n [] ltac:(lia) (Forall_nil_2 _)) as (H1 & H2 & _). split; [done | by apply H2].
Qed.

Lemma print_uint64_value n : 0 <= n < 2 ^ 64 -> digits_value 0 (print_uint64 n) = n.
Proof.
  intros Hn. pose proof pow10_20 as Hp.
  destruct (print_digits_value 20 n [] ltac:(lia) (Forall_nil_2 _)) as (_ & _ & H).
  specialize (H []). by rewrite !app_nil_r in H.
Qed.

Lemma signed_digits_decimal s : decimal s -> s <> [] -> signed_digits s = (false, digits_value 0 s).
Proof.
  intros Hs Hne. destruct s as [| c s]; [done |]. pose proof (Forall_cons_1 _ _ _ Hs) as [Hc _].
  unfold signed_digits. cbn [skip_space]. rewrite (digit_not_space c Hc).
  assert ((c =? 45) = false) as -> by (unfold is_digit in Hc; lia).
  by assert ((c =? 43) = false) as -> by (unfold is_digit in Hc; lia).
Qed.

Lemma strtoull_print n : 0 <= n < 2 ^ 64 -> strtoull (print_uint64 n) = (n, false).
Proof.
  intros Hn. destruct (print_uint64_decimal n Hn) as [Hd Hne]. unfold strtoull.
  rewrite signed_digits_decimal, print_uint64_value by done. unfold UINT64_MAX.
  by replace (2 ^ 64 - 1 <? n) with false by lia.
Qed.

Lemma atol_print_int n : - 2 ^ 63 <= n < 2 ^ 63 -> atol (print_int n) = n.
Proof.
  intros Hn. unfold print_int, atol. destruct (n <? 0) eqn:E.
  - unfold signed_digits. cbn [skip_space is_space]. change (is_space 45) with false. cbn iota.
    change (45 =? 45) with true. cbn iota. rewrite print_uint64_value by lia. unfold clamp_long. lia.
  - destruct (print_uint64_decimal n ltac:(lia)) as [Hd Hne].
    rewrite signed_digits_decimal, print_uint64_value by (done || lia). unfold clamp_long. lia.
Qed.

(** Numbers do not contain separators. *)
Lemma print_uint64_no c n : 0 <= n < 2 ^ 64 -> is_digit c = false -> c ∉ print_uint64 n.
Proof.
  intros Hn Hc Hin. destruct (print_uint64_decimal n Hn) as [Hd _].
  unfold decimal in Hd. rewrite list.Forall_forall in Hd. specialize (Hd c Hin). cbn in Hd. congruence.
Qed.

Lemma print_int_no c n : - 2 ^ 63 <= n < 2 ^ 63 -> is_digit c = false -> c <> 45 -> c ∉ print_int n.
Proof.
  intros Hn Hc H45. unfold print_int. destruct (n <? 0) eqn:E.
  - rewrite not_elem_of_cons. split; [done | apply print_uint64_no; [lia | done]].
  - apply print_uint64_no; [lia | done].
Qed.

(** The size of a UNIX address counts its family twice. *)
Lemma unix_size_too_large sa : family sa = AF_UNIX -> sockaddr_size sa = SUN_LEN sa + 2.
Proof. intros H. unfold sockaddr_size. rewrite H. cbn [Z.eqb]. change (AF_UNIX =? AF_INET) with false. cbn. lia. Qed.
