(* ===== verification/Status.v ===== *)
(** * Status reports

    Models src/src/server/status.c and status.h, and states what a report says by a
    reader for the lines the code prints: label=value pairs, each followed by a space,
    with the labels of status.c. They are those of README.txt (is_mirroring), not all
    those of status.h, which calls that label is_migrating and gives the duration in
    ms where it is printed in seconds. *)

From S2P Require Import Prelude Text Bitset IoUtil SockUtil Parse Acl Serve.

Open Scope Z_scope.

Record status := {
  st_pid : Z;
  st_size : Z;
  st_has_control : bool;
  st_clients_allowed : bool;
  st_num_clients : Z;
  st_is_mirroring : bool;
  migration_duration : Z;
  migration_speed : Z;
  migration_speed_limit : Z;
  migration_seconds_left : Z;
  migration_bytes_left : Z
}.

(** [status_create] in thread [self]: the pid, the results of the joins, and the clock
    at its three readings. *)
Definition status_create (self pid : Z) (joinfunc : Z -> Z) (t_duration t_speed t_left : Z) (s : server)
    : res (status * server) :=
  '(num_clients, s) ← server_count_clients joinfunc s;
  s ← server_lock_start_mirror self s;
  st ← match s_mirror s with
       | Some m =>
           let duration := if migration_started m <? t_duration then t_duration -64 migration_started m else 0 in
           speed ← server_mirror_bps t_speed s;
           seconds_left ← server_mirror_eta t_left s;
           bytes_left ← server_mirror_bytes_remaining s;
           Ok {| st_pid := pid; st_size := size s; st_has_control := success s;
                 st_clients_allowed := allow_new_clients s; st_num_clients := num_clients; st_is_mirroring := true;
                 migration_duration := duration / 1000; migration_speed := speed;
                 migration_speed_limit := max_bytes_per_second m; migration_seconds_left := seconds_left;
                 migration_bytes_left := bytes_left |}
       | None =>
           Ok {| st_pid := pid; st_size := size s; st_has_control := success s;
                 st_clients_allowed := allow_new_clients s; st_num_clients := num_clients; st_is_mirroring := false;
                 migration_duration := 0; migration_speed := 0; migration_speed_limit := 0;
                 migration_seconds_left := 0; migration_bytes_left := 0 |}
       end;
  Ok (st, server_unlock_start_mirror s).

Definition BOOL_S (b : bool) : list Z := if b then str "true" else str "false".

(** The macros' [dprintf]: label, '=', value, ' '. *)
Definition print_field (label value : list Z) : list Z := label ++ [61] ++ value ++ [32].
Definition PRINT_BOOL (label : list Z) (b : bool) : list Z := print_field label (BOOL_S b).
Definition PRINT_INT (label : list Z) (n : Z) : list Z := print_field label (print_int n).
Definition PRINT_UINT64 (label : list Z) (n : Z) : list Z := print_field label (print_uint64 n).

Definition status_write (st : status) : list Z :=
  PRINT_INT (str "pid") (st_pid st) ++
  PRINT_UINT64 (str "size") (st_size st) ++
  PRINT_BOOL (str "is_mirroring") (st_is_mirroring st) ++
  PRINT_BOOL (str "clients_allowed") (st_clients_allowed st) ++
  PRINT_INT (str "num_clients") (st_num_clients st) ++
  PRINT_BOOL (str "has_control") (st_has_control st) ++
  (if st_is_mirroring st then
     PRINT_UINT64 (str "migration_speed") (migration_speed st) ++
     PRINT_UINT64 (str "migration_duration") (migration_duration st) ++
     PRINT_UINT64 (str "migration_seconds_left") (migration_seconds_left st) ++
     PRINT_UINT64 (str "migration_bytes_left") (migration_bytes_left st) ++
     (if migration_speed_limit st <? UINT64_MAX
      then PRINT_UINT64 (str "migration_speed_limit") (migration_speed_limit st) else [])
   else []) ++ [10].

(** * The format *)

(** The text before the first [c], and behind it. *)
Fixpoint cut (c : Z) (s : list Z) : option (list Z * list Z) :=
  match s with
  | [] => None
  | x :: s' => if x =? c then Some ([], s') else '(a, b) ← cut c s'; Some (x :: a, b)
  end.

(** Pairs up to the newline. *)
Fixpoint read_pairs (fuel : nat) (s : list Z) : option (list (list Z * list Z)) :=
  match fuel with
  | O => None
  | S fuel' =>
      if streq s [10] then Some []
      else
        '(label, s) ← cut 61 s;
        '(value, s) ← cut 32 s;
        rest ← read_pairs fuel' s;
        Some ((label, value) :: rest)
  end.

Fixpoint find_label (label : list Z) (ps : list (list Z * list Z)) : option (list Z) :=
  match ps with
  | [] => None
  | (l, v) :: ps' => if streq l label then Some v else find_label label ps'
  end.

Definition read_bool (v : list Z) : option bool :=
  if streq v (str "true") then Some true else if streq v (str "false") then Some false else None.

Definition find_uint (label : list Z) (ps : list (list Z * list Z)) : option Z :=
  v ← find_label label ps; Some (strtoull v).1.

(** What a line of status.c says: the migration's duration is in seconds, and no
    speed limit is the largest one. *)
Definition read_status (line : list Z) : option status :=
  ps ← read_pairs (length line) line;
  pid ← find_label (str "pid") ps;
  size ← find_uint (str "size") ps;
  mirroring ← (find_label (str "is_mirroring") ps ≫= read_bool);
  allowed ← (find_label (str "clients_allowed") ps ≫= read_bool);
  num ← find_label (str "num_clients") ps;
  control ← (find_label (str "has_control") ps ≫= read_bool);
  let field l := default 0 (find_uint l ps) in
  Some {| st_pid := atol pid; st_size := size; st_has_control := control; st_clients_allowed := allowed;
          st_num_clients := atol num; st_is_mirroring := mirroring;
          migration_duration := field (str "migration_duration");
          migration_speed := field (str "migration_speed");
          migration_speed_limit :=
            if mirroring then default UINT64_MAX (find_uint (str "migration_speed_limit") ps) else 0;
          migration_seconds_left := field (str "migration_seconds_left");
          migration_bytes_left := field (str "migration_bytes_left") |}.

(** * Lemmas *)

Lemma cut_app c a b : c ∉ a -> cut c (a ++ c :: b) = Some (a, b).
Proof.
  intros Hc. induction a as [| x a IH]; cbn [app cut]; [by rewrite Z.eqb_refl |].
  apply not_elem_of_cons in Hc as [Hx Ha]. replace (x =? c) with false by lia. by rewrite IH.
Qed.

(** A label or value holds neither '=' nor ' ', and a label no newline. *)
Definition plain (s : list Z) : Prop := 61 ∉ s /\ 32 ∉ s.

#[export] Instance plain_dec s : Decision (plain s).
Proof. apply _. Defined.

Definition pair_ok (p : list Z * list Z) : Prop := 61 ∉ p.1 /\ head p.1 <> Some 10 /\ 32 ∉ p.2.

Lemma length_print_field l v : length (print_field l v) = (length l + length v + 2)%nat.
Proof. unfold print_field. rewrite !length_app. cbn. lia. Qed.

Lemma read_pairs_spec ps : forall fuel,
  Forall pair_ok ps -> (length ps < fuel)%nat ->
  read_pairs fuel (concat ((fun p => print_field p.1 p.2) <$> ps) ++ [10]) = Some ps.
Proof.
  induction ps as [| [l v] ps IH]; intros fuel Hok Hf; (destruct fuel as [| fuel]; [cbn in Hf; lia |]); cbn [read_pairs].
  { done. }
  apply Forall_cons_1 in Hok as [(H1 & H2 & H3) Hok]. cbn [fst snd] in H1, H2, H3.
  rewrite fmap_cons. cbn [concat fst snd].
  assert (Hne : streq ((print_field l v ++ concat ((fun p => print_field p.1 p.2) <$> ps)) ++ [10]) [10] = false).
  { apply not_true_is_false. rewrite streq_true. intros E. apply (f_equal length) in E.
    rewrite !length_app, length_print_field in E. cbn in E. lia. }
  rewrite Hne. unfold print_field at 1. rewrite <- !app_assoc. cbn [app].
  rewrite cut_app by done. cbn [mbind option_bind]. rewrite cut_app by done. cbn [mbind option_bind].
  rewrite IH; [done | done | cbn in Hf; lia].
Qed.

(** The pairs of a report. *)
Definition status_pairs (st : status) : list (list Z * list Z) :=
  [(str "pid", print_int (st_pid st)); (str "size", print_uint64 (st_size st));
   (str "is_mirroring", BOOL_S (st_is_mirroring st)); (str "clients_allowed", BOOL_S (st_clients_allowed st));
   (str "num_clients", print_int (st_num_clients st)); (str "has_control", BOOL_S (st_has_control st))] ++
  (if st_is_mirroring st then
     [(str "migration_speed", print_uint64 (migration_speed st));
      (str "migration_duration", print_uint64 (migration_duration st));
      (str "migration_seconds_left", print_uint64 (migration_seconds_left st));
      (str "migration_bytes_left", print_uint64 (migration_bytes_left st))] ++
     (if migration_speed_limit st <? UINT64_MAX
      then [(str "migration_speed_limit", print_uint64 (migration_speed_limit st))] else [])
   else []).

Lemma status_write_pairs st :
  status_write st = concat ((fun p => print_field p.1 p.2) <$> status_pairs st) ++ [10].
Proof.
  unfold status_write, status_pairs, PRINT_INT, PRINT_UINT64, PRINT_BOOL.
  destruct (st_is_mirroring st); [destruct (migration_speed_limit st <? UINT64_MAX) |];
    cbn [fmap list_fmap app concat fst snd]; by rewrite <- ?app_assoc, ?app_nil_r.
Qed.

(** Fields at their widths; without a migration its fields are 0. *)
Record status_ok (st : status) : Prop := {
  so_pid : - 2 ^ 31 <= st_pid st < 2 ^ 31;
  so_st_size : 0 <= st_size st < 2 ^ 64;
  so_num : - 2 ^ 31 <= st_num_clients st < 2 ^ 31;
  so_duration : 0 <= migration_duration st < 2 ^ 64;
  so_speed : 0 <= migration_speed st < 2 ^ 64;
  so_limit : 0 <= migration_speed_limit st < 2 ^ 64;
  so_left : 0 <= migration_seconds_left st < 2 ^ 64;
  so_bytes : 0 <= migration_bytes_left st < 2 ^ 64;
  so_none : st_is_mirroring st = false ->
    migration_duration st = 0 /\ migration_speed st = 0 /\ migration_speed_limit st = 0 /\
    migration_seconds_left st = 0 /\ migration_bytes_left st = 0
}.

Lemma status_pairs_ok st : status_ok st -> Forall pair_ok (status_pairs st).
Proof.
  intros [S1 S2 S3 S4 S5 S6 S7 S8 _].
  assert (HB : forall b, 32 ∉ BOOL_S b) by (intros []; by_decide).
  assert (HI : forall n, - 2 ^ 31 <= n < 2 ^ 31 -> 32 ∉ print_int n) by (intros n Hn; apply print_int_no; [lia | done | done]).
  assert (HU : forall n, 0 <= n < 2 ^ 64 -> 32 ∉ print_uint64 n) by (intros n Hn; by apply print_uint64_no).
  assert (Hp : forall l v, 61 ∉ l -> head l <> Some 10 -> 32 ∉ v -> pair_ok (l, v)) by done.
  unfold status_pairs. destruct (st_is_mirroring st); [destruct (migration_speed_limit st <? UINT64_MAX) |];
    cbn [app];
    repeat (apply Forall_cons_2; [apply Hp; [by_decide | by_decide | first [apply HB | by apply HI | by apply HU]] |]);
    apply Forall_nil_2.
Qed.

Lemma length_pairs ps :
  (length ps < length (concat ((fun p : list Z * list Z => print_field p.1 p.2) <$> ps) ++ [10%Z]))%nat.
Proof.
  rewrite length_app. cbn [length]. induction ps as [| [l v] ps IH]; [cbn; lia |].
  rewrite fmap_cons. cbn [concat length fst snd]. rewrite length_app, length_print_field. lia.
Qed.

Lemma read_bool_BOOL_S b : read_bool (BOOL_S b) = Some b.
Proof. by destruct b. Qed.

(** Comparisons of labels. *)
Ltac compare_labels :=
  repeat match goal with
  | |- context [streq (str ?a) (str ?b)] =>
      let v := eval vm_compute in (streq (str a) (str b)) in
      let E := fresh in
      assert (E : streq (str a) (str b) = v) by (vm_compute; reflexivity); rewrite !E; clear E; cbn iota
  end.

Lemma read_status_write st : status_ok st -> read_status (status_write st) = Some st.
Proof.
  intros Hok. unfold read_status. rewrite status_write_pairs.
  rewrite read_pairs_spec by (by apply status_pairs_ok || apply length_pairs).
  destruct Hok as [S1 S2 S3 S4 S5 S6 S7 S8 S9]. cbn [mbind option_bind].
  unfold status_pairs, find_uint. destruct (st_is_mirroring st) eqn:Em.
  - destruct (migration_speed_limit st <? UINT64_MAX) eqn:El; cbn [app find_label]; compare_labels;
      cbn [mbind option_bind]; rewrite !read_bool_BOOL_S; cbn [mbind option_bind from_option];
      rewrite !strtoull_print, !atol_print_int by lia; cbn [fst default from_option id]; destruct st; cbn in *; subst; [done |].
    unfold UINT64_MAX in *. by replace migration_speed_limit0 with (2 ^ 64 - 1) by lia.
  - destruct (S9 eq_refl) as (N1 & N2 & N3 & N4 & N5).
    cbn [app find_label]; compare_labels; cbn [mbind option_bind]; rewrite !read_bool_BOOL_S;
      cbn [mbind option_bind from_option]; rewrite !strtoull_print, !atol_print_int by lia.
    destruct st; cbn in *; by subst.
Qed.

(** ** What a report of a server holds *)

(** The server's numbers at their widths. *)
Record numbers_ok (s : server) : Prop := {
  no_size : 0 <= size s < 2 ^ 64;
  no_clients : Z.of_nat (max_nbd_clients s) < 2 ^ 31;
  no_mirror : forall m, s_mirror s = Some m ->
    0 <= all_dirty m < UINT64_MAX /\ 0 <= max_bytes_per_second m < 2 ^ 64 /\ 0 <= migration_started m < 2 ^ 64
}.

Lemma count_threads_bound l : 0 <= count_threads l <= zlen l.
Proof.
  unfold count_threads, zlen. pose proof (length_filter (fun e => thread e <> 0) l). lia.
Qed.

Lemma bps_ok now s : numbers_ok s -> (server_is_mirroring s = true -> s_mirror s <> None) ->
  exists bps, server_mirror_bps now s = Ok bps /\ 0 <= bps < UINT64_MAX.
Proof.
  intros Hn Hm. unfold server_mirror_bps. destruct (server_is_mirroring s); [| by exists 0].
  destruct (s_mirror s) as [m |] eqn:E; [| by destruct (Hm eq_refl)]. cbn [of_opt mbind res_bind].
  eexists. split; [reflexivity |]. destruct (no_mirror _ Hn m E) as ((D1 & D2) & _).
  pose proof (u64_range (now - migration_started m)) as Hu. set (d := u64 _) in *.
  assert (0 <= d / 1000) by (apply Z.div_pos; lia).
  split; [apply Z.div_pos; lia |]. apply Z.div_lt_upper_bound; [lia |]. nia.
Qed.

Lemma bytes_left_ok s : (server_is_mirroring s = true -> s_mirror s <> None) ->
  exists n, server_mirror_bytes_remaining s = Ok n /\ 0 <= n < 2 ^ 64.
Proof.
  intros Hm. unfold server_mirror_bytes_remaining. destruct (server_is_mirroring s); [| by exists 0].
  destruct (s_mirror s) as [m |]; [| by destruct (Hm eq_refl)]. eexists. split; [reflexivity | apply u64_range].
Qed.

Lemma seconds_left_ok now s : numbers_ok s -> (server_is_mirroring s = true -> s_mirror s <> None) ->
  exists n, server_mirror_eta now s = Ok n /\ 0 <= n < 2 ^ 64.
Proof.
  intros Hn Hm. unfold server_mirror_eta. destruct (bytes_left_ok s Hm) as (b & -> & Hb).
  destruct (bps_ok now s Hn Hm) as (v & -> & Hv). destruct (server_is_mirroring s); [| by exists 0].
  cbn [mbind res_bind]. unfold UINT64_MAX in Hv. rewrite u64_id by lia. replace (v + 1 =? 0) with false by lia.
  eexists. split; [reflexivity |]. split; [apply Z.div_pos; lia |]. apply Z.div_lt_upper_bound; nia.
Qed.

(** [server_count_clients] tidies the table up and counts the threads left. *)
Lemma count_clients_spec joinfunc s :
  tbl_ok s -> joins_ok joinfunc ->
  exists s', server_count_clients joinfunc s = Ok (count_threads (nbd_client s'), s') /\ reaped s s'.
Proof.
  intros Hok Hj. unfold server_count_clients, cleanup_client_threads.
  destruct (cleanup_from_spec joinfunc (max_nbd_clients s) 0 s Hok Hj) as (s' & -> & R & _); [by rewrite (tb_len _ Hok) |].
  cbn [mbind res_bind]. exists s'. split; [| done]. by rewrite take_ge by (by rewrite (tb_len _ (rp_ok _ _ R))).
Qed.

(** A sound server can always be reported on. *)
Lemma status_create_spec self pid joinfunc t1 t2 t3 s :
  tbl_ok s -> joins_ok joinfunc -> numbers_ok s -> (server_is_mirroring s = true -> s_mirror s <> None) ->
  - 2 ^ 31 <= pid < 2 ^ 31 -> 0 <= t1 < 2 ^ 64 -> holder (l_start_mirror s) = 0 ->
  exists st s', status_create self pid joinfunc t1 t2 t3 s = Ok (st, s') /\
    read_status (status_write st) = Some st /\ reaped s s' /\ holder (l_start_mirror s') = 0 /\
    st_size st = size s /\ st_has_control st = server_is_in_control s /\
    st_clients_allowed st = allow_new_clients s /\ st_num_clients st = count_threads (nbd_client s') /\
    st_is_mirroring st = bool_decide (s_mirror s <> None) /\
    (forall m, s_mirror s = Some m -> migration_started m < t1 ->
       migration_duration st = (t1 - migration_started m) / 1000).
Proof.
  intros Hok Hj Hn Hm Hpid Ht Hlock. unfold status_create.
  destruct (count_clients_spec joinfunc s Hok Hj) as (s1 & -> & R). cbn [mbind res_bind].
  pose proof (rp_frame _ _ R) as Hf. pose proof (rp_ok _ _ R) as Hok1.
  assert (Hn1 : numbers_ok s1) by (destruct Hn; constructor; rewrite Hf; done).
  assert (Hm1 : server_is_mirroring s1 = true -> s_mirror s1 <> None) by (rewrite Hf; exact Hm).
  pose proof (count_threads_bound (nbd_client s1)) as Hc. unfold zlen in Hc. rewrite (tb_len _ Hok1) in Hc.
  pose proof (no_clients _ Hn1) as Hmax. pose proof (no_size _ Hn1) as Hsz.
  unfold server_lock_start_mirror, flexthread_mutex_lock.
  assert (Hl1 : holder (l_start_mirror s1) = 0) by (by rewrite Hf). rewrite Hl1. cbn [Z.eqb mbind res_bind].
  set (s2 := s1 <| l_start_mirror := {| holder := self |} |>).
  assert (Hback : reaped s (server_unlock_start_mirror s2)).
  { apply (reaped_trans s s1 _ R). constructor; [| by destruct Hok1 | done | done].
    unfold s2. destruct s1 as [? ? ? ? ? ? ? [h] ?]. cbn in *. by rewrite Hl1. }
  assert (Esz : size s1 = size s) by (by rewrite Hf). assert (Esm : s_mirror s1 = s_mirror s) by (by rewrite Hf).
  assert (Esu : success s1 = success s) by (by rewrite Hf).
  assert (Ean : allow_new_clients s1 = allow_new_clients s) by (by rewrite Hf).
  change (s_mirror s2) with (s_mirror s1). rewrite <- Esm. destruct (s_mirror s1) as [m |] eqn:Em.
  - assert (Hm2 : server_is_mirroring s2 = true -> s_mirror s2 <> None)
      by (intros _; change (s_mirror s2) with (s_mirror s1); congruence).
    destruct (bps_ok t2 s2) as (v & -> & Hv); [by destruct Hn1 | done |]. cbn [mbind res_bind].
    destruct (seconds_left_ok t3 s2) as (n & -> & Hnl); [by destruct Hn1 | done |]. cbn [mbind res_bind].
    destruct (bytes_left_ok s2) as (b & -> & Hb); [done |]. cbn [mbind res_bind].
    destruct (no_mirror _ Hn1 m Em) as (D1 & D2 & D3).
    eexists _, _. split; [reflexivity |]. split.
    + apply read_status_write. unfold UINT64_MAX in *. constructor; cbn; try done; try lia.
      set (d := if migration_started m <? t1 then _ else 0).
      assert (0 <= d < 2 ^ 64) by (subst d; destruct (_ <? _); [apply u64_range | lia]).
      split; [apply Z.div_pos; lia | apply Z.div_lt_upper_bound; lia].
    + split_and!; [exact Hback | done | exact Esz | exact Esu | exact Ean | done | |].
      { by rewrite bool_decide_eq_true_2. }
      intros m' [= <-] Hlt. cbn. rewrite (proj2 (Z.ltb_lt _ _)), u64_id by lia. done.
  - eexists _, _. split; [reflexivity |]. split.
    + apply read_status_write. constructor; cbn; try done; lia.
    + split_and!; [exact Hback | done | exact Esz | exact Esu | exact Ean | done | | done].
      rewrite bool_decide_eq_false_2; [done |]. intros H. by apply H.
Qed.

(** * Properties *)

(** No report has the label is_migrating that status.h documents. *)
Theorem no_label_is_migrating st :
  status_ok st ->
  exists ps, read_pairs (length (status_write st)) (status_write st) = Some ps /\
    find_label (str "is_migrating") ps = None.
Proof.
  intros Hok. exists (status_pairs st). rewrite status_write_pairs.
  rewrite read_pairs_spec by (by apply status_pairs_ok || apply length_pairs). split; [done |].
  unfold status_pairs. destruct (st_is_mirroring st); [destruct (migration_speed_limit st <? UINT64_MAX) |];
    cbn [app find_label]; by compare_labels.
Qed.

(** C27: of every sound server whose start-mirror lock is free a status report can be
    made, and reading back the line that is printed gives the report: with the labels
    and units of status.c, which are not all those status.h documents
    ([no_label_is_migrating]; the duration is in seconds, not ms), the line loses
    nothing. The report shows the server: its size, whether it is in control, lets
    clients in and is mirroring, how many seconds the migration has taken, and the
    number of client threads that still run. Making it leaves the lock free. Assumed:
    joining an ended thread succeeds, and the numbers are within their C types. *)
Theorem status_report_roundtrip self pid joinfunc t1 t2 t3 s :
  tbl_ok s -> joins_ok joinfunc -> numbers_ok s -> (server_is_mirroring s = true -> s_mirror s <> None) ->
  - 2 ^ 31 <= pid < 2 ^ 31 -> 0 <= t1 < 2 ^ 64 -> holder (l_start_mirror s) = 0 ->
  exists st s', status_create self pid joinfunc t1 t2 t3 s = Ok (st, s') /\
    read_status (status_write st) = Some st /\ reaped s s' /\ holder (l_start_mirror s') = 0 /\
    st_size st = size s /\ st_has_control st = server_is_in_control s /\
    st_clients_allowed st = allow_new_clients s /\ st_num_clients st = count_threads (nbd_client s') /\
    st_is_mirroring st = bool_decide (s_mirror s <> None) /\
    (forall m, s_mirror s = Some m -> migration_started m < t1 ->
       migration_duration st = (t1 - migration_started m) / 1000).
Proof. apply status_create_spec. Qed.

Lemma status_report_roundtrip_witness :
  exists st s', status_create 1 42 (fun _ => 0) 10 11 12 (sample_server false) = Ok (st, s') /\
    read_status (status_write st) = Some st /\ reaped (sample_server false) s' /\ holder (l_start_mirror s') = 0 /\
    st_size st = 8192 /\ st_has_control st = server_is_in_control (sample_server false) /\
    st_clients_allowed st = true /\ st_num_clients st = count_threads (nbd_client s') /\
    st_is_mirroring st = bool_decide (s_mirror (sample_server false) <> None) /\
    (forall m, s_mirror (sample_server false) = Some m -> migration_started m < 10 ->
       migration_duration st = (10 - migration_started m) / 1000).
Proof.
  apply (status_report_roundtrip 1 42 (fun _ => 0) 10 11 12 (sample_server false)).
  - apply sample_server_ok.
  - intros t. by left.
  - constructor; [by cbn | by cbn | discriminate].
  - discriminate.
  - lia.
  - lia.
  - reflexivity.
Defined.
