(* ===== verification/Control.v ===== *)
(** * The control socket

    Models src/src/server/control.c: the commands that come over the control socket,
    one client at a time, and the thread that serves them. A command is a function on
    the server that returns its return value and the bytes it writes to the client;
    the code does not look at what its [write]s return, and here they go through.
    [flexnbd->serve] is the server; the threads the commands start or wait for are
    arguments. *)

From S2P Require Import Prelude Text Bitset IoUtil SockUtil Parse Acl Mbox Serve Mirror Status.

Open Scope Z_scope.

(** [write_socket(msg)]: the message and a newline. *)
Definition write_socket (msg : list Z) : list Z := msg ++ [LF].

(** ** Mirror *)

(** The response, and whether the code goes on ([fatal] otherwise). *)
Definition control_write_mirror_response (st : mirror_state) : list Z * res unit :=
  match st with
  | MS_INIT | MS_UNKNOWN => (write_socket (str "1: Mirror failed to initialise"), Stop SFatal)
  | MS_FAIL_CONNECT => (write_socket (str "1: Mirror failed to connect"), Ok tt)
  | MS_FAIL_REJECTED => (write_socket (str "1: Mirror was rejected"), Ok tt)
  | MS_FAIL_NO_HELLO => (write_socket (str "1: Remote server failed to respond"), Ok tt)
  | MS_FAIL_SIZE_MISMATCH => (write_socket (str "1: Remote size does not match local size"), Ok tt)
  | MS_ABANDONED => (write_socket (str "1: Mirroring abandoned"), Ok tt)
  | MS_GO | MS_DONE => (write_socket (str "0: Mirror started"), Ok tt)
  end.

(** [control_client_mirror_wait]: [deref] reads the state a pointer points to. *)
Definition control_client_mirror_wait (deref : Z -> mirror_state) (b : mbox) : res (mirror_state * mbox) :=
  match mbox_receive b with
  | None => Stop SBlock
  | Some (contents, b') => if contents =? 0 then Stop SFatal else Ok (deref contents, b')
  end.

(** [mbox_post_mirror_state] with the address [xmalloc] returns; [None]: it waits. *)
Definition mbox_post_mirror_state (p : Z) (st : mirror_state) (deref : Z -> mirror_state) (b : mbox)
    : option (mbox * (Z -> mirror_state)) :=
  b' ← mbox_post p b; Some (b', fun q => if q =? p then st else deref q).

(** [mirror_signal_commit] posts the mirror's state to the supervisor, and
    [mirror_super_signal_committed] the state it was told to the control thread. *)
Definition mirror_signal_commit (p : Z) (m : mirror) := mbox_post_mirror_state p (mirror_get_state m).
Definition mirror_super_signal_committed := mbox_post_mirror_state.

(** The supervisor's mirror, as [control_mirror] stores it in the server. *)
Definition mirror_super_create (max_Bps : Z) (action_at_finish : mirror_finish_action) (opened madvised : Z) : res mirror :=
  mirror_create max_Bps action_at_finish opened madvised.

(** The parameters of a mirror command. *)
Record mirror_args := {
  connect_to : mysockaddr;
  connect_from : option mysockaddr;
  max_Bps : Z;
  action : mirror_finish_action
}.

Section Commands.
Context (pton4 pton6 : list Z -> option (list Z)).

(** [action_at_finish] for the third parameter. *)
Definition parse_action (line : option (list Z)) : option mirror_finish_action :=
  match line with
  | None => Some ACTION_EXIT
  | Some l =>
      if streq (str "exit") l then Some ACTION_EXIT
      else if streq (str "unlink") l then Some ACTION_UNLINK
      else if streq (str "nothing") l then Some ACTION_NOTHING
      else None
  end.

(** [connect_from] for the fourth parameter; [None] when it is bad. *)
Definition parse_bind (line : option (list Z)) : res (option (option mysockaddr)) :=
  match line with
  | None => Ok (Some None)
  | Some l =>
      r ← parse_ip_to_sockaddr pton4 pton6 zero_sockaddr l;
      Ok (match (r : option mysockaddr) with Some a => Some (Some a) | None => None end)
  end.

(** The checks of [control_mirror]: the error message, or the parameters. *)
Definition parse_mirror (lines : list (list Z)) : res (list Z + mirror_args) :=
  let bad msg : res (list Z + mirror_args) := Ok (inl msg) in
  match lines with
  | l0 :: l1 :: rest =>
      to ← parse_ip_to_sockaddr pton4 pton6 zero_sockaddr l0;
      match (to : option mysockaddr) with
      | None => bad (str "1: bad IP address")
      | Some to =>
          let raw_port := atoi l1 in
          if (raw_port <? 0) || (65535 <? raw_port) then bad (str "1: bad IP port number")
          else
            let to := to <| sin_port := htobe16 raw_port |> in
            match parse_action (rest !! 0%nat) with
            | None => bad (str "1: action must be 'exit' or 'nothing'")
            | Some act =>
                from ← parse_bind (rest !! 1%nat);
                match (from : option (option mysockaddr)) with
                | None => bad (str "1: bad bind address")
                | Some from =>
                    let '(bps, erange) := match rest !! 2%nat with
                                          | None => (UINT64_MAX, false)
                                          | Some l => strtoull l
                                          end in
                    if (erange : bool) then bad (str "1: max_bps out of range")
                    else if (3 <? zlen rest) then bad (str "1: unrecognised parameters to mirror")
                    else Ok (inr {| connect_to := to; connect_from := from; max_Bps := bps; action := act |})
                end
            end
      end
  | _ => bad (str "1: mirror takes at least two parameters")
  end.

(** What starting a mirror gets from outside: the answers of [open_and_mmap],
    [madvise] and [pthread_create], what the supervisor started for these parameters
    does to the server until it has posted to the mailbox, the mailbox it leaves, and
    the state a posted pointer points to. *)
Record mirror_env := {
  me_opened : Z;
  me_madvised : Z;
  me_create : Z;
  me_super : mirror_args -> server -> res (mbox * server);
  me_deref : Z -> mirror_state
}.

Definition control_mirror (self : Z) (e : mirror_env) (lines : list (list Z)) (s : server)
    : res (Z * list Z * server) :=
  args ← parse_mirror lines;
  match (args : list Z + mirror_args) with
  | inl msg => Ok (-1, write_socket msg, s)
  | inr a =>
      s ← server_lock_start_mirror self s;
      '(out, s) ←
        (if server_mirror_can_start s then
           m ← mirror_super_create (max_Bps a) (action a) (me_opened e) (me_madvised e);
           Ok ([], server_prevent_mirror_start (s <| mirror_super := true |> <| s_mirror := Some m |>))
         else if mirror_super s then Ok (write_socket (str "1: mirror already running"), s)
         else Ok (write_socket (str "1: shutting down"), s));
      let s := server_unlock_start_mirror s in
      if mirror_super s then
        if negb (me_create e =? 0) then Stop SFatal
        else
          '(b, s) ← me_super e a s;
          '(st, _) ← control_client_mirror_wait (me_deref e) b;
          let '(msg, r) := control_write_mirror_response st in
          _ ← r;
          Ok (0, out ++ msg, s)
      else Ok (0, out, s)
  end.

Definition control_mirror_max_bps (lines : list (list Z)) (s : server) : res (Z * list Z * server) :=
  if negb (mirror_super s) then Ok (-1, write_socket (str "1: Not currently mirroring"), s)
  else
    match lines with
    | [l] =>
        let '(bps, erange) := strtoull l in
        if (erange : bool) then Ok (-1, write_socket (str "1: max_bps out of range"), s)
        else
          m ← of_opt SFault (s_mirror s);
          Ok (0, write_socket (str "0: updated"), s <| s_mirror := Some (m <| max_bytes_per_second := bps |>) |>)
    | _ => Ok (-1, write_socket (str "1: Bad format"), s)
    end.

(** ** The other commands *)

Definition control_acl (self : Z) (lines : list (list Z)) (s : server) : res (Z * list Z * server) :=
  deny ← server_default_deny s;
  new_acl ← acl_create pton4 pton6 lines deny;
  if negb (acl_len new_acl =? zlen lines) then
    bad ← of_opt SFault (lines !! Z.to_nat (acl_len new_acl));
    Ok (0, str "1: bad spec: " ++ bad ++ [LF], s)
  else
    s ← server_replace_acl self s new_acl;
    Ok (0, str "0: updated" ++ [LF], s).

(** [super] as for [server_abandon_mirror]. *)
Definition control_break (self : Z) (super : server -> res server) (s : server) : res (Z * list Z * server) :=
  s ← server_lock_start_mirror self s;
  '(result, out, s) ←
    (if server_is_mirroring s then
       s ← server_abandon_mirror super s;
       if server_is_closed s then Ok (0, str "1: mirror completed" ++ [LF], s)
       else Ok (1, str "0: mirror stopped" ++ [LF], s)
     else Ok (0, str "1: not mirroring" ++ [LF], s));
  Ok (result, out, server_unlock_start_mirror s).

(** The pid, the joins and the clock of a status report. *)
Record status_env := { se_pid : Z; se_join : Z -> Z; se_t1 : Z; se_t2 : Z; se_t3 : Z }.

Definition control_status (self : Z) (e : status_env) (s : server) : res (Z * list Z * server) :=
  '(st, s) ← status_create self (se_pid e) (se_join e) (se_t1 e) (se_t2 e) (se_t3 e) s;
  Ok (0, str "0: " ++ status_write st, s).

Definition control_client_cleanup (self : Z) (s : server) : server :=
  if server_acl_locked self s then server_unlock_acl s else s.

(** What the commands get from outside. *)
Record control_env := {
  ce_mirror : mirror_env;
  ce_super : server -> res server;
  ce_status : status_env
}.

(** The last branch writes 23 bytes from a literal of 20 and its NUL. *)
Definition control_dispatch (self : Z) (e : control_env) (lines : list (list Z)) (s : server)
    : res (Z * list Z * server) :=
  match lines with
  | [] => Ok (0, str "9: missing command" ++ [LF], s)
  | cmd :: args =>
      if streq cmd (str "acl") then control_acl self args s
      else if streq cmd (str "mirror") then control_mirror self (ce_mirror e) args s
      else if streq cmd (str "break") then control_break self (ce_super e) s
      else if streq cmd (str "status") then control_status self (ce_status e) s
      else if streq cmd (str "mirror_max_bps") then control_mirror_max_bps args s
      else out ← mem_load (str "10: unknown command" ++ [LF; 0]) 0 23; Ok (0, out, s)
  end.

(** An [error()] in a command runs the cleanup. The bytes written and the server. *)
Definition control_respond (self : Z) (fuel : nat) (e : control_env) (rx : list rd_event) (s : server)
    : res (list Z * server) :=
  '(lines, _) ← read_lines_until_blankline fuel 256 rx;
  '(_, out, s) ← control_dispatch self e lines s;
  Ok (out, control_client_cleanup self s).

(** ** The control thread *)

Record control := {
  socket_open : bool;                   (* control_fd is open *)
  open_signal : self_pipe;
  c_close_signal : self_pipe;
  mirror_state_mbox : mbox
}.

Definition control_create : control :=
  {| socket_open := false; open_signal := self_pipe_create; c_close_signal := self_pipe_create;
     mirror_state_mbox := mbox_create |}.

Definition control_signal_close (c : control) : res control :=
  p ← self_pipe_signal (c_close_signal c);
  Ok {| socket_open := socket_open c; open_signal := open_signal c; c_close_signal := p;
        mirror_state_mbox := mirror_state_mbox c |}.

(** [control_wait_for_close] returns once the descriptor is closed. *)
Definition control_wait_for_close (c : control) : res unit :=
  if socket_open c then Stop SBlock else Ok tt.

(** The answers of [socket], [bind] and [listen]. *)
Definition open_control_socket (sock bound listening : Z) : res Z :=
  if sock <? 0 then Stop SFatal
  else if bound <? 0 then Stop SFatal
  else if listening <? 0 then Stop SFatal
  else Ok sock.

Definition control_listen (sock bound listening : Z) (c : control) : res control :=
  _ ← open_control_socket sock bound listening;
  Ok {| socket_open := true; open_signal := open_signal c; c_close_signal := c_close_signal c;
        mirror_state_mbox := mirror_state_mbox c |}.

(** [select] returns when the signal is there. *)
Definition control_wait_for_open_signal (sel : Z) (c : control) : res control :=
  if sel <? 0 then Stop SFatal
  else Ok {| socket_open := socket_open c; open_signal := (self_pipe_signal_clear (open_signal c)).2;
             c_close_signal := c_close_signal c; mirror_state_mbox := mirror_state_mbox c |}.

(** A round of the thread: [select]'s result, what is ready, the client [accept]
    returns, its data, and what its command gets from outside. *)
Record control_round := {
  cr_select : Z;
  cr_close : bool;
  cr_ready : bool;
  cr_accept : Z;
  cr_rx : list rd_event;
  cr_env : control_env
}.

(** Whether to go on, what is written to the client, and the server. *)
Definition control_accept (self : Z) (fuel : nat) (r : control_round) (s : server) : res (bool * list Z * server) :=
  if cr_select r <=? 0 then Stop SFatal
  else if cr_close r then Ok (false, [], s)
  else if cr_ready r then
    if cr_accept r =? -1 then Stop SFatal
    else '(out, s) ← control_respond self fuel (cr_env r) (cr_rx r) s; Ok (true, out, s)
  else Ok (true, [], s).

Fixpoint control_accept_loop (self : Z) (fuel : nat) (rounds : list control_round) (s : server)
    : res (list (list Z) * server) :=
  match rounds with
  | [] => Stop SBlock
  | r :: rounds' =>
      '(go, out, s) ← control_accept self fuel r s;
      if (go : bool) then '(outs, s) ← control_accept_loop self fuel rounds' s; Ok (out :: outs, s)
      else Ok ([], s)
  end.

Definition control_serve (self : Z) (fuel : nat) (sel sock bound listening : Z) (rounds : list control_round)
    (c : control) (s : server) : res (list (list Z) * control * server) :=
  c ← control_wait_for_open_signal sel c;
  c ← control_listen sock bound listening c;
  '(outs, s) ← control_accept_loop self fuel rounds s;
  Ok (outs, c, s).

(** [unlink] and [close]. *)
Definition control_cleanup (c : control) : control :=
  {| socket_open := false; open_signal := open_signal c; c_close_signal := c_close_signal c;
     mirror_state_mbox := mirror_state_mbox c |}.

Definition control_runner (self : Z) (fuel : nat) (sel sock bound listening : Z) (rounds : list control_round)
    (c : control) (s : server) : res (list (list Z) * control * server) :=
  '(outs, c, s) ← control_serve self fuel sel sock bound listening rounds c s;
  Ok (outs, control_cleanup c, s).
End Commands.

(** * Lemmas *)

(** Text without a newline or a NUL. *)
Definition clean (l : list Z) : Prop := LF ∉ l /\ 0 ∉ l.

Lemma clean_app l k : clean (l ++ k) <-> clean l /\ clean k.
Proof. unfold clean. rewrite !not_elem_of_app. tauto. Qed.

(** A response the client understands: a digit, a colon, a space and a line of text,
    short enough for the client's buffer. *)
Definition one_line (out : list Z) : Prop :=
  exists code text, out = code :: 58 :: 32 :: text ++ [LF] /\ is_digit code = true /\ clean text /\
    (length text <= 1000)%nat.

(** A literal message. *)
Ltac literal_line :=
  match goal with
  | |- one_line ?out => let v := eval vm_compute in out in
      change out with v;
      match v with ?c :: 58 :: 32 :: ?rest =>
        let t := eval vm_compute in (take (length rest - 1) rest) in
        exists c, t; split_and!; [reflexivity | reflexivity | split; by_decide | cbn; lia] end
  end.

Lemma mirror_response_line st : one_line (control_write_mirror_response st).1.
Proof. destruct st; literal_line. Qed.

(** The wait takes the state that was posted. *)
Lemma mirror_wait_posted deref p b :
  p <> 0 -> control_client_mirror_wait deref (post_finish p b) = Ok (deref p, mbox_create).
Proof. intros Hp. unfold control_client_mirror_wait. cbn. by apply Z.eqb_neq in Hp as ->. Qed.

(** The state the supervisor commits is the one the control client is told. *)
Lemma committed_state_received p st deref :
  p <> 0 -> exists b deref', mirror_super_signal_committed p st deref mbox_create = Some (b, deref') /\
    control_client_mirror_wait deref' b = Ok (st, mbox_create).
Proof.
  intros Hp. eexists _, _. split; [reflexivity |]. unfold control_client_mirror_wait. cbn.
  apply Z.eqb_neq in Hp. by rewrite Hp, Z.eqb_refl.
Qed.

(** ** What the commands leave alone *)

(** Neither lock is held. *)
Lemma lock_start_mirror_unlocked self s :
  unlocked s -> server_lock_start_mirror self s = Ok (s <| l_start_mirror := {| holder := self |} |>).
Proof. intros [_ H]. unfold server_lock_start_mirror, flexthread_mutex_lock. by rewrite H. Qed.

(** A thread that is waited for keeps the locks as they are. *)
Definition keeps_locks (s s' : server) : Prop := l_acl s' = l_acl s /\ l_start_mirror s' = l_start_mirror s.

Lemma print_digits_digits fuel : forall n acc, decimal acc ->
  decimal (print_digits fuel n acc) /\ (length (print_digits fuel n acc) <= fuel + length acc)%nat.
Proof.
  induction fuel as [| fuel IH]; intros n acc Ha; cbn [print_digits]; [by split; [| lia] |].
  assert (Hd : decimal ((48 + n mod 10) :: acc)).
  { constructor; [| done]. pose proof (Z.mod_pos_bound n 10 ltac:(lia)). unfold is_digit. lia. }
  destruct (n <? 10); [split; [done | cbn; lia] |].
  destruct (IH (n / 10) _ Hd) as [H1 H2]. split; [done | cbn [length] in H2; lia].
Qed.

(** A value in a report: clean, and at most 21 characters. *)
Definition short_value (l : list Z) : Prop := clean l /\ (length l <= 21)%nat.

Lemma decimal_clean s : decimal s -> clean s.
Proof. intros Hd. unfold decimal in Hd. rewrite list.Forall_forall in Hd. split; intros Hin; by specialize (Hd _ Hin). Qed.

Lemma uint64_short n : clean (print_uint64 n) /\ (length (print_uint64 n) <= 20)%nat.
Proof. destruct (print_digits_digits 20 n []) as [H1 H2]; [apply Forall_nil_2 |]. split; [by apply decimal_clean | exact H2]. Qed.

Lemma number_short n : short_value (print_uint64 n) /\ short_value (print_int n).
Proof.
  assert (H : forall m, short_value (print_uint64 m)) by (intros m; destruct (uint64_short m); split; [done | lia]).
  split; [apply H |]. unfold print_int. destruct (n <? 0); [| apply H]. destruct (uint64_short (- n)) as [[] Hl].
  split; [split; rewrite not_elem_of_cons; by split | cbn [length]; lia].
Qed.

(** A label is clean and short too. *)
Lemma field_clean l v : short_value v -> clean l -> (length l <= 30)%nat ->
  clean (print_field l v) /\ (length (print_field l v) <= 60)%nat.
Proof.
  intros [Hv Lv] Hl Ll. unfold print_field. rewrite !clean_app, !length_app. cbn [length].
  split; [| lia]. split_and!; [done | split; by_decide | done | split; by_decide].
Qed.

Lemma concat_clean ls :
  Forall (fun l => clean l /\ (length l <= 60)%nat) ls -> clean (concat ls) /\ (length (concat ls) <= 60 * length ls)%nat.
Proof.
  induction 1 as [| l ls [H1 H2] _ [IH1 IH2]]; cbn [concat length]; [by split; [split; apply not_elem_of_nil | lia] |].
  rewrite clean_app, length_app. split; [done | lia].
Qed.

(** A report is one line. *)
Lemma status_one_line st : one_line (str "0: " ++ status_write st).
Proof.
  rewrite status_write_pairs. set (fields := (fun p => print_field p.1 p.2) <$> status_pairs st).
  assert (Hlen : (length fields <= 11)%nat).
  { unfold fields. rewrite length_fmap. unfold status_pairs.
    destruct (st_is_mirroring st); [destruct (migration_speed_limit st <? UINT64_MAX) |]; cbn; lia. }
  assert (Hall : Forall (fun l => clean l /\ (length l <= 60)%nat) fields).
  { assert (HB : forall b, short_value (BOOL_S b)) by (intros []; (split; [split; by_decide | cbn; lia])).
    assert (HI : forall n, short_value (print_int n)) by (intros n; apply number_short).
    assert (HU : forall n, short_value (print_uint64 n)) by (intros n; apply number_short).
    unfold fields, status_pairs. destruct (st_is_mirroring st); [destruct (migration_speed_limit st <? UINT64_MAX) |];
      cbn [app]; rewrite ?fmap_cons; cbn [fmap list_fmap fst snd];
      repeat (apply Forall_cons_2; [apply field_clean; [first [apply HB | apply HI | apply HU] | split; by_decide | cbn; lia] |]);
      apply Forall_nil_2. }
  destruct (concat_clean _ Hall). exists 48, (concat fields). split_and!; [done | done | done | lia].
Qed.

(** ** Lines that parse *)

Section Short.
Context (pton4 pton6 : list Z -> option (list Z)).

Lemma copy_ip_chars_length n src : (length (copy_ip_chars n src) <= n)%nat /\ (length (copy_ip_chars n src) <= length src)%nat.
Proof.
  revert src. induction n as [| n IH]; intros [| c src]; cbn [copy_ip_chars length]; [lia | lia | lia |].
  destruct (IS_IP_VALID_CHAR c); cbn [length]; [| lia]. specialize (IH src). lia.
Qed.

(** No address of fewer than 64 characters overruns [temp]. *)
Lemma parse_ip_total out src :
  (length src < 64)%nat -> exists r, parse_ip_to_sockaddr pton4 pton6 out src = Ok r.
Proof.
  intros Hl. unfold parse_ip_to_sockaddr.
  assert (Ht : zlen (ip_temp src) < 64).
  { unfold zlen, ip_temp. destruct src as [| c src]; [simpl; lia |].
    pose proof (copy_ip_chars_length 63 src). pose proof (copy_ip_chars_length 64 (c :: src)).
    destruct (c =? 91); lia. }
  replace (64 <=? zlen (ip_temp src)) with false by lia. case_bool_decide; [by eexists |].
  destruct (pton4 _); [by eexists |]. destruct (pton6 _); by eexists.
Qed.

Lemma parse_acl_total lines :
  Forall (fun l => (length l < 64)%nat) lines -> exists es, parse_acl pton4 pton6 lines = Ok es /\ (length es <= length lines)%nat.
Proof.
  induction 1 as [| l lines Hl _ (es & E & He)]; cbn [parse_acl]; [by exists [] |].
  unfold parse_acl_entry. destruct (parse_ip_total zero_sockaddr l Hl) as (r & ->). cbn [mbind res_bind].
  destruct r as [a |]; [| exists []; cbn; split; [done | lia]].
  destruct (after_slash l); [destruct (_ || _) |]; cbn [mbind res_bind]; rewrite ?E; cbn [mbind res_bind];
    eexists; (split; [reflexivity |]); cbn; lia.
Qed.

(** A branch that refuses with a literal message. *)
Ltac bad_line := eexists; split; [reflexivity | intros ? [= <-]; literal_line].

Lemma parse_mirror_total lines :
  Forall (fun l => (length l < 64)%nat) lines ->
  exists r, parse_mirror pton4 pton6 lines = Ok r /\ (forall msg, r = inl msg -> one_line (write_socket msg)).
Proof.
  intros H. unfold parse_mirror.
  destruct H as [| l0 ls H0 H]; [bad_line |].
  destruct H as [| l1 rest H1 H]; [bad_line |].
  destruct (parse_ip_total zero_sockaddr l0 H0) as (r & ->). cbn [mbind res_bind].
  destruct r as [to |]; [| bad_line].
  destruct (_ || _); [bad_line |].
  destruct (parse_action _); [| bad_line].
  assert (Hb : exists r, parse_bind pton4 pton6 (rest !! 1%nat) = Ok r).
  { destruct (rest !! 1%nat) as [l |] eqn:E; [| by eexists]. cbn [parse_bind].
    destruct (parse_ip_total zero_sockaddr l) as (r & ->); [by apply (Forall_lookup_1 _ _ _ _ H E) |].
    cbn [mbind res_bind]. by eexists. }
  destruct Hb as (r & ->). cbn [mbind res_bind].
  destruct r as [from |]; [| bad_line].
  destruct (match rest !! 2%nat with Some _ => _ | None => _ end) as [bps erange].
  destruct erange; [bad_line |].
  destruct (3 <? zlen rest); eexists; (split; [reflexivity |]); intros ? [= <-]; literal_line.
Qed.
End Short.

(** ** A command on a sound server *)

(** A server the control thread can work on. *)
Record control_ready (s : server) : Prop := {
  cr_tbl : tbl_ok s;
  cr_numbers : numbers_ok s;
  cr_unlocked : unlocked s;
  cr_acl : the_acl s <> None;
  cr_signal : sp_open (acl_updated_signal s) = true /\ 0 <= sp_bytes (acl_updated_signal s) < PIPE_CAPACITY;
  cr_mirror : mirror_ready s
}.

(** Threads are joined or still busy, and a supervisor that is waited for leaves the
    locks alone; the files of a new mirror open and its thread starts, and the
    supervisor posts a state that a mirror ends its start in. *)
Record control_env_ok (e : control_env) : Prop := {
  co_joins : joins_ok (se_join (ce_status e));
  co_pid : - 2 ^ 31 <= se_pid (ce_status e) < 2 ^ 31;
  co_clock : 0 <= se_t1 (ce_status e) < 2 ^ 64;
  co_super : super_ok (ce_super e);
  co_open : 0 <= me_opened (ce_mirror e) /\ 0 <= me_madvised (ce_mirror e) /\ me_create (ce_mirror e) = 0;
  co_start : forall a s, exists p s', me_super (ce_mirror e) a s = Ok (post_finish p mbox_create, s') /\ p <> 0 /\
    keeps_locks s s' /\ me_deref (ce_mirror e) p <> MS_INIT /\ me_deref (ce_mirror e) p <> MS_UNKNOWN
}.

(** The effect of a command on the client and on the locks. *)
Definition responds (r : res (Z * list Z * server)) : Prop :=
  exists v out s', r = Ok (v, out, s') /\ one_line out /\ unlocked s'.

Section Responses.
Context (pton4 pton6 : list Z -> option (list Z)) (self : Z).

Lemma replace_acl_ok s a :
  control_ready s -> server_replace_acl self s a =
    Ok (s <| the_acl := Some a |> <| l_acl := flexthread_mutex_create |>
          <| acl_updated_signal := {| sp_bytes := sp_bytes (acl_updated_signal s) + 1; sp_open := true |} |>).
Proof.
  intros []. unfold server_replace_acl, server_lock_acl, flexthread_mutex_lock.
  destruct cr_unlocked0 as [-> _]. cbn [Z.eqb mbind res_bind]. unfold self_pipe_signal.
  destruct cr_signal0 as [H1 H2].
  change (acl_updated_signal (server_unlock_acl _)) with (acl_updated_signal s). rewrite H1.
  by replace (PIPE_CAPACITY <=? sp_bytes (acl_updated_signal s)) with false by lia.
Qed.

(** The two ends of [control_acl]. *)
Lemma acl_updates lines es a s :
  control_ready s -> the_acl s = Some a -> parse_acl pton4 pton6 lines = Ok es -> length es = length lines ->
  control_acl pton4 pton6 self lines s =
    Ok (0, str "0: updated" ++ [LF],
        s <| the_acl := Some {| acl_len := zlen es; default_deny := default_deny a; acl_entries := es |} |>
          <| l_acl := flexthread_mutex_create |>
          <| acl_updated_signal := {| sp_bytes := sp_bytes (acl_updated_signal s) + 1; sp_open := true |} |>).
Proof.
  intros Hr Ha E Hz. unfold control_acl, server_default_deny, acl_create. rewrite Ha. cbn [of_opt mbind res_bind].
  rewrite E. cbn [mbind res_bind acl_len]. replace (zlen es =? zlen lines) with true by (unfold zlen; lia).
  cbn [negb]. by rewrite replace_acl_ok by done.
Qed.

Lemma acl_refuses lines es a bad s :
  the_acl s = Some a -> parse_acl pton4 pton6 lines = Ok es -> length es <> length lines ->
  lines !! length es = Some bad ->
  control_acl pton4 pton6 self lines s = Ok (0, str "1: bad spec: " ++ bad ++ [LF], s).
Proof.
  intros Ha E Hz Hb. unfold control_acl, server_default_deny, acl_create. rewrite Ha. cbn [of_opt mbind res_bind].
  rewrite E. cbn [mbind res_bind acl_len]. replace (zlen es =? zlen lines) with false by (unfold zlen; lia).
  cbn [negb]. unfold zlen. rewrite Nat2Z.id, Hb. done.
Qed.

Lemma refusal_line bad : (length bad < 64)%nat -> clean bad -> one_line (str "1: bad spec: " ++ bad ++ [LF]).
Proof using.
  intros Hlen Hb. exists 49, (str "bad spec: " ++ bad). split_and!; [done | done | | rewrite length_app; cbn; lia].
  apply clean_app. split; [split; by_decide | done].
Qed.

Lemma acl_responds lines s :
  control_ready s -> Forall (fun l => (length l < 64)%nat /\ clean l) lines ->
  responds (control_acl pton4 pton6 self lines s).
Proof.
  intros Hr Hl. apply Forall_and in Hl as [Hshort Hlf]. pose proof (cr_acl _ Hr) as Ha.
  destruct (the_acl s) as [a |] eqn:Ea; [| done].
  destruct (parse_acl_total pton4 pton6 lines Hshort) as (es & E & He).
  destruct (decide (length es = length lines)) as [Hz | Hz].
  - rewrite (acl_updates lines es a s) by done. eexists _, _, _. split; [reflexivity |].
    split; [literal_line | split; [done | apply (cr_unlocked _ Hr)]].
  - destruct (lines !! length es) as [bad |] eqn:Eb; [| apply lookup_ge_None_1 in Eb; lia].
    rewrite (acl_refuses lines es a bad s) by done. eexists _, _, _. split; [reflexivity |].
    split; [| apply (cr_unlocked _ Hr)]. apply refusal_line.
    + by apply (Forall_lookup_1 _ _ _ _ Hshort Eb).
    + by apply (Forall_lookup_1 _ _ _ _ Hlf Eb).
Qed.

Lemma mirror_responds e lines s :
  control_ready s -> control_env_ok e -> Forall (fun l => (length l < 64)%nat) lines -> mirror_super s = false ->
  responds (control_mirror pton4 pton6 self (ce_mirror e) lines s).
Proof.
  intros Hr He Hl Hs. unfold control_mirror.
  destruct (parse_mirror_total pton4 pton6 lines Hl) as (r & -> & Hmsg). cbn [mbind res_bind].
  destruct r as [msg | a]; [eexists _, _, _; split; [reflexivity | split; [by apply Hmsg | apply Hr]] |].
  rewrite lock_start_mirror_unlocked by apply Hr. cbn [mbind res_bind].
  destruct (co_open _ He) as (Ho & Hm & Hc).
  destruct (server_mirror_can_start _).
  - unfold mirror_super_create, mirror_create, mirror_init. replace (me_opened _ <? 0) with false by lia.
    replace (me_madvised _ <? 0) with false by lia. cbn [mbind res_bind].
    match goal with |- context [mirror_super ?x] => change (mirror_super x) with true end. cbn iota.
    rewrite Hc. cbn [Z.eqb negb].
    match goal with |- context [me_super _ a ?x] => destruct (co_start _ He a x) as (p & s' & -> & Hp & [K1 K2] & N1 & N2) end.
    cbn [mbind res_bind]. rewrite mirror_wait_posted by done. cbn [mbind res_bind].
    set (st := me_deref _ p) in *. pose proof (mirror_response_line st) as Hline.
    destruct st; try done; (eexists _, _, _; split; [reflexivity |]; split; [exact Hline |];
      split; [by rewrite K1; apply (cr_unlocked _ Hr) | by rewrite K2]).
  - match goal with |- context [mirror_super ?x] => change (mirror_super x) with (mirror_super s) end.
    rewrite Hs. cbn [mbind res_bind].
    match goal with |- context [mirror_super ?x] => change (mirror_super x) with (mirror_super s) end.
    rewrite Hs. eexists _, _, _. split; [reflexivity |]. split; [literal_line | split; [apply (cr_unlocked _ Hr) | done]].
Qed.

Lemma break_responds e s : control_ready s -> control_env_ok e -> responds (control_break self (ce_super e) s).
Proof.
  intros Hr He. unfold control_break. rewrite lock_start_mirror_unlocked by apply Hr. cbn [mbind res_bind].
  set (s1 := s <| l_start_mirror := _ |>).
  destruct (abandon_spec (ce_super e) s1 (co_super _ He)) as (s2 & E & _ & K & _); [exact (cr_mirror _ Hr) |].
  destruct (server_is_mirroring s1).
  - rewrite E. cbn [mbind res_bind].
    destruct (server_is_closed s2); cbn [mbind res_bind]; (eexists _, _, _; split; [reflexivity |];
      split; [literal_line | split; [| done]]); change (holder (l_acl s2) = 0); rewrite K; apply (cr_unlocked _ Hr).
  - cbn [mbind res_bind]. eexists _, _, _. split; [reflexivity |].
    split; [literal_line | split; [apply (cr_unlocked _ Hr) | done]].
Qed.

Lemma status_responds e s : control_ready s -> control_env_ok e -> responds (control_status self (ce_status e) s).
Proof.
  intros Hr He. unfold control_status.
  destruct (status_create_spec self (se_pid (ce_status e)) (se_join (ce_status e)) (se_t1 (ce_status e))
    (se_t2 (ce_status e)) (se_t3 (ce_status e)) s) as (st & s' & -> & _ & R & K & _); try apply Hr; try apply He.
  { intros Hm. destruct (cr_mirror _ Hr Hm) as (m & -> & _). done. }
  cbn [mbind res_bind]. eexists _, _, _. split; [reflexivity |]. split; [apply status_one_line |].
  split; [rewrite (rp_frame _ _ R); apply (cr_unlocked _ Hr) | done].
Qed.

Lemma max_bps_responds lines s : control_ready s -> responds (control_mirror_max_bps lines s).
Proof.
  intros Hr. unfold control_mirror_max_bps. pose proof (cr_mirror _ Hr) as Hm. unfold mirror_ready in Hm.
  destruct (mirror_super s); cbn [negb].
  2:{ eexists _, _, _. split; [reflexivity |]. split; [literal_line | apply Hr]. }
  destruct (Hm eq_refl) as (m & -> & _). cbn [of_opt mbind res_bind].
  destruct lines as [| l [| ? ?]]; [| destruct (strtoull l) as [bps []] |];
    (eexists _, _, _; split; [reflexivity |]; split; [literal_line | apply Hr]).
Qed.
End Responses.

(** The commands the control socket documents. *)
Definition commands : list (list Z) := [str "acl"; str "mirror"; str "break"; str "status"; str "mirror_max_bps"].

(** Every documented command is handled to its end, on every branch. *)
Lemma dispatch_responds pton4 pton6 self e cmd args s :
  control_ready s -> control_env_ok e -> cmd ∈ commands ->
  Forall (fun l => (length l < 64)%nat /\ clean l) args ->
  (cmd = str "mirror" -> mirror_super s = false) ->
  responds (control_dispatch pton4 pton6 self e (cmd :: args) s).
Proof.
  intros Hr He Hc Hl Hm. unfold control_dispatch.
  unfold commands in Hc. rewrite !elem_of_cons in Hc. destruct Hc as [-> | [-> | [-> | [-> | [-> | Hc]]]]].
  - by apply acl_responds.
  - apply (mirror_responds pton4 pton6 self e); [done | done | | by apply Hm].
    by apply (Forall_impl _ _ _ Hl); intros ? [? ?].
  - by apply (break_responds self e).
  - by apply (status_responds self e).
  - by apply max_bps_responds.
  - by apply not_elem_of_nil in Hc.
Qed.

(** A supervisor that connects, and one that ends at once. *)
Definition sample_control_env : control_env :=
  {| ce_mirror := {| me_opened := 5; me_madvised := 0; me_create := 0; me_super := fun _ s => Ok (post_finish 8 mbox_create, s);
                    me_deref := fun _ => MS_GO |};
     ce_super := fun s => Ok s;
     ce_status := {| se_pid := 42; se_join := fun _ => EBUSY; se_t1 := 0; se_t2 := 0; se_t3 := 0 |} |}.

Lemma sample_control_env_ok : control_env_ok sample_control_env.
Proof.
  constructor; cbn; [by right | lia | lia | | lia |].
  - intros t. exists t. done.
  - intros a s. by exists 8, s.
Qed.

Lemma sample_control_ready deny : control_ready (sample_server deny).
Proof.
  constructor; [apply sample_server_ok | | done | done | done |].
  - constructor; cbn; try lia; done.
  - intros H. discriminate H.
Qed.

(** * Properties *)

(** A mirror command while a mirror is running says so, and then starts a second
    supervisor for it all the same, and answers again: the test behind the lock asks
    for [mirror_super], which is the first one's. *)
Theorem second_mirror_spawns_again pton4 pton6 self e lines a s p s' :
  parse_mirror pton4 pton6 lines = Ok (inr a) -> unlocked s -> mirror_can_start s = false -> mirror_super s = true ->
  me_create e = 0 -> me_super e a s = Ok (post_finish p mbox_create, s') -> p <> 0 -> me_deref e p = MS_GO ->
  control_mirror pton4 pton6 self e lines s =
    Ok (0, write_socket (str "1: mirror already running") ++ write_socket (str "0: Mirror started"), s').
Proof.
  intros Hp Hu Hc Hm He Hs Hp0 Hst. unfold control_mirror. rewrite Hp. cbn [mbind res_bind].
  rewrite lock_start_mirror_unlocked by done. cbn [mbind res_bind].
  change (server_mirror_can_start _) with (mirror_can_start s). rewrite Hc.
  change (mirror_super (s <| l_start_mirror := _ |>)) with (mirror_super s). rewrite Hm. cbn [mbind res_bind].
  match goal with |- context [server_unlock_start_mirror ?x] =>
    assert (server_unlock_start_mirror x = s) as -> end.
  { destruct Hu as [_ Hu]. destruct s as [? ? ? ? ? ? ? [h] ?]. cbn in Hu. by subst h. }
  rewrite Hm, He, Hs. cbn [Z.eqb negb mbind res_bind]. rewrite mirror_wait_posted, Hst by done. done.
Qed.

(** Any other command makes [write] read 23 bytes of a literal of 21. *)
Theorem unknown_command_overreads pton4 pton6 self e cmd args s :
  cmd ∉ commands -> control_dispatch pton4 pton6 self e (cmd :: args) s = Stop SFault.
Proof.
  unfold commands. rewrite !not_elem_of_cons. intros (H1 & H2 & H3 & H4 & H5 & _).
  unfold control_dispatch, streq. by rewrite !bool_decide_eq_false_2.
Qed.
