(* ===== verification/Handover.v ===== *)
(** * The hand-over between mirror, supervisor and control thread

    Models how the threads of src/src/server/mirror.c and control.c that start a
    migration work together: [mirror_runner] posts how its connection went to
    [commit_signal], [mirror_super_runner] takes it, passes the first one on to the
    control thread by [state_mbox], joins the mirror thread and decides whether to
    try again, and the control thread waits for that one state
    ([control_client_mirror_wait]). The threads move in any order; a call on a
    mailbox is one step (Mbox.v shows what is inside it), and so is the connection
    and the migration proper. The theorem says that the functions of Mirror.v, which
    run the attempts one after the other, are what the threads do together. *)

From stdpp Require Import relations.
From S2P Require Import Prelude Text Bitset NbdTypes IoUtil SockUtil ReadWrite Parse Acl Mbox Serve Mirror Status Control.

Open Scope Z_scope.

(** ** One attempt *)

(** [mirror_connect], the seconds it took, and [mirror_run] of one attempt. *)
Record attempt := {
  at_connect : mirror -> res (bool * mirror);
  at_elapsed : Z;
  at_run : server -> res (bool * server)
}.

Definition attempt_runner (a : attempt) : server -> res (mirror_state * server) :=
  mirror_runner (at_connect a) (at_elapsed a) (at_run a).

(** [mirror_runner] up to [mirror_signal_commit]. *)
Definition runner_connect (a : attempt) (s : server) : res (bool * server) :=
  with_mirror s (fun m => '(connected, m) ← at_connect a m; Ok (connected, s <| s_mirror := Some m |>)).

(** [mirror_runner] from there on. *)
Definition runner_rest (a : attempt) (connected : bool) (s : server) : res server :=
  with_mirror s (fun m =>
    if negb connected then Ok s
    else if MS_CONNECT_TIME_SECS <? at_elapsed a then
      Ok (s <| s_mirror := Some (mirror_set_state m MS_FAIL_CONNECT) |>)
    else
      '(ok, s) ← at_run a s;
      if (ok : bool) then
        with_mirror s (fun m => Ok (if m_client m <? 0 then s else s <| s_mirror := Some (m <| m_client := -1 |>) |>))
      else mirror_cleanup s).

(** [mirror_super_runner] after it has joined the mirror thread: whether there is
    another round, and [should_retry]. *)
Definition super_decide (should_retry : bool) (s : server) : res (bool * bool * server) :=
  with_mirror s (fun m =>
    let is_ab := bool_decide (mirror_get_state m = MS_ABANDONED) in
    let '(sig, p) := self_pipe_signal_clear (abandon_signal m) in
    let m := if is_ab then m else m <| abandon_signal := p |> in
    let abandoned := is_ab || (sig =? 1) in
    let ok := bool_decide (mirror_get_state m = MS_DONE) in
    let should_retry := if ok then should_retry else if abandoned then false else should_retry in
    Ok (should_retry && negb ok, should_retry, s <| s_mirror := Some (if should_retry then mirror_reset m else m) |>)).

(** ** The threads *)

(** Where the mirror thread is. *)
Inductive mt_state := MtNone | MtConnect | MtPost (connected : bool) | MtRun (connected : bool) | MtEnd.

(** Where the supervisor is: before [pthread_create], waiting for the commit, passing
    it on, joining, gone. *)
Inductive sp_state := SpCreate | SpWait | SpPost (st : mirror_state) | SpJoin | SpEnd.

Record hand := {
  h_server : server;
  h_todo : list attempt;         (* the attempt under way and those that may come *)
  h_mirror : mt_state;
  h_super : sp_state;
  h_commit : mbox;               (* mirror->commit_signal *)
  h_state : mbox;                (* super->state_mbox *)
  h_mem : Z -> mirror_state;     (* what the posted pointers point to *)
  h_brk : Z;                     (* the next address of xmalloc *)
  h_first : bool;
  h_retry : bool;
  h_posted : option mirror_state;(* what went to state_mbox *)
  h_count : Z;
  h_told : option mirror_state   (* what the control thread was told *)
}.

#[export] Instance hand_eta : Settable hand := fun y =>
  Build_hand (h_server y) (h_todo y) (h_mirror y) (h_super y) (h_commit y) (h_state y) (h_mem y) (h_brk y)
    (h_first y) (h_retry y) (h_posted y) (h_count y) (h_told y).

Inductive hand_step (y : hand) : hand -> Prop :=
| hs_create a atts : h_super y = SpCreate -> h_todo y = a :: atts ->
    hand_step y (y <| h_mirror := MtConnect |> <| h_super := SpWait |>)
| hs_connect a atts connected s : h_mirror y = MtConnect -> h_todo y = a :: atts ->
    runner_connect a (h_server y) = Ok (connected, s) ->
    hand_step y (y <| h_server := s |> <| h_mirror := MtPost connected |>)
| hs_commit connected m b mem : h_mirror y = MtPost connected -> s_mirror (h_server y) = Some m ->
    mirror_signal_commit (h_brk y) m (h_mem y) (h_commit y) = Some (b, mem) ->
    hand_step y (y <| h_mirror := MtRun connected |> <| h_commit := b |> <| h_mem := mem |> <| h_brk := h_brk y + 1 |>)
| hs_run a atts connected s : h_mirror y = MtRun connected -> h_todo y = a :: atts ->
    runner_rest a connected (h_server y) = Ok s ->
    hand_step y (y <| h_server := s |> <| h_mirror := MtEnd |>)
| hs_receive p b : h_super y = SpWait -> mbox_receive (h_commit y) = Some (p, b) ->
    hand_step y (y <| h_commit := b |>
      <| h_super := if h_first y then SpPost (h_mem y p) else SpJoin |>
      <| h_retry := if h_first y then bool_decide (h_mem y p = MS_GO) else h_retry y |>)
| hs_pass st b mem : h_super y = SpPost st ->
    mirror_super_signal_committed (h_brk y) st (h_mem y) (h_state y) = Some (b, mem) ->
    hand_step y (y <| h_super := SpJoin |> <| h_state := b |> <| h_mem := mem |> <| h_brk := h_brk y + 1 |>
      <| h_posted := Some st |>)
| hs_join a atts again retry s : h_super y = SpJoin -> h_mirror y = MtEnd -> h_todo y = a :: atts ->
    super_decide (h_retry y) (h_server y) = Ok (again, retry, s) ->
    hand_step y (y <| h_server := s |> <| h_todo := atts |> <| h_mirror := MtNone |>
      <| h_super := if again then SpCreate else SpEnd |> <| h_first := false |> <| h_retry := retry |>
      <| h_count := h_count y + 1 |>)
| hs_told st b : h_told y = None -> control_client_mirror_wait (h_mem y) (h_state y) = Ok (st, b) ->
    hand_step y (y <| h_state := b |> <| h_told := Some st |>).

(** The supervisor's thread and its mirror have just been created. *)
Definition hand_start (atts : list attempt) (s : server) : hand :=
  {| h_server := s; h_todo := atts; h_mirror := MtNone; h_super := SpCreate; h_commit := mbox_create;
     h_state := mbox_create; h_mem := fun _ => MS_UNKNOWN; h_brk := 1; h_first := true; h_retry := false;
     h_posted := None; h_count := 0; h_told := None |}.

(** * Lemmas *)

(** ** The attempts one after the other *)

Lemma runner_split a s :
  attempt_runner a s =
    ('(connected, s1) ← runner_connect a s;
     m ← of_opt SFault (s_mirror s1);
     s2 ← runner_rest a connected s1;
     Ok (mirror_get_state m, s2)).
Proof.
  unfold attempt_runner, mirror_runner, runner_connect, runner_rest, with_mirror.
  destruct (s_mirror s) as [m |]; [| done]. cbn [of_opt mbind res_bind].
  destruct (at_connect a m) as [[connected m1] |]; [| done]. cbn [of_opt mbind res_bind s_mirror set_field].
  destruct connected; cbn [negb]; [| done]. destruct (MS_CONNECT_TIME_SECS <? at_elapsed a); [done |].
  destruct (at_run a _) as [[[] s2] |]; [| | done]; cbn [mbind res_bind].
  - destruct (s_mirror s2) as [m2 |]; [| done]. cbn [of_opt mbind res_bind]. done.
  - unfold mirror_cleanup, with_mirror. destruct (s_mirror s2); done.
Qed.

(** What is left of the supervisor's loop after a join. *)
Definition decided (retry : bool) (posted : option mirror_state) (n : Z) (atts : list attempt) (s : server)
    : res (option mirror_state * Z * server) :=
  '(again, retry, s) ← super_decide retry s;
  if (again : bool) then mirror_super_runner (attempt_runner <$> atts) false retry posted (n + 1) s
  else Ok (posted, n + 1, s).

Lemma super_runner_step a atts first retry posted n s :
  mirror_super_runner (attempt_runner <$> a :: atts) first retry posted n s =
    ('(commit, s) ← attempt_runner a s;
     decided (if first then bool_decide (commit = MS_GO) else retry) (if first then Some commit else posted) n atts s).
Proof.
  cbn [fmap list_fmap mirror_super_runner]. destruct (attempt_runner a s) as [[commit s1] |]; [| done].
  cbn [mbind res_bind]. unfold decided, super_decide, with_mirror. destruct (s_mirror s1) as [m |]; [| done].
  cbn [of_opt mbind res_bind]. destruct (self_pipe_signal_clear (abandon_signal m)) as [sig p].
  set (m' := if bool_decide _ then m else _). cbn [mbind res_bind].
  destruct (bool_decide (mirror_get_state m' = MS_DONE)); done.
Qed.

(** What remains of the mirror thread. *)
Definition runner_left (a : attempt) (y : hand) : res server :=
  match h_mirror y with
  | MtNone => Stop SBlock
  | MtConnect => '(connected, s) ← runner_connect a (h_server y); runner_rest a connected s
  | MtPost connected | MtRun connected => runner_rest a connected (h_server y)
  | MtEnd => Ok (h_server y)
  end.

(** The state it commits to, while the supervisor has not taken it. *)
Definition commit_left (a : attempt) (y : hand) : res mirror_state :=
  match h_mirror y with
  | MtNone => Stop SBlock
  | MtConnect => '(_, s) ← runner_connect a (h_server y); m ← of_opt SFault (s_mirror s); Ok (mirror_get_state m)
  | MtPost _ => m ← of_opt SFault (s_mirror (h_server y)); Ok (mirror_get_state m)
  | MtRun _ | MtEnd => Ok (h_mem y (contents (h_commit y)))
  end.

(** Running the rest of the attempts one after the other. *)
Definition outcome (y : hand) : res (option mirror_state * Z * server) :=
  match h_super y, h_todo y with
  | SpCreate, atts => mirror_super_runner (attempt_runner <$> atts) (h_first y) (h_retry y) (h_posted y) (h_count y) (h_server y)
  | SpEnd, _ => Ok (h_posted y, h_count y, h_server y)
  | _, [] => Stop SBlock
  | SpWait, a :: atts =>
      commit ← commit_left a y;
      s ← runner_left a y;
      decided (if h_first y then bool_decide (commit = MS_GO) else h_retry y)
        (if h_first y then Some commit else h_posted y) (h_count y) atts s
  | SpPost st, a :: atts => s ← runner_left a y; decided (h_retry y) (Some st) (h_count y) atts s
  | SpJoin, a :: atts => s ← runner_left a y; decided (h_retry y) (h_posted y) (h_count y) atts s
  end.

(** The mirror thread and its mailbox, seen from the supervisor. *)
Definition mirror_at (y : hand) : Prop :=
  match h_super y with
  | SpCreate | SpEnd => h_mirror y = MtNone /\ h_commit y = mbox_create
  | SpWait =>
      match h_mirror y with
      | MtNone => False
      | MtConnect => h_commit y = mbox_create
      | MtPost _ => h_commit y = mbox_create /\ s_mirror (h_server y) <> None
      | MtRun _ | MtEnd => exists p, h_commit y = post_finish p mbox_create /\ 0 < p < h_brk y
      end
  | SpPost _ | SpJoin =>
      match h_mirror y with MtRun _ | MtEnd => h_commit y = mbox_create | _ => False end
  end.

(** The state is passed on once, in the first round. *)
Definition posted_at (y : hand) : Prop :=
  match h_super y with
  | SpCreate | SpWait => h_posted y = None <-> h_first y = true
  | SpPost _ => h_posted y = None /\ h_first y = true
  | SpJoin | SpEnd => h_posted y <> None
  end.

(** The control thread and its mailbox. *)
Definition told_at (y : hand) : Prop :=
  match h_posted y with
  | None => h_state y = mbox_create /\ h_told y = None
  | Some st =>
      (h_state y = mbox_create /\ h_told y = Some st) \/
      (h_told y = None /\ exists p, h_state y = post_finish p mbox_create /\ 0 < p < h_brk y /\ h_mem y p = st)
  end.

Record hand_ok (v : option mirror_state * Z * server) (y : hand) : Prop := {
  ho_outcome : outcome y = Ok v;
  ho_mirror : mirror_at y;
  ho_posted : posted_at y;
  ho_told : told_at y;
  ho_brk : 0 < h_brk y
}.

(** A state posted at a fresh address, the others as they were. *)
Lemma post_state p st mem b r :
  mbox_post_mirror_state p st mem b = Some r ->
  full b = false /\ r = (post_finish p b, fun q => if q =? p then st else mem q).
Proof. unfold mbox_post_mirror_state, mbox_post. destruct (full b); [done |]. by intros [= <-]. Qed.

(** Every box here is empty or holds one pointer. *)
Lemma receive_post p b : mbox_receive (post_finish p b) = Some (p, mbox_create).
Proof. done. Qed.

(** A state at an older address survives a post. *)
Lemma mem_older (mem : Z -> mirror_state) brk p st : 0 < p < brk -> (if p =? brk then st else mem p) = mem p.
Proof. intros H. by replace (p =? brk) with false by lia. Qed.

Lemma connect_mirror a s connected s1 : runner_connect a s = Ok (connected, s1) -> s_mirror s1 <> None.
Proof.
  unfold runner_connect, with_mirror. destruct (s_mirror s); [| done]. cbn [of_opt mbind res_bind].
  destruct (at_connect a _) as [[? ?] |]; [| done]. by intros [= <- <-].
Qed.

Lemma told_at_mem y mem :
  told_at y -> (forall p, 0 < p < h_brk y -> mem p = h_mem y p) ->
  told_at (y <| h_mem := mem |> <| h_brk := h_brk y + 1 |>).
Proof.
  unfold told_at. cbn. intros H Hm. destruct (h_posted y); [| done].
  destruct H as [H | (Ht & p & Hs & Hp & <-)]; [by left | right]. split; [done |]. exists p. rewrite Hm by done.
  split_and!; done || lia.
Qed.

(** ** Every step keeps the outcome *)

Section Steps.
Context (v : option mirror_state * Z * server) (y : hand) (Hok : hand_ok v y).

(** The mirror thread connects and posts while the supervisor waits. *)
Lemma connecting_waits : h_mirror y = MtConnect \/ (exists c, h_mirror y = MtPost c) -> h_super y = SpWait.
Proof.
  destruct Hok as [_ Hm _ _ _]. unfold mirror_at in Hm. intros [E | [c E]]; rewrite E in Hm;
    by destruct (h_super y); [destruct Hm | | | | destruct Hm].
Qed.

Lemma create_ok a atts : h_super y = SpCreate -> h_todo y = a :: atts ->
  hand_ok v (y <| h_mirror := MtConnect |> <| h_super := SpWait |>).
Proof.
  intros E1 E2. destruct Hok as [Ho Hm Hp Ht Hb]. constructor; try done.
  - revert Ho. unfold outcome, commit_left, runner_left. cbn. rewrite E1, E2, super_runner_step, runner_split.
    destruct (runner_connect a (h_server y)) as [[c s1] |]; [| done]. cbn [mbind res_bind].
    destruct (s_mirror s1); [| done]. cbn [of_opt mbind res_bind]. by destruct (runner_rest a c s1).
  - unfold mirror_at in *. rewrite E1 in Hm. apply Hm.
  - unfold posted_at in *. by rewrite E1 in Hp.
Qed.

Lemma connect_ok a atts connected s : h_mirror y = MtConnect -> h_todo y = a :: atts ->
  runner_connect a (h_server y) = Ok (connected, s) ->
  hand_ok v (y <| h_server := s |> <| h_mirror := MtPost connected |>).
Proof.
  intros E1 E2 E3. pose proof (connecting_waits (or_introl E1)) as Hsp. destruct Hok as [Ho Hm Hp Ht Hb]. constructor; try done.
  - revert Ho. unfold outcome, commit_left, runner_left. cbn. by rewrite Hsp, E1, E2, E3.
  - unfold mirror_at in *. cbn. rewrite Hsp, E1 in *. split; [done | by apply (connect_mirror a (h_server y) connected)].
Qed.

Lemma commit_ok connected m b mem : h_mirror y = MtPost connected -> s_mirror (h_server y) = Some m ->
  mirror_signal_commit (h_brk y) m (h_mem y) (h_commit y) = Some (b, mem) ->
  hand_ok v (y <| h_mirror := MtRun connected |> <| h_commit := b |> <| h_mem := mem |> <| h_brk := h_brk y + 1 |>).
Proof.
  intros E1 E2 E3. assert (Hsp : h_super y = SpWait) by (apply connecting_waits; eauto).
  apply post_state in E3 as [_ [= -> ->]]. destruct Hok as [Ho Hm Hp Ht Hb]. constructor; try done.
  - revert Ho. unfold outcome, commit_left, runner_left. cbn. rewrite Hsp, E1, E2. cbn. by rewrite Z.eqb_refl.
  - unfold mirror_at in *. cbn. rewrite Hsp, E1 in *. destruct Hm as [-> _]. exists (h_brk y). split; [done | lia].
  - apply (told_at_mem y); [done |]. intros p Hp'. by apply mem_older.
  - cbn. lia.
Qed.

Lemma run_ok a atts connected s : h_mirror y = MtRun connected -> h_todo y = a :: atts ->
  runner_rest a connected (h_server y) = Ok s ->
  hand_ok v (y <| h_server := s |> <| h_mirror := MtEnd |>).
Proof.
  intros E1 E2 E3. destruct Hok as [Ho Hm Hp Ht Hb].
  assert (Hsp : h_super y <> SpCreate /\ h_super y <> SpEnd).
  { unfold mirror_at in Hm. rewrite E1 in Hm. by destruct (h_super y); [destruct Hm | | | | destruct Hm]. }
  constructor; try done.
  - revert Ho. unfold outcome, commit_left, runner_left. cbn. rewrite E1, E2, E3. destruct (h_super y); done || by destruct Hsp.
  - unfold mirror_at in *. cbn. rewrite E1 in Hm. destruct (h_super y); done || by destruct Hsp.
Qed.

Lemma receive_ok p b : h_super y = SpWait -> mbox_receive (h_commit y) = Some (p, b) ->
  hand_ok v (y <| h_commit := b |>
    <| h_super := if h_first y then SpPost (h_mem y p) else SpJoin |>
    <| h_retry := if h_first y then bool_decide (h_mem y p = MS_GO) else h_retry y |>).
Proof.
  intros E1 E2. destruct Hok as [Ho Hm Hp Ht Hb]. unfold mirror_at in Hm. rewrite E1 in Hm.
  assert (Hc : exists q, h_commit y = post_finish q mbox_create /\ ((exists c, h_mirror y = MtRun c) \/ h_mirror y = MtEnd)).
  { destruct (h_mirror y) as [| | c | c |]; [done | by rewrite Hm in E2 | by rewrite (proj1 Hm) in E2
      | destruct Hm as (q & Hq & _) ..]; exists q; eauto. }
  destruct Hc as (q & Hq & Hmt). rewrite Hq in E2. injection E2 as -> <-. constructor; try done.
  - revert Ho. unfold outcome, commit_left, runner_left. cbn. rewrite E1, Hq. destruct (h_todo y) as [| a atts]; [done |].
    destruct Hmt as [[c ->] | ->]; by destruct (h_first y).
  - unfold mirror_at. cbn. destruct Hmt as [[c ->] | ->]; by destruct (h_first y).
  - unfold posted_at in *. cbn. rewrite E1 in Hp. destruct (h_first y) eqn:E; [by split; [apply Hp |] |].
    intros H. by apply Hp in H.
Qed.

Lemma pass_ok st b mem : h_super y = SpPost st ->
  mirror_super_signal_committed (h_brk y) st (h_mem y) (h_state y) = Some (b, mem) ->
  hand_ok v (y <| h_super := SpJoin |> <| h_state := b |> <| h_mem := mem |> <| h_brk := h_brk y + 1 |> <| h_posted := Some st |>).
Proof.
  intros E1 E2. apply post_state in E2 as [_ [= -> ->]]. destruct Hok as [Ho Hm Hp Ht Hb].
  unfold mirror_at, posted_at, told_at in *. rewrite E1 in *. destruct Hp as [Hn Hf]. rewrite Hn in Ht. destruct Ht as [Hs Htold].
  constructor; unfold mirror_at, posted_at, told_at; cbn; try done.
  - revert Ho. unfold outcome, commit_left, runner_left. cbn. by rewrite E1.
  - right. split; [done |]. exists (h_brk y). rewrite Hs, Z.eqb_refl. split_and!; done || lia.
  - lia.
Qed.

Lemma join_ok a atts again retry s : h_super y = SpJoin -> h_mirror y = MtEnd -> h_todo y = a :: atts ->
  super_decide (h_retry y) (h_server y) = Ok (again, retry, s) ->
  hand_ok v (y <| h_server := s |> <| h_todo := atts |> <| h_mirror := MtNone |>
    <| h_super := if again then SpCreate else SpEnd |> <| h_first := false |> <| h_retry := retry |>
    <| h_count := h_count y + 1 |>).
Proof.
  intros E1 E2 E3 E4. destruct Hok as [Ho Hm Hp Ht Hb]. unfold mirror_at, posted_at in *. rewrite E1 in *. rewrite E2 in Hm.
  constructor; unfold mirror_at, posted_at; cbn; try done.
  - revert Ho. unfold outcome, runner_left, decided. cbn. rewrite E1, E2, E3. cbn [mbind res_bind]. rewrite E4.
    cbn [mbind res_bind]. by destruct again.
  - by destruct again.
  - by destruct again.
Qed.

Lemma told_ok st b : h_told y = None -> control_client_mirror_wait (h_mem y) (h_state y) = Ok (st, b) ->
  hand_ok v (y <| h_state := b |> <| h_told := Some st |>).
Proof.
  intros E1 E2. destruct Hok as [Ho Hm Hp Ht Hb]. constructor; try done.
  unfold told_at in *. cbn. destruct (h_posted y) as [st' |].
  - destruct Ht as [[_ ?] | (_ & p & Hs & Hp' & <-)]; [congruence |]. rewrite Hs in E2. unfold control_client_mirror_wait in E2.
    cbn in E2. replace (p =? 0) with false in E2 by lia. injection E2 as <- <-. by left.
  - destruct Ht as [Hs _]. by rewrite Hs in E2.
Qed.
End Steps.

Lemma hand_step_ok v y y' : hand_ok v y -> hand_step y y' -> hand_ok v y'.
Proof.
  intros Hok []; eauto using create_ok, connect_ok, commit_ok, run_ok, receive_ok, pass_ok, join_ok, told_ok.
Qed.

(** ** There is always a next step *)

Lemma hand_progress v y :
  hand_ok v y -> (exists y', hand_step y y') \/ (h_super y = SpEnd /\ h_told y = h_posted y /\ h_told y <> None).
Proof.
  intros [Ho Hm Hp Ht Hb]. unfold mirror_at, posted_at, outcome, commit_left, runner_left in *.
  destruct (h_super y) eqn:Es.
  - destruct (h_todo y) as [| a atts] eqn:Ea; [done |]. left. eexists. by apply (hs_create y a atts).
  - destruct (h_todo y) as [| a atts] eqn:Ea; [done |]. left. destruct (h_mirror y) as [| | c | c |] eqn:Em; [done | ..].
    + destruct (runner_connect a (h_server y)) as [[c s] |] eqn:E; [| done]. eexists. by apply (hs_connect y a atts c s).
    + destruct Hm as [Hc Hsm]. destruct (s_mirror (h_server y)) as [m |] eqn:E; [| done]. eexists.
      apply (hs_commit y c m (post_finish (h_brk y) mbox_create) (fun q => if q =? h_brk y then mirror_get_state m else h_mem y q)); try done.
      by rewrite Hc.
    + destruct Hm as (p & Hc & _). eexists. apply (hs_receive y p mbox_create); [done | by rewrite Hc].
    + destruct Hm as (p & Hc & _). eexists. apply (hs_receive y p mbox_create); [done | by rewrite Hc].
  - left. unfold told_at in Ht. rewrite (proj1 Hp) in Ht. eexists.
    apply (hs_pass y st (post_finish (h_brk y) mbox_create) (fun q => if q =? h_brk y then st else h_mem y q)); [done |].
    by rewrite (proj1 Ht).
  - destruct (h_todo y) as [| a atts] eqn:Ea; [done |]. left. destruct (h_mirror y) as [| | c | c |] eqn:Em; try done.
    + destruct (runner_rest a c (h_server y)) as [s |] eqn:E; [| done]. eexists. by apply (hs_run y a atts c s).
    + unfold decided in Ho. cbn [mbind res_bind] in Ho.
      destruct (super_decide (h_retry y) (h_server y)) as [[[again r] s] |] eqn:E; [| done].
      eexists. by apply (hs_join y a atts again r s).
  - unfold told_at in Ht. destruct (h_posted y) as [st |]; [| done].
    destruct Ht as [[_ ->] | (Htold & p & Hs & Hp' & <-)]; [right; done | left].
    eexists. apply (hs_told y (h_mem y p) mbox_create); [done |]. unfold control_client_mirror_wait. rewrite Hs. cbn.
    by replace (p =? 0) with false by lia.
Qed.

(** ** The steps run out *)

Definition mt_left (m : mt_state) : nat :=
  match m with MtConnect => 3 | MtPost _ => 2 | MtRun _ => 1 | _ => 0 end.

Definition sp_left (p : sp_state) (n : nat) : nat :=
  match p with SpCreate => 8 * n | SpWait => 8 * n - 8 + 3 | SpPost _ => 8 * n - 8 + 2 | SpJoin => 8 * n - 8 + 1 | SpEnd => 8 * n end.

Definition hand_left (y : hand) : nat :=
  sp_left (h_super y) (length (h_todo y)) + mt_left (h_mirror y) + (if h_told y then 0 else 1).

Lemma hand_step_left v y y' : hand_ok v y -> hand_step y y' -> (hand_left y' < hand_left y)%nat.
Proof.
  intros Hok Hstep. pose proof (connecting_waits v y Hok) as Hw. destruct Hok as [Ho Hm _ _ _].
  unfold hand_left, mirror_at, outcome in *.
  destruct Hstep as [a atts E1 E2 | a atts c s E1 E2 E3 | c m b mem E1 E2 E3 | a atts c s E1 E2 E3 | p b E1 E2 | st b mem E1 E2
    | a atts ag r s E1 E2 E3 E4 | st b E1 E2]; cbn.
  - rewrite E1, E2 in *. destruct Hm as [-> _]. cbn. lia.
  - rewrite E1. cbn. lia.
  - rewrite E1. cbn. lia.
  - rewrite E1. cbn. lia.
  - rewrite E1 in *. destruct (h_todo y); [done |]. destruct (h_first y); cbn; lia.
  - rewrite E1 in *. destruct (h_todo y); [done |]. cbn. lia.
  - rewrite E1, E2, E3. destruct ag; cbn; lia.
  - rewrite E1. lia.
Qed.

Lemma hand_start_ok atts s v :
  mirror_super_runner (attempt_runner <$> atts) true false None 0 s = Ok v -> hand_ok v (hand_start atts s).
Proof. intros H. constructor; done. Qed.

Lemma hand_steps_ok v n y y' :
  hand_ok v y -> nsteps hand_step n y y' -> hand_ok v y' /\ (n + hand_left y' <= hand_left y)%nat.
Proof.
  intros Hok H. revert Hok. induction H as [y | n y y1 y2 H1 H2 IH]; intros Hok; [split; [done | lia] |].
  destruct (IH (hand_step_ok _ _ _ Hok H1)) as [Hok2 Hl]. pose proof (hand_step_left _ _ _ Hok H1). split; [done | lia].
Qed.

(** * Properties *)

(** C10: the three threads that start and drive a migration work together as the
    sequential supervisor does. In whatever order they move, they never all wait, they
    stop after at most [8 * n + 1] steps for [n] possible attempts, and when they stop
    the server is the one the attempts leave one after the other, as many attempts
    were made, the control thread has been told exactly the state the first attempt
    connected with, and both mailboxes are empty: no state of a later attempt is left
    for the next command. *)
Theorem handover_correct atts s told n s' k y :
  mirror_super_runner (attempt_runner <$> atts) true false None 0 s = Ok (told, n, s') ->
  nsteps hand_step k (hand_start atts s) y ->
  (k <= 8 * length atts + 1)%nat /\
  ((exists y', hand_step y y') \/
   (h_super y = SpEnd /\ h_server y = s' /\ h_count y = n /\ told <> None /\ h_told y = told /\
    h_commit y = mbox_create /\ h_state y = mbox_create)).
Proof.
  intros Hseq Hst. destruct (hand_steps_ok _ _ _ _ (hand_start_ok _ _ _ Hseq) Hst) as [Hok Hl].
  split; [unfold hand_left, hand_start in Hl; cbn in Hl; lia |].
  destruct (hand_progress _ _ Hok) as [Hnext | (Hs & Ht & Hn)]; [by left | right].
  destruct Hok as [Ho Hm Hp Hto _]. unfold outcome, mirror_at, told_at in *. rewrite Hs in *.
  injection Ho as <- <- <-. rewrite Ht in *. destruct (h_posted y) as [st |]; [| done].
  destruct Hto as [[Hst' _] | [? _]]; [| done]. destruct Hm as [_ Hc]. by split_and!.
Qed.

(** An attempt against a listener of the right size: how it leaves the mirror, and
    whether its migration succeeds. *)
Definition sample_attempt (st : mirror_state) (ok : bool) : attempt :=
  {| at_connect := mirror_connect 5 1 true (quiet_conn [RdBytes (to_wire (nbd_hello_to_buf 512 13))]) 512;
     at_elapsed := 1;
     at_run := fun s => with_mirror s (fun m => Ok (ok, s <| s_mirror := Some (mirror_set_state m st) |>)) |}.

Definition sample_attempts : list attempt := [sample_attempt MS_GO false; sample_attempt MS_ABANDONED false].

(** The first thread is created, connects and posts. *)
Definition sample_created : hand :=
  (hand_start sample_attempts mirrored_server) <| h_mirror := MtConnect |> <| h_super := SpWait |>.
Definition sample_connected : hand :=
  sample_created <| h_server := mirrored_server <| s_mirror := Some sample_mirror |> |> <| h_mirror := MtPost true |>.
Definition sample_posted : hand :=
  sample_connected <| h_mirror := MtRun true |> <| h_commit := post_finish 1 mbox_create |>
    <| h_mem := fun q => if q =? 1 then MS_GO else MS_UNKNOWN |> <| h_brk := h_brk sample_connected + 1 |>.

Lemma sample_posted_steps : nsteps hand_step 3 (hand_start sample_attempts mirrored_server) sample_posted.
Proof.
  apply nsteps_l with sample_created; [by eapply hs_create |]. apply nsteps_l with sample_connected.
  - eapply (hs_connect sample_created (sample_attempt MS_GO false)); reflexivity.
  - apply nsteps_l with sample_posted; [| apply nsteps_O].
    exact (hs_commit sample_connected true sample_mirror _ _ eq_refl eq_refl eq_refl).
Qed.

(** The second attempt is abandoned. *)
Definition given_up (s : server) : server :=
  s <| s_mirror := Some (mirror_set_state (sample_mirror <| m_client := -1 |> <| m_mapped := false |>) MS_ABANDONED) |>.

Lemma sample_sequential s :
  s_mirror s = Some sample_mirror ->
  mirror_super_runner (attempt_runner <$> sample_attempts) true false None 0 s = Ok (Some MS_GO, 2, given_up s).
Proof. destruct s. cbn. intros ->. vm_compute. reflexivity. Qed.

Lemma handover_correct_witness :
  (3 <= 17)%nat /\
  ((exists y', hand_step sample_posted y') \/
   (h_super sample_posted = SpEnd /\ h_server sample_posted = given_up mirrored_server /\ h_count sample_posted = 2 /\ Some MS_GO <> None /\
    h_told sample_posted = Some MS_GO /\ h_commit sample_posted = mbox_create /\ h_state sample_posted = mbox_create)).
Proof.
  exact (handover_correct sample_attempts mirrored_server (Some MS_GO) 2 (given_up mirrored_server) 3 sample_posted
    (sample_sequential mirrored_server eq_refl) sample_posted_steps).
Defined.

(** The supervisor waits for a commit before it joins the mirror thread, so a thread
    that ended by [error()] while it connects would leave it waiting for ever.
    [mirror_connect] has no such exit, whatever the listener does. *)
Theorem connect_raises_no_error fd sel readable k local_size m :
  mirror_connect fd sel readable k local_size m <> Stop SError.
Proof.
  unfold mirror_connect. destruct (0 <? fd); [| done]. destruct (sel <? 0); [done |]. destruct readable; [| done].
  unfold socket_nbd_read_hello, conn_readloop, mbind, M_bind. cbn [fst snd].
  destruct (ro_res _); cbn [fst snd mbind res_bind]; [| done | done].
  destruct (nbd_check_hello _) as [[remote flags] |]; [| done]. cbn. by destruct (remote =? local_size).
Qed.
