(* ===== verification/Retry.v ===== *)
(** * What a retry of a migration does

    When the event loop of [mirror_run] (src/src/server/mirror.c) ends without the
    migration being complete, [error()] runs [mirror_cleanup], which unmaps the file
    and sets [mirror->mapped] to [NULL]. [mirror_super_runner] then starts another
    [mirror_runner]; nothing on its way maps the file again, because [mirror_init] is
    only called by [mirror_create]. This file follows what the callbacks of Mirror.v
    do on such a mirror: the header of the first request goes out, the first [write]
    of data takes an offset of the image for an address, fails with EFAULT, and the
    loop ends again. *)

From S2P Require Import Prelude Bitset NbdTypes IoUtil SockUtil ReadWrite Serve Mirror Handover.

Open Scope Z_scope.

(** ** Runs and attempts *)

(** The process has nothing at the addresses below [sz]. *)
Definition nothing_below (sz : Z) (lw : Z -> Z -> option (list Z)) : Prop :=
  forall off len, 0 <= off < sz -> lw off len = None.

(** What [mirror_run] may do: with an image of 0 bytes, or through the event loop
    with any clients and listener. *)
Inductive ran (s : server) : bool * server -> Prop :=
| ran_empty now repeats x out s' :
    mirror_run_start now repeats x s = Ok (inl (out, s')) -> ran s (true, s')
| ran_loop now repeats x c lw f rem pend y r :
    mirror_run_start now repeats x s = Ok (inr c) -> nothing_below (size s) lw -> Forall (range_ok (size s)) pend ->
    migrating (start_sys lw c f rem pend) y -> ev_broken (ctl y) = true -> mirror_run_end (ctl y) = Ok r -> ran s r.

(** An attempt made of [mirror_connect] and [mirror_run]. *)
Record real (a : attempt) : Prop := {
  rl_connect : forall m r, at_connect a m = Ok r ->
    exists fd sel readable k sz, mirror_connect fd sel readable k sz m = Ok r;
  rl_run : forall s r, at_run a s = Ok r -> ran s r
}.

(** The server when the mirror thread of a retry has been joined. *)
Inductive retried (s : server) : server -> Prop :=
| rt_one a commit s1 : real a -> attempt_runner a s = Ok (commit, s1) -> retried s s1
| rt_more a commit s1 s2 s3 : real a -> attempt_runner a s = Ok (commit, s1) ->
    super_decide true s1 = Ok (true, true, s2) -> retried s2 s3 -> retried s s3.

(** The server with which a retry enters [mirror_run]. *)
Inductive retry_runs (s : server) : server -> Prop :=
| rr_now a m m' : real a -> s_mirror s = Some m -> at_connect a m = Ok (true, m') ->
    retry_runs s (s <| s_mirror := Some m' |>)
| rr_later a commit s1 s2 s' : real a -> attempt_runner a s = Ok (commit, s1) ->
    super_decide true s1 = Ok (true, true, s2) -> retry_runs s2 s' -> retry_runs s s'.

(** ** A mirror without its mapping *)

Definition unmapped (s : server) : Prop :=
  exists m, s_mirror s = Some m /\ m_mapped m = false /\ commit_state m <> MS_DONE.

(** No more than the header of a request is ever sent. *)
Record header_only (y : sys) : Prop := {
  ho_read : read_watcher (ctl y) = false;
  ho_limit : limit_watcher (ctl y) = false;
  ho_range : range_ok (size (serve (ctl y))) (x_from (x_of y), x_len (x_of y));
  ho_written : 0 <= written (x_of y) <= NBD_REQUEST_SIZE;
  ho_hdr : hdr (x_of y) = req_bytes (x_from (x_of y)) (x_len (x_of y));
  ho_wire : wire y = take (Z.to_nat (written (x_of y))) (hdr (x_of y))
}.

Record starved (sz : Z) (rem : list Z) (y : sys) : Prop := {
  sn_size : size (serve (ctl y)) = sz;
  sn_map : map_ok sz (map_of y);
  sn_pend : Forall (range_ok sz) (pending y);
  sn_remote : remote y = rem;
  sn_mirror : unmapped (serve (ctl y));
  sn_low : nothing_below sz (low y);
  sn_range : sz < 2 ^ 62;
  sn_wire : zlen (wire y) <= NBD_REQUEST_SIZE;
  sn_loop : loop_on y -> header_only y
}.

(** The write callback sends a piece of the header, or leaves the loop. *)
Lemma header_write y ans bs c m :
  header_only y -> s_mirror (serve (ctl y)) = Some m -> m_mapped m = false ->
  size (serve (ctl y)) < 2 ^ 62 -> nothing_below (size (serve (ctl y))) (low y) ->
  mirror_write_cb true ans (low y) (file y) (ctl y) = Ok (bs, c) ->
  serve c = serve (ctl y) /\ zlen (wire y ++ bs) <= NBD_REQUEST_SIZE /\
  (ev_broken c = false -> header_only (y <| ctl := c |> <| wire := wire y ++ bs |>)).
Proof.
  intros [H1 H2 (H3 & H4 & H8) H5 H6 H7] Hm Hu Hsz Hlow E. unfold mirror_write_cb in E. cbn [negb] in E. fold (x_of y) in E.
  set (x := x_of y) in *. assert (Hq : NBD_REQUEST_SIZE = 28) by done. cbn [fst snd] in H3, H4, H8.
  pose proof (zlen_req_bytes (x_from x) (x_len x)) as Hz. rewrite <- H6 in Hz.
  assert (Hwz : zlen (wire y) <= NBD_REQUEST_SIZE) by (rewrite H7, zlen_take by lia; lia).
  apply bind_Ok in E as (data & Hl & E). destruct (written x <? NBD_REQUEST_SIZE) eqn:Ew.
  2:{ unfold mapped_at, with_mirror in Hl. rewrite Hm in Hl. cbn [of_opt mbind res_bind] in Hl. rewrite Hu in Hl.
      assert (written x = 28) as Hw28 by lia. rewrite Hw28 in Hl. change (28 -64 NBD_REQUEST_SIZE) with 0 in Hl.
      rewrite Hlow in Hl by lia. injection Hl as <-. cbn in E. injection E as <- <-. by rewrite app_nil_r. }
  apply bind_Ok in Hl as (d & Hl & [= <-]). unfold mem_load in Hl. rewrite u64_id in Hl by lia.
  destruct (in_range _ _ _); [| done]. injection Hl as <-. fold (slice (hdr x) (written x) (NBD_REQUEST_SIZE - written x)) in E.
  destruct ans as [n | er]; cbn [write_nonblock] in E.
  2:{ cbn [Z.ltb Z.compare] in E. injection E as <- <-. destruct (io_transient er).
      - split; [done |]. rewrite app_nil_r. split; [done |]. intros _. by constructor.
      - by rewrite app_nil_r. }
  rewrite zlen_slice in E by lia.
  set (j := Z.min (Z.max 0 n) (NBD_REQUEST_SIZE - written x)) in E. assert (Hj : 0 <= j <= NBD_REQUEST_SIZE - written x) by lia.
  clearbody j. replace (j <? 0) with false in E by lia.
  rewrite (u64_id (x_len x + _)), (u64_id (written x + j)) in E by lia.
  assert (Hw : wire y ++ take (Z.to_nat j) (slice (hdr x) (written x) (NBD_REQUEST_SIZE - written x)) =
    take (Z.to_nat (written x + j)) (hdr x)).
  { rewrite H7. unfold slice. rewrite take_take, Nat.min_l by lia.
    exact (take_zadd (hdr x) 0 (written x) j ltac:(lia) ltac:(lia) ltac:(lia)). }
  injection E as <- <-.
  assert (Hwz' : zlen (take (Z.to_nat (written x + j)) (hdr x)) <= NBD_REQUEST_SIZE) by (rewrite zlen_take by lia; lia).
  rewrite Hw.
  match goal with |- context [if ?b then _ else _] => replace b with (0 <? j) by done end.
  destruct (0 <? j) eqn:Ej; cbn [the_xfer timeout_again set_field written].
  - replace (written x + j =? x_len x + NBD_REQUEST_SIZE) with false by lia. split; [done |]. split; [done |]. intros _.
    constructor; try done. cbn. lia.
  - fold (x_of y). fold x. replace (written x =? x_len x + NBD_REQUEST_SIZE) with false by lia. split; [done |]. split; [done |]. intros _.
    assert (j = 0) as -> by lia. rewrite Z.add_0_r. by constructor.
Qed.

(** The listener never has a complete request. *)
Lemma header_not_stored y q data :
  header_only y -> size (serve (ctl y)) < 2 ^ 62 -> zlen (wire y) = NBD_REQUEST_SIZE + zlen data ->
  q = nbd_r2h_request (of_wire (take 28 (wire y))) -> data = drop 28 (wire y) -> q_len q <> zlen data.
Proof.
  intros [H1 H2 (H3 & H4 & H8) H5 H6 H7] Hsz Hz -> -> Hl. cbn [fst snd] in H3, H4, H8. assert (Hq : NBD_REQUEST_SIZE = 28) by done.
  pose proof (zlen_req_bytes (x_from (x_of y)) (x_len (x_of y))) as Hr. rewrite <- H6 in Hr.
  assert (Hlen : length (hdr (x_of y)) = 28%nat) by (unfold zlen in Hr; lia).
  assert (Hn : drop 28 (wire y) = []).
  { rewrite H7. apply drop_ge. rewrite length_take. lia. }
  rewrite Hn in *. change (@zlen Z []) with 0 in *. rewrite H7 in Hz. rewrite zlen_take in Hz by lia.
  rewrite H7, take_take, take_ge, H6, req_bytes_decode in Hl by lia. cbn [mirror_request q_len] in Hl.
  rewrite u32_id in Hl by lia. lia.
Qed.

Lemma starved_step sz rem y y' : starved sz rem y -> sys_step y y' -> starved sz rem y'.
Proof.
  intros [H1 H2 H3 H4 (m & M1 & M2 & M3) Hlow Hlt Hwz H6] Hs.
  assert (Hun : forall s, s_mirror s = s_mirror (serve (ctl y)) -> unmapped s) by (intros s E; exists m; by rewrite E).
  destruct Hs as [ev map Hc Hev Hm | c Hl Hw E | ans bs c Hl Hw E
    | q data f Hl Hr Hz Hq Hd _ _ Hlen Hst | h e Hl Hr Hrw Hh He | ans e evs out c rest Hl Hw Hre Hev Hans E closing
    | now c Hl Hw E | Hl Hw | c Hl Hw E].
  - rewrite H1 in Hev. destruct (client_event_spec sz _ _ ev map H2 H3 Hev Hm) as (K1 & _ & K3 & _).
    constructor; try done; try by apply Hun. intros Hl. destruct (H6 Hl). by constructor.
  - unfold mirror_begin_cb in E. cbn [negb] in E. destruct (_ || _).
    + apply bind_Ok in E as (map & Em & [= <-]). destruct (enable_stream_spec sz _ _ H2 Em) as (K1 & _ & _).
      constructor; try done; try by apply Hun. intros _. destruct (H6 Hl). by constructor.
    + injection E as <-. constructor; try done; try by apply Hun. intros _. destruct (H6 Hl). by constructor.
  - destruct (header_write y ans bs c m (H6 Hl) M1 M2) as (Es & Ew & Eh); [by rewrite H1 | by rewrite H1 | done |].
    constructor; unfold map_of; cbn; rewrite ?Es; try done; by apply Hun.
  - by destruct (header_not_stored y q data (H6 Hl) ltac:(by rewrite H1) Hz Hq Hd).
  - destruct (H6 Hl). congruence.
  - destruct (H6 Hl). congruence.
  - destruct (H6 Hl). congruence.
  - constructor; try done; by apply Hun.
  - unfold mirror_abandon_cb, with_mirror in E. cbn [negb] in E. rewrite M1 in E. cbn in E. injection E as <-.
    constructor; try done. by eexists.
Qed.

(** ** The start of a run *)

Lemma starved_start now repeats x s c lw f rem pend m :
  s_mirror s = Some m -> m_mapped m = false -> commit_state m <> MS_DONE -> offset m = 0 ->
  0 < size s < 2 ^ 62 -> map_ok (size s) (allocation_map s) -> nothing_below (size s) lw -> Forall (range_ok (size s)) pend ->
  mirror_run_start now repeats x s = Ok (inr c) -> starved (size s) rem (start_sys lw c f rem pend).
Proof.
  intros Hm Hu Hd Ho Hz Hmap Hlow Hp E. unfold mirror_run_start, with_mirror in E. rewrite Hm in E.
  cbn [of_opt mbind res_bind] in E.
  change (size (s <| s_mirror := Some (m <| migration_started := now |>) |>)) with (size s) in E.
  destruct (size s =? 0) eqn:E0; [lia |].
  match type of E with context [mirror_setup_next_xfer ?d] => set (c0 := d) in E end.
  destruct (setup_next_xfer_at (size s) c0 (m <| migration_started := now |>)) as
    [(map & ce & off & from & len & E1 & K1 & K2 & K3 & Hx & _) | (map & ce & E1 & _ & _ & _ & K4 & _)];
    [done | done | done | exact Hmap | cbn; lia | | cbn in K4; lia].
  rewrite E1 in E. cbn [mbind res_bind negb] in E.
  assert (Hq : NBD_REQUEST_SIZE = 28) by done.
  assert (Hh : forall y, the_xfer (ctl y) = new_xfer from len -> wire y = [] -> size (serve (ctl y)) = size s ->
    read_watcher (ctl y) = false -> limit_watcher (ctl y) = false -> header_only y).
  { intros y Ex Ew Es Er El. constructor; unfold x_of; rewrite ?Ex, ?Es; [done | done | exact Hx | cbn; lia | done | done]. }
  match type of E with context [if ?b then _ else _] => destruct b end.
  - apply bind_Ok in E as (map' & E2 & [= <-]). destruct (enable_stream_spec (size s) map map' K1 E2) as (L1 & _).
    constructor; try done; [by eexists | lia].
  - injection E as <-. constructor; try done; [by eexists | lia].
Qed.

(** Without its mapping the mirror sends no data: the listener's copy stays as it is
    and the migration does not get done. *)
Lemma unmapped_run now repeats x s c lw f rem pend m y :
  s_mirror s = Some m -> m_mapped m = false -> commit_state m <> MS_DONE -> offset m = 0 ->
  0 < size s < 2 ^ 62 -> map_ok (size s) (allocation_map s) -> nothing_below (size s) lw -> Forall (range_ok (size s)) pend ->
  mirror_run_start now repeats x s = Ok (inr c) -> migrating (start_sys lw c f rem pend) y -> starved (size s) rem y.
Proof.
  intros Hm Hu Hd Ho Hz Hmap Hlow Hp E Hr. induction Hr as [| y1 y2 _ IH Hs]; [by apply (starved_start now repeats x s c lw f rem pend m) |].
  by apply (starved_step _ _ y1).
Qed.

(** ** Attempt after attempt *)

(** A server whose mirror has lost its mapping. *)
Record bereft (sz : Z) (s : server) : Prop := {
  br_size : size s = sz;
  br_map : map_ok sz (allocation_map s);
  br_mirror : unmapped s
}.

Lemma connect_bereft a m c m' :
  real a -> commit_state m <> MS_DONE -> at_connect a m = Ok (c, m') ->
  m_mapped m' = m_mapped m /\ offset m' = offset m /\ commit_state m' <> MS_DONE.
Proof.
  intros [Hc _] Hd E. destruct (Hc m _ E) as (fd & sel & readable & k & sz & H). unfold mirror_connect in H.
  destruct (0 <? fd); [| by injection H as <- <-]. destruct (sel <? 0); [done |].
  destruct readable; [| by injection H as <- <-]. apply bind_Ok in H as (h & _ & H).
  destruct h as [[rs ?] |]; [| by injection H as <- <-]. destruct (rs =? sz); by injection H as <- <-.
Qed.

Lemma run_bereft s r m :
  s_mirror s = Some m -> m_mapped m = false -> commit_state m <> MS_DONE -> offset m = 0 ->
  0 < size s < 2 ^ 62 -> map_ok (size s) (allocation_map s) -> ran s r -> r.1 = false /\ bereft (size s) r.2.
Proof.
  intros Hm Hu Hd Ho Hz Hmap [now repeats x out s' E | now repeats x c lw f rem pend y r' E Hlow Hp Hr Hb He].
  - unfold mirror_run_start, with_mirror in E. rewrite Hm in E. cbn [of_opt mbind res_bind] in E.
    change (size (s <| s_mirror := Some (m <| migration_started := now |>) |>)) with (size s) in E.
    destruct (size s =? 0) eqn:E0; [lia |]. apply bind_Ok in E as ([ok c] & _ & E). destruct ok; [| done].
    cbn [negb] in E. destruct (allocation_map_built (serve c)); [by apply bind_Ok in E as (? & _ & ?) | done].
  - destruct (unmapped_run now repeats x s c lw f rem pend m y Hm Hu Hd Ho Hz Hmap Hlow Hp E Hr) as [H1 H2 _ _ (m' & M1 & M2 & M3) _ _ _ _].
    unfold mirror_run_end, with_mirror in He. rewrite M1 in He. cbn [of_opt mbind res_bind] in He.
    rewrite (bool_decide_eq_true_2 (commit_state m' <> MS_DONE)), orb_true_r in He by done.
    apply bind_Ok in He as (map & Em & [= <-]). split; [done |].
    destruct (disable_stream_spec (size s) (map_of y) map H2 Em) as [K _].
    constructor; [exact H1 | exact K | by exists m'].
Qed.

Lemma attempt_bereft a sz s commit s1 m :
  real a -> bereft sz s -> s_mirror s = Some m -> offset m = 0 -> 0 < sz < 2 ^ 62 ->
  attempt_runner a s = Ok (commit, s1) -> bereft sz s1.
Proof.
  intros Ha [<- Hmap (m0 & M1 & M2 & M3)] Hm Ho Hz E. assert (m0 = m) as -> by congruence.
  unfold attempt_runner, mirror_runner, with_mirror in E. rewrite Hm in E. cbn [of_opt mbind res_bind] in E.
  apply bind_Ok in E as ([c m'] & Ec & E). destruct (connect_bereft a m c m' Ha M3 Ec) as (C1 & C2 & C3).
  destruct c; cbn [negb] in E; [| injection E as <- <-; constructor; [done | done |]; exists m'; split_and!; [done | congruence | done]].
  destruct (_ <? _).
  { injection E as <- <-. constructor; [done | done |]. eexists. split_and!; [reflexivity | cbn; congruence | done]. }
  apply bind_Ok in E as ([ok s2] & Er & E). apply (rl_run a Ha) in Er.
  destruct (run_bereft (s <| s_mirror := Some m' |>) (ok, s2) m') as [Hf [B1 B2 (m2 & N1 & N2 & N3)]];
    [done | congruence | done | congruence | done | exact Hmap | exact Er |].
  cbn [fst snd] in *. rewrite Hf in E. apply bind_Ok in E as (s3 & Es & [= <- <-]).
  unfold mirror_cleanup, with_mirror in Es. rewrite N1 in Es. cbn in Es. injection Es as <-.
  constructor; [exact B1 | exact B2 |]. by eexists.
Qed.

Lemma retry_bereft sz s1 s2 :
  bereft sz s1 -> super_decide true s1 = Ok (true, true, s2) ->
  bereft sz s2 /\ exists m, s_mirror s2 = Some m /\ offset m = 0.
Proof.
  intros [B1 B2 (m & M1 & M2 & M3)] E. unfold super_decide, with_mirror in E. rewrite M1 in E. cbn [of_opt mbind res_bind] in E.
  destruct (self_pipe_signal_clear _) as [sig p]. injection E as _ E2 <-. rewrite E2.
  destruct (bool_decide (mirror_get_state m = MS_ABANDONED));
    (split; [constructor; [done | done | by eexists] | by eexists]).
Qed.

(** A retry of a mirror that has lost its mapping starts without it. *)
Lemma retry_runs_bereft sz s s' m :
  bereft sz s -> s_mirror s = Some m -> offset m = 0 -> 0 < sz < 2 ^ 62 -> retry_runs s s' ->
  bereft sz s' /\ exists m', s_mirror s' = Some m' /\ offset m' = 0.
Proof.
  intros B Hm Ho Hz Hr. revert m B Hm Ho.
  induction Hr as [s a m0 m' Ha Hm0 E | s a commit s1 s2 s' Ha E Hdec _ IH]; intros m B Hm Ho.
  - assert (m0 = m) as -> by congruence. destruct B as [B1 B2 (m1 & M1 & M2 & M3)]. assert (m1 = m) as -> by congruence.
    destruct (connect_bereft a m true m' Ha M3 E) as (C1 & C2 & C3).
    split; [constructor; [done | done | exists m'; split_and!; [done | congruence | done]] | exists m'; split; [done | congruence]].
  - pose proof (attempt_bereft a _ _ _ _ m Ha B Hm Ho Hz E) as B1.
    destruct (retry_bereft _ _ _ B1 Hdec) as (B2 & m2 & Hm2 & Ho2). by apply (IH m2).
Qed.

(** Whatever happens in the event loop of such a retry, the header of one request is
    all the listener gets. *)
Definition sends_no_data (s : server) : Prop :=
  forall now repeats x c lw f rem pend y,
    nothing_below (size s) lw -> Forall (range_ok (size s)) pend ->
    mirror_run_start now repeats x s = Ok (inr c) -> migrating (start_sys lw c f rem pend) y ->
    zlen (wire y) <= NBD_REQUEST_SIZE /\ remote y = rem.

Lemma bereft_sends_no_data sz s m :
  bereft sz s -> s_mirror s = Some m -> offset m = 0 -> 0 < sz < 2 ^ 62 -> sends_no_data s.
Proof.
  intros [<- Hmap (m0 & M1 & M2 & M3)] Hm Ho Hz now repeats x c lw f rem pend y Hlow Hp E Hr.
  assert (m0 = m) as -> by congruence.
  by destruct (unmapped_run now repeats x s c lw f rem pend m y Hm M2 M3 Ho Hz Hmap Hlow Hp E Hr).
Qed.

(** C13: A migration that fails once can not be completed by a retry. When the first
    attempt has connected in time and its event loop has ended in [error()],
    [mirror_cleanup] unmaps the file. However many retries follow, over whatever
    connections, with whatever the listener, the network and the clients do, none of
    them reaches [MS_DONE]; and whenever one enters its event loop, the header of one
    request is all it ever sends, and the listener's copy stays as it is. An offset of
    the image is then an address of its own: nothing else of the process lies at the
    addresses below the size of the image, which is not 0. *)
Theorem retries_never_complete a s sc se s1 s2 :
  runner_connect a s = Ok (true, sc) -> at_elapsed a <= MS_CONNECT_TIME_SECS -> at_run a sc = Ok (false, se) ->
  0 < size se < 2 ^ 62 -> map_ok (size se) (allocation_map se) ->
  (exists m, s_mirror se = Some m /\ commit_state m <> MS_DONE) ->
  runner_rest a true sc = Ok s1 -> super_decide true s1 = Ok (true, true, s2) ->
  (forall s3, retried s2 s3 -> exists m, s_mirror s3 = Some m /\ m_mapped m = false /\ commit_state m <> MS_DONE) /\
  (forall s', retry_runs s2 s' -> sends_no_data s').
Proof.
  intros _ Hel Hrun Hz Hmap (m & Hm & Hd) Hrest Hdec.
  assert (B1 : bereft (size se) s1).
  { unfold runner_rest in Hrest. apply bind_Ok in Hrest as (m0 & _ & Hrest). cbn [negb] in Hrest.
    replace (MS_CONNECT_TIME_SECS <? at_elapsed a) with false in Hrest by lia. rewrite Hrun in Hrest. cbn [mbind res_bind] in Hrest.
    unfold mirror_cleanup, with_mirror in Hrest. rewrite Hm in Hrest. injection Hrest as <-.
    constructor; [done | done | by eexists]. }
  split.
  - intros s3 Hr. clear - B1 Hz Hdec Hr. revert s1 B1 Hdec.
    induction Hr as [s2 b commit s4 Hb E | s2 b commit s4 s5 s6 Hb E Hdec' _ IH]; intros s1 B1 Hdec;
      destruct (retry_bereft _ _ _ B1 Hdec) as (B2 & m2 & Hm2 & Ho2);
      pose proof (attempt_bereft b _ _ _ _ m2 Hb B2 Hm2 Ho2 Hz E) as B4; [apply B4 | by apply (IH s4)].
  - intros s' Hr. destruct (retry_bereft _ _ _ B1 Hdec) as (B2 & m2 & Hm2 & Ho2).
    destruct (retry_runs_bereft _ _ _ _ B2 Hm2 Ho2 Hz Hr) as (B3 & m3 & Hm3 & Ho3).
    by apply (bereft_sends_no_data (size se) s' m3).
Qed.

(** ** A failed migration and a retry *)

(** A run in which the socket answers the writes one after the other. *)
Definition write_run (answers : list wr_event) (s : server) : res (bool * server) :=
  match mirror_run_start 0 true sample_exit s with
  | Ok (inr c) =>
      let y := foldl (fun y ans => if write_may ans y then mig_write ans y else y)
                 (start_sys (fun _ _ => None) c sample_file (replicate 512 0) []) answers in
      if ev_broken (ctl y) then mirror_run_end (ctl y) else Stop SHang
  | _ => Stop SHang
  end.

Lemma write_run_ran answers s r : write_run answers s = Ok r -> ran s r.
Proof.
  intros H. unfold write_run in H. destruct (mirror_run_start 0 true sample_exit s) as [[? | c] |] eqn:E; try done.
  set (y0 := start_sys (fun _ _ => None) c sample_file (replicate 512 0) []) in H.
  assert (Hm : forall l y, migrating y0 y -> migrating y0 (foldl (fun y ans => if write_may ans y then mig_write ans y else y) y l)).
  { induction l as [| a l IH]; intros y Hy; cbn; [done |]. apply IH. destruct (write_may a y) eqn:Ea; [by apply mig_write_step | done]. }
  specialize (Hm answers y0 (mig_start _)). destruct (ev_broken _) eqn:Eb; [| done].
  exact (ran_loop s 0 true sample_exit c (fun _ _ => None) sample_file (replicate 512 0) [] _ r E (fun _ _ _ => eq_refl) (Forall_nil_2 _) Hm Eb H).
Qed.

(** The listener is there again and takes all it is sent. *)
Definition sample_retry : attempt :=
  {| at_connect := mirror_connect 5 1 true (quiet_conn [RdBytes (to_wire (nbd_hello_to_buf 512 13))]) 512;
     at_elapsed := 1;
     at_run := write_run [WrAccept 28; WrAccept 1000] |}.

Lemma sample_retry_real : real sample_retry.
Proof. constructor; [intros m r H; exists 5, 1, true, (quiet_conn [RdBytes (to_wire (nbd_hello_to_buf 512 13))]), 512; exact H | exact (write_run_ran _)]. Qed.

(** The server when the supervisor has reset the mirror. *)
Definition after_reset (s : server) : server :=
  s <| s_mirror := Some (mirror_reset (sample_mirror <| m_client := -1 |> <| m_mapped := false |>)) |>.

Definition retry_start : server := after_reset mirrored_server.

Definition retry_end : server :=
  match attempt_runner sample_retry retry_start with Ok (_, s) => s | Stop _ => retry_start end.

Lemma sample_retried : retried retry_start retry_end.
Proof.
  assert (H : match attempt_runner sample_retry retry_start with Ok _ => true | Stop _ => false end = true)
    by (vm_compute; reflexivity).
  unfold retry_end. destruct (attempt_runner sample_retry retry_start) as [[commit s] |] eqn:E; [| done].
  exact (rt_one retry_start sample_retry commit s sample_retry_real E).
Qed.

Definition unmap_mirror (s : server) : server :=
  s <| s_mirror := Some (sample_mirror <| m_client := -1 |> <| m_mapped := false |>) |>.

Lemma sample_first s :
  s_mirror s = Some sample_mirror ->
  let a := sample_attempt MS_GO false in
  runner_connect a s = Ok (true, s) /\ at_run a s = Ok (false, s) /\ runner_rest a true s = Ok (unmap_mirror s) /\
  super_decide true (unmap_mirror s) = Ok (true, true, after_reset s).
Proof. destruct s. cbn. intros ->. cbn zeta. split_and!; vm_compute; reflexivity. Qed.

(** The retry gets as far as its event loop. *)
Definition retry_loop : server :=
  retry_start <| s_mirror :=
    match at_connect sample_retry (mirror_reset (sample_mirror <| m_client := -1 |> <| m_mapped := false |>)) with
    | Ok (_, m) => Some m
    | Stop _ => None
    end |>.

Lemma sample_retry_runs : retry_runs retry_start retry_loop.
Proof.
  set (m := mirror_reset (sample_mirror <| m_client := -1 |> <| m_mapped := false |>)).
  assert (H : match at_connect sample_retry m with Ok (true, _) => true | _ => false end = true) by (vm_compute; reflexivity).
  unfold retry_loop. fold m. destruct (at_connect sample_retry m) as [[[] m'] |] eqn:E; try done.
  exact (rr_now retry_start sample_retry m m' sample_retry_real eq_refl E).
Qed.

Lemma retries_never_complete_witness :
  (exists m, s_mirror retry_end = Some m /\ m_mapped m = false /\ commit_state m <> MS_DONE) /\ sends_no_data retry_loop.
Proof.
  destruct (sample_first mirrored_server eq_refl) as (H1 & H2 & H3 & H4).
  destruct (retries_never_complete (sample_attempt MS_GO false) mirrored_server mirrored_server mirrored_server
    (unmap_mirror mirrored_server) retry_start H1) as [K1 K2]; try assumption.
  - cbn. discriminate.
  - split; reflexivity.
  - exact sample_map_ok.
  - exists sample_mirror. split; [reflexivity | discriminate].
  - split; [apply K1; exact sample_retried | apply K2; exact sample_retry_runs].
Defined.
