(* ===== verification/Ledger.v ===== *)
(** * What the program holds: memory, descriptors, locks

    A ledger of the things the C code has to give back: heap blocks, descriptors,
    mutexes, condition variables, timers and mappings. An allocation enters a handle,
    a release strikes it out, and releasing what is not in the ledger (a double
    [free], a descriptor closed twice) is a fault. On top of it a small logic of
    triples with a built-in frame: [spec P c Q] says that [c], started with [P] among
    what is held, ends the process or leaves what [Q] describes in place of [P], and
    touches nothing else. Models [xrealloc] and [xmalloc] of src/src/common/util.c;
    Lifetime.v has the objects of the program. *)

From stdpp Require Import gmultiset.
From AAC_tactics Require Import AAC.
From S2P Require Import Prelude.

Open Scope Z_scope.

(** ** The ledger *)

Inductive kind := KMem | KFd | KMutex | KCond | KTimer | KMap.

#[export] Instance kind_eq_dec : EqDecision kind.
Proof. solve_decision. Defined.

#[export, refine] Instance kind_countable : Countable kind :=
  inj_countable' (fun k => match k with KMem => 0 | KFd => 1 | KMutex => 2 | KCond => 3 | KTimer => 4 | KMap => 5 end)
    (fun n => if n =? 0 then KMem else if n =? 1 then KFd else if n =? 2 then KMutex else if n =? 3 then KCond
              else if n =? 4 then KTimer else KMap) _.
Proof. by intros []. Defined.

(** A handle: what it is, and the number it was given when it was made. No number is
    given twice, so that a handle that was released is never valid again. *)
Abbreviation handle := (kind * Z)%type.

(** [answers] is what the calls that may fail answer, in turn; they succeed when it
    is used up. *)
Record ledger := {
  live : gmultiset handle;
  next : Z;
  answers : list bool
}.

#[export] Instance ledger_eta : Settable ledger := fun h => Build_ledger (live h) (next h) (answers h).

Definition acquire (k : kind) : M ledger Z := fun h =>
  (Ok (next h), h <| live := {[+ (k, next h) +]} ⊎ live h |> <| next := next h + 1 |>).

Definition dispose (k : kind) (n : Z) : M ledger unit := fun h =>
  if decide ((k, n) ∈ live h) then (Ok tt, h <| live := live h ∖ {[+ (k, n) +]} |>) else (Stop SFault, h).

Definition answer : M ledger bool := fun h =>
  match answers h with
  | [] => (Ok true, h)
  | b :: l => (Ok b, h <| answers := l |>)
  end.

(** [FATAL_UNLESS] of a call. *)
Definition must : M ledger unit := b ← answer; if (b : bool) then mret tt else stopM SFatal.

(** [while (call fails);] *)
Fixpoint skip_failures (l : list bool) : list bool :=
  match l with
  | false :: l' => skip_failures l'
  | true :: l' => l'
  | [] => []
  end.

Definition until_done : M ledger unit := modify (fun h => h <| answers := skip_failures (answers h) |>).

(** ** Memory and descriptors *)

Definition free (p : option Z) : M ledger unit :=
  match p with Some p => dispose KMem p | None => mret tt end.

(** The block may move: the old one is gone. *)
Definition xrealloc (p : option Z) : M ledger Z := _ ← must; _ ← free p; acquire KMem.

Definition xmalloc : M ledger Z := xrealloc None.

(** [close], retried on EINTR, as [while (close(fd) == -1 && errno == EINTR)] does;
    the descriptor is gone in any case. *)
Definition close_fd (fd : Z) : M ledger unit := _ ← until_done; dispose KFd fd.

(** A mutex or condition variable that is initialised, or the process ends. *)
Definition init_sync (k : kind) : M ledger Z := _ ← must; acquire k.

(** [while (0 != pthread_..._destroy(...))] *)
Definition destroy_sync (k : kind) (n : Z) : M ledger unit := _ ← until_done; dispose k n.

(** ** Triples *)

Definition spec {A : Type} (P : gmultiset handle) (c : M ledger A) (Q : A -> gmultiset handle -> Prop) : Prop :=
  forall h F, live h = P ⊎ F ->
    match c h with
    | (Ok a, h') => exists R, live h' = R ⊎ F /\ Q a R
    | (Stop e, _) => e = SFatal
    end.

(** What is left is exactly [R]. *)
Definition leaves {A : Type} (R : A -> gmultiset handle) : A -> gmultiset handle -> Prop := fun a X => X = R a.

Create HintDb ledger.

Section Rules.
Context {A B : Type}.
Implicit Types (P G : gmultiset handle) (c : M ledger A) (Q : A -> gmultiset handle -> Prop).

Lemma spec_conseq P c (Q Q' : A -> gmultiset handle -> Prop) :
  spec P c Q -> (forall a R, Q a R -> Q' a R) -> spec P c Q'.
Proof.
  intros H HQ h F Hl. specialize (H h F Hl). destruct (c h) as [[a | e] h']; [| done].
  destruct H as (R & H1 & H2). exists R. by split; [| apply HQ].
Qed.

Lemma spec_order P P' c Q : P = P' -> spec P' c Q -> spec P c Q.
Proof. by intros ->. Qed.

Lemma spec_ret P (a : A) (Q : A -> gmultiset handle -> Prop) : Q a P -> spec P (mret a) Q.
Proof. intros HQ h F Hl. by exists P. Qed.

Lemma spec_fatal P (Q : A -> gmultiset handle -> Prop) : spec P (stopM SFatal) Q.
Proof. by intros h F Hl. Qed.

Lemma spec_bind P c (f : A -> M ledger B) Q (Q' : B -> gmultiset handle -> Prop) :
  spec P c Q -> (forall a R, Q a R -> spec R (f a) Q') -> spec P (c ≫= f) Q'.
Proof.
  intros H Hf h F Hl. specialize (H h F Hl). unfold mbind, M_bind. destruct (c h) as [[a | e] h']; [| done].
  destruct H as (R & H1 & H2). exact (Hf a R H2 h' F H1).
Qed.

(** What is not named is not touched. *)
Lemma spec_frame P c G Q : spec P c Q -> spec (P ⊎ G) c (fun a X => exists R, X = R ⊎ G /\ Q a R).
Proof.
  intros H h F Hl. specialize (H h (G ⊎ F)). rewrite (assoc_L (⊎)) in H. specialize (H Hl).
  destruct (c h) as [[a | e] h']; [| done]. destruct H as (R & H1 & H2).
  exists (R ⊎ G). split; [by rewrite <- (assoc_L (⊎)) | by exists R].
Qed.

(** A call with its own triple, in the middle of things. *)
Lemma spec_step P0 P G c (f : A -> M ledger B) Q (Q' : B -> gmultiset handle -> Prop) :
  spec P c Q -> P0 = P ⊎ G -> (forall a R, Q a R -> spec (R ⊎ G) (f a) Q') -> spec P0 (c ≫= f) Q'.
Proof.
  intros H -> Hf. apply (spec_bind _ c f (fun a X => exists R, X = R ⊎ G /\ Q a R)); [by apply spec_frame |].
  intros a X (R & -> & HQ). by apply Hf.
Qed.

(** A call that only acquires. *)
Lemma spec_make P c (f : A -> M ledger B) (R : A -> gmultiset handle) (Q' : B -> gmultiset handle -> Prop) :
  spec ∅ c (leaves R) -> (forall a, spec (R a ⊎ P) (f a) Q') -> spec P (c ≫= f) Q'.
Proof.
  intros H Hf. apply (spec_step P ∅ P c f (leaves R)); [done | by rewrite (left_id_L ∅ (⊎)) |]. by intros a ? ->.
Qed.

(** A call that releases the first of what is held. *)
Lemma spec_drop P G c (f : A -> M ledger B) (Q' : B -> gmultiset handle -> Prop) :
  spec P c (leaves (fun _ => ∅)) -> (forall a, spec G (f a) Q') -> spec (P ⊎ G) (c ≫= f) Q'.
Proof.
  intros H Hf. apply (spec_step _ P G c f (leaves (fun _ => ∅))); [done | done |]. intros a ? ->.
  rewrite (left_id_L ∅ (⊎)). apply Hf.
Qed.

Lemma spec_drop_all P c (f : A -> M ledger B) (Q' : B -> gmultiset handle -> Prop) :
  spec P c (leaves (fun _ => ∅)) -> (forall a, spec ∅ (f a) Q') -> spec P (c ≫= f) Q'.
Proof. intros H Hf. rewrite <- (right_id_L ∅ (⊎) P). by apply spec_drop. Qed.

(** The last call may be the release. *)
Lemma spec_eta P c (Q : A -> gmultiset handle -> Prop) : spec P (c ≫= mret) Q -> spec P c Q.
Proof.
  intros H h F Hl. specialize (H h F Hl). unfold mbind, M_bind in H. by destruct (c h) as [[a | e] h'].
Qed.

End Rules.

Lemma spec_acquire k : spec ∅ (acquire k) (leaves (fun n => {[+ (k, n) +]})).
Proof. intros h F Hl. cbn. exists {[+ (k, next h) +]}. split; [| done]. rewrite Hl. by rewrite (left_id_L ∅ (⊎)). Qed.
#[export] Hint Resolve spec_acquire : ledger.

Lemma spec_dispose k n : spec {[+ (k, n) +]} (dispose k n) (leaves (fun _ => ∅)).
Proof.
  intros h F Hl. unfold dispose. rewrite decide_True by (rewrite Hl; multiset_solver). exists ∅. split; [| done].
  change (live h ∖ {[+ (k, n) +]} = ∅ ⊎ F). rewrite Hl. multiset_solver.
Qed.
#[export] Hint Resolve spec_dispose : ledger.

Lemma spec_answer P : spec P answer (fun _ R => R = P).
Proof. intros h F Hl. unfold answer. destruct (answers h); by exists P. Qed.

Lemma spec_must P : spec P must (fun _ R => R = P).
Proof.
  apply (spec_bind _ _ _ _ _ (spec_answer P)). intros [] R ->; [by apply spec_ret | apply spec_fatal].
Qed.

Lemma spec_until P : spec P until_done (fun _ R => R = P).
Proof. intros h F Hl. by exists P. Qed.

(** Calls that change nothing that is held. *)
Lemma spec_skip {A B : Type} (P : gmultiset handle) (c : M ledger A) (f : A -> M ledger B) (Q : B -> gmultiset handle -> Prop) :
  spec P c (fun _ R => R = P) -> (forall a, spec P (f a) Q) -> spec P (c ≫= f) Q.
Proof. intros H Hf. apply (spec_bind _ _ _ _ _ H). by intros a R ->. Qed.

Lemma spec_xmalloc : spec ∅ xmalloc (leaves (fun p => {[+ (KMem, p) +]})).
Proof. apply spec_skip; [apply spec_must | intros _]. by apply spec_skip; [apply spec_ret | intros _; apply spec_acquire]. Qed.
#[export] Hint Resolve spec_xmalloc : ledger.

(** What a pointer that may be [NULL] holds. *)
Definition block (p : option Z) : gmultiset handle := match p with Some p => {[+ (KMem, p) +]} | None => ∅ end.

Lemma spec_free p : spec (block p) (free p) (leaves (fun _ => ∅)).
Proof. destruct p; [apply spec_dispose | by apply spec_ret]. Qed.
#[export] Hint Resolve spec_free : ledger.

Lemma spec_free_some p : spec {[+ (KMem, p) +]} (free (Some p)) (leaves (fun _ => ∅)).
Proof. apply spec_dispose. Qed.
#[export] Hint Resolve spec_free_some : ledger.

Lemma spec_xrealloc p : spec (block p) (xrealloc p) (leaves (fun q => {[+ (KMem, q) +]})).
Proof.
  apply spec_skip; [apply spec_must | intros _]. rewrite <- (right_id_L ∅ (⊎) (block p)).
  apply spec_drop; [apply spec_free | intros _; apply spec_acquire].
Qed.
#[export] Hint Resolve spec_xrealloc : ledger.

Lemma spec_close fd : spec {[+ (KFd, fd) +]} (close_fd fd) (leaves (fun _ => ∅)).
Proof. apply spec_skip; [apply spec_until | intros _; apply spec_dispose]. Qed.
#[export] Hint Resolve spec_close : ledger.

Lemma spec_init_sync k : spec ∅ (init_sync k) (leaves (fun n => {[+ (k, n) +]})).
Proof. apply spec_skip; [apply spec_must | intros _; apply spec_acquire]. Qed.
#[export] Hint Resolve spec_init_sync : ledger.

Lemma spec_destroy_sync k n : spec {[+ (k, n) +]} (destroy_sync k n) (leaves (fun _ => ∅)).
Proof. apply spec_skip; [apply spec_until | intros _; apply spec_dispose]. Qed.
#[export] Hint Resolve spec_destroy_sync : ledger.

(** ** When every call succeeds *)

(** Without a failing call the process does not end. *)
Definition smooth {A : Type} (c : M ledger A) : Prop :=
  forall h, answers h = [] -> match c h with (Ok _, h') => answers h' = [] | (Stop e, _) => e <> SFatal end.

Create HintDb smooth.

Lemma smooth_ret {A : Type} (a : A) : smooth (mret a).
Proof. by intros h Hh. Qed.

Lemma smooth_bind {A B : Type} (c : M ledger A) (f : A -> M ledger B) :
  smooth c -> (forall a, smooth (f a)) -> smooth (c ≫= f).
Proof.
  intros Hc Hf h Hh. specialize (Hc h Hh). unfold mbind, M_bind. destruct (c h) as [[a | e] h']; [by apply Hf | done].
Qed.

(** Only the branch of success counts. *)
Lemma smooth_answer {B : Type} (f : bool -> M ledger B) : smooth (f true) -> smooth (answer ≫= f).
Proof. intros Hf h Hh. unfold mbind, M_bind, answer. rewrite Hh. by apply Hf. Qed.

Lemma smooth_must : smooth must.
Proof. apply smooth_answer. apply smooth_ret. Qed.

Lemma smooth_acquire k : smooth (acquire k).
Proof. by intros h Hh. Qed.

Lemma smooth_dispose k n : smooth (dispose k n).
Proof. intros h Hh. unfold dispose. by case_decide. Qed.

Lemma smooth_until : smooth until_done.
Proof. intros h Hh. cbn. by rewrite Hh. Qed.

#[export] Hint Resolve smooth_ret smooth_must smooth_acquire smooth_dispose smooth_until : smooth.

(** Function by function, case by case. *)
Ltac smooth_call :=
  repeat first
    [ solve [eauto with smooth]
    | apply smooth_answer; cbn [negb]
    | apply smooth_bind; [| intros ?]
    | case_match ].

Lemma smooth_free p : smooth (free p).
Proof. unfold free. smooth_call. Qed.
#[export] Hint Resolve smooth_free : smooth.

Lemma smooth_xrealloc p : smooth (xrealloc p).
Proof. unfold xrealloc. smooth_call. Qed.
#[export] Hint Resolve smooth_xrealloc : smooth.

Lemma smooth_xmalloc : smooth xmalloc.
Proof. apply smooth_xrealloc. Qed.

Lemma smooth_close fd : smooth (close_fd fd).
Proof. unfold close_fd. smooth_call. Qed.

Lemma smooth_init_sync k : smooth (init_sync k).
Proof. unfold init_sync. smooth_call. Qed.

Lemma smooth_destroy_sync k n : smooth (destroy_sync k n).
Proof. unfold destroy_sync. smooth_call. Qed.

#[export] Hint Resolve smooth_xmalloc smooth_close smooth_init_sync smooth_destroy_sync : smooth.

(** ** Objects *)

(** What an object holds, how it is destroyed, and what its destruction forgets. *)
Class Object (A : Type) := {
  owns : A -> gmultiset handle;
  destroy : A -> M ledger unit;
  forgets : A -> gmultiset handle;
  destroy_spec : forall a, spec (owns a) (destroy a) (leaves (fun _ => forgets a));
  destroy_smooth : forall a, smooth (destroy a)
}.

#[export] Hint Resolve destroy_spec : ledger.
#[export] Hint Resolve destroy_smooth : smooth.

(** Creating an object out of [P] and destroying it leaves what its destruction
    forgets, and touches nothing else. *)
Lemma lifecycle {A : Type} `{Object A} (P : gmultiset handle) (create : M ledger A) :
  spec P create (leaves owns) -> smooth create ->
  spec P (a ← create; _ ← destroy a; mret a) (leaves forgets) /\ smooth (a ← create; _ ← destroy a; mret a).
Proof.
  intros Hc Hs. split; [| smooth_call; apply destroy_smooth]. apply (spec_bind _ _ _ _ _ Hc). intros a R ->.
  apply (spec_bind _ _ _ _ _ (destroy_spec a)). by intros [] R ->; apply spec_ret.
Qed.

(** ** Automation *)

(** What is held is put together in any order. *)
#[export] Instance held_assoc : Associative eq (disj_union (A := gmultiset handle)).
Proof. intros x y z. apply (assoc_L (⊎)). Qed.
#[export] Instance held_comm : Commutative eq (disj_union (A := gmultiset handle)).
Proof. intros x y. apply (comm_L (⊎)). Qed.
#[export] Instance held_unit : Unit eq (disj_union (A := gmultiset handle)) ∅.
Proof. split; intros x; [apply (left_id_L ∅ (⊎)) | apply (right_id_L ∅ (⊎))]. Qed.
#[export] Instance held_proper : Proper (eq ==> eq ==> eq) (disj_union (A := gmultiset handle)).
Proof. by intros x ? <- y ? <-. Qed.
#[export] Instance held_lift : AAC_lift (@eq (gmultiset handle)) eq.
Proof. constructor; apply _. Qed.

Arguments disj_union {_ _} _ _ : simpl never.
Arguments singletonMS {_ _ _} _ : simpl never.

(** Brings a held object to the front, without taking objects apart. *)
Ltac held := rewrite ?(left_id_L ∅ (⊎)), ?(right_id_L ∅ (⊎)), <- ?(assoc_L (⊎)).

(** The same things, in another order. *)
Tactic Notation "hold" constr(X) := apply (spec_order _ X); [cbv beta; aac_reflexivity |].

(** One call: it acquires, or it releases the first thing that is held. *)
Ltac ledger_call :=
  first [ eapply spec_make; [solve [eauto with ledger] | intros ?; cbv beta]
        | eapply spec_drop; [solve [eauto with ledger] | intros ?; cbv beta]
        | eapply spec_drop_all; [solve [eauto with ledger] | intros ?; cbv beta] ].

(** A check that may end the process. *)
Ltac ledger_check := apply spec_skip; [apply spec_must | intros _].

(** The result, with what is held. *)
Ltac ledger_ret := apply spec_ret; unfold leaves; cbn; first [reflexivity | aac_reflexivity].

(** A function that creates: calls, then the result. *)
Ltac ledger_create := repeat first [ledger_check | ledger_call]; ledger_ret.

(** The last call of a function that destroys. *)
Ltac ledger_last := apply spec_eta; ledger_call; apply spec_ret; unfold leaves; cbn; held; reflexivity.

(** A function that destroys: what is held is listed in the order of its calls. *)
Ltac ledger_destroy :=
  held;
  repeat first [ solve [eauto with ledger] | apply spec_fatal | solve [ledger_last] | ledger_call; held ].
