(* ===== verification/Lifetime.v ===== *)
(** * The lifetime of the program's objects

    The creation and destruction of each object, on the ledger of Ledger.v: which
    blocks, descriptors, locks, timers and mappings the code takes for it and which it
    gives back, with the order of the calls, their failures and the early returns. The
    contents of the objects are in the other files; here an object is the handles in
    it.

    Threads are not in the ledger, nor are the sockets of clients and of the mirror. *)

From stdpp Require Import gmultiset.
From AAC_tactics Require Import AAC.
From S2P Require Import Prelude Ledger.

Open Scope Z_scope.

(** ** src/src/common/self_pipe.c *)

Record pipe_obj := { po_block : Z; po_read : Z; po_write : Z }.

(** [self_pipe_server_error] is fatal. *)
Definition self_pipe_create_l : M ledger pipe_obj :=
  sig ← xmalloc;
  piped ← answer;
  if negb piped then _ ← free (Some sig); stopM SFatal
  else
    r ← acquire KFd;
    w ← acquire KFd;
    first ← answer;
    second ← (if (first : bool) then answer else mret false);
    if negb second then _ ← close_fd r; _ ← close_fd w; _ ← free (Some sig); stopM SFatal
    else mret {| po_block := sig; po_read := r; po_write := w |}.

Definition self_pipe_destroy_l (p : pipe_obj) : M ledger unit :=
  _ ← close_fd (po_read p); _ ← close_fd (po_write p); free (Some (po_block p)).

#[export, refine] Instance pipe_object : Object pipe_obj := {
  owns p := {[+ (KFd, po_read p) +]} ⊎ ({[+ (KFd, po_write p) +]} ⊎ {[+ (KMem, po_block p) +]});
  destroy := self_pipe_destroy_l;
  forgets _ := ∅
}.
Proof.
  - intros p. unfold self_pipe_destroy_l. ledger_destroy.
  - intros p. unfold self_pipe_destroy_l. smooth_call.
Defined.

Lemma spec_self_pipe_create : spec ∅ self_pipe_create_l (leaves owns).
Proof.
  unfold self_pipe_create_l. ledger_call. rename a into sig.
  apply spec_skip; [apply spec_answer | intros [|]]; cbn [negb]; [| ledger_destroy].
  ledger_call. rename a into r. ledger_call. rename a into w. apply spec_skip; [apply spec_answer | intros first].
  apply spec_skip; [destruct first; [apply spec_answer | by apply spec_ret] | intros [|]]; cbn [negb];
    [ledger_ret |].
  hold ({[+ (KFd, r) +]} ⊎ ({[+ (KFd, w) +]} ⊎ {[+ (KMem, sig) +]}) : gmultiset handle). ledger_destroy.
Qed.
#[export] Hint Resolve spec_self_pipe_create : ledger.

Lemma smooth_self_pipe_create : smooth self_pipe_create_l.
Proof. unfold self_pipe_create_l. smooth_call. Qed.
#[export] Hint Resolve smooth_self_pipe_create : smooth.

(** ** src/src/server/mbox.c *)

Record mbox_obj := { bo_block : Z; bo_filled : Z; bo_emptied : Z; bo_mutex : Z }.

Definition mbox_create_l : M ledger mbox_obj :=
  mbox ← xmalloc;
  filled ← init_sync KCond;
  emptied ← init_sync KCond;
  mutex ← init_sync KMutex;
  mret {| bo_block := mbox; bo_filled := filled; bo_emptied := emptied; bo_mutex := mutex |}.

Definition mbox_destroy_l (b : mbox_obj) : M ledger unit :=
  _ ← destroy_sync KCond (bo_emptied b);
  _ ← destroy_sync KCond (bo_filled b);
  _ ← destroy_sync KMutex (bo_mutex b);
  free (Some (bo_block b)).

#[export, refine] Instance mbox_object : Object mbox_obj := {
  owns b := {[+ (KCond, bo_emptied b) +]} ⊎ ({[+ (KCond, bo_filled b) +]} ⊎
              ({[+ (KMutex, bo_mutex b) +]} ⊎ {[+ (KMem, bo_block b) +]}));
  destroy := mbox_destroy_l;
  forgets _ := ∅
}.
Proof.
  - intros b. unfold mbox_destroy_l. ledger_destroy.
  - intros b. unfold mbox_destroy_l. smooth_call.
Defined.

Lemma spec_mbox_create : spec ∅ mbox_create_l (leaves owns).
Proof. unfold mbox_create_l. ledger_create. Qed.
#[export] Hint Resolve spec_mbox_create : ledger.

Lemma smooth_mbox_create : smooth mbox_create_l.
Proof. unfold mbox_create_l. smooth_call. Qed.
#[export] Hint Resolve smooth_mbox_create : smooth.

(** ** src/src/server/flexthread.c *)

Record mutex_obj := { fo_block : Z; fo_mutex : Z }.

Definition flexthread_mutex_create_l : M ledger mutex_obj :=
  ftm ← xmalloc;
  mutex ← init_sync KMutex;
  mret {| fo_block := ftm; fo_mutex := mutex |}.

(** The first [must] is that no other thread holds it. *)
Definition flexthread_mutex_destroy_l (f : mutex_obj) : M ledger unit :=
  _ ← must;
  _ ← must;
  _ ← dispose KMutex (fo_mutex f);
  free (Some (fo_block f)).

#[export, refine] Instance mutex_object : Object mutex_obj := {
  owns f := {[+ (KMutex, fo_mutex f) +]} ⊎ {[+ (KMem, fo_block f) +]};
  destroy := flexthread_mutex_destroy_l;
  forgets _ := ∅
}.
Proof.
  - intros f. unfold flexthread_mutex_destroy_l. do 2 ledger_check. ledger_destroy.
  - intros f. unfold flexthread_mutex_destroy_l. smooth_call.
Defined.

Lemma spec_flexthread_mutex_create : spec ∅ flexthread_mutex_create_l (leaves owns).
Proof. unfold flexthread_mutex_create_l. ledger_create. Qed.
#[export] Hint Resolve spec_flexthread_mutex_create : ledger.

Lemma smooth_flexthread_mutex_create : smooth flexthread_mutex_create_l.
Proof. unfold flexthread_mutex_create_l. smooth_call. Qed.
#[export] Hint Resolve smooth_flexthread_mutex_create : smooth.

(** ** src/src/server/acl.c *)

Record acl_obj := { ao_block : Z; ao_entries : option Z }.

(** [parse_acl]'s list: none for an empty list. *)
Definition entries_l (len : Z) : M ledger (option Z) :=
  if len =? 0 then mret None else list ← xmalloc; mret (Some list).

Definition acl_create_l (len : Z) : M ledger acl_obj :=
  acl ← xmalloc;
  entries ← entries_l len;
  mret {| ao_block := acl; ao_entries := entries |}.

Definition acl_destroy_l (a : acl_obj) : M ledger unit := _ ← free (ao_entries a); free (Some (ao_block a)).

#[export, refine] Instance acl_object : Object acl_obj := {
  owns a := block (ao_entries a) ⊎ {[+ (KMem, ao_block a) +]};
  destroy := acl_destroy_l;
  forgets _ := ∅
}.
Proof.
  - intros a. unfold acl_destroy_l. ledger_destroy.
  - intros a. unfold acl_destroy_l. smooth_call.
Defined.

Lemma spec_entries len : spec ∅ (entries_l len) (leaves block).
Proof. unfold entries_l. destruct (len =? 0); [by apply spec_ret | ledger_create]. Qed.
#[export] Hint Resolve spec_entries : ledger.

Lemma smooth_entries len : smooth (entries_l len).
Proof. unfold entries_l. smooth_call. Qed.
#[export] Hint Resolve smooth_entries : smooth.

Lemma spec_acl_create len : spec ∅ (acl_create_l len) (leaves owns).
Proof. unfold acl_create_l. ledger_create. Qed.
#[export] Hint Resolve spec_acl_create : ledger.

Lemma smooth_acl_create len : smooth (acl_create_l len).
Proof. unfold acl_create_l. smooth_call. Qed.
#[export] Hint Resolve smooth_acl_create : smooth.

(** The destructors by their names. *)
#[export] Hint Extern 1 (spec _ (self_pipe_destroy_l _) _) => exact (destroy_spec (A := pipe_obj) _) : ledger.
#[export] Hint Extern 1 (smooth (self_pipe_destroy_l _)) => exact (destroy_smooth (A := pipe_obj) _) : smooth.
#[export] Hint Extern 1 (spec _ (mbox_destroy_l _) _) => exact (destroy_spec (A := mbox_obj) _) : ledger.
#[export] Hint Extern 1 (smooth (mbox_destroy_l _)) => exact (destroy_smooth (A := mbox_obj) _) : smooth.
#[export] Hint Extern 1 (spec _ (flexthread_mutex_destroy_l _) _) => exact (destroy_spec (A := mutex_obj) _) : ledger.
#[export] Hint Extern 1 (smooth (flexthread_mutex_destroy_l _)) => exact (destroy_smooth (A := mutex_obj) _) : smooth.
#[export] Hint Extern 1 (spec _ (acl_destroy_l _) _) => exact (destroy_spec (A := acl_obj) _) : ledger.
#[export] Hint Extern 1 (smooth (acl_destroy_l _)) => exact (destroy_smooth (A := acl_obj) _) : smooth.

(** ** src/src/server/serve.c *)

Record server_obj := {
  so_block : Z;
  so_clients : Z;
  so_acl : option acl_obj;
  so_l_acl : mutex_obj;
  so_l_start_mirror : mutex_obj;
  so_close_signal : pipe_obj;
  so_acl_updated_signal : pipe_obj
}.

Definition acl_owns (a : option acl_obj) : gmultiset handle := match a with Some a => owns a | None => ∅ end.

Definition acl_release (a : option acl_obj) : M ledger unit :=
  match a with Some a => acl_destroy_l a | None => mret tt end.

Lemma spec_acl_release a : spec (acl_owns a) (acl_release a) (leaves (fun _ => ∅)).
Proof. destruct a; [eauto with ledger | by apply spec_ret]. Qed.
#[export] Hint Resolve spec_acl_release : ledger.

Lemma smooth_acl_release a : smooth (acl_release a).
Proof. unfold acl_release. smooth_call. Qed.
#[export] Hint Resolve smooth_acl_release : smooth.

(** The checks are the address, the entries of the ACL and the port. *)
Definition server_create_l (acl_entries : Z) : M ledger server_obj :=
  out ← xmalloc;
  clients ← xmalloc;
  _ ← must;
  acl ← acl_create_l acl_entries;
  _ ← must;
  _ ← must;
  l_acl ← flexthread_mutex_create_l;
  l_start_mirror ← flexthread_mutex_create_l;
  close_signal ← self_pipe_create_l;
  acl_updated_signal ← self_pipe_create_l;
  mret {| so_block := out; so_clients := clients; so_acl := Some acl; so_l_acl := l_acl;
          so_l_start_mirror := l_start_mirror; so_close_signal := close_signal;
          so_acl_updated_signal := acl_updated_signal |}.

Definition server_destroy_l (s : server_obj) : M ledger unit :=
  _ ← self_pipe_destroy_l (so_acl_updated_signal s);
  _ ← self_pipe_destroy_l (so_close_signal s);
  _ ← flexthread_mutex_destroy_l (so_l_start_mirror s);
  _ ← flexthread_mutex_destroy_l (so_l_acl s);
  _ ← acl_release (so_acl s);
  _ ← free (Some (so_clients s));
  free (Some (so_block s)).

#[export, refine] Instance server_object : Object server_obj := {
  owns s := owns (so_acl_updated_signal s) ⊎ (owns (so_close_signal s) ⊎ (owns (so_l_start_mirror s) ⊎
              (owns (so_l_acl s) ⊎ (acl_owns (so_acl s) ⊎ ({[+ (KMem, so_clients s) +]} ⊎ {[+ (KMem, so_block s) +]})))));
  destroy := server_destroy_l;
  forgets _ := ∅
}.
Proof.
  - intros s. unfold server_destroy_l. ledger_destroy.
  - intros s. unfold server_destroy_l. smooth_call.
Defined.
#[export] Hint Extern 1 (spec _ (server_destroy_l _) _) => exact (destroy_spec (A := server_obj) _) : ledger.
#[export] Hint Extern 1 (smooth (server_destroy_l _)) => exact (destroy_smooth (A := server_obj) _) : smooth.

Lemma spec_server_create n : spec ∅ (server_create_l n) (leaves owns).
Proof. unfold server_create_l. ledger_create. Qed.
#[export] Hint Resolve spec_server_create : ledger.

Lemma smooth_server_create n : smooth (server_create_l n).
Proof. unfold server_create_l. smooth_call. Qed.
#[export] Hint Resolve smooth_server_create : smooth.

(** [server_replace_acl]: the old list goes. *)
Definition server_replace_acl_l (new_acl : acl_obj) (s : server_obj) : M ledger server_obj :=
  _ ← acl_release (so_acl s);
  mret {| so_block := so_block s; so_clients := so_clients s; so_acl := Some new_acl; so_l_acl := so_l_acl s;
          so_l_start_mirror := so_l_start_mirror s; so_close_signal := so_close_signal s;
          so_acl_updated_signal := so_acl_updated_signal s |}.

Lemma spec_server_replace_acl a s : spec (owns a ⊎ owns s) (server_replace_acl_l a s) (leaves owns).
Proof.
  unfold server_replace_acl_l.
  eapply (spec_step _ (acl_owns (so_acl s)) (owns a ⊎ (owns (so_acl_updated_signal s) ⊎ (owns (so_close_signal s) ⊎
    (owns (so_l_start_mirror s) ⊎ (owns (so_l_acl s) ⊎ ({[+ (KMem, so_clients s) +]} ⊎ {[+ (KMem, so_block s) +]}))))))).
  - apply spec_acl_release.
  - cbn. aac_reflexivity.
  - intros _ R ->. ledger_ret.
Qed.

Lemma smooth_server_replace_acl a s : smooth (server_replace_acl_l a s).
Proof. unfold server_replace_acl_l. smooth_call. Qed.
#[export] Hint Resolve smooth_server_replace_acl : smooth.

(** ** src/src/server/client.c *)

Record client_obj := { co_block : Z; co_stop_signal : pipe_obj; co_killswitch : Z }.

Definition client_create_l : M ledger client_obj :=
  c ← xmalloc;
  stop_signal ← self_pipe_create_l;
  killswitch ← init_sync KTimer;
  mret {| co_block := c; co_stop_signal := stop_signal; co_killswitch := killswitch |}.

Definition client_destroy_l (c : client_obj) : M ledger unit :=
  _ ← must;
  _ ← dispose KTimer (co_killswitch c);
  _ ← self_pipe_destroy_l (co_stop_signal c);
  free (Some (co_block c)).

#[export, refine] Instance client_object : Object client_obj := {
  owns c := {[+ (KTimer, co_killswitch c) +]} ⊎ (owns (co_stop_signal c) ⊎ {[+ (KMem, co_block c) +]});
  destroy := client_destroy_l;
  forgets _ := ∅
}.
Proof.
  - intros c. unfold client_destroy_l. ledger_check. ledger_destroy.
  - intros c. unfold client_destroy_l. smooth_call.
Defined.

Lemma spec_client_create : spec ∅ client_create_l (leaves owns).
Proof. unfold client_create_l. ledger_create. Qed.

#[export] Hint Resolve spec_client_create : ledger.

Lemma smooth_client_create : smooth client_create_l.
Proof. unfold client_create_l. smooth_call. Qed.
#[export] Hint Resolve smooth_client_create : smooth.

(** ** src/src/server/mirror.c *)

Record mirror_obj := {
  mo_block : Z;
  mo_abandon_signal : pipe_obj;
  mo_connect_to : option Z;
  mo_connect_from : option Z;
  mo_map_fd : Z;
  mo_mapped : option Z
}.

(** [mirror_create]: [mirror_alloc], then [mirror_init] with [open_and_mmap] and
    [madvise]. The addresses are the caller's and become the mirror's. *)
Definition mirror_create_l (connect_to connect_from : option Z) : M ledger mirror_obj :=
  mirror ← xmalloc;
  abandon_signal ← self_pipe_create_l;
  _ ← must;
  map_fd ← acquire KFd;
  mapped ← acquire KMap;
  _ ← must;
  mret {| mo_block := mirror; mo_abandon_signal := abandon_signal; mo_connect_to := connect_to;
          mo_connect_from := connect_from; mo_map_fd := map_fd; mo_mapped := Some mapped |}.

Definition mirror_destroy_l (m : mirror_obj) : M ledger unit :=
  _ ← self_pipe_destroy_l (mo_abandon_signal m);
  _ ← free (mo_connect_to m);
  _ ← free (mo_connect_from m);
  free (Some (mo_block m)).

Definition mapping (p : option Z) : gmultiset handle := match p with Some p => {[+ (KMap, p) +]} | None => ∅ end.

(** The descriptor and the mapping are forgotten. *)
#[export, refine] Instance mirror_object : Object mirror_obj := {
  owns m := owns (mo_abandon_signal m) ⊎ (block (mo_connect_to m) ⊎ (block (mo_connect_from m) ⊎
              ({[+ (KMem, mo_block m) +]} ⊎ ({[+ (KFd, mo_map_fd m) +]} ⊎ mapping (mo_mapped m)))));
  destroy := mirror_destroy_l;
  forgets m := {[+ (KFd, mo_map_fd m) +]} ⊎ mapping (mo_mapped m)
}.
Proof.
  - intros m. unfold mirror_destroy_l. ledger_destroy.
  - intros m. unfold mirror_destroy_l. smooth_call.
Defined.
#[export] Hint Extern 1 (spec _ (mirror_destroy_l _) _) => exact (destroy_spec (A := mirror_obj) _) : ledger.
#[export] Hint Extern 1 (smooth (mirror_destroy_l _)) => exact (destroy_smooth (A := mirror_obj) _) : smooth.

Lemma spec_mirror_create to from :
  spec (block to ⊎ block from) (mirror_create_l to from) (leaves owns).
Proof. unfold mirror_create_l. ledger_create. Qed.

Lemma smooth_mirror_create to from : smooth (mirror_create_l to from).
Proof. unfold mirror_create_l. smooth_call. Qed.
#[export] Hint Resolve smooth_mirror_create : smooth.

(** [mirror_cleanup], which an attempt that ends by [error()] runs, unmaps the file. *)
Definition mirror_cleanup_l (m : mirror_obj) : M ledger mirror_obj :=
  _ ← match mo_mapped m with Some p => dispose KMap p | None => mret tt end;
  mret {| mo_block := mo_block m; mo_abandon_signal := mo_abandon_signal m; mo_connect_to := mo_connect_to m;
          mo_connect_from := mo_connect_from m; mo_map_fd := mo_map_fd m; mo_mapped := None |}.

Lemma spec_mirror_cleanup m :
  spec (owns m) (mirror_cleanup_l m) (leaves (fun m' => owns m')).
Proof.
  unfold mirror_cleanup_l. eapply (spec_step _ (mapping (mo_mapped m)) (owns (mo_abandon_signal m) ⊎ (block (mo_connect_to m) ⊎
    (block (mo_connect_from m) ⊎ ({[+ (KMem, mo_block m) +]} ⊎ {[+ (KFd, mo_map_fd m) +]}))))).
  - instantiate (1 := leaves (fun _ => ∅)). destruct (mo_mapped m); [apply spec_dispose | by apply spec_ret].
  - cbn. aac_reflexivity.
  - intros _ R ->. ledger_ret.
Qed.

Record super_obj := { uo_block : Z; uo_commit_signal : mbox_obj; uo_mirror : mirror_obj }.

Definition mirror_super_create_l (connect_to connect_from : option Z) : M ledger super_obj :=
  super ← xmalloc;
  commit_signal ← mbox_create_l;
  mirror ← mirror_create_l connect_to connect_from;
  mret {| uo_block := super; uo_commit_signal := commit_signal; uo_mirror := mirror |}.

Definition mirror_super_destroy_l (u : super_obj) : M ledger unit :=
  _ ← mbox_destroy_l (uo_commit_signal u);
  _ ← mirror_destroy_l (uo_mirror u);
  free (Some (uo_block u)).

#[export, refine] Instance super_object : Object super_obj := {
  owns u := owns (uo_commit_signal u) ⊎ (owns (uo_mirror u) ⊎ {[+ (KMem, uo_block u) +]});
  destroy := mirror_super_destroy_l;
  forgets u := forgets (uo_mirror u)
}.
Proof.
  2:{ intros u. unfold mirror_super_destroy_l. smooth_call. }
  intros u. unfold mirror_super_destroy_l. ledger_call.
  eapply spec_step; [exact (destroy_spec (A := mirror_obj) (uo_mirror u)) | reflexivity |]. intros ? R ->.
  hold ({[+ (KMem, uo_block u) +]} ⊎ forgets (uo_mirror u)). ledger_last.
Defined.

Lemma spec_mirror_super_create to from :
  spec (block to ⊎ block from) (mirror_super_create_l to from) (leaves owns).
Proof.
  unfold mirror_super_create_l. do 2 ledger_call.
  eapply spec_step; [apply (spec_mirror_create to from) | |].
  - rewrite (assoc_L (⊎)). apply (comm_L (⊎)).
  - intros m R ->. ledger_ret.
Qed.

Lemma smooth_mirror_super_create to from : smooth (mirror_super_create_l to from).
Proof. unfold mirror_super_create_l. smooth_call. Qed.
#[export] Hint Resolve smooth_mirror_super_create : smooth.

(** ** src/src/server/control.c, status.c and flexnbd.c *)

Record control_obj := { lo_block : Z; lo_open_signal : pipe_obj; lo_close_signal : pipe_obj; lo_mbox : mbox_obj }.

Definition control_create_l : M ledger control_obj :=
  control ← xmalloc;
  open_signal ← self_pipe_create_l;
  close_signal ← self_pipe_create_l;
  mirror_state_mbox ← mbox_create_l;
  mret {| lo_block := control; lo_open_signal := open_signal; lo_close_signal := close_signal;
          lo_mbox := mirror_state_mbox |}.

Definition control_destroy_l (c : control_obj) : M ledger unit :=
  _ ← mbox_destroy_l (lo_mbox c);
  _ ← self_pipe_destroy_l (lo_close_signal c);
  _ ← self_pipe_destroy_l (lo_open_signal c);
  free (Some (lo_block c)).

#[export, refine] Instance control_object : Object control_obj := {
  owns c := owns (lo_mbox c) ⊎ (owns (lo_close_signal c) ⊎ (owns (lo_open_signal c) ⊎ {[+ (KMem, lo_block c) +]}));
  destroy := control_destroy_l;
  forgets _ := ∅
}.
Proof.
  - intros c. unfold control_destroy_l. ledger_destroy.
  - intros c. unfold control_destroy_l. smooth_call.
Defined.
#[export] Hint Extern 1 (spec _ (control_destroy_l _) _) => exact (destroy_spec (A := control_obj) _) : ledger.
#[export] Hint Extern 1 (smooth (control_destroy_l _)) => exact (destroy_smooth (A := control_obj) _) : smooth.

Lemma spec_control_create : spec ∅ control_create_l (leaves owns).
Proof. unfold control_create_l. ledger_create. Qed.
#[export] Hint Resolve spec_control_create : ledger.

Lemma smooth_control_create : smooth control_create_l.
Proof. unfold control_create_l. smooth_call. Qed.
#[export] Hint Resolve smooth_control_create : smooth.

(** [status_create] and [status_destroy], [control_client_create] and
    [control_client_destroy]: one block each. *)
Definition status_create_l : M ledger Z := xmalloc.
Definition status_destroy_l (status : Z) : M ledger unit := free (Some status).
Definition control_client_create_l : M ledger Z := xmalloc.
Definition control_client_destroy_l (client : Z) : M ledger unit := free (Some client).

Record flexnbd_obj := { xo_block : Z; xo_serve : server_obj; xo_control : option control_obj; xo_signal_fd : Z }.

Definition control_owns (c : option control_obj) : gmultiset handle := match c with Some c => owns c | None => ∅ end.

Definition control_make (s_ctrl_sock : bool) : M ledger (option control_obj) :=
  if s_ctrl_sock then c ← control_create_l; mret (Some c) else mret None.

Definition control_release (c : option control_obj) : M ledger unit :=
  match c with Some c => control_destroy_l c | None => mret tt end.

(** [flexnbd_create_serving] and [flexnbd_create_listening] with
    [flexnbd_create_shared]; [signalfd] is a descriptor, or the process ends, and so
    does the [sigaction] of the killswitch. *)
Definition flexnbd_create_l (acl_entries : Z) (s_ctrl_sock use_killswitch : bool) : M ledger flexnbd_obj :=
  flexnbd ← xmalloc;
  serve ← server_create_l acl_entries;
  control ← control_make s_ctrl_sock;
  signal_fd ← init_sync KFd;
  _ ← (if use_killswitch then must else mret tt);
  mret {| xo_block := flexnbd; xo_serve := serve; xo_control := control; xo_signal_fd := signal_fd |}.

Definition flexnbd_destroy_l (f : flexnbd_obj) : M ledger unit :=
  _ ← control_release (xo_control f);
  _ ← dispose KFd (xo_signal_fd f);
  free (Some (xo_block f)).

Lemma spec_control_release c : spec (control_owns c) (control_release c) (leaves (fun _ => ∅)).
Proof. destruct c; [eauto with ledger | by apply spec_ret]. Qed.
#[export] Hint Resolve spec_control_release : ledger.

Lemma smooth_control_release c : smooth (control_release c).
Proof. unfold control_release. smooth_call. Qed.
#[export] Hint Resolve smooth_control_release : smooth.

Lemma spec_control_make b : spec ∅ (control_make b) (leaves control_owns).
Proof. destruct b; [unfold control_make; ledger_create | by apply spec_ret]. Qed.
#[export] Hint Resolve spec_control_make : ledger.

Lemma smooth_control_make b : smooth (control_make b).
Proof. unfold control_make. smooth_call. Qed.
#[export] Hint Resolve smooth_control_make : smooth.

(** The server is forgotten. *)
#[export, refine] Instance flexnbd_object : Object flexnbd_obj := {
  owns f := control_owns (xo_control f) ⊎ ({[+ (KFd, xo_signal_fd f) +]} ⊎ ({[+ (KMem, xo_block f) +]} ⊎ owns (xo_serve f)));
  destroy := flexnbd_destroy_l;
  forgets f := owns (xo_serve f)
}.
Proof.
  - intros f. unfold flexnbd_destroy_l. ledger_destroy.
  - intros f. unfold flexnbd_destroy_l. smooth_call.
Defined.

Lemma spec_flexnbd_create n b k : spec ∅ (flexnbd_create_l n b k) (leaves owns).
Proof.
  unfold flexnbd_create_l. do 4 ledger_call.
  apply spec_skip; [destruct k; [apply spec_must | by apply spec_ret] | intros _]. ledger_ret.
Qed.

#[export] Hint Resolve spec_flexnbd_create : ledger.

Lemma smooth_flexnbd_create n b k : smooth (flexnbd_create_l n b k).
Proof. unfold flexnbd_create_l. smooth_call. Qed.
#[export] Hint Resolve smooth_flexnbd_create : smooth.

(** ** src/src/server/bitset.h *)

Record bitset_obj := {
  to_block : Z; to_lock : Z; to_stream : Z; to_mutex : Z; to_not_full : Z; to_not_empty : Z
}.

(** The results of the [pthread_..._init] calls are not looked at. *)
Definition bitset_alloc_l : M ledger bitset_obj :=
  bitset ← xmalloc;
  lock ← acquire KMutex;
  stream ← xmalloc;
  mutex ← acquire KMutex;
  not_full ← acquire KCond;
  not_empty ← acquire KCond;
  mret {| to_block := bitset; to_lock := lock; to_stream := stream; to_mutex := mutex; to_not_full := not_full;
          to_not_empty := not_empty |}.

Definition bitset_free_l (t : bitset_obj) : M ledger unit := _ ← free (Some (to_stream t)); free (Some (to_block t)).

(** The locks are forgotten, as its comments say. *)
#[export, refine] Instance bitset_object : Object bitset_obj := {
  owns t := {[+ (KMem, to_stream t) +]} ⊎ ({[+ (KMem, to_block t) +]} ⊎
              {[+ (KMutex, to_lock t); (KMutex, to_mutex t); (KCond, to_not_full t); (KCond, to_not_empty t) +]});
  destroy := bitset_free_l;
  forgets t := {[+ (KMutex, to_lock t); (KMutex, to_mutex t); (KCond, to_not_full t); (KCond, to_not_empty t) +]}
}.
Proof.
  - intros t. unfold bitset_free_l. ledger_destroy.
  - intros t. unfold bitset_free_l. smooth_call.
Defined.

Lemma spec_bitset_alloc : spec ∅ bitset_alloc_l (leaves owns).
Proof. unfold bitset_alloc_l. ledger_create. Qed.

#[export] Hint Resolve spec_bitset_alloc : ledger.

Lemma smooth_bitset_alloc : smooth bitset_alloc_l.
Proof. unfold bitset_alloc_l. smooth_call. Qed.
#[export] Hint Resolve smooth_bitset_alloc : smooth.

(** [serve_init_allocation_map] (serve.c): the descriptor it finds the size with, and
    the map; the builder thread opens the file for itself. *)
Definition serve_init_allocation_map_l : M ledger (Z * bitset_obj) :=
  fd ← init_sync KFd;
  _ ← must;
  allocation_map ← bitset_alloc_l;
  _ ← must;
  mret (fd, allocation_map).

(** The end of [serve_cleanup]. *)
Definition serve_free_map_l (allocation_map : option bitset_obj) : M ledger unit :=
  match allocation_map with Some t => bitset_free_l t | None => mret tt end.

(** The descriptor is not closed: it is held for as long as the process runs. *)
Lemma init_map_keeps_descriptor :
  spec ∅ (r ← serve_init_allocation_map_l; _ ← serve_free_map_l (Some r.2); mret r)
    (leaves (fun r => {[+ (KFd, r.1) +]} ⊎ forgets r.2)).
Proof.
  unfold serve_init_allocation_map_l. eapply (spec_bind _ _ _ (leaves (fun r => owns r.2 ⊎ {[+ (KFd, r.1) +]}))).
  - repeat first [ledger_check | ledger_call]. apply spec_ret. unfold leaves. cbn [fst snd]. aac_reflexivity.
  - intros [fd t] R ->. cbn [fst snd serve_free_map_l].
    eapply spec_step; [exact (destroy_spec (A := bitset_obj) t) | reflexivity |].
    intros _ R ->. apply spec_ret. unfold leaves. cbn [fst snd]. apply (comm_L (⊎)).
Qed.

(** ** src/src/proxy *)

Record prefetch_obj := { eo_block : Z; eo_buffer : Z }.

Definition prefetch_create_l : M ledger prefetch_obj :=
  out ← xmalloc;
  buffer ← xmalloc;
  mret {| eo_block := out; eo_buffer := buffer |}.

Definition prefetch_owns (e : option prefetch_obj) : gmultiset handle :=
  match e with Some e => {[+ (KMem, eo_buffer e) +]} ⊎ {[+ (KMem, eo_block e) +]} | None => ∅ end.

Definition prefetch_destroy_l (e : option prefetch_obj) : M ledger unit :=
  match e with Some e => _ ← free (Some (eo_buffer e)); free (Some (eo_block e)) | None => mret tt end.

Lemma spec_prefetch_destroy e : spec (prefetch_owns e) (prefetch_destroy_l e) (leaves (fun _ => ∅)).
Proof. destruct e; cbn; [ledger_destroy | by apply spec_ret]. Qed.
#[export] Hint Resolve spec_prefetch_destroy : ledger.

Lemma smooth_prefetch_destroy e : smooth (prefetch_destroy_l e).
Proof. unfold prefetch_destroy_l. smooth_call. Qed.
#[export] Hint Resolve smooth_prefetch_destroy : smooth.

Lemma spec_prefetch_create : spec ∅ prefetch_create_l (leaves (fun e => prefetch_owns (Some e))).
Proof. unfold prefetch_create_l. ledger_create. Qed.
#[export] Hint Resolve spec_prefetch_create : ledger.

Lemma smooth_prefetch_create : smooth prefetch_create_l.
Proof. unfold prefetch_create_l. smooth_call. Qed.
#[export] Hint Resolve smooth_prefetch_create : smooth.

Record proxy_obj := {
  yo_block : Z; yo_prefetch : option prefetch_obj; yo_init : Z; yo_req : Z; yo_rsp : Z; yo_log_context : Z
}.

Definition prefetch_make (cache : bool) : M ledger (option prefetch_obj) :=
  if cache then e ← prefetch_create_l; mret (Some e) else mret None.

(** The checks are the address to listen on, its port unless it is a path, the
    address, the port and the bind address of the server; [cache] is that a cache of
    at least 0 bytes was asked for. *)
Definition proxy_create_l (path bound cache : bool) : M ledger proxy_obj :=
  out ← xmalloc;
  _ ← must;
  _ ← (if path then mret tt else must);
  _ ← must;
  _ ← must;
  _ ← (if bound then must else mret tt);
  prefetch ← prefetch_make cache;
  init ← xmalloc;
  req ← xmalloc;
  rsp ← xmalloc;
  log_context ← xmalloc;
  mret {| yo_block := out; yo_prefetch := prefetch; yo_init := init; yo_req := req; yo_rsp := rsp;
          yo_log_context := log_context |}.

Definition proxy_destroy_l (y : proxy_obj) : M ledger unit :=
  _ ← free (Some (yo_init y));
  _ ← free (Some (yo_req y));
  _ ← free (Some (yo_rsp y));
  _ ← prefetch_destroy_l (yo_prefetch y);
  free (Some (yo_block y)).

(** The log context is forgotten. *)
#[export, refine] Instance proxy_object : Object proxy_obj := {
  owns y := {[+ (KMem, yo_init y) +]} ⊎ ({[+ (KMem, yo_req y) +]} ⊎ ({[+ (KMem, yo_rsp y) +]} ⊎
              (prefetch_owns (yo_prefetch y) ⊎ ({[+ (KMem, yo_block y) +]} ⊎ {[+ (KMem, yo_log_context y) +]}))));
  destroy := proxy_destroy_l;
  forgets y := {[+ (KMem, yo_log_context y) +]}
}.
Proof.
  - intros y. unfold proxy_destroy_l. ledger_destroy.
  - intros y. unfold proxy_destroy_l. smooth_call.
Defined.

Lemma spec_prefetch_make b : spec ∅ (prefetch_make b) (leaves prefetch_owns).
Proof. destruct b; [unfold prefetch_make; ledger_create | by apply spec_ret]. Qed.
#[export] Hint Resolve spec_prefetch_make : ledger.

Lemma smooth_prefetch_make b : smooth (prefetch_make b).
Proof. unfold prefetch_make. smooth_call. Qed.
#[export] Hint Resolve smooth_prefetch_make : smooth.

Lemma spec_proxy_create path bound cache : spec ∅ (proxy_create_l path bound cache) (leaves owns).
Proof.
  unfold proxy_create_l. ledger_call. ledger_check.
  apply spec_skip; [destruct path; [by apply spec_ret | apply spec_must] | intros _]. do 2 ledger_check.
  apply spec_skip; [destruct bound; [apply spec_must | by apply spec_ret] | intros _]. ledger_create.
Qed.

#[export] Hint Resolve spec_proxy_create : ledger.

Lemma smooth_proxy_create path bound cache : smooth (proxy_create_l path bound cache).
Proof. unfold proxy_create_l. smooth_call. Qed.
#[export] Hint Resolve smooth_proxy_create : smooth.

(** * Properties *)

(** What stays behind when an object was created, out of what it was given, and
    destroyed. *)
Record balance_of {A : Type} `{Object A} (given : gmultiset handle) (create : M ledger A) (left : A -> gmultiset handle)
    : Prop := {
  bl_spec : spec given (a ← create; _ ← destroy a; mret a) (leaves left);
  bl_smooth : smooth (a ← create; _ ← destroy a; mret a)
}.

Notation balance := (balance_of ∅).

Lemma balanced {A : Type} `{Object A} (given : gmultiset handle) (create : M ledger A) :
  spec given create (leaves owns) -> smooth create -> balance_of given create forgets.
Proof. intros Hc Hs. destruct (lifecycle given create Hc Hs). by constructor. Qed.

(** C14: the objects of the server and of the proxy can be created and destroyed, and
    this is what stays behind: nothing of a pipe, a mailbox, a mutex, an ACL, a server,
    a client or a control socket; of a bitset its two mutexes and two condition
    variables; of a proxy the text of its log context; of a mirror and of a supervisor,
    which also release the addresses they were given, the descriptor and the mapping of
    the file; of a [flexnbd] the whole server. Nothing is released twice, nothing else
    is touched, and the calls only end the process when one of them fails. *)
Theorem objects_balanced :
  balance self_pipe_create_l (fun _ => ∅) /\ balance mbox_create_l (fun _ => ∅) /\
  balance flexthread_mutex_create_l (fun _ => ∅) /\ (forall n, balance (acl_create_l n) (fun _ => ∅)) /\
  (forall n, balance (server_create_l n) (fun _ => ∅)) /\ balance client_create_l (fun _ => ∅) /\
  balance control_create_l (fun _ => ∅) /\
  balance bitset_alloc_l (fun t =>
    {[+ (KMutex, to_lock t); (KMutex, to_mutex t); (KCond, to_not_full t); (KCond, to_not_empty t) +]}) /\
  (forall path bound cache, balance (proxy_create_l path bound cache) (fun y => {[+ (KMem, yo_log_context y) +]})) /\
  (forall to from, balance_of (block to ⊎ block from) (mirror_create_l to from)
     (fun m => {[+ (KFd, mo_map_fd m) +]} ⊎ mapping (mo_mapped m))) /\
  (forall to from, balance_of (block to ⊎ block from) (mirror_super_create_l to from)
     (fun u => {[+ (KFd, mo_map_fd (uo_mirror u)) +]} ⊎ mapping (mo_mapped (uo_mirror u)))) /\
  (forall n b k, balance (flexnbd_create_l n b k) (fun f => owns (xo_serve f))).
Proof.
  split_and!; intros.
  - exact (balanced _ _ spec_self_pipe_create smooth_self_pipe_create).
  - exact (balanced _ _ spec_mbox_create smooth_mbox_create).
  - exact (balanced _ _ spec_flexthread_mutex_create smooth_flexthread_mutex_create).
  - exact (balanced _ _ (spec_acl_create n) (smooth_acl_create n)).
  - exact (balanced _ _ (spec_server_create n) (smooth_server_create n)).
  - exact (balanced _ _ spec_client_create smooth_client_create).
  - exact (balanced _ _ spec_control_create smooth_control_create).
  - exact (balanced _ _ spec_bitset_alloc smooth_bitset_alloc).
  - exact (balanced _ _ (spec_proxy_create path bound cache) (smooth_proxy_create path bound cache)).
  - exact (balanced _ _ (spec_mirror_create to from) (smooth_mirror_create to from)).
  - exact (balanced _ _ (spec_mirror_super_create to from) (smooth_mirror_super_create to from)).
  - exact (balanced _ _ (spec_flexnbd_create n b k) (smooth_flexnbd_create n b k)).
Qed.
