(* ===== verification/Resources.v ===== *)
(** * What a control command leaves behind

    The handling of a command on the control socket, from [accept] to
    [control_client_cleanup] (src/src/server/control.c), on the ledger of Ledger.v and
    with the objects of Lifetime.v: what every command takes and what it gives back.
    Which branch is taken is decided by the functions of Parse.v, Text.v and
    Control.v on the lines of the command. *)

From stdpp Require Import gmultiset.
From AAC_tactics Require Import AAC.
From S2P Require Import Prelude Text IoUtil Parse Acl Control Ledger Lifetime.

Open Scope Z_scope.

(** ** A command on the control socket *)

(** What the control thread works on: the server, its mirror, and the context of the
    thread's error handler. *)
Record ctl_obj := {
  ct_server : server_obj;
  ct_super : option super_obj;
  ct_can_start : bool;
  ct_handler : option Z
}.

#[export] Instance ctl_obj_eta : Settable ctl_obj := fun t =>
  Build_ctl_obj (ct_server t) (ct_super t) (ct_can_start t) (ct_handler t).

Definition super_owns (u : option super_obj) : gmultiset handle := match u with Some u => owns u | None => ∅ end.

Definition ctl_owns (t : ctl_obj) : gmultiset handle :=
  owns (ct_server t) ⊎ (super_owns (ct_super t) ⊎ block (ct_handler t)).

(** The macro of util.h: the old context of the thread is freed. *)
Definition error_set_handler_l (old : option Z) : M ledger Z :=
  context ← xmalloc; _ ← free old; mret context.

(** [read_lines_until_blankline] (src/src/common/ioutil.c): [input] is what
    [read_until_newline] delivers before the blank line; a line that begins with a NUL
    ends the list too, after it was copied. [strdup] is taken to succeed, as the code
    does. The array and the lines with their blocks. *)
Fixpoint read_lines_l (input : list (list Z)) (arr : option Z) : M ledger (option Z * list (Z * list Z)) :=
  match input with
  | [] => mret (arr, [])
  | line :: input' =>
      arr' ← xrealloc arr;
      p ← acquire KMem;
      match c_str line with
      | [] => mret (Some arr', [])
      | s => '(a, ls) ← read_lines_l input' (Some arr'); mret (a, (p, s) :: ls)
      end
  end.

Fixpoint free_lines (ls : list (Z * list Z)) : M ledger unit :=
  match ls with
  | [] => mret tt
  | l :: ls' => _ ← free (Some l.1); free_lines ls'
  end.

Section Commands.
Context (pton4 pton6 : list Z -> option (list Z)).

(** The address of a bind parameter, and whether it is good. *)
Definition bind_l (line : option (list Z)) : M ledger (option Z * bool) :=
  match line with
  | None => mret (None, true)
  | Some l =>
      connect_from ← xmalloc;
      r ← liftR (parse_ip_to_sockaddr pton4 pton6 zero_sockaddr l);
      mret (Some connect_from, bool_decide (is_Some (r : option mysockaddr)))
  end.

(** The supervisor is started: the mirror thread posts a state, the supervisor posts
    it on and frees it, and the control thread frees what it was told. *)
Definition start_super_l (t : ctl_obj) : M ledger (Z * ctl_obj) :=
  match ct_super t with
  | Some _ =>
      _ ← must;
      commit ← xmalloc;
      contents ← xmalloc;
      _ ← free (Some commit);
      _ ← free (Some contents);
      _ ← must;
      mret (0, t)
  | None => mret (0, t)
  end.

(** [control_mirror]: on a [return -1], and when no mirror can be started, the
    addresses stay behind. *)
Definition control_mirror_l (lines : list (list Z)) (t : ctl_obj) : M ledger (Z * ctl_obj) :=
  connect_to ← xmalloc;
  match lines with
  | l0 :: l1 :: rest =>
      to ← liftR (parse_ip_to_sockaddr pton4 pton6 zero_sockaddr l0);
      match (to : option mysockaddr) with
      | None => mret (-1, t)
      | Some _ =>
          let raw_port := atoi l1 in
          if (raw_port <? 0) || (65535 <? raw_port) then mret (-1, t)
          else
            match parse_action (rest !! 0%nat) with
            | None => mret (-1, t)
            | Some _ =>
                '(connect_from, good) ← bind_l (rest !! 1%nat);
                if negb good then mret (-1, t)
                else if match rest !! 2%nat with None => false | Some l => (strtoull l).2 end then mret (-1, t)
                else if 3 <? zlen rest then mret (-1, t)
                else if ct_can_start t then
                  super ← mirror_super_create_l (Some connect_to) connect_from;
                  start_super_l (t <| ct_super := Some super |> <| ct_can_start := false |>)
                else start_super_l t
            end
      end
  | _ => mret (-1, t)
  end.

Definition control_acl_l (deny : bool) (lines : list (list Z)) (t : ctl_obj) : M ledger (Z * ctl_obj) :=
  new_acl ← acl_create_l (zlen lines);
  parsed ← liftR (acl_create pton4 pton6 lines deny);
  if negb (acl_len parsed =? zlen lines) then _ ← acl_destroy_l new_acl; mret (0, t)
  else s ← server_replace_acl_l new_acl (ct_server t); mret (0, t <| ct_server := s |>).

(** [control_break] with [server_abandon_mirror]. *)
Definition control_break_l (t : ctl_obj) : M ledger (Z * ctl_obj) :=
  match ct_super t with
  | Some super =>
      _ ← must;
      _ ← mirror_super_destroy_l super;
      mret (1, t <| ct_super := None |> <| ct_can_start := true |>)
  | None => mret (0, t)
  end.

Definition control_status_l (t : ctl_obj) : M ledger (Z * ctl_obj) :=
  status ← status_create_l; _ ← status_destroy_l status; mret (0, t).

Definition control_dispatch_l (deny : bool) (lines : list (list Z)) (t : ctl_obj) : M ledger (Z * ctl_obj) :=
  match lines with
  | [] => mret (0, t)
  | cmd :: args =>
      if streq cmd (str "acl") then control_acl_l deny args t
      else if streq cmd (str "mirror") then control_mirror_l args t
      else if streq cmd (str "break") then control_break_l t
      else if streq cmd (str "status") then control_status_l t
      else mret (0, t)
  end.

(** [control_accept_client], [control_handle_client], [control_respond] and
    [control_client_cleanup]. *)
Definition control_session_l (deny : bool) (input : list (list Z)) (t : ctl_obj) : M ledger ctl_obj :=
  client_fd ← init_sync KFd;
  client ← control_client_create_l;
  handler ← error_set_handler_l (ct_handler t);
  let t := t <| ct_handler := Some handler |> in
  '(arr, ls) ← read_lines_l input None;
  '(_, t) ← control_dispatch_l deny ls.*2 t;
  _ ← free_lines ls;
  _ ← free arr;
  _ ← dispose KFd client_fd;
  _ ← control_client_destroy_l client;
  mret t.

End Commands.

(** * Lemmas *)

Lemma spec_liftR {A} P (r : res A) (a : A) : r = Ok a -> spec P (liftR r) (fun b R => b = a /\ R = P).
Proof. intros -> h F Hl. by exists P. Qed.

(** A computation on values only. *)
Lemma spec_value {A B} P (r : res A) (a : A) (f : A -> M ledger B) Q :
  r = Ok a -> spec P (f a) Q -> spec P (liftR r ≫= f) Q.
Proof. intros Hr H. apply (spec_bind _ _ _ _ _ (spec_liftR P r a Hr)). by intros ? ? [-> ->]. Qed.

Lemma spec_error_set_handler old : spec (block old) (error_set_handler_l old) (leaves (fun p => {[+ (KMem, p) +]})).
Proof. unfold error_set_handler_l. ledger_call. hold (block old ⊎ {[+ (KMem, a) +]} : gmultiset handle). ledger_call. ledger_ret. Qed.

(** The blocks of the lines. *)
Fixpoint lines_own (ls : list (Z * list Z)) : gmultiset handle :=
  match ls with [] => ∅ | l :: ls' => {[+ (KMem, l.1) +]} ⊎ lines_own ls' end.

Lemma spec_free_lines ls : spec (lines_own ls) (free_lines ls) (leaves (fun _ => ∅)).
Proof. induction ls as [| l ls IH]; cbn [free_lines lines_own]; [by apply spec_ret | ledger_call; exact IH]. Qed.
#[local] Hint Resolve spec_free_lines : ledger.

(** The lines a command consists of, and whether the last one read began with a NUL. *)
Fixpoint texts (input : list (list Z)) : list (list Z) :=
  match input with
  | [] => []
  | line :: input' => match c_str line with [] => [] | s => s :: texts input' end
  end.

Definition nul_line (input : list (list Z)) : bool := existsb (fun line => bool_decide (c_str line = [])) input.

(** One block, or none. *)
Definition stray (b : bool) (L : gmultiset handle) : Prop := if b then exists p, L = {[+ (KMem, p) +]} else L = ∅.

Lemma spec_read_lines input : forall arr,
  spec (block arr) (read_lines_l input arr) (fun r R => exists N, R = block r.1 ⊎ (lines_own r.2 ⊎ N) /\
    r.2.*2 = texts input /\ stray (nul_line input) N).
Proof.
  induction input as [| line input IH]; intros arr; cbn [read_lines_l texts nul_line existsb].
  { apply spec_ret. exists ∅. split; [cbn; aac_reflexivity | done]. }
  eapply spec_bind; [apply spec_xrealloc | intros arr' R ->]. ledger_call. rename a into p.
  destruct (c_str line) as [| c s].
  - apply spec_ret. exists {[+ (KMem, p) +]}. split; [cbn; aac_reflexivity |]. split; [done | by exists p].
  - eapply spec_step; [apply (IH (Some arr')) | apply (comm_L (⊎)) |].
    intros [a ls] R (N & -> & Ht & HN). apply spec_ret. exists N. split; [cbn; aac_reflexivity |]. cbn [snd fmap list_fmap].
    by rewrite <- Ht.
Qed.

Section Commands.
Context (pton4 pton6 : list Z -> option (list Z)).

Lemma spec_bind_address line : (forall l, line = Some l -> (length l < 64)%nat) ->
  spec ∅ (bind_l pton4 pton6 line) (leaves (fun r => block r.1)).
Proof.
  intros Hl. destruct line as [l |]; cbn [bind_l]; [| by apply spec_ret].
  destruct (parse_ip_total pton4 pton6 zero_sockaddr l (Hl l eq_refl)) as (r & Hr).
  ledger_call. apply (spec_value _ _ _ _ _ Hr). ledger_ret.
Qed.

Lemma spec_start_super t : spec (ctl_owns t) (start_super_l t) (fun r R => r = (0, t) /\ R = ctl_owns t).
Proof.
  unfold start_super_l. destruct (ct_super t); [| by apply spec_ret].
  ledger_check. ledger_call. rename a into commit. ledger_call. rename a into contents.
  hold ({[+ (KMem, commit) +]} ⊎ ({[+ (KMem, contents) +]} ⊎ ctl_owns t) : gmultiset handle).
  do 2 ledger_call. ledger_check. by apply spec_ret.
Qed.

(** While there is a mirror no other can be started. *)
Definition ctl_ok (t : ctl_obj) : Prop := ct_super t = None \/ ct_can_start t = false.

(** A mirror is started and holds the addresses, or nothing changes and one or two
    blocks are lost. *)
Definition mirror_lost (t t' : ctl_obj) (L : gmultiset handle) : Prop :=
  (ct_can_start t = true /\ ct_can_start t' = false /\ ct_super t' <> None /\ L = ∅) \/
  (ct_server t' = ct_server t /\ ct_super t' = ct_super t /\ ct_can_start t' = ct_can_start t /\
   exists p o, L = {[+ (KMem, p) +]} ⊎ block o).

Lemma spec_control_mirror lines t : Forall (fun l => (length l < 64)%nat) lines -> ctl_ok t ->
  spec (ctl_owns t) (control_mirror_l pton4 pton6 lines t)
    (fun (r : Z * ctl_obj) R => exists L, R = ctl_owns r.2 ⊎ L /\ mirror_lost t r.2 L).
Proof.
  intros Hs Ht. unfold control_mirror_l. ledger_call. rename a into to.
  assert (Hkeep : forall code o, spec ({[+ (KMem, to) +]} ⊎ (block o ⊎ ctl_owns t)) (mret (code, t))
    (fun (r : Z * ctl_obj) R => exists L, R = ctl_owns r.2 ⊎ L /\ mirror_lost t r.2 L)).
  { intros code o. apply spec_ret. exists ({[+ (KMem, to) +]} ⊎ block o). split; [cbn; aac_reflexivity |].
    right. do 3 (split; [done |]). by exists to, o. }
  assert (Hk0 : forall code, spec ({[+ (KMem, to) +]} ⊎ ctl_owns t) (mret (code, t))
    (fun (r : Z * ctl_obj) R => exists L, R = ctl_owns r.2 ⊎ L /\ mirror_lost t r.2 L)).
  { intros code. hold ({[+ (KMem, to) +]} ⊎ (∅ ⊎ ctl_owns t) : gmultiset handle). exact (Hkeep code None). }
  destruct lines as [| l0 [| l1 rest]]; [apply Hk0 | apply Hk0 |].
  apply Forall_cons in Hs as [Hs0 Hs]. apply Forall_cons in Hs as [_ Hs].
  destruct (parse_ip_total pton4 pton6 zero_sockaddr l0 Hs0) as (r & Hr). apply (spec_value _ _ _ _ _ Hr).
  destruct r; [| apply Hk0]. destruct (_ || _); [apply Hk0 |]. destruct (parse_action _); [| apply Hk0].
  eapply spec_make; [apply spec_bind_address; intros l Hl; by apply (Forall_lookup_1 _ _ _ _ Hs Hl) |].
  intros [from good]. cbn [fst].
  hold ({[+ (KMem, to) +]} ⊎ (block from ⊎ ctl_owns t)).
  destruct good; [| apply Hkeep]. cbn [negb]. destruct (match rest !! 2%nat with Some _ => _ | None => _ end); [apply Hkeep |].
  destruct (3 <? zlen rest); [apply Hkeep |]. destruct (ct_can_start t) eqn:Ec.
  - destruct Ht as [Ht | ?]; [| congruence].
    eapply spec_step; [apply (spec_mirror_super_create (Some to) from) | cbn [block]; apply (assoc_L (⊎)) |].
    intros u R ->. set (t' := t <| ct_super := Some u |> <| ct_can_start := false |>).
    replace (owns u ⊎ ctl_owns t) with (ctl_owns t').
    2:{ unfold ctl_owns, t'. rewrite Ht. cbn [super_owns ct_super ct_server ct_handler set_field]. aac_reflexivity. }
    eapply spec_conseq; [apply spec_start_super |]. intros ? R [-> ->]. exists ∅. split; [cbn [snd]; aac_reflexivity |].
    left. by split_and!.
  - rewrite (assoc_L (⊎)), (comm_L (⊎)). eapply spec_conseq; [apply spec_frame; apply spec_start_super |].
    intros ? X (R & -> & -> & ->). eexists. split; [reflexivity |]. right. do 3 (split; [done |]). by exists to, from.
Qed.

(** What a command loses. *)
Definition lost (lines : list (list Z)) (t t' : ctl_obj) (L : gmultiset handle) : Prop :=
  match lines with
  | [] => L = ∅
  | cmd :: _ =>
      if streq cmd (str "acl") then L = ∅
      else if streq cmd (str "mirror") then mirror_lost t t' L
      else if streq cmd (str "break") then L = match ct_super t with Some u => forgets u | None => ∅ end
      else L = ∅
  end.

Lemma spec_control_acl deny lines t : Forall (fun l => (length l < 64)%nat) lines -> ctl_ok t ->
  spec (ctl_owns t) (control_acl_l pton4 pton6 deny lines t) (fun (r : Z * ctl_obj) R => R = ctl_owns r.2 /\ ctl_ok r.2).
Proof.
  intros Hs Ht. unfold control_acl_l. ledger_call. rename a into new.
  destruct (parse_acl_total pton4 pton6 lines Hs) as (es & He & _).
  eapply spec_value; [unfold acl_create; rewrite He; reflexivity |].
  destruct (negb _).
  - eapply spec_drop; [exact (destroy_spec (A := acl_obj) new) | intros _]. by apply spec_ret.
  - eapply spec_step; [apply (spec_server_replace_acl new (ct_server t)) | unfold ctl_owns; apply (assoc_L (⊎)) |].
    intros s R ->. apply spec_ret. by split.
Qed.

Lemma spec_control_break t : ctl_ok t ->
  spec (ctl_owns t) (control_break_l t) (fun (r : Z * ctl_obj) R =>
    R = ctl_owns r.2 ⊎ match ct_super t with Some u => forgets u | None => ∅ end /\ ctl_ok r.2).
Proof.
  intros Ht. unfold control_break_l. destruct (ct_super t) as [u |] eqn:Eu.
  2:{ apply spec_ret. split; [cbn [snd]; aac_reflexivity | done]. }
  ledger_check. unfold ctl_owns. rewrite Eu. cbn [super_owns].
  eapply (spec_step _ (owns u) (owns (ct_server t) ⊎ block (ct_handler t)));
    [exact (destroy_spec (A := super_obj) u) | aac_reflexivity |].
  intros _ R ->. apply spec_ret. split; [| by left]. cbn [snd ct_server ct_super ct_handler set_field super_owns]. aac_reflexivity.
Qed.

Lemma spec_control_dispatch deny lines t : Forall (fun l => (length l < 64)%nat) lines -> ctl_ok t ->
  spec (ctl_owns t) (control_dispatch_l pton4 pton6 deny lines t)
    (fun (r : Z * ctl_obj) R => exists L, R = ctl_owns r.2 ⊎ L /\ lost lines t r.2 L /\ ctl_ok r.2).
Proof.
  intros Hs Ht.
  assert (Hsame : spec (ctl_owns t) (mret (0, t))
    (fun (r : Z * ctl_obj) R => exists L, R = ctl_owns r.2 ⊎ L /\ L = ∅ /\ ctl_ok r.2)).
  { apply spec_ret. exists ∅. split; [cbn [snd]; aac_reflexivity | done]. }
  destruct lines as [| cmd args]; cbn [control_dispatch_l lost]; [exact Hsame |].
  apply Forall_cons in Hs as [_ Hs]. destruct (streq cmd (str "acl")).
  { eapply spec_conseq; [by apply spec_control_acl |]. intros r R [-> Hr]. exists ∅. split; [aac_reflexivity | done]. }
  destruct (streq cmd (str "mirror")).
  { eapply spec_conseq; [by apply spec_control_mirror |]. intros r R (L & -> & HL). exists L. split_and!; [done | done |].
    destruct HL as [(_ & H & _) | (_ & H1 & H2 & _)]; [by right | unfold ctl_ok; by rewrite H1, H2]. }
  destruct (streq cmd (str "break")).
  { eapply spec_conseq; [by apply spec_control_break |]. intros r R [-> Hr]. by eexists. }
  destruct (streq cmd (str "status")); [| exact Hsame].
  unfold control_status_l, status_create_l, status_destroy_l. do 2 ledger_call. exact Hsame.
Qed.

Lemma lost_handler lines t t' p L : lost lines (t <| ct_handler := p |>) t' L -> lost lines t t' L.
Proof. done. Qed.

Lemma spec_control_session deny input t :
  Forall (fun l => (length l < 64)%nat) (texts input) -> ctl_ok t ->
  spec (ctl_owns t) (control_session_l pton4 pton6 deny input t) (fun t' R =>
    exists L N, R = ctl_owns t' ⊎ (L ⊎ N) /\ lost (texts input) t t' L /\ stray (nul_line input) N /\ ctl_ok t').
Proof.
  intros Hs Ht. unfold control_session_l, control_client_create_l, control_client_destroy_l.
  ledger_call. rename a into fd. ledger_call. rename a into client. unfold ctl_owns at 1.
  eapply (spec_step _ (block (ct_handler t)) ({[+ (KMem, client) +]} ⊎ ({[+ (KFd, fd) +]} ⊎
    (owns (ct_server t) ⊎ super_owns (ct_super t))))); [apply spec_error_set_handler | aac_reflexivity |].
  intros handler R ->. cbn zeta. set (t1 := t <| ct_handler := Some handler |>).
  apply (spec_order _ (block None ⊎ (ctl_owns t1 ⊎ ({[+ (KMem, client) +]} ⊎ {[+ (KFd, fd) +]})))).
  { unfold ctl_owns. cbn [t1 ct_server ct_super ct_handler set_field block]. aac_reflexivity. }
  eapply spec_step; [apply (spec_read_lines input None) | reflexivity |].
  intros [arr ls] R (N & -> & Hls & HN). cbn [fst snd] in *.
  eapply (spec_step _ (ctl_owns t1) (block arr ⊎ (lines_own ls ⊎ (N ⊎ ({[+ (KMem, client) +]} ⊎ {[+ (KFd, fd) +]})))));
    [rewrite Hls; by apply spec_control_dispatch | aac_reflexivity |].
  intros [code t'] R (L & -> & HL & Ht'). cbn [fst snd] in *.
  hold (lines_own ls ⊎ (block arr ⊎ ({[+ (KFd, fd) +]} ⊎ ({[+ (KMem, client) +]} ⊎ (ctl_owns t' ⊎ (L ⊎ N)))))).
  do 4 ledger_call. apply spec_ret. exists L, N. split; [done |]. by apply lost_handler in HL.
Qed.

(** ** Without failures the session ends *)

Lemma smooth_value {A} (r : res A) : r <> Stop SFatal -> smooth (liftR r).
Proof. intros Hr h Hh. cbn. destruct r as [a | e]; [done |]. congruence. Qed.

Lemma smooth_ip out src : smooth (liftR (parse_ip_to_sockaddr pton4 pton6 out src)).
Proof. apply smooth_value. unfold parse_ip_to_sockaddr. cbn zeta. repeat case_match; done. Qed.

Lemma smooth_bind_address line : smooth (bind_l pton4 pton6 line).
Proof. unfold bind_l. smooth_call; apply smooth_ip. Qed.

Lemma smooth_start_super t : smooth (start_super_l t).
Proof. unfold start_super_l. smooth_call. Qed.

#[local] Hint Resolve smooth_ip smooth_bind_address smooth_start_super : smooth.

Lemma smooth_control_mirror lines t : smooth (control_mirror_l pton4 pton6 lines t).
Proof. unfold control_mirror_l. smooth_call. Qed.

Lemma parse_acl_no_fatal lines : parse_acl pton4 pton6 lines <> Stop SFatal.
Proof.
  induction lines as [| l lines IH]; cbn [parse_acl]; [done |]. unfold parse_acl_entry, parse_ip_to_sockaddr. cbn zeta.
  destruct (parse_acl pton4 pton6 lines); repeat (case_match; cbn [mbind res_bind] in *; try congruence).
Qed.

Lemma smooth_control_acl deny lines t : smooth (control_acl_l pton4 pton6 deny lines t).
Proof.
  unfold control_acl_l. apply smooth_bind; [smooth_call | intros new]. apply smooth_bind; [| intros parsed; smooth_call].
  apply smooth_value. unfold acl_create. pose proof (parse_acl_no_fatal lines).
  destruct (parse_acl pton4 pton6 lines); cbn; congruence.
Qed.

Lemma smooth_control_break t : smooth (control_break_l t).
Proof. unfold control_break_l. smooth_call. Qed.

#[local] Hint Resolve smooth_control_mirror smooth_control_acl smooth_control_break : smooth.

Lemma smooth_dispatch deny lines t : smooth (control_dispatch_l pton4 pton6 deny lines t).
Proof. unfold control_dispatch_l, control_status_l, status_create_l, status_destroy_l. smooth_call. Qed.

Lemma smooth_read_lines input : forall arr, smooth (read_lines_l input arr).
Proof. induction input as [| line input IH]; intros arr; cbn [read_lines_l]; smooth_call. Qed.

Lemma smooth_free_lines ls : smooth (free_lines ls).
Proof. induction ls as [| l ls IH]; cbn [free_lines]; smooth_call. Qed.

#[local] Hint Resolve smooth_dispatch smooth_read_lines smooth_free_lines : smooth.

Lemma smooth_session deny input t : smooth (control_session_l pton4 pton6 deny input t).
Proof.
  unfold control_session_l, control_client_create_l, control_client_destroy_l, error_set_handler_l. smooth_call.
Qed.

(** * Properties *)

(** C12: what a control command leaves behind. Whatever is sent to the control socket,
    as long as no line has 64 characters, the command releases nothing that is not
    held, so nothing is freed or closed twice, and afterwards the server holds what it
    held, with a new ACL, a mirror more or a mirror less, and the socket, the client,
    the lines and the status of the command are given back. What is lost is listed: a
    [mirror] command that starts no mirror loses its addresses, a [break] the
    descriptor of the image and its mapping, and a line that begins with a NUL is lost
    itself. The command comes to its end unless a call fails that the code takes for
    fatal. *)
Theorem control_command_resources deny input t h F :
  Forall (fun l => (length l < 64)%nat) (texts input) -> ctl_ok t -> live h = ctl_owns t ⊎ F ->
  match control_session_l pton4 pton6 deny input t h with
  | (Ok t', h') => exists L N, live h' = ctl_owns t' ⊎ (L ⊎ N) ⊎ F /\ lost (texts input) t t' L /\
                     stray (nul_line input) N /\ ctl_ok t'
  | (Stop e, _) => e = SFatal /\ answers h <> []
  end.
Proof.
  intros Hs Ht Hl. pose proof (smooth_session deny input t h) as Hn. pose proof (spec_control_session deny input t Hs Ht h F Hl) as H.
  destruct (control_session_l _ _ _ _ _ h) as [[t' | e] h']; [| split; [done | intros Ha; by apply (Hn Ha)]].
  destruct H as (R & -> & L & N & -> & H). by exists L, N.
Qed.

End Commands.

(** ** A refused command *)

Definition sample_pipe (n : Z) : pipe_obj := {| po_block := n; po_read := n + 1; po_write := n + 2 |}.
Definition sample_mutex (n : Z) : mutex_obj := {| fo_block := n; fo_mutex := n + 1 |}.

(** A server with an empty list and no mirror. *)
Definition quiet_ctl : ctl_obj :=
  {| ct_server := {| so_block := 1; so_clients := 2; so_acl := Some {| ao_block := 3; ao_entries := None |};
                     so_l_acl := sample_mutex 4; so_l_start_mirror := sample_mutex 6;
                     so_close_signal := sample_pipe 8; so_acl_updated_signal := sample_pipe 11 |};
     ct_super := None; ct_can_start := true; ct_handler := None |}.

Definition sample_ledger : ledger := {| live := ctl_owns quiet_ctl; next := 14; answers := [] |}.

(** The line [mirror], without an address. *)
Definition sample_input : list (list Z) := [str "mirror"].

Lemma control_command_resources_witness :
  match control_session_l (fun _ => None) (fun _ => None) false sample_input quiet_ctl sample_ledger with
  | (Ok t', h') => exists L N, live h' = ctl_owns t' ⊎ (L ⊎ N) ⊎ ∅ /\ lost (texts sample_input) quiet_ctl t' L /\
                     stray (nul_line sample_input) N /\ ctl_ok t'
  | (Stop e, _) => e = SFatal /\ answers sample_ledger <> []
  end.
Proof.
  apply (control_command_resources (fun _ => None) (fun _ => None) false sample_input quiet_ctl sample_ledger ∅).
  - repeat constructor.
  - left. reflexivity.
  - cbn [live sample_ledger]. symmetry. apply (right_id_L ∅ (⊎)).
Defined.

(** The refused command leaves one more block than before and the handler's context:
    the address it was to connect to is not freed. *)
Example refused_mirror_leaks :
  let out := control_session_l (fun _ => None) (fun _ => None) false sample_input quiet_ctl sample_ledger in
  match out with
  | (Ok t', h') => size (live h') = S (size (ctl_owns t')) /\ ct_super t' = None
  | _ => False
  end.
Proof. vm_compute. by split. Qed.
