(* ===== verification/Remote.v ===== *)
(** * Remote commands

    Models src/src/common/remote.c: the program that sends a command to the control
    socket of a server and prints the answer; and proves that it and the control
    socket understand each other. *)

From S2P Require Import Prelude Text Bitset IoUtil SockUtil Parse Acl Mbox Serve Mirror Status Control.

Open Scope Z_scope.

Definition max_response : nat := 1024.

(** The argument of [strchr(s, c)] from the character on. *)
Fixpoint strchr (c : Z) (s : list Z) : option (list Z) :=
  match s with
  | [] => None
  | x :: s' => if x =? c then Some s else strchr c s'
  end.

(** Where a text is printed. *)
Inductive out_stream := Stdout | Stderr.

(** [response_text + 2] of a string that ends with the colon is behind its NUL. *)
Definition print_response (response : list Z) : res (out_stream * list Z) :=
  let exit_status := atoi response in
  match strchr 58 response with
  | None => Stop SFatal
  | Some response_text =>
      match response_text with
      | _ :: _ :: text => Ok (if 0 <? exit_status then Stderr else Stdout, text ++ [LF])
      | _ => Stop SFault
      end
  end.

(** What is written to the socket; a NULL argument is an empty line. *)
Definition remote_request (command : list Z) (argv : list (option (list Z))) : list Z :=
  command ++ [LF] ++ concat ((fun a => default [] a ++ [LF]) <$> argv) ++ [LF].

(** [do_remote_command]: the answers of [socket] and [connect], and what arrives; the
    exit status and what is printed. A full buffer without a NUL is no string. *)
Definition do_remote_command (sock connected : Z) (rx : list rd_event) : res (Z * out_stream * list Z) :=
  if sock <? 0 then Stop SFatal
  else if connected <? 0 then Stop SFatal
  else
    '(readden, line, _) ← read_until_newline max_response rx 0;
    if readden <? 0 then Stop SFatal
    else if (Z.of_nat max_response <? readden) && negb (bool_decide (0 ∈ line)) then Stop SFault
    else
      let response := c_str line in
      '(stream, text) ← print_response response;
      Ok (atoi response, stream, text).

(** * Lemmas *)

(** A request is the lines that the control socket reads. *)
Lemma remote_request_lines command args :
  remote_request command (Some <$> args) = send_lines (command :: args).
Proof.
  unfold remote_request, send_lines. cbn. rewrite <- !app_assoc. f_equal. cbn. do 2 f_equal. f_equal.
  rewrite <- list_fmap_compose. done.
Qed.

(** The status digit is the exit status. *)
Lemma atoi_code code text : is_digit code = true -> atoi (code :: 58 :: text) = code - 48.
Proof.
  intros Hc. unfold atoi. cbn [skip_space]. rewrite (digit_not_space code Hc).
  unfold is_digit in Hc. replace (code =? 45) with false by lia. replace (code =? 43) with false by lia.
  cbn [digits_value]. replace (is_digit code) with true by (unfold is_digit; lia).
  change (is_digit 58) with false. cbn iota.
  assert (0 <= 10 * 0 + (code - 48) <= 9) by lia. set (v := _ + _) in *. replace (code - 48) with v by lia.
  unfold clamp_long. rewrite s32_id; lia.
Qed.

(** The client's side of a one-line response. *)
Lemma remote_reads sock connected rx code text :
  0 <= sock -> 0 <= connected -> is_digit code = true -> clean text -> (length text <= 1000)%nat ->
  Forall data_event rx -> incoming rx = code :: 58 :: 32 :: text ++ [LF] ->
  do_remote_command sock connected rx = Ok (code - 48, if 48 <? code then Stderr else Stdout, text ++ [LF]).
Proof.
  intros Hs Hc Hd [Hlf H0] Hl Hrx Hin. unfold do_remote_command.
  replace (sock <? 0) with false by lia. replace (connected <? 0) with false by lia.
  destruct (read_until_newline_spec max_response rx 0 (code :: 58 :: 32 :: text) [] Hrx) as (rx' & -> & _).
  - rewrite !not_elem_of_cons. unfold is_digit, LF in *. split_and!; [lia | lia | lia | done].
  - unfold max_response. cbn [length]. lia.
  - rewrite Hin. done.
  - cbn [mbind res_bind]. set (line := code :: 58 :: 32 :: text).
    assert (Hz : zlen line <= 1003) by (unfold zlen, line; cbn [length]; lia). pose proof (zlen_nonneg line).
    replace (_ <? 0) with false by lia. replace (Z.of_nat max_response <? 0 + zlen line + 1) with false
      by (change (Z.of_nat max_response) with 1024; lia). cbn [andb].
    rewrite c_str_id.
    2:{ unfold line. rewrite !not_elem_of_cons. unfold is_digit in Hd. split_and!; [lia | lia | lia | done]. }
    unfold print_response, line. rewrite (atoi_code code _ Hd). cbn [strchr].
    replace (code =? 58) with false by (unfold is_digit in Hd; lia). cbn [Z.eqb Pos.eqb mbind res_bind].
    by replace (0 <? code - 48) with (48 <? code) by lia.
Qed.

(** The server's side: what arrives are the lines of the command; more is not read. *)
Lemma control_respond_first pton4 pton6 self fuel e command args rest rx s :
  Forall (line_ok 256) (command :: args) -> (length args + 1 < fuel)%nat ->
  Forall data_event rx -> incoming rx = remote_request command (Some <$> args) ++ rest ->
  control_respond pton4 pton6 self fuel e rx s =
    '(_, out, s) ← control_dispatch pton4 pton6 self e (command :: args) s; Ok (out, control_client_cleanup self s).
Proof.
  intros Hok Hf Hrx Hin. rewrite remote_request_lines in Hin. unfold control_respond.
  destruct (read_lines_spec 256 (command :: args) fuel rx rest) as (rx' & -> & _); [lia | cbn; lia | done ..].
Qed.

Lemma control_respond_lines pton4 pton6 self fuel e command args rx s :
  Forall (line_ok 256) (command :: args) -> (length args + 1 < fuel)%nat ->
  Forall data_event rx -> incoming rx = remote_request command (Some <$> args) ->
  control_respond pton4 pton6 self fuel e rx s =
    '(_, out, s) ← control_dispatch pton4 pton6 self e (command :: args) s; Ok (out, control_client_cleanup self s).
Proof.
  intros Hok Hf Hrx Hin. apply (control_respond_first _ _ _ _ _ _ _ []); try done. by rewrite app_nil_r.
Qed.

(** The cleanup unlocks nothing that was not locked. *)
Lemma cleanup_unlocked self s : self <> 0 -> unlocked s -> control_client_cleanup self s = s.
Proof.
  intros Hs [H _]. unfold control_client_cleanup, server_acl_locked, flexthread_mutex_held. rewrite H.
  by replace (self =? 0) with false by lia.
Qed.

Lemma line_ok_short l : line_ok 64 l -> line_ok 256 l /\ (length l < 64)%nat /\ clean l.
Proof. intros (H1 & H2 & H3 & H4). split_and!; [| done | done]. by split_and!; [| | | lia]. Qed.

Lemma request_ok cmd args : cmd ∈ commands -> Forall (line_ok 64) args -> Forall (line_ok 256) (cmd :: args).
Proof.
  intros Hc Ha. apply Forall_cons_2; [| by apply (Forall_impl _ _ _ Ha); intros l Hl; apply line_ok_short].
  assert (Hall : Forall (line_ok 256) commands) by (repeat constructor; try by_decide; vm_compute; lia).
  unfold commands in *. rewrite list.Forall_forall in Hall. by apply Hall.
Qed.

(** * Properties *)

(** C16: the program and the control socket understand each other. One of the five
    commands with arguments that are lines of 1 to 63 characters, in any segmentation
    both ways, is answered by one line, a status digit and a text, from a server that
    ends with its locks free, and the program prints the text, to stderr exactly when
    the digit is not 0, and exits with the digit. A mirror command is covered while no
    mirror is set, with the calls that open the file succeeding and a supervisor, which
    is an argument, that posts a state other than MS_INIT and MS_UNKNOWN and leaves the
    locks alone. A longer address overruns a buffer ([parse_ip_overflows_temp]), an
    empty argument cuts the command short ([empty_argument_cuts_command]). *)
Theorem remote_command_end_to_end pton4 pton6 self fuel e cmd args s rx sock connected :
  control_ready s -> control_env_ok e -> self <> 0 -> cmd ∈ commands -> Forall (line_ok 64) args ->
  (cmd = str "mirror" -> mirror_super s = false) -> (length args + 1 < fuel)%nat ->
  Forall data_event rx -> incoming rx = remote_request cmd (Some <$> args) -> 0 <= sock -> 0 <= connected ->
  exists code text s',
    control_respond pton4 pton6 self fuel e rx s = Ok (code :: str ": " ++ text ++ [LF], s') /\
    48 <= code <= 57 /\ clean text /\ unlocked s' /\
    forall rx', Forall data_event rx' -> incoming rx' = code :: str ": " ++ text ++ [LF] ->
      do_remote_command sock connected rx' = Ok (code - 48, if 48 <? code then Stderr else Stdout, text ++ [LF]).
Proof.
  intros Hr He Hself Hc Ha Hm Hf Hrx Hin Hs Hk.
  rewrite (control_respond_lines _ _ _ _ _ _ _ _ _ (request_ok _ _ Hc Ha) Hf Hrx Hin).
  assert (Hresp : responds (control_dispatch pton4 pton6 self e (cmd :: args) s)).
  { apply dispatch_responds; try done. apply (Forall_impl _ _ _ Ha). intros l Hl. by apply line_ok_short. }
  destruct Hresp as (v & out & s' & -> & (code & text & -> & Hd & Ht & Hl) & Hu). cbn [mbind res_bind].
  rewrite cleanup_unlocked by done. exists code, text, s'. split; [reflexivity |].
  split; [unfold is_digit in Hd; lia |]. split; [done |]. split; [done |]. intros rx' Hrx' Hin'.
  by apply remote_reads.
Qed.

(** An empty argument ends the command: the control socket takes the empty line for
    its end, and does not see the arguments behind it. *)
Theorem empty_argument_cuts_command pton4 pton6 self fuel e command args more rx s :
  Forall (line_ok 256) (command :: args) -> (length args + 1 < fuel)%nat ->
  Forall data_event rx -> incoming rx = remote_request command (Some <$> args ++ [] :: more) ->
  control_respond pton4 pton6 self fuel e rx s =
    '(_, out, s) ← control_dispatch pton4 pton6 self e (command :: args) s; Ok (out, control_client_cleanup self s).
Proof.
  intros Hok Hf Hrx Hin.
  apply (control_respond_first _ _ _ _ _ _ _ (concat ((fun a => default [] a ++ [LF]) <$> (Some <$> more)) ++ [LF])); try done.
  rewrite Hin. unfold remote_request. rewrite !fmap_app, concat_app. cbn [fmap list_fmap concat default app].
  rewrite <- !app_assoc. cbn [app]. by rewrite <- !app_assoc.
Qed.

(** C25: [flexnbd acl] end to end, for arguments that are lines of 1 to 63 characters.
    When every one of them parses, the server's list is replaced by the parsed one with
    the old default, its thread is told to audit the clients, and the program prints
    "updated" and exits with 0. Otherwise the server is left as it was, and the program
    names the first bad line on stderr and exits with 1. (A longer line can overrun the
    buffer of [parse_ip_to_sockaddr], an empty one ends the list:
    [empty_argument_cuts_command].) *)
Theorem remote_acl_end_to_end pton4 pton6 self fuel e args es a s rx sock connected :
  control_ready s -> self <> 0 -> the_acl s = Some a -> Forall (line_ok 64) args ->
  parse_acl pton4 pton6 args = Ok es -> (length args + 1 < fuel)%nat ->
  Forall data_event rx -> incoming rx = remote_request (str "acl") (Some <$> args) -> 0 <= sock -> 0 <= connected ->
  exists out s', control_respond pton4 pton6 self fuel e rx s = Ok (out, s') /\
    forall rx', Forall data_event rx' -> incoming rx' = out ->
      if bool_decide (length es = length args) then
        s' = s <| the_acl := Some {| acl_len := zlen es; default_deny := default_deny a; acl_entries := es |} |>
               <| acl_updated_signal := {| sp_bytes := sp_bytes (acl_updated_signal s) + 1; sp_open := true |} |> /\
        do_remote_command sock connected rx' = Ok (0, Stdout, str "updated" ++ [LF])
      else
        s' = s /\ exists bad, args !! length es = Some bad /\
        do_remote_command sock connected rx' = Ok (1, Stderr, str "bad spec: " ++ bad ++ [LF]).
Proof.
  intros Hr Hself Ha Hok Hp Hf Hrx Hin Hs Hk.
  assert (Hcmd : str "acl" ∈ commands) by by_decide.
  rewrite (control_respond_lines _ _ _ _ _ _ _ _ _ (request_ok _ _ Hcmd Hok) Hf Hrx Hin).
  change (control_dispatch pton4 pton6 self e (str "acl" :: args) s) with (control_acl pton4 pton6 self args s).
  assert (Hle : (length es <= length args)%nat).
  { destruct (parse_acl_total pton4 pton6 args) as (es' & E & Hle); [| congruence].
    apply (Forall_impl _ _ _ Hok). intros l Hl. by apply line_ok_short. }
  pose proof (cr_unlocked _ Hr) as Hu.
  case_bool_decide as Hlen.
  - rewrite (acl_updates pton4 pton6 self args es a s Hr Ha Hp Hlen). cbn [mbind res_bind].
    eexists _, _. split; [reflexivity |]. rewrite cleanup_unlocked by (first [done | split; [done | apply Hu]]).
    intros rx' Hrx' Hin'. split; [destruct s as [? ? ? ? ? ? [h] ?]; destruct Hu as [Hu _]; cbn in Hu; by subst h |].
    by rewrite (remote_reads sock connected rx' 48 (str "updated")) by (done || (split; by_decide) || (cbn; lia)).
  - destruct (args !! length es) as [bad |] eqn:Eb; [| apply lookup_ge_None_1 in Eb; lia].
    rewrite (acl_refuses pton4 pton6 self args es a bad s Ha Hp Hlen Eb). cbn [mbind res_bind].
    eexists _, _. split; [reflexivity |]. rewrite cleanup_unlocked by done.
    intros rx' Hrx' Hin'. split; [done |]. exists bad. split; [done |].
    pose proof (Forall_lookup_1 _ _ _ _ Hok Eb) as (_ & B1 & B2 & B3).
    rewrite (remote_reads sock connected rx' 49 (str "bad spec: " ++ bad)); try done.
    + apply clean_app. split; [split; by_decide | done].
    + rewrite length_app. cbn. lia.
Qed.

Lemma remote_command_end_to_end_witness :
  exists code text s',
    control_respond (fun _ => None) (fun _ => None) 1 5 sample_control_env
      [RdBytes (remote_request (str "mirror") (Some <$> [str "0"; str "4777"]))] (sample_server false) =
      Ok (code :: str ": " ++ text ++ [LF], s') /\
    48 <= code <= 57 /\ clean text /\ unlocked s' /\
    forall rx', Forall data_event rx' -> incoming rx' = code :: str ": " ++ text ++ [LF] ->
      do_remote_command 4 0 rx' = Ok (code - 48, if 48 <? code then Stderr else Stdout, text ++ [LF]).
Proof.
  apply (remote_command_end_to_end (fun _ => None) (fun _ => None) 1 5 sample_control_env (str "mirror")
    [str "0"; str "4777"] (sample_server false)
    [RdBytes (remote_request (str "mirror") (Some <$> [str "0"; str "4777"]))] 4 0).
  - apply sample_control_ready.
  - apply sample_control_env_ok.
  - discriminate.
  - by_decide.
  - repeat constructor; try by_decide; vm_compute; lia.
  - reflexivity.
  - cbn; lia.
  - repeat constructor; done.
  - reflexivity.
  - lia.
  - lia.
Defined.

Lemma remote_acl_end_to_end_witness :
  exists out s', control_respond example_pton4 (fun _ => None) 1 5 sample_control_env
      [RdBytes (remote_request (str "acl") (Some <$> [example_line; [120]]))] (sample_server false) = Ok (out, s') /\
    forall rx', Forall data_event rx' -> incoming rx' = out ->
      s' = sample_server false /\ exists bad, [example_line; [120]] !! 1%nat = Some bad /\
        do_remote_command 4 0 rx' = Ok (1, Stderr, str "bad spec: " ++ bad ++ [LF]).
Proof.
  apply (remote_acl_end_to_end example_pton4 (fun _ => None) 1 5 sample_control_env [example_line; [120]]
    (acl_entries example_acl) {| acl_len := 0; default_deny := false; acl_entries := [] |} (sample_server false)
    [RdBytes (remote_request (str "acl") (Some <$> [example_line; [120]]))] 4 0).
  - apply sample_control_ready.
  - discriminate.
  - reflexivity.
  - repeat constructor; try by_decide; vm_compute; lia.
  - reflexivity.
  - cbn; lia.
  - repeat constructor; done.
  - reflexivity.
  - lia.
  - lia.
Defined.
