(* ===== verification/Flexnbd.v ===== *)
(** * The server process

    Models src/src/server/flexnbd.c: the server, the control socket and the signal
    descriptor in one process, and its life from creation to the join of the control
    thread. The two threads share the server: [flexnbd_rounds] runs their rounds in
    any order, one at a time; the locks and self-pipes are what the rounds share. *)

From S2P Require Import Prelude Text Bitset IoUtil SockUtil Parse Acl Mbox Serve Mirror Status Control Remote.

Open Scope Z_scope.

Record flexnbd := {
  fx_serve : server;
  fx_control : option control;
  signal_fd : Z
}.

(** ** Creation *)

(** The answers of [pthread_sigmask], [signalfd] and [sigaction]. *)
Record signal_answers := { sa_sigmask : Z; sa_signalfd : Z; sa_sigaction : Z }.

Definition flexnbd_build_signal_fd (a : signal_answers) : res Z :=
  if negb (0 =? sa_sigmask a) then Stop SFatal
  else if -1 =? sa_signalfd a then Stop SFatal
  else Ok (sa_signalfd a).

Definition flexnbd_create_shared (a : signal_answers) (s_ctrl_sock : option (list Z)) (serve : server) : res flexnbd :=
  let c := match s_ctrl_sock with Some _ => Some control_create | None => None end in
  fd ← flexnbd_build_signal_fd a;
  Ok {| fx_serve := serve; fx_control := c; signal_fd := fd |}.

Section Creation.
Context (pton4 pton6 : list Z -> option (list Z)).

Definition flexnbd_create_serving (a : signal_answers) (s_ip_address s_port : list Z) (s_ctrl_sock : option (list Z))
    (deny : bool) (s_acl_entries : list (list Z)) (max_clients : nat) (killswitch : bool) : res flexnbd :=
  serve ← server_create pton4 pton6 s_ip_address s_port deny s_acl_entries max_clients killswitch true;
  fx ← flexnbd_create_shared a s_ctrl_sock serve;
  if killswitch && negb (0 =? sa_sigaction a) then Stop SFatal else Ok fx.

Definition flexnbd_create_listening (a : signal_answers) (s_ip_address s_port : list Z) (s_ctrl_sock : option (list Z))
    (deny : bool) (s_acl_entries : list (list Z)) : res flexnbd :=
  serve ← server_create pton4 pton6 s_ip_address s_port deny s_acl_entries 1 false false;
  flexnbd_create_shared a s_ctrl_sock serve.
End Creation.

(** ** Small operations *)

Definition flexnbd_signal_fd (fx : flexnbd) : Z := signal_fd fx.
Definition flexnbd_server (fx : flexnbd) : server := fx_serve fx.
Definition flexnbd_set_server (fx : flexnbd) (s : server) : flexnbd :=
  {| fx_serve := s; fx_control := fx_control fx; signal_fd := signal_fd fx |}.
Definition set_control (fx : flexnbd) (c : control) : flexnbd :=
  {| fx_serve := fx_serve fx; fx_control := Some c; signal_fd := signal_fd fx |}.

Definition flexnbd_replace_acl (self : Z) (fx : flexnbd) (a : acl) : res flexnbd :=
  s ← server_replace_acl self (flexnbd_server fx) a; Ok (flexnbd_set_server fx s).

Definition flexnbd_default_deny (fx : flexnbd) : res bool := server_default_deny (flexnbd_server fx).

Definition flexnbd_status_create (self : Z) (e : status_env) (fx : flexnbd) : res (status * flexnbd) :=
  '(st, s) ← status_create self (se_pid e) (se_join e) (se_t1 e) (se_t2 e) (se_t3 e) (flexnbd_server fx);
  Ok (st, flexnbd_set_server fx s).

Definition make_writable (chmod_ret : Z) : res unit := if chmod_ret <? 0 then Stop SFatal else Ok tt.

(** ** The control thread *)

Definition flexnbd_spawn_control (create : Z) (fx : flexnbd) : res unit :=
  _ ← of_opt SFatal (fx_control fx);
  if negb (0 =? create) then Stop SFatal else Ok tt.

(** [thread] is what the control thread does to its own state from the signal until it
    ends, [join] the answer of [pthread_join]. *)
Definition flexnbd_stop_control (thread : control -> res control) (join : Z) (fx : flexnbd) : res flexnbd :=
  c ← of_opt SFatal (fx_control fx);
  c ← control_signal_close c;
  c ← thread c;
  if negb (0 =? join) then Stop SFatal else Ok (set_control fx c).

(** ** Serving *)

(** What [flexnbd_serve] gets from outside, for [do_serve] and for the control thread. *)
Record serve_env := {
  sv_create : Z;
  sv_open : open_input;
  sv_file : Z;
  sv_file_size : Z;
  sv_builder : Z;
  sv_rounds : list round_input;
  sv_join : Z -> Z;
  sv_super : server -> res server;
  sv_thread : control -> res control;
  sv_joined : Z
}.

(** The control thread's [open_signal] has the byte that [do_serve] wrote. *)
Definition with_open_signal (c : control) (p : option self_pipe) : control :=
  match p with
  | Some p => {| socket_open := socket_open c; open_signal := p; c_close_signal := c_close_signal c;
                 mirror_state_mbox := mirror_state_mbox c |}
  | None => c
  end.

Definition flexnbd_serve (self : Z) (e : serve_env) (fx : flexnbd) : res (bool * flexnbd) :=
  _ ← match fx_control fx with Some _ => flexnbd_spawn_control (sv_create e) fx | None => Ok tt end;
  '(ok, sig, s) ← do_serve self (flexnbd_signal_fd fx) (open_signal <$> fx_control fx) (sv_open e) (sv_file e)
                    (sv_file_size e) (sv_builder e) (sv_rounds e) (sv_join e) (sv_super e) (flexnbd_server fx);
  let fx := flexnbd_set_server fx s in
  match fx_control fx with
  | Some c => fx ← flexnbd_stop_control (sv_thread e) (sv_joined e) (set_control fx (with_open_signal c sig)); Ok (ok, fx)
  | None => Ok (ok, fx)
  end.

(** ** The two threads on the server they share *)

Inductive thread_round := ServerRound (i : round_input) | ControlRound (r : control_round).

Section Rounds.
Context (pton4 pton6 : list Z -> option (list Z)) (server_thread control_thread : Z) (fuel : nat).

(** A round of either thread: whether the thread goes on, what the control client is
    told, and the server. *)
Definition flexnbd_round (sig_fd : Z) (r : thread_round) (s : server) : res (bool * list Z * server) :=
  match r with
  | ServerRound i => '(go, _, s) ← server_accept server_thread sig_fd i s; Ok (go, [], s)
  | ControlRound r => control_accept pton4 pton6 control_thread fuel r s
  end.

Fixpoint flexnbd_rounds (sig_fd : Z) (rs : list thread_round) (s : server) : res (list (list Z) * server) :=
  match rs with
  | [] => Ok ([], s)
  | r :: rs' =>
      '(_, out, s) ← flexnbd_round sig_fd r s;
      '(outs, s) ← flexnbd_rounds sig_fd rs' s;
      Ok (out :: outs, s)
  end.
End Rounds.

(** * Lemmas *)

(** The documented meaning of a list: the default when it is empty, else a match. *)
Definition lets_in (deny : bool) (es : list ip_and_mask) (a : mysockaddr) : Prop :=
  if bool_decide (es = []) then deny = false else Exists (matches a) es.

(** The running clients have IP addresses. *)
Definition clients_ip (s : server) : Prop := Forall (fun e => thread e <> 0 -> addr_ok (address e)) (nbd_client s).

(** A parsed list decides every IP address. *)
Lemma parsed_acl_decides deny es a :
  Forall entry_ok es -> addr_ok a ->
  exists b, acl_includes {| acl_len := zlen es; default_deny := deny; acl_entries := es |} a = Ok b /\
    (b = true <-> lets_in deny es a).
Proof.
  intros Hes Ha. unfold acl_includes, lets_in. cbn [acl_len default_deny acl_entries].
  case_bool_decide as He; [subst es; cbn; exists (negb deny); split; [done | by destruct deny] |].
  assert (Hz : zlen es <> 0) by (intros Hz; by apply zlen_nil_inv in Hz). replace (0 =? zlen es) with false by lia.
  rewrite take_ge by (unfold zlen; lia). by apply is_included_spec.
Qed.

(** What an [acl] command of a round does to the server. *)
Definition acl_updated (deny : bool) (es : list ip_and_mask) (s : server) : server :=
  s <| the_acl := Some {| acl_len := zlen es; default_deny := deny; acl_entries := es |} |>
    <| l_acl := flexthread_mutex_create |>
    <| acl_updated_signal := {| sp_bytes := sp_bytes (acl_updated_signal s) + 1; sp_open := true |} |>.

(** A round that finds a client with an [acl] command. *)
Record acl_round (fuel : nat) (args : list (list Z)) (r : control_round) : Prop := {
  ar_select : 0 < cr_select r;
  ar_close : cr_close r = false;
  ar_ready : cr_ready r = true;
  ar_accept : cr_accept r <> -1;
  ar_data : Forall data_event (cr_rx r);
  ar_request : incoming (cr_rx r) = remote_request (str "acl") (Some <$> args);
  ar_lines : Forall (line_ok 64) args;
  ar_fuel : (length args + 1 < fuel)%nat
}.

Lemma acl_round_updates pton4 pton6 self fuel args es a r s :
  control_ready s -> self <> 0 -> the_acl s = Some a -> acl_round fuel args r ->
  parse_acl pton4 pton6 args = Ok es -> length es = length args ->
  control_accept pton4 pton6 self fuel r s = Ok (true, str "0: updated" ++ [LF], acl_updated (default_deny a) es s).
Proof.
  intros Hr Hself Ha [] Hp Hlen. unfold control_accept. replace (cr_select r <=? 0) with false by lia.
  rewrite ar_close0, ar_ready0. apply Z.eqb_neq in ar_accept0 as ->.
  assert (Hcmd : str "acl" ∈ commands) by by_decide.
  rewrite (control_respond_lines _ _ _ _ _ _ _ _ _ (request_ok _ _ Hcmd ar_lines0) ar_fuel0 ar_data0 ar_request0).
  change (control_dispatch pton4 pton6 self (cr_env r) (str "acl" :: args) s) with (control_acl pton4 pton6 self args s).
  rewrite (acl_updates pton4 pton6 self args es a s Hr Ha Hp Hlen). cbn [mbind res_bind].
  rewrite cleanup_unlocked; [done | done |]. split; [done | apply (cr_unlocked _ Hr)].
Qed.

(** * Properties *)

(** C15: an [acl] command reaches the clients that are connected. After the control
    thread has handled it and the server thread has made its next round, which the
    self-pipe wakes it for, each running client whose address the new list refuses has
    been sent one stop signal, no other client has been touched, and no thread was
    lost: the two threads work together through the lock and the pipe. *)
Theorem acl_command_stops_refused pton4 pton6 server_thread control_thread fuel sig_fd args es a r i s :
  pton_ok pton4 4 -> pton_ok pton6 16 -> control_ready s -> signals_left 1 s -> control_thread <> 0 ->
  clients_ip s -> the_acl s = Some a ->
  acl_round fuel args r -> parse_acl pton4 pton6 args = Ok es -> length es = length args ->
  0 <= ri_select i -> ri_close i = false -> ri_signal i = false -> ri_acl i = true -> ri_server i = false ->
  exists s', flexnbd_rounds pton4 pton6 server_thread control_thread fuel sig_fd [ControlRound r; ServerRound i] s =
      Ok ([str "0: updated" ++ [LF]; []], s') /\
    nbd_client s' = nbd_client s /\ sp_bytes (acl_updated_signal s') = sp_bytes (acl_updated_signal s) /\ unlocked s' /\
    forall j e p c, nbd_client s !! j = Some e -> thread e <> 0 -> t_client e = Some p -> heap s !! p = Some c ->
      (lets_in (default_deny a) es (address e) -> heap s' !! p = Some c) /\
      (~ lets_in (default_deny a) es (address e) -> heap s' !! p = Some (signal_obj c)).
Proof.
  intros H4 H6 Hr Hl Hself Haddr Ha Hround Hp Hlen Hsel Hcl Hsg Hac Hsv.
  destruct (parse_acl_spec pton4 pton6 H4 H6 args es Hp) as (Hes & _).
  cbn [flexnbd_rounds flexnbd_round].
  rewrite (acl_round_updates pton4 pton6 control_thread fuel args es a r s) by done. cbn [mbind res_bind].
  unfold server_accept. replace (ri_select i <? 0) with false by lia.
  rewrite Hcl, Hsg, Hac, Hsv, andb_false_r. cbn [mbind res_bind].
  set (s1 := acl_updated _ _ _). set (s2 := s1 <| acl_updated_signal := _ |>).
  assert (Hok2 : tbl_ok s2) by (destruct (cr_tbl _ Hr); by constructor).
  assert (Hu2 : unlocked s2) by (split; [done | apply (cr_unlocked _ Hr)]).
  assert (Hd2 : forall e, addr_ok (address e) -> exists b, acl_decision s2 (address e) = Ok b /\
    (b = true <-> lets_in (default_deny a) es (address e))) by (intros e He; by apply parsed_acl_decides).
  assert (Hdall : decided s2).
  { apply (Forall_impl _ _ _ Haddr). intros e He Ht. destruct (Hd2 e (He Ht)) as (b & E & _). by exists b. }
  destruct (server_audit_clients_spec server_thread s2 Hok2 Hl Hu2 Hdall) as (s' & E & Hf & Hh).
  rewrite E. cbn [mbind res_bind]. exists s'. split; [done |].
  split; [by rewrite Hf |]. split.
  { rewrite Hf. destruct (cr_signal _ Hr) as [Ho Hb]. unfold s2, s1, acl_updated, self_pipe_signal_clear. cbn.
    replace (0 <? sp_bytes (acl_updated_signal s) + 1) with true by lia. cbn. lia. }
  split; [by rewrite Hf |]. intros j e p c Hj Ht Hpt Hc.
  destruct (Hd2 e) as (b & Eb & Hb); [by apply (Forall_lookup_1 _ _ _ _ Haddr Hj) |].
  destruct (audit_stops_refused server_thread s2 j e p c Hok2 Hl Hu2 Hdall Hj Ht Hpt Hc) as (s'' & E' & _ & Hc').
  rewrite E in E'. injection E' as <-. rewrite Hc'. unfold refused. rewrite Eb.
  destruct b; split; intros H; try done; by (exfalso; apply H, Hb) || (apply Hb in H; discriminate).
Qed.

(** A control client that sends 10.0.0.0/9, and the round of the server thread. *)
Definition sample_acl_round : control_round :=
  {| cr_select := 1; cr_close := false; cr_ready := true; cr_accept := 6;
     cr_rx := [RdBytes (remote_request (str "acl") [Some example_line])]; cr_env := sample_control_env |}.

Definition sample_audit_round : round_input :=
  {| ri_select := 1; ri_close := false; ri_signal := false; ri_acl := true; ri_server := false;
     ri_client_fd := 0; ri_address := zero_sockaddr; ri_accept := sample_accept 0 |}.

Lemma sample_clients_ip deny : clients_ip (sample_server deny).
Proof.
  constructor; [intros _ | constructor; [done | constructor]]. split; [by left |].
  destruct zero_sockaddr_bytes as (Z1 & Z2 & Z3 & Z4). by split_and!.
Qed.

Lemma acl_command_stops_refused_witness :
  exists s', flexnbd_rounds example_pton4 (fun _ => None) 1 2 5 7 [ControlRound sample_acl_round; ServerRound sample_audit_round]
      (sample_server false) = Ok ([str "0: updated" ++ [LF]; []], s') /\
    nbd_client s' = nbd_client (sample_server false) /\ sp_bytes (acl_updated_signal s') = 0 /\ unlocked s' /\
    forall j e p c, nbd_client (sample_server false) !! j = Some e -> thread e <> 0 -> t_client e = Some p ->
      heap (sample_server false) !! p = Some c ->
      (lets_in false (acl_entries example_acl) (address e) -> heap s' !! p = Some c) /\
      (~ lets_in false (acl_entries example_acl) (address e) -> heap s' !! p = Some (signal_obj c)).
Proof.
  apply (acl_command_stops_refused example_pton4 (fun _ => None) 1 2 5 7 [example_line] (acl_entries example_acl)
    {| acl_len := 0; default_deny := false; acl_entries := [] |} sample_acl_round sample_audit_round (sample_server false)).
  - exact example_pton4_ok.
  - intros s a. discriminate.
  - apply sample_control_ready.
  - apply sample_signals. unfold PIPE_CAPACITY. lia.
  - discriminate.
  - apply sample_clients_ip.
  - reflexivity.
  - constructor; try done; try lia.
    + repeat constructor; done.
    + repeat constructor; try by_decide; vm_compute; lia.
    + cbn. lia.
  - reflexivity.
  - reflexivity.
  - cbn. lia.
  - reflexivity.
  - reflexivity.
  - reflexivity.
  - reflexivity.
Defined.
