(* ===== verification/Threads.v ===== *)
(** * The server thread and the control thread together

    The invariant that the rounds of the two threads of flexnbd.c keep between them on
    the server they share, and the theorem that any number of rounds, in any order,
    runs through. A run of [n] rounds needs room for [n] rounds of signals in the
    pipes, since a client that is told to stop again and again does not empty its
    pipe; a pipe holds 65536 bytes. *)

From S2P Require Import Prelude Text Bitset IoUtil SockUtil Parse Acl Mbox Serve Mirror Status Control Remote Flexnbd.

Open Scope Z_scope.

(** A server on which [n] more rounds can run. *)
Record sound (n : Z) (s : server) : Prop := {
  so_ready : control_ready s;
  so_acl : exists es deny, the_acl s = Some {| acl_len := zlen es; default_deny := deny; acl_entries := es |} /\
    Forall entry_ok es;
  so_ip : clients_ip s;
  so_left : signals_left (3 * n) s;
  so_pipe : sp_bytes (acl_updated_signal s) + n < PIPE_CAPACITY;
  so_fd : server_fd_open s = true -> server_fd s <> 0
}.

(** ** What soundness depends on *)

Lemma sound_fields n s s' :
  sound n s -> nbd_client s' = nbd_client s -> heap s' = heap s -> max_nbd_clients s' = max_nbd_clients s ->
  size s' = size s -> the_acl s' = the_acl s -> acl_updated_signal s' = acl_updated_signal s ->
  holder (l_acl s') = 0 -> holder (l_start_mirror s') = 0 ->
  server_fd s' = server_fd s -> server_fd_open s' = server_fd_open s -> mirror_ready s' ->
  (forall m, s_mirror s' = Some m ->
    0 <= all_dirty m < UINT64_MAX /\ 0 <= max_bytes_per_second m < 2 ^ 64 /\ 0 <= migration_started m < 2 ^ 64) ->
  sound n s'.
Proof.
  intros [[T N U A P M] S2 S3 S4 S5 S6] E1 E2 E3 E4 E5 E6 E7 E8 F1 F2 E9 E10. constructor.
  - constructor.
    + destruct T. constructor; rewrite E1, ?E2, ?E3; done.
    + destruct N. constructor; rewrite ?E3, ?E4; done.
    + by split.
    + by rewrite E5.
    + by rewrite E6.
    + done.
  - by rewrite E5.
  - unfold clients_ip. by rewrite E1.
  - unfold signals_left. by rewrite E2.
  - by rewrite E6.
  - by rewrite F1, F2.
Qed.

Lemma signals_left_le n m s : m <= n -> signals_left n s -> signals_left m s.
Proof. intros Hle H p c Hc. destruct (H p c Hc) as (? & ? & ?). split_and!; [done | done | lia]. Qed.

Lemma sound_less n m s : sound n s -> m <= n -> sound m s.
Proof. intros [S1 S2 S3 S4 S5 S6] Hle. constructor; try done; [by apply (signals_left_le (3 * n)); [lia |] | lia]. Qed.

(** Tidying up, and the stages of a round. *)
Lemma sound_reaped n s s' : sound n s -> reaped s s' -> sound n s'.
Proof.
  intros [[T N U A P M] S2 S3 S4 S5 S6] [F O K H].
  constructor.
  - constructor; [done | | | | |].
    + destruct N. constructor; rewrite F; done.
    + unfold unlocked. by rewrite F.
    + by rewrite F.
    + by rewrite F.
    + unfold mirror_ready. by rewrite F.
  - by rewrite F.
  - apply list.Forall_lookup. intros j e He Ht. exact (proj1 (Forall_lookup _ _) S3 j e (K j e He Ht) Ht).
  - intros p c Hc. apply (S4 p c). by apply (lookup_weaken (heap s')).
  - by rewrite F.
  - by rewrite F.
Qed.

Lemma sound_stage n s s' : sound (n + 1) s -> 0 <= n -> stage (3 * n) s s' -> sound n s'.
Proof.
  intros [[T N U A P M] S2 S3 S4 S5 S6] Hn [G1 G2 G3 G4 G5 G6 G7 [G8 G8'] [G9 G9'] (G10 & G11 & G12) [G13 G13']]. constructor.
  - constructor; [done | | done | by rewrite G4 | | ].
    + destruct N. constructor; rewrite ?G8, ?G9, ?G9'; done.
    + split; [rewrite G10; apply P |]. split; [apply G12; apply P |]. lia.
    + unfold mirror_ready. by rewrite G8, G8'.
  - by rewrite G4.
  - unfold clients_ip. by rewrite G1.
  - done.
  - lia.
  - by rewrite G13, G13'.
Qed.

(** The list of a sound server decides. *)
Lemma sound_decides n s a : sound n s -> addr_ok a -> exists b, acl_decision s a = Ok b.
Proof.
  intros S Ha. destruct (so_acl _ _ S) as (es & deny & E & Hes). unfold acl_decision. rewrite E.
  destruct (parsed_acl_decides deny es a Hes Ha) as (b & Hb & _). by exists b.
Qed.

Lemma sound_decided n s : sound n s -> decided s.
Proof. intros S. apply (Forall_impl _ _ _ (so_ip _ _ S)). intros e He Ht. exact (sound_decides n s _ S (He Ht)). Qed.

(** ** A round of the server thread *)

(** A new client in a free slot. *)
Lemma sound_filled n s k e i a fd :
  sound n s -> 3 * n <= PIPE_CAPACITY -> nbd_client s !! k = Some e -> thread e = 0 ->
  heap s !! ai_ptr i = None -> ai_thread i <> 0 -> addr_ok a ->
  sound n (set_entry (client_create s (ai_ptr i) fd) k (new_entry i a)).
Proof.
  intros [[T N U A P M] S2 S3 S4 S5 S6] Hn He Hz Hfresh Ht Ha.
  pose proof (fill_slot_ok s k e (ai_thread i) a (ai_ptr i) fd T He Hz Hfresh Ht) as T'.
  constructor; try done.
  - constructor; try done. by destruct N.
  - unfold clients_ip. cbn [nbd_client set_entry client_create set_field]. apply Forall_insert; [done | by intros _].
  - unfold signals_left. cbn [heap set_entry client_create set_field]. apply map_Forall_insert; [done |].
    split; [cbn; lia | done].
Qed.

Lemma accept_sound n self i fd a s :
  sound n s -> 3 * n <= PIPE_CAPACITY -> accept_ok i s -> addr_ok a ->
  exists closed s', accept_nbd_client self i fd a s = Ok (closed, s') /\ sound n s'.
Proof.
  intros S Hn [A1 A2 A3 A4 A5] Ha. destruct (sound_decides n s a S Ha) as [b Hb].
  unfold accept_nbd_client, server_should_accept_client. replace (ai_keepalive i <? 0) with false by lia.
  fold (known_family a). assert (Hf : known_family a = true) by (unfold known_family; destruct Ha as [[-> | ->] _]; done).
  rewrite Hf. cbn [negb]. rewrite (acl_accepts_spec self s a b (cr_unlocked _ (so_ready _ _ S)) Hb). cbn [mbind res_bind].
  destruct b; cbn [negb]; [| by exists [fd], s].
  destruct (slot_spec (ai_join i) s (cr_tbl _ (so_ready _ _ S)) A2) as (o & s1 & -> & R & H). cbn [mbind res_bind].
  pose proof (sound_reaped n s s1 S R) as S1.
  destruct o as [k |]; [| by exists [fd], s1]. destruct H as (e & He & Hz). rewrite A4. cbn [Z.eqb negb].
  eexists [], _. split; [reflexivity |]. apply (sound_filled n s1 k e i a fd); try done.
  eapply lookup_weaken_None; [exact A3 | apply R].
Qed.

(** What a round of the server thread gets. *)
Record server_round_ok (i : round_input) (s : server) : Prop := {
  sr_select : 0 <= ri_select i;
  sr_accept : accept_ok (ri_accept i) s;
  sr_address : addr_ok (ri_address i)
}.

Lemma server_round_sound n self fd i s :
  sound (n + 1) s -> 0 <= n -> 3 * n <= PIPE_CAPACITY -> server_round_ok i s ->
  exists go closed s', server_accept self fd i s = Ok (go, closed, s') /\ sound n s'.
Proof.
  intros S Hn Hcap [H1 [A1 A2 A3 A4 A5] H3].
  assert (Hl : signals_left (3 * n + 3) s) by (apply (signals_left_le (3 * (n + 1))); [lia | apply S]).
  destruct (server_accept_stages self fd i s (3 * n) (cr_tbl _ (so_ready _ _ S)) Hl ltac:(lia)
    (cr_unlocked _ (so_ready _ _ S)) H1 (sound_decided _ s S)) as (s3 & H & ->).
  pose proof (sound_stage n s s3 S Hn H) as S3.
  destruct (ri_server i); [destruct (allow_new_clients s) |]; [| by eexists _, _, _ | by eexists _, _, _].
  destruct (accept_sound n self (ri_accept i) (ri_client_fd i) (ri_address i) s3 S3 Hcap) as (closed & s' & -> & S'); [| done |].
  - constructor; try done. by apply (sg_fresh _ _ _ H).
  - cbn [mbind res_bind]. by eexists _, _, _.
Qed.

(** ** A round of the control thread *)

(** The server without its mirror, and with the lock of the mirror given back. *)
Definition without_mirror (s : server) : server :=
  server_unlock_start_mirror (s <| s_mirror := None |> <| mirror_super := false |>).

(** The other threads keep the server sound: the supervisor while it starts, and while
    it is waited for with the lock held. The rest as for one command. *)
Record others_ok (e : control_env) : Prop := {
  oo_joins : joins_ok (se_join (ce_status e));
  oo_pid : - 2 ^ 31 <= se_pid (ce_status e) < 2 ^ 31;
  oo_clock : 0 <= se_t1 (ce_status e) < 2 ^ 64;
  oo_open : 0 <= me_opened (ce_mirror e) /\ 0 <= me_madvised (ce_mirror e) /\ me_create (ce_mirror e) = 0;
  oo_start : forall n a s, sound n s -> exists p s',
    me_super (ce_mirror e) a s = Ok (post_finish p mbox_create, s') /\ p <> 0 /\ sound n s' /\
    me_deref (ce_mirror e) p <> MS_INIT /\ me_deref (ce_mirror e) p <> MS_UNKNOWN;
  oo_stop : forall n s, sound n (without_mirror s) -> exists s', ce_super e s = Ok s' /\ sound n (without_mirror s')
}.

Definition handled (n : Z) (r : res (Z * list Z * server)) : Prop :=
  exists v out s', r = Ok (v, out, s') /\ one_line out /\ sound n s'.

Lemma strtoull_range l : 0 <= (strtoull l).1 < 2 ^ 64.
Proof.
  assert (Hd : forall acc s, 0 <= acc -> 0 <= digits_value acc s).
  { intros acc s. revert acc. induction s as [| c s IH]; intros acc Ha; cbn [digits_value]; [done |].
    destruct (is_digit c) eqn:E; [| done]. apply IH. unfold is_digit in E. lia. }
  assert (Hv : 0 <= (signed_digits l).2).
  { unfold signed_digits. destruct (skip_space l) as [| c s]; [done |].
    destruct (c =? 45); [by apply Hd |]. destruct (c =? 43); by apply Hd. }
  unfold strtoull. destruct (signed_digits l) as [neg v]. cbn [snd] in Hv. unfold UINT64_MAX.
  destruct (2 ^ 64 - 1 <? v) eqn:E; cbn [fst]; [lia |]. destruct neg; [apply u64_range | lia].
Qed.

Section Commands.
Context (pton4 pton6 : list Z -> option (list Z)) (H4 : pton_ok pton4 4) (H6 : pton_ok pton6 16).
Context (self : Z) (n : Z) (Hn : 0 <= n).

Lemma parse_mirror_bps lines a : parse_mirror pton4 pton6 lines = Ok (inr a) -> 0 <= max_Bps a < 2 ^ 64.
Proof using.
  unfold parse_mirror. intros H. destruct lines as [| l0 [| l1 rest]]; [done | done |].
  apply bind_Ok in H as (to & _ & H). destruct to as [to |]; [| done]. destruct (_ || _); [done |].
  destruct (parse_action _); [| done]. apply bind_Ok in H as (from & _ & H). destruct from as [from |]; [| done].
  destruct (rest !! 2%nat) as [l |].
  - pose proof (strtoull_range l) as Hr. destruct (strtoull l) as [bps erange]. destruct erange; [done |].
    destruct (3 <? zlen rest); [done |]. by injection H as <-.
  - destruct (3 <? zlen rest); [done |]. injection H as <-. cbn. unfold UINT64_MAX. lia.
Qed.

Lemma handled_acl args s :
  sound (n + 1) s -> Forall (fun l => (length l < 64)%nat /\ clean l) args -> handled n (control_acl pton4 pton6 self args s).
Proof using H4 H6 Hn.
  intros S Hl. pose proof (so_ready _ _ S) as Hr. apply Forall_and in Hl as [Hshort Hlf].
  destruct (so_acl _ _ S) as (es0 & deny & Ea & _).
  destruct (parse_acl_total pton4 pton6 args Hshort) as (es & E & He).
  destruct (parse_acl_spec pton4 pton6 H4 H6 args es E) as (Hes & _).
  destruct (decide (length es = length args)) as [Hz | Hz].
  - rewrite (acl_updates pton4 pton6 self args es _ s Hr Ea E Hz). eexists _, _, _. split; [reflexivity |].
    split; [literal_line |]. destruct S as [[T N U A P M] S2 S3 S4 S5 S6]. constructor; cbn.
    + constructor; cbn; [by destruct T | by destruct N | by split; [| apply U] | done | lia | exact M].
    + by exists es, deny.
    + done.
    + apply (signals_left_le (3 * (n + 1))); [lia | done].
    + lia.
    + done.
  - destruct (args !! length es) as [bad |] eqn:Eb; [| apply lookup_ge_None_1 in Eb; lia].
    rewrite (acl_refuses pton4 pton6 self args es _ bad s Ea E Hz Eb). eexists _, _, _. split; [reflexivity |].
    split; [| apply (sound_less (n + 1)); [done | lia]]. apply refusal_line.
    + by apply (Forall_lookup_1 _ _ _ _ Hshort Eb).
    + by apply (Forall_lookup_1 _ _ _ _ Hlf Eb).
Qed.

Lemma handled_mirror e args s :
  sound n s -> others_ok e -> Forall (fun l => (length l < 64)%nat) args -> mirror_super s = false ->
  handled n (control_mirror pton4 pton6 self (ce_mirror e) args s).
Proof using.
  intros S He Hl Hs. unfold control_mirror. destruct (parse_mirror_total pton4 pton6 args Hl) as (r & E & Hmsg). rewrite E.
  cbn [mbind res_bind]. destruct r as [msg | a].
  { eexists _, _, _. split; [reflexivity |]. split; [by apply Hmsg | done]. }
  pose proof (so_ready _ _ S) as Hr. pose proof (cr_unlocked _ Hr) as [U1 U2].
  rewrite lock_start_mirror_unlocked by done. cbn [mbind res_bind].
  destruct (oo_open _ He) as (Ho & Hm & Hc). destruct (server_mirror_can_start _).
  - unfold mirror_super_create, mirror_create, mirror_init. replace (me_opened _ <? 0) with false by lia.
    replace (me_madvised _ <? 0) with false by lia. cbn [mbind res_bind].
    match goal with |- context [mirror_super ?x] => change (mirror_super x) with true end. cbn iota.
    rewrite Hc. cbn [Z.eqb negb].
    match goal with |- context [me_super _ a ?x] => assert (S1 : sound n x) end.
    { apply (sound_fields n s); try done.
      - intros _. eexists. split; [reflexivity |]. by split.
      - intros m [= <-]. cbn. unfold UINT64_MAX. pose proof (parse_mirror_bps _ _ E). lia. }
    match goal with |- context [me_super _ a ?x] => destruct (oo_start _ He n a x S1) as (p & s' & -> & Hp & S' & N1 & N2) end.
    cbn [mbind res_bind]. rewrite mirror_wait_posted by done. cbn [mbind res_bind].
    set (st := me_deref _ p) in *. pose proof (mirror_response_line st) as Hline.
    destruct st; try done; (eexists _, _, _; split; [reflexivity |]; split; [exact Hline | done]).
  - match goal with |- context [mirror_super ?x] => change (mirror_super x) with (mirror_super s) end.
    rewrite Hs. cbn [mbind res_bind].
    match goal with |- context [mirror_super ?x] => change (mirror_super x) with (mirror_super s) end.
    rewrite Hs. eexists _, _, _. split; [reflexivity |]. split; [literal_line |].
    apply (sound_fields n s); try done; [apply Hr | apply (cr_numbers _ Hr)].
Qed.

Lemma handled_break e s : sound n s -> others_ok e -> handled n (control_break self (ce_super e) s).
Proof using.
  intros S He. pose proof (so_ready _ _ S) as Hr. pose proof (cr_unlocked _ Hr) as [U1 U2].
  unfold control_break. rewrite lock_start_mirror_unlocked by done. cbn [mbind res_bind].
  change (server_is_mirroring _) with (mirror_super s). destruct (mirror_super s) eqn:Em.
  2:{ cbn [mbind res_bind]. eexists _, _, _. split; [reflexivity |]. split; [literal_line |].
      apply (sound_fields n s); try done; [apply Hr | apply (cr_numbers _ Hr)]. }
  destruct (cr_mirror _ Hr Em) as (m & Hm & Hop & Hb). unfold server_abandon_mirror.
  change (mirror_super (s <| l_start_mirror := _ |>)) with (mirror_super s). rewrite Em.
  change (s_mirror (s <| l_start_mirror := _ |>)) with (s_mirror s). rewrite Hm. cbn [of_opt mbind res_bind].
  unfold self_pipe_signal. rewrite Hop. replace (PIPE_CAPACITY <=? _) with false by lia. cbn [negb orb mbind res_bind].
  match goal with |- context [ce_super e ?x] =>
    destruct (oo_stop _ He n x) as (t & -> & St); [apply (sound_fields n s); done |] end.
  cbn [mbind res_bind].
  match goal with |- context [server_is_closed ?x] => set (t' := x) end.
  assert (S' : sound n (server_unlock_start_mirror t')).
  { apply (sound_fields n _ _ St); try done. apply (cr_unlocked _ (so_ready _ _ St)). }
  destruct (server_is_closed t'); cbn [mbind res_bind]; (eexists _, _, _; split; [reflexivity |]; split; [literal_line | done]).
Qed.

Lemma handled_status e s : sound n s -> others_ok e -> handled n (control_status self (ce_status e) s).
Proof using.
  intros S He. pose proof (so_ready _ _ S) as Hr. unfold control_status.
  destruct (status_create_spec self (se_pid (ce_status e)) (se_join (ce_status e)) (se_t1 (ce_status e))
    (se_t2 (ce_status e)) (se_t3 (ce_status e)) s) as (st & s' & -> & _ & R & K & _); try apply Hr; try apply He.
  { intros Hm. destruct (cr_mirror _ Hr Hm) as (m & -> & _). done. }
  cbn [mbind res_bind]. eexists _, _, _. split; [reflexivity |]. split; [apply status_one_line | by apply (sound_reaped n s)].
Qed.

Lemma handled_max_bps lines s : sound n s -> handled n (control_mirror_max_bps lines s).
Proof using.
  intros S. pose proof (so_ready _ _ S) as Hr. pose proof (cr_unlocked _ Hr) as [U1 U2]. unfold control_mirror_max_bps.
  destruct (mirror_super s) eqn:Em; cbn [negb].
  2:{ eexists _, _, _. split; [reflexivity |]. split; [literal_line | done]. }
  destruct (cr_mirror _ Hr Em) as (m & Hm & Hop & Hb). rewrite Hm. cbn [of_opt mbind res_bind].
  destruct lines as [| l [| ? ?]]; [eexists _, _, _; split; [reflexivity |]; split; [literal_line | done] | |
    eexists _, _, _; split; [reflexivity |]; split; [literal_line | done]].
  pose proof (strtoull_range l) as Hl. destruct (strtoull l) as [bps []].
  { eexists _, _, _. split; [reflexivity |]. split; [literal_line | done]. }
  eexists _, _, _. split; [reflexivity |]. split; [literal_line |]. apply (sound_fields n s); try done.
  - intros _. by eexists.
  - intros m' [= <-]. cbn. destruct (no_mirror _ (cr_numbers _ Hr) m Hm) as (D1 & D2 & D3).
    exact (conj D1 (conj Hl D3)).
Qed.
End Commands.

(** What a round of the control thread gets: the signal to close, nothing, or a client
    with a documented command; a mirror command comes only while no mirror is set. *)
Record control_round_ok (fuel : nat) (r : control_round) (s : server) : Prop := {
  kr_select : 0 < cr_select r;
  kr_others : others_ok (cr_env r);
  kr_accept : cr_accept r <> -1;
  kr_request : exists cmd args, cmd ∈ commands /\ Forall (line_ok 64) args /\ (length args + 1 < fuel)%nat /\
    Forall data_event (cr_rx r) /\ incoming (cr_rx r) = remote_request cmd (Some <$> args) /\
    (cmd = str "mirror" -> mirror_super s = false)
}.

Lemma control_round_sound pton4 pton6 self fuel n r s :
  pton_ok pton4 4 -> pton_ok pton6 16 -> self <> 0 -> sound (n + 1) s -> 0 <= n -> control_round_ok fuel r s ->
  exists go out s', control_accept pton4 pton6 self fuel r s = Ok (go, out, s') /\ sound n s' /\
    (out = [] <-> cr_close r || negb (cr_ready r) = true) /\ (out <> [] -> one_line out).
Proof.
  intros H4 H6 Hself S Hn [K1 K2 K3 (cmd & args & C1 & C2 & C3 & C4 & C5 & C6)]. unfold control_accept.
  replace (cr_select r <=? 0) with false by lia. assert (S' : sound n s) by (apply (sound_less (n + 1)); [done | lia]).
  destruct (cr_close r); [by exists false, [], s |]. destruct (cr_ready r); [| by exists true, [], s].
  apply Z.eqb_neq in K3 as ->.
  rewrite (control_respond_lines _ _ _ _ _ _ _ _ _ (request_ok _ _ C1 C2) C3 C4 C5).
  assert (Hargs : Forall (fun l => (length l < 64)%nat /\ clean l) args)
    by (apply (Forall_impl _ _ _ C2); intros l Hl; by apply line_ok_short).
  assert (Hargs' : Forall (fun l => (length l < 64)%nat) args) by (apply (Forall_impl _ _ _ Hargs); by intros l [? ?]).
  assert (Hd : handled n (control_dispatch pton4 pton6 self (cr_env r) (cmd :: args) s)).
  { unfold commands in C1. rewrite !elem_of_cons in C1.
    destruct C1 as [-> | [-> | [-> | [-> | [-> | C1]]]]]; [| | | | | by apply not_elem_of_nil in C1].
    - by apply handled_acl.
    - apply handled_mirror; [done | done | done | by apply C6].
    - by apply handled_break.
    - by apply handled_status.
    - by apply handled_max_bps. }
  destruct Hd as (v & out & s' & -> & Hline & S1). cbn [mbind res_bind].
  rewrite cleanup_unlocked by (done || apply (cr_unlocked _ (so_ready _ _ S1))).
  exists true, out, s'. split; [done |]. split; [done |]. destruct Hline as (code & text & -> & Hrest).
  split; [by split | intros _; by exists code, text].
Qed.

(** ** Any rounds in any order *)

Definition round_ok (fuel : nat) (r : thread_round) (s : server) : Prop :=
  match r with
  | ServerRound i => server_round_ok i s
  | ControlRound r => control_round_ok fuel r s
  end.

Section Runs.
Context (pton4 pton6 : list Z -> option (list Z)) (server_thread control_thread : Z) (fuel : nat) (sig_fd : Z).

(** Every round finds what it needs, whatever the rounds before it did. *)
Fixpoint run_ok (rs : list thread_round) (s : server) : Prop :=
  match rs with
  | [] => True
  | r :: rs' => round_ok fuel r s /\
      forall go out s', flexnbd_round pton4 pton6 server_thread control_thread fuel sig_fd r s = Ok (go, out, s') ->
        run_ok rs' s'
  end.

(** What a round tells a control client. *)
Definition answers (r : thread_round) (out : list Z) : Prop :=
  match r with
  | ServerRound _ => out = []
  | ControlRound r => (out = [] <-> cr_close r || negb (cr_ready r) = true) /\ (out <> [] -> one_line out)
  end.

Lemma rounds_sound rs : forall s,
  pton_ok pton4 4 -> pton_ok pton6 16 -> control_thread <> 0 -> 3 * zlen rs <= PIPE_CAPACITY ->
  sound (zlen rs) s -> run_ok rs s ->
  exists outs s', flexnbd_rounds pton4 pton6 server_thread control_thread fuel sig_fd rs s = Ok (outs, s') /\
    sound 0 s' /\ Forall2 answers rs outs.
Proof.
  induction rs as [| r rs IH]; intros s H4 H6 Hself Hcap S Hrun; cbn [flexnbd_rounds]; [by exists [], s |].
  assert (Hz : zlen (r :: rs) = zlen rs + 1) by (unfold zlen; cbn [length]; lia). rewrite Hz in *.
  pose proof (zlen_nonneg rs) as Hn. destruct Hrun as [Hr Hrest].
  assert (exists go out s1, flexnbd_round pton4 pton6 server_thread control_thread fuel sig_fd r s = Ok (go, out, s1) /\
    sound (zlen rs) s1 /\ answers r out) as (go & out & s1 & E & S1 & Ha).
  { destruct r as [i | r]; cbn [flexnbd_round].
    - destruct (server_round_sound (zlen rs) server_thread sig_fd i s S Hn ltac:(lia) Hr) as (go & closed & s1 & -> & S1).
      cbn [mbind res_bind]. by exists go, [], s1.
    - destruct (control_round_sound pton4 pton6 control_thread fuel (zlen rs) r s H4 H6 Hself S Hn Hr)
        as (go & out & s1 & -> & S1 & Ho). by exists go, out, s1. }
  destruct (IH s1 H4 H6 Hself ltac:(lia) S1 (Hrest _ _ _ E)) as (outs & s' & E' & S' & Hall).
  rewrite E. cbn [mbind res_bind]. rewrite E'. cbn [mbind res_bind].
  exists (out :: outs), s'. split; [done |]. split; [done |]. by constructor.
Qed.
End Runs.

(** * Properties *)

(** C7: the server thread and the control thread can run on the server they share in
    any order: with connections from IP addresses, signals and control commands in any
    sequence, every round runs to its end without a fault, a fatal error or a wait for a
    lock. At the end the client table is sound, its running clients have IP addresses,
    the list decides, the locks are free and a mirror that is set can be told to stop;
    and each control client has had exactly one line of answer. The commands are the
    five that exist (any other is [unknown_command_overreads]), each line has fewer than
    64 characters ([parse_ip_overflows_temp]), and no mirror command comes while a
    mirror is set ([second_mirror_spawns_again]); there are no more rounds than the pipes
    have room for. The system calls succeed, [pthread_create] among them, a client's join
    gives 0 or EBUSY, and the threads of a mirror, which are arguments, keep the invariant
    and report a state other than MS_INIT and MS_UNKNOWN. *)
Theorem threads_interleave_safely pton4 pton6 server_thread control_thread fuel sig_fd rs s :
  pton_ok pton4 4 -> pton_ok pton6 16 -> control_thread <> 0 -> 3 * zlen rs <= PIPE_CAPACITY ->
  sound (zlen rs) s -> run_ok pton4 pton6 server_thread control_thread fuel sig_fd rs s ->
  exists outs s', flexnbd_rounds pton4 pton6 server_thread control_thread fuel sig_fd rs s = Ok (outs, s') /\
    tbl_ok s' /\ clients_ip s' /\ decided s' /\ unlocked s' /\ mirror_ready s' /\
    Forall2 (fun r out => match r with
      | ServerRound _ => out = []
      | ControlRound r => (out = [] <-> cr_close r || negb (cr_ready r) = true) /\ (out <> [] -> one_line out)
      end) rs outs.
Proof.
  intros H4 H6 Hself Hcap S Hrun.
  destruct (rounds_sound pton4 pton6 server_thread control_thread fuel sig_fd rs s) as (outs & s' & E & S' & Hall); try done.
  exists outs, s'. split; [done |]. pose proof (so_ready _ _ S') as []. split_and!; try done; [apply S' | by apply (sound_decided 0)].
Qed.

Lemma sample_others_ok : others_ok sample_control_env.
Proof.
  constructor; cbn; [by right | lia | lia | lia | |].
  - intros n a s S. by exists 8, s.
  - intros n s S. by exists s.
Qed.

Lemma sample_sound n : 0 <= n -> 3 * n < PIPE_CAPACITY -> sound n (sample_server false).
Proof.
  intros Hn Hc. constructor.
  - apply sample_control_ready.
  - by exists [], false.
  - apply sample_clients_ip.
  - apply sample_signals. lia.
  - cbn. lia.
  - done.
Qed.

(** A connection from an address the sample list lets in. *)
Definition sample_connect_round : round_input :=
  {| ri_select := 1; ri_close := false; ri_signal := false; ri_acl := true; ri_server := true;
     ri_client_fd := 12; ri_address := example_addr 1; ri_accept := sample_accept 0 |}.

Lemma threads_interleave_safely_witness :
  exists outs s', flexnbd_rounds example_pton4 (fun _ => None) 1 2 5 7
      [ControlRound sample_acl_round; ServerRound sample_connect_round] (sample_server false) = Ok (outs, s') /\
    tbl_ok s' /\ clients_ip s' /\ decided s' /\ unlocked s' /\ mirror_ready s' /\
    Forall2 (fun r out => match r with
      | ServerRound _ => out = []
      | ControlRound r => (out = [] <-> cr_close r || negb (cr_ready r) = true) /\ (out <> [] -> one_line out)
      end) [ControlRound sample_acl_round; ServerRound sample_connect_round] outs.
Proof.
  assert (Hround : acl_round 5 [example_line] sample_acl_round).
  { constructor; try done; try lia; [repeat constructor; done | repeat constructor; try by_decide; vm_compute; lia | cbn; lia]. }
  apply (threads_interleave_safely example_pton4 (fun _ => None) 1 2 5 7).
  - exact example_pton4_ok.
  - intros s a. discriminate.
  - discriminate.
  - vm_compute. discriminate.
  - apply sample_sound; vm_compute; (discriminate || reflexivity).
  - split.
    + constructor; [done | exact sample_others_ok | done |].
      exists (str "acl"), [example_line]. destruct Hround. split_and!; try done. by_decide.
    + intros go out s' E. cbn [flexnbd_round] in E.
      rewrite (acl_round_updates example_pton4 (fun _ => None) 2 5 [example_line] (acl_entries example_acl)
        {| acl_len := 0; default_deny := false; acl_entries := [] |} sample_acl_round (sample_server false)) in E;
        try done; [| apply sample_control_ready].
      injection E as _ _ <-. split; [| done].
      constructor; [by cbn | constructor; [by cbn | apply sample_joins | by apply lookup_singleton_ne | done | done] |].
      split; [by left |]. repeat split; by_decide.
Defined.
