(* ===== verification/Process.v ===== *)
(** * The server process from start to end

    Models how src/src/server/flexnbd.c, serve.c and control.c run one process:
    [flexnbd_serve] starts the control thread, [do_serve] opens the socket, tells the
    control thread, and accepts until it is told to stop; [serve_cleanup] first ends
    the control thread's listening and waits for it, then closes, abandons a mirror and
    joins the clients; [flexnbd_stop_control] joins the control thread. The rounds of
    the two threads come in any order (Flexnbd.v); here the server thread's loop is
    left by the round that tells it to stop. *)

From S2P Require Import Prelude Text Bitset IoUtil SockUtil Parse Acl Mbox Serve Mirror Status Control Remote Flexnbd Threads.

Open Scope Z_scope.

(** ** The two threads until the server stops *)

Section Life.
Context (pton4 pton6 : list Z -> option (list Z)) (server_thread control_thread : Z) (fuel : nat).

(** [serve_accept_loop] with the control thread's rounds between its own: what the
    control clients were told, and the server. *)
Fixpoint serve_rounds (sig_fd : Z) (rs : list thread_round) (s : server) : res (list (list Z) * server) :=
  match rs with
  | [] => Stop SBlock
  | r :: rs' =>
      '(go, out, s) ← flexnbd_round pton4 pton6 server_thread control_thread fuel sig_fd r s;
      let go := match r with ServerRound _ => go | ControlRound _ => true end in
      if (go : bool) then '(outs, s) ← serve_rounds sig_fd rs' s; Ok (out :: outs, s)
      else Ok ([out], s)
  end.

(** The first thing [serve_cleanup] does: it signals the control thread, whose next
    round ([last]) leaves its loop for [control_cleanup], and waits for the socket to
    be closed. *)
Definition serve_close_control (last : control_round) (c : control) (s : server) : res (control * server) :=
  c ← control_signal_close c;
  '(go, _, s) ← control_accept pton4 pton6 control_thread fuel last s;
  let c := if (go : bool) then c else control_cleanup c in
  _ ← control_wait_for_close c;
  Ok (c, s).

(** What a process with a control socket gets from outside: the answers to starting
    the control thread, to opening the sockets, the file and its builder thread, the
    rounds of the two threads, the last round of the control thread, the client
    threads, the supervisor, and [pthread_join] on the control thread. *)
Record life_env := {
  lf_create : Z;
  lf_open : open_input;
  lf_select : Z;
  lf_listen : Z * Z * Z;
  lf_file : Z;
  lf_file_size : Z;
  lf_builder : Z;
  lf_rounds : list thread_round;
  lf_last : control_round;
  lf_join : Z -> Z;
  lf_super : server -> res server;
  lf_joined : Z
}.

(** [flexnbd_serve] with [do_serve] and [control_runner] inside: [success] as the
    accept loop left it, what the control clients were told, and the process. *)
Definition flexnbd_life (e : life_env) (fx : flexnbd) : res (bool * list (list Z) * flexnbd) :=
  _ ← flexnbd_spawn_control (lf_create e) fx;
  c ← of_opt SFatal (fx_control fx);
  s ← serve_open_server_socket (lf_open e) (flexnbd_server fx);
  p ← self_pipe_signal (open_signal c);
  c ← control_wait_for_open_signal (lf_select e) (with_open_signal c (Some p));
  c ← control_listen (lf_listen e).1.1 (lf_listen e).1.2 (lf_listen e).2 c;
  s ← serve_init_allocation_map (lf_file e) (lf_file_size e) (lf_builder e) s;
  '(outs, s) ← serve_rounds (flexnbd_signal_fd fx) (lf_rounds e) s;
  let ok := success s in
  '(c, s) ← serve_close_control (lf_last e) c s;
  s ← serve_cleanup server_thread (lf_join e) (lf_super e) s;
  fx ← flexnbd_stop_control (fun c => Ok c) (lf_joined e) (set_control (flexnbd_set_server fx s) c);
  Ok (ok, outs, fx).
End Life.

(** * Lemmas *)

(** Without control rounds it is the accept loop. *)
Lemma serve_rounds_alone pton4 pton6 self control fuel sig_fd inputs closed s s' :
  serve_accept_loop self sig_fd inputs s = Ok (closed, s') ->
  exists outs, serve_rounds pton4 pton6 self control fuel sig_fd (ServerRound <$> inputs) s = Ok (outs, s') /\ Forall (eq []) outs.
Proof.
  revert s closed. induction inputs as [| i inputs IH]; intros s closed; [done |].
  cbn [fmap list_fmap serve_rounds serve_accept_loop flexnbd_round].
  destruct (server_accept self sig_fd i s) as [[[go cl] s1] |]; [| done]. cbn [mbind res_bind].
  destruct go; [| intros [= _ <-]; exists [[]]; by repeat constructor].
  destruct (serve_accept_loop self sig_fd inputs s1) as [[cl' s2] |] eqn:E; [| done]. intros [= _ <-].
  destruct (IH _ _ E) as (outs & E' & Ho). change (list_fmap _ _ ServerRound inputs) with (ServerRound <$> inputs).
  rewrite E'. cbn [mbind res_bind]. exists ([] :: outs). by repeat constructor.
Qed.

(** ** A process that was just created *)

Lemma created_sound pton4 pton6 ip port deny acl n_clients ks ok s n :
  pton_ok pton4 4 -> pton_ok pton6 16 -> Z.of_nat n_clients < 2 ^ 31 -> 0 <= n < PIPE_CAPACITY ->
  server_create pton4 pton6 ip port deny acl n_clients ks ok = Ok s ->
  sound n s /\ success s = ok /\ s_mirror s = None /\ mirror_super s = false.
Proof.
  intros H4 H6 Hc Hn. unfold server_create.
  destruct (parse_ip_to_sockaddr _ _ _ _) as [[a |] |]; [| done | done]. cbn [of_opt mbind res_bind].
  unfold acl_create. destruct (parse_acl pton4 pton6 acl) as [es |] eqn:Ep; [| done]. cbn [mbind res_bind].
  destruct (negb _); [done |]. destruct (parse_port port a); [| done]. cbn [mbind res_bind]. intros [= <-].
  destruct (parse_acl_spec pton4 pton6 H4 H6 acl es Ep) as (Hes & _).
  assert (Hz : forall i e, replicate n_clients empty_entry !! i = Some e -> thread e <> 0 -> False)
    by (intros i e H; apply lookup_replicate_1 in H as [-> _]; done).
  split; [| done]. constructor; cbn.
  - constructor; try done.
    + constructor; cbn; [by rewrite length_replicate | intros i e H Ht; by destruct (Hz i e) | intros i j e e' p H _ Ht; by destruct (Hz i e)].
  - by exists es, deny.
  - unfold clients_ip. cbn. apply Forall_replicate. by intros [].
  - unfold signals_left. cbn. apply map_Forall_empty.
  - lia.
  - done.
Qed.

Lemma opened_sound n o s s' :
  sound n s -> 0 < oi_socket o -> serve_open_server_socket o s = Ok s' -> sound n s' /\ success s' = success s.
Proof.
  intros S Hfd. unfold serve_open_server_socket. cbn [server_fd set_field]. do 3 (destruct (_ <? 0); [done |]).
  destruct (sock_try_bind _) as [[bound slept] |]; [| done]. cbn [mbind res_bind].
  destruct (negb _); [done |]. destruct (_ <? 0); [done |]. intros [= <-]. split; [| done].
  destruct S as [[T N U A P M] S2 S3 S4 S5 S6]. constructor; try done; [| cbn; lia].
  constructor; try done; [by destruct T | by destruct N].
Qed.

Lemma sector_round_eq sz : sector_round sz = sz - sz mod 512.
Proof.
  unfold sector_round. change 0x1ff with (Z.ones 9). rewrite <- Z.ldiff_land, Z.ldiff_ones_r by lia.
  rewrite Z.shiftl_mul_pow2, Z.shiftr_div_pow2 by lia. change (2 ^ 9) with 512. pose proof (Z.div_mod sz 512). lia.
Qed.

Lemma mapped_sound n fd sz create s s' :
  sound n s -> sz < 2 ^ 63 -> serve_init_allocation_map fd sz create s = Ok s' ->
  sound n s' /\ success s' = success s.
Proof.
  intros [[T N U A P M] S2 S3 S4 S5 S6] Hsz. unfold serve_init_allocation_map. destruct (fd <? 0); [done |].
  destruct (sector_round sz <? 0) eqn:E; [done |]. destruct (create <? 0); [done |]. intros [= <-]. split; [| done].
  assert (Hr : 0 <= sector_round sz < 2 ^ 64).
  { split; [lia |]. rewrite sector_round_eq. pose proof (Z.mod_pos_bound sz 512). lia. }
  constructor; try done. constructor; try done; [by destruct T |]. destruct N. by constructor.
Qed.

(** ** What the threads leave of [success] *)

(** The fields that decide the exit status. *)
Definition fate (s : server) : bool * bool := (success s, mirror_super s).

Ltac unbind H :=
  repeat (first [discriminate H
    | match type of H with (_ ≫= _) = Ok _ =>
        let x := fresh "x" in let H1 := fresh "H" in apply bind_Ok in H as (x & H1 & H) end
    | match type of H with (let '(_, _) := ?p in _) = Ok _ => destruct p as [? ?] end
    | match type of H with (if ?b then _ else _) = Ok _ => let E := fresh "E" in destruct b eqn:E end]).

Lemma signal_stop_fate s p s' : client_signal_stop s p = Ok s' -> fate s' = fate s.
Proof. unfold client_signal_stop. intros H. unbind H. by injection H as <-. Qed.

Lemma close_from_fate i n s s' : close_from i n s = Ok s' -> fate s' = fate s.
Proof.
  revert i s. induction n as [| n IH]; intros i s H; cbn [close_from] in H; [by injection H as <- |]. unbind H.
  - by apply (IH (S i)).
  - apply signal_stop_fate in H1. by rewrite <- H1; apply (IH (S i)).
Qed.

Lemma acl_accepts_fate self s a b s' : server_acl_accepts self s a = Ok (b, s') -> fate s' = fate s.
Proof.
  unfold server_acl_accepts, server_lock_acl. intros H. unbind H. injection H as <- <-. unbind H0. by injection H0 as <-.
Qed.

Lemma audit_from_fate self i n s s' : audit_from self i n s = Ok s' -> fate s' = fate s.
Proof.
  revert i s. induction n as [| n IH]; intros i s H; cbn [audit_from] in H; [by injection H as <- |]. unbind H.
  - by apply (IH (S i)).
  - apply acl_accepts_fate in H1. by rewrite <- H1; apply (IH (S i)).
  - apply acl_accepts_fate in H1. apply signal_stop_fate in H2. rewrite <- H1, <- H2. by apply (IH (S i)).
Qed.

Lemma cleanup_from_fate j i n s s' : cleanup_from j i n s = Ok s' -> fate s' = fate s.
Proof.
  revert i s. induction n as [| n IH]; intros i s H; cbn [cleanup_from] in H; [by injection H as <- |]. unbind H.
  apply IH in H as ->. unfold cleanup_client_thread, tryjoin_client_thread in H0. unbind H0; injection H0 as _ <-; try done.
  unfold client_destroy in H1. unbind H1. by injection H1 as <-.
Qed.

Lemma slot_fate j s o s' : cleanup_and_find_client_slot j s = Ok (o, s') -> fate s' = fate s.
Proof.
  unfold cleanup_and_find_client_slot. intros H. unbind H. injection H as _ <-. by apply cleanup_from_fate in H0.
Qed.

Lemma should_accept_fate self s a b s' : server_should_accept_client self s a = Ok (b, s') -> fate s' = fate s.
Proof.
  unfold server_should_accept_client. destruct (negb _); [by intros [= _ <-] | by apply acl_accepts_fate].
Qed.

Lemma accept_fate self i fd a s closed s' : accept_nbd_client self i fd a s = Ok (closed, s') -> fate s' = fate s.
Proof.
  unfold accept_nbd_client. destruct (ai_keepalive i <? 0); [done |].
  destruct (server_should_accept_client self s a) as [[ok s1] |] eqn:E1; [| done]. cbn [mbind res_bind].
  apply should_accept_fate in E1. destruct ok; cbn [negb]; [| by intros [= _ <-]].
  destruct (cleanup_and_find_client_slot (ai_join i) s1) as [[[k |] s2] |] eqn:E2; [| | done]; cbn [mbind res_bind];
    apply slot_fate in E2; [| intros [= _ <-]; congruence].
  destruct (negb _); [| intros [= _ <-]; rewrite <- E1, <- E2; done].
  unfold client_destroy. intros H. unbind H. injection H as _ <-. unbind H0. injection H0 as <-. by rewrite <- E1, <- E2.
Qed.

(** Whether a round tells the server thread to stop. *)
Definition stops (sig_fd : Z) (i : round_input) : bool := ri_close i || ((0 <? sig_fd) && ri_signal i).

(** A round, what it says about going on, and what it leaves of [success]: a stop
    signal while a mirror is set is a failure. *)
Lemma server_round_fate self sig_fd i s go closed s' :
  server_accept self sig_fd i s = Ok (go, closed, s') ->
  go = negb (stops sig_fd i) /\
  success s' = if (0 <? sig_fd) && ri_signal i then success s && negb (mirror_super s) else success s.
Proof.
  unfold server_accept, stops. destruct (ri_select i <? 0); [done |]. intros H.
  apply bind_Ok in H as ([go1 s1] & H1 & H).
  assert (F1 : go1 = negb (ri_close i) /\ fate s1 = fate s).
  { destruct (ri_close i); [| by injection H1 as <- <-]. unbind H1. injection H1 as <- <-. split; [done |].
    by apply close_from_fate in H0. }
  destruct F1 as [-> F1]. apply bind_Ok in H as ([go2 s2] & H2 & H).
  assert (F2 : go2 = negb (ri_close i || (0 <? sig_fd) && ri_signal i) /\
    success s2 = if (0 <? sig_fd) && ri_signal i then success s && negb (mirror_super s) else success s).
  { injection F1 as Fs Fm. destruct ((0 <? sig_fd) && ri_signal i); [| injection H2 as <- <-; by rewrite orb_false_r].
    apply bind_Ok in H2 as (s1' & Hc & H2). apply close_from_fate in Hc. injection Hc as Fs' Fm'.
    apply bind_Ok in H2 as ([ok s1''] & Hg & [= <- <-]). rewrite orb_true_r. split; [done |]. cbn.
    rewrite <- Fs, <- Fm, <- Fs', <- Fm'. destruct (success s1'); [| by injection Hg as <- <-].
    unfold serve_shutdown_is_graceful in Hg. unbind Hg. injection Hg as <- _. unfold server_is_mirroring.
    unfold server_lock_start_mirror in H0. unbind H0. by injection H0 as <-. }
  destruct F2 as [-> F2]. apply bind_Ok in H as (s3 & H3 & H).
  assert (F3 : success s3 = success s2).
  { destruct (ri_acl i); [| by injection H3 as <-]. apply audit_from_fate in H3. by injection H3. }
  apply bind_Ok in H as ([cl s4] & H4 & [= <- _ <-]). split; [done |]. rewrite <- F2, <- F3.
  destruct (ri_server i); [| by injection H4 as _ <-]. destruct (allow_new_clients s3); [| by injection H4 as _ <-].
  apply accept_fate in H4. by injection H4.
Qed.

(** ** The rounds up to the one that stops the server *)

Definition goes_on (sig_fd : Z) (r : thread_round) : Prop :=
  match r with ServerRound i => stops sig_fd i = false | ControlRound _ => True end.

Section Ending.
Context (pton4 pton6 : list Z -> option (list Z)) (server_thread control_thread : Z) (fuel : nat) (sig_fd : Z).

Lemma serve_rounds_until rs last s outs s' :
  Forall (goes_on sig_fd) rs -> stops sig_fd last = true ->
  flexnbd_rounds pton4 pton6 server_thread control_thread fuel sig_fd (rs ++ [ServerRound last]) s = Ok (outs, s') ->
  serve_rounds pton4 pton6 server_thread control_thread fuel sig_fd (rs ++ [ServerRound last]) s = Ok (outs, s') /\
  exists outs0 s0, flexnbd_rounds pton4 pton6 server_thread control_thread fuel sig_fd rs s = Ok (outs0, s0) /\
    success s' = if (0 <? sig_fd) && ri_signal last then success s0 && negb (mirror_super s0) else success s0.
Proof.
  intros Hgo Hstop. revert s outs. induction Hgo as [| r rs Hr _ IH]; intros s outs H; cbn [app flexnbd_rounds serve_rounds] in *.
  - apply bind_Ok in H as ([[go out] s1] & H1 & [= <- <-]). rewrite H1. cbn [mbind res_bind].
    cbn [flexnbd_round] in H1. apply bind_Ok in H1 as ([[go' cl] s2] & H1 & [= -> <- ->]).
    destruct (server_round_fate _ _ _ _ _ _ _ H1) as [-> Hs]. rewrite Hstop. split; [done |]. by exists [], s.
  - apply bind_Ok in H as ([[go out] s1] & H1 & H). apply bind_Ok in H as ([outs1 s2] & H2 & [= <- <-]).
    destruct (IH _ _ H2) as (E & outs0 & s0 & E0 & Hs). rewrite H1. cbn [mbind res_bind].
    assert (Hg : match r with ServerRound _ => go | ControlRound _ => true end = true).
    { destruct r as [i | r]; [| done]. cbn [flexnbd_round] in H1. apply bind_Ok in H1 as ([[go' cl] s3] & H1 & [= <- _ _]).
      destruct (server_round_fate _ _ _ _ _ _ _ H1) as [-> _]. cbn in Hr. by rewrite Hr. }
    rewrite Hg, E. cbn [mbind res_bind]. split; [done |]. rewrite E0. cbn [mbind res_bind]. by eexists _, _.
Qed.
End Ending.

(** The server when the accept loop starts. *)
Definition started (e : life_env) (fx : flexnbd) : res server :=
  s ← serve_open_server_socket (lf_open e) (flexnbd_server fx);
  serve_init_allocation_map (lf_file e) (lf_file_size e) (lf_builder e) s.

(** Nothing outside fails: the threads start, the sockets open, the file is found, the
    control thread is woken for the signal to close, and the client threads, the
    supervisor and the control thread can be joined. *)
Record life_env_ok (e : life_env) : Prop := {
  le_create : lf_create e = 0;
  le_open : exists slept, sock_try_bind (oi_bind (lf_open e)) = Ok (0, slept);
  le_socket : 0 < oi_socket (lf_open e) /\ 0 <= oi_reuseaddr (lf_open e) /\ 0 <= oi_nodelay (lf_open e) /\ 0 <= oi_listen (lf_open e);
  le_control : 0 <= lf_select e /\ 0 <= (lf_listen e).1.1 /\ 0 <= (lf_listen e).1.2 /\ 0 <= (lf_listen e).2;
  le_file : 0 <= lf_file e /\ 0 <= lf_file_size e < 2 ^ 63 /\ 0 <= lf_builder e;
  le_last : 0 < cr_select (lf_last e) /\ cr_close (lf_last e) = true;
  le_join : forall t, lf_join e t = 0;
  le_super : super_ok (lf_super e);
  le_joined : lf_joined e = 0
}.

Lemma started_ok n e fx :
  sound n (flexnbd_server fx) -> life_env_ok e ->
  exists s1 s, serve_open_server_socket (lf_open e) (flexnbd_server fx) = Ok s1 /\
    serve_init_allocation_map (lf_file e) (lf_file_size e) (lf_builder e) s1 = Ok s /\
    sound n s /\ success s = success (flexnbd_server fx).
Proof.
  intros S [_ (slept & Hb) (O1 & O2 & O3 & O4) _ (F1 & F2 & F3) _ _ _ _].
  assert (exists s1, serve_open_server_socket (lf_open e) (flexnbd_server fx) = Ok s1) as (s1 & E1).
  { unfold serve_open_server_socket. cbn [server_fd set_field]. replace (oi_socket _ <? 0) with false by lia.
    replace (oi_reuseaddr _ <? 0) with false by lia. replace (oi_nodelay _ <? 0) with false by lia.
    rewrite Hb. cbn [mbind res_bind Z.eqb negb]. replace (oi_listen _ <? 0) with false by lia. by eexists. }
  destruct (opened_sound _ _ _ _ S O1 E1) as (S1 & Hs1).
  assert (exists s, serve_init_allocation_map (lf_file e) (lf_file_size e) (lf_builder e) s1 = Ok s) as (s & E2).
  { unfold serve_init_allocation_map. replace (lf_file e <? 0) with false by lia.
    assert (0 <= sector_round (lf_file_size e)).
    { rewrite sector_round_eq. pose proof (Z.mod_le (lf_file_size e) 512). lia. }
    replace (sector_round _ <? 0) with false by lia. replace (lf_builder e <? 0) with false by lia. by eexists. }
  destruct (mapped_sound _ _ _ _ _ _ S1 (proj2 F2) E2) as (S2 & Hs2).
  exists s1, s. split_and!; try done. congruence.
Qed.

(** The control thread gets to its loop, with nothing in its signal to close. *)
Lemma control_starts e :
  life_env_ok e -> exists p c, self_pipe_signal (open_signal control_create) = Ok p /\
    (c ← control_wait_for_open_signal (lf_select e) (with_open_signal control_create (Some p));
     control_listen (lf_listen e).1.1 (lf_listen e).1.2 (lf_listen e).2 c) = Ok c /\
    c_close_signal c = self_pipe_create.
Proof.
  intros [_ _ _ (L1 & L2 & L3 & L4) _ _ _ _ _]. unfold control_wait_for_open_signal, control_listen, open_control_socket.
  replace (lf_select e <? 0) with false by lia. replace ((lf_listen e).1.1 <? 0) with false by lia.
  replace ((lf_listen e).1.2 <? 0) with false by lia. replace ((lf_listen e).2 <? 0) with false by lia.
  eexists _, _. split_and!; reflexivity.
Qed.

(** It leaves its loop for the signal, and is joined. *)
Lemma control_ends pton4 pton6 self fuel e c s :
  life_env_ok e -> c_close_signal c = self_pipe_create ->
  exists c', serve_close_control pton4 pton6 self fuel (lf_last e) c s = Ok (c', s) /\ socket_open c' = false /\
    forall fx, exists c2, flexnbd_stop_control (fun c => Ok c) (lf_joined e) (set_control fx c') = Ok (set_control fx c2) /\
      socket_open c2 = false.
Proof.
  intros [_ _ _ _ _ [K1 K2] _ _ J] Hc. unfold serve_close_control, control_signal_close, control_accept.
  rewrite Hc, K2, J. replace (cr_select (lf_last e) <=? 0) with false by lia. cbn.
  eexists. split; [reflexivity |]. split; [done |]. intros fx. by eexists.
Qed.

(** * Properties *)

(** C8: a server process runs from its creation to its end. Whatever connections and
    commands come until a round tells the server thread to stop, and in whatever order
    the two threads take their turns, [flexnbd_serve] returns: the listening socket and
    the control socket are closed, every client thread is joined, no mirror is left or
    can start, both locks are free, each control client has had its answer; and the
    value it returns is [success], which a stop signal makes a failure exactly when a
    mirror is set. The rounds are within the limits of [threads_interleave_safely]: the
    five commands with lines of fewer than 64 characters, no mirror command while a
    mirror is set, fewer rounds than the pipes have room for, and the supervisor of a
    mirror posts a state. The calls the process makes itself succeed: sockets, file,
    [pthread_create] and the joins. *)
Theorem process_runs_to_its_end pton4 pton6 server_thread control_thread fuel sa ip port sock deny acl n_clients ks e rs last fx :
  pton_ok pton4 4 -> pton_ok pton6 16 -> server_thread <> 0 -> control_thread <> 0 -> Z.of_nat n_clients < 2 ^ 31 ->
  flexnbd_create_serving pton4 pton6 sa ip port (Some sock) deny acl n_clients ks = Ok fx -> life_env_ok e ->
  lf_rounds e = rs ++ [ServerRound last] -> Forall (goes_on (signal_fd fx)) rs -> stops (signal_fd fx) last = true ->
  3 * zlen (lf_rounds e) < PIPE_CAPACITY ->
  (forall s, started e fx = Ok s -> run_ok pton4 pton6 server_thread control_thread fuel (signal_fd fx) (lf_rounds e) s) ->
  exists ok outs fx' c s0 outs0,
    flexnbd_life pton4 pton6 server_thread control_thread fuel e fx = Ok (ok, outs, fx') /\
    Forall2 answers (lf_rounds e) outs /\
    (s ← started e fx; flexnbd_rounds pton4 pton6 server_thread control_thread fuel (signal_fd fx) rs s) = Ok (outs0, s0) /\
    ok = (if (0 <? signal_fd fx) && ri_signal last then success s0 && negb (mirror_super s0) else success s0) /\
    server_is_closed (fx_serve fx') = true /\ Forall (fun e => thread e = 0) (nbd_client (fx_serve fx')) /\
    server_is_mirroring (fx_serve fx') = false /\ server_mirror_can_start (fx_serve fx') = false /\
    unlocked (fx_serve fx') /\
    fx_control fx' = Some c /\ socket_open c = false.
Proof.
  intros H4 H6 Hst Hct Hn Hcr He Hrs Hgo Hstop Hcap Hrun.
  unfold flexnbd_create_serving in Hcr. apply bind_Ok in Hcr as (s00 & Hsc & Hcr). apply bind_Ok in Hcr as (fx0 & Hsh & Hcr).
  assert (fx0 = fx) as -> by (destruct (ks && _); [done | by injection Hcr]).
  unfold flexnbd_create_shared in Hsh. apply bind_Ok in Hsh as (sfd & _ & [= <-]).
  destruct (created_sound pton4 pton6 ip port deny acl n_clients ks true s00 (zlen (lf_rounds e)) H4 H6 Hn) as (S0 & _);
    [pose proof (zlen_nonneg (lf_rounds e)); lia | done |].
  set (fx := {| fx_serve := s00; fx_control := Some control_create; signal_fd := sfd |}) in *.
  destruct (started_ok _ e fx S0 He) as (s1 & s & E1 & E2 & S & _).
  assert (Estart : started e fx = Ok s) by (unfold started; by rewrite E1).
  destruct (rounds_sound pton4 pton6 server_thread control_thread fuel sfd (lf_rounds e) s) as (outs & s2 & E3 & S2 & Hall);
    [done | done | done | lia | done | by apply Hrun |].
  rewrite Hrs in E3. destruct (serve_rounds_until _ _ _ _ _ _ _ _ _ _ _ Hgo Hstop E3) as (E3' & outs0 & s0 & E0 & Hok).
  pose proof (so_ready _ _ S2) as Hr2. destruct (control_starts e He) as (p & c & Ep & Ec & Hc).
  destruct (control_ends pton4 pton6 control_thread fuel e c s2 He Hc) as (c1 & Ecl & _ & Hj).
  destruct (cleanup_leaves_nothing server_thread (lf_join e) (lf_super e) s2) as (s3 & E4 & Hend); try done;
    [apply (so_fd _ _ S2) | apply (cr_tbl _ Hr2) | apply (le_join _ He) | apply (le_super _ He) | apply (cr_mirror _ Hr2)
    | left; apply (cr_unlocked _ Hr2) |].
  destruct (Hj (flexnbd_set_server fx s3)) as (c2 & Ej & Hc2).
  exists (success s2), outs, (set_control (flexnbd_set_server fx s3) c2), c2, s0, outs0. split.
  - unfold flexnbd_life, flexnbd_spawn_control. cbn [fx_control fx of_opt mbind res_bind].
    rewrite (le_create _ He). change (negb (0 =? 0)) with false. cbn iota. cbn [mbind res_bind].
    rewrite E1. cbn [mbind res_bind]. rewrite Ep. cbn [mbind res_bind].
    apply bind_Ok in Ec as (c0 & Ew & Ec). rewrite Ew. cbn [mbind res_bind]. rewrite Ec. cbn [mbind res_bind].
    rewrite E2. cbn [mbind res_bind]. change (flexnbd_signal_fd fx) with (signal_fd fx). rewrite Hrs, E3'. cbn [mbind res_bind].
    rewrite Ecl. cbn [mbind res_bind]. rewrite E4. cbn [mbind res_bind]. by rewrite Ej.
  - rewrite Estart. cbn [mbind res_bind]. destruct Hend as (K1 & K2 & K3 & K4 & K5 & _ & K6).
    split_and!; try done. split; [| done]. apply K6, (cr_unlocked _ Hr2).
Qed.

(** A process with a control socket: an [acl] command comes, then the close signal. *)
Definition sample_signals_ok : signal_answers := {| sa_sigmask := 0; sa_signalfd := 7; sa_sigaction := 0 |}.

Definition sample_ip : list Z := take 8 example_line.

Definition sample_create : res flexnbd :=
  flexnbd_create_serving example_pton4 (fun _ => None) sample_signals_ok sample_ip (str "4777") (Some (str "ctl")) false [] 2 true.

Definition sample_stop_round : round_input :=
  {| ri_select := 1; ri_close := true; ri_signal := false; ri_acl := false; ri_server := false;
     ri_client_fd := 0; ri_address := example_addr 1; ri_accept := sample_accept 0 |}.

Definition sample_life : life_env :=
  {| lf_create := 0;
     lf_open := {| oi_socket := 4; oi_reuseaddr := 0; oi_nodelay := 0; oi_bind := [{| a_ret := 0; a_errno := 0 |}]; oi_listen := 0 |};
     lf_select := 1; lf_listen := (5, 0, 0); lf_file := 6; lf_file_size := 1048576; lf_builder := 0;
     lf_rounds := [ControlRound sample_acl_round] ++ [ServerRound sample_stop_round];
     lf_last := {| cr_select := 1; cr_close := true; cr_ready := false; cr_accept := 0; cr_rx := []; cr_env := sample_control_env |};
     lf_join := fun _ => 0; lf_super := fun s => Ok s; lf_joined := 0 |}.

Lemma sample_life_ok : life_env_ok sample_life.
Proof.
  constructor; cbn; try lia; try done.
  - by eexists.
  - intros t. by exists t.
Qed.

(** What the process starts from. *)
Lemma sample_created : exists s, server_create example_pton4 (fun _ => None) sample_ip (str "4777") false [] 2 true true = Ok s /\
  the_acl s = Some {| acl_len := 0; default_deny := false; acl_entries := [] |} /\ heap s = ∅.
Proof. eexists. split; [reflexivity |]. done. Qed.

Lemma life_run fx s :
  sound 2 s -> the_acl s = Some {| acl_len := 0; default_deny := false; acl_entries := [] |} -> heap s = ∅ ->
  run_ok example_pton4 (fun _ => None) 1 2 5 fx (lf_rounds sample_life) s.
Proof.
  intros S Ha Hh.
  assert (Hround : acl_round 5 [example_line] sample_acl_round).
  { constructor; try done; try lia; [repeat constructor; done | repeat constructor; try by_decide; vm_compute; lia | cbn; lia]. }
  split.
  - constructor; [done | exact sample_others_ok | done |].
    exists (str "acl"), [example_line]. destruct Hround. split_and!; try done. by_decide.
  - intros go out s' E. cbn [flexnbd_round] in E.
    rewrite (acl_round_updates example_pton4 (fun _ => None) 2 5 [example_line] (acl_entries example_acl)
      {| acl_len := 0; default_deny := false; acl_entries := [] |} sample_acl_round s) in E; try done; [| apply S].
    injection E as _ _ <-. split; [| done].
    constructor; [by cbn | constructor; [by cbn | apply sample_joins | cbn; by rewrite Hh | done | done] |].
    split; [by left |]. repeat split; by_decide.
Qed.

Lemma started_keeps e fx s :
  started e fx = Ok s -> the_acl s = the_acl (flexnbd_server fx) /\ heap s = heap (flexnbd_server fx).
Proof.
  unfold started, serve_open_server_socket, serve_init_allocation_map. intros H. apply bind_Ok in H as (s1 & H1 & H).
  unbind H. injection H as <-. unbind H1. by injection H1 as <-.
Qed.

Lemma process_runs_to_its_end_witness :
  exists fx, sample_create = Ok fx /\
  exists ok outs fx' c s0 outs0,
    flexnbd_life example_pton4 (fun _ => None) 1 2 5 sample_life fx = Ok (ok, outs, fx') /\
    Forall2 answers (lf_rounds sample_life) outs /\
    (s ← started sample_life fx;
     flexnbd_rounds example_pton4 (fun _ => None) 1 2 5 (signal_fd fx) [ControlRound sample_acl_round] s) = Ok (outs0, s0) /\
    ok = (if (0 <? signal_fd fx) && false then success s0 && negb (mirror_super s0) else success s0) /\
    server_is_closed (fx_serve fx') = true /\ Forall (fun e => thread e = 0) (nbd_client (fx_serve fx')) /\
    server_is_mirroring (fx_serve fx') = false /\ server_mirror_can_start (fx_serve fx') = false /\
    unlocked (fx_serve fx') /\
    fx_control fx' = Some c /\ socket_open c = false.
Proof.
  destruct sample_created as (s & E & Ha & Hh).
  set (fx := {| fx_serve := s; fx_control := Some control_create; signal_fd := 7 |}).
  assert (Ecr : sample_create = Ok fx) by (unfold sample_create, flexnbd_create_serving; rewrite E; reflexivity).
  exists fx. split; [exact Ecr |].
  apply (process_runs_to_its_end example_pton4 (fun _ => None) 1 2 5 sample_signals_ok sample_ip (str "4777") (str "ctl") false [] 2 true
    sample_life [ControlRound sample_acl_round] sample_stop_round fx).
  - exact example_pton4_ok.
  - intros x a. discriminate.
  - discriminate.
  - discriminate.
  - reflexivity.
  - exact Ecr.
  - exact sample_life_ok.
  - reflexivity.
  - repeat constructor.
  - reflexivity.
  - vm_compute. reflexivity.
  - intros s1 E1. destruct (started_keeps _ _ _ E1) as [Ka Kh].
    destruct (created_sound example_pton4 (fun _ => None) sample_ip (str "4777") false [] 2 true true s 2 example_pton4_ok) as [S _];
      [intros x a; discriminate | reflexivity | unfold PIPE_CAPACITY; lia | exact E |].
    destruct (started_ok 2 sample_life fx S sample_life_ok) as (s0 & s2 & E2 & E3 & S2 & _).
    assert (s2 = s1) as -> by (unfold started in E1; rewrite E2 in E1; cbn [mbind res_bind] in E1; congruence).
    apply life_run; [exact S2 | rewrite Ka; exact Ha | rewrite Kh; exact Hh].
Defined.
