(* ===== verification/Getopt.v ===== *)
(** * Command lines

    What mode.c and proxy-main.c use of the C library's [getopt_long]: short and long
    options, arguments that are not options moved behind them, as glibc does without
    POSIXLY_CORRECT. A run of the calls to the first -1 is the list of the options
    found, each with its [optarg], and the operands that are left ([argv + optind]);
    '?' stands for what is not an option. *)

From S2P Require Import Prelude IoUtil Parse Text.

Open Scope Z_scope.

Inductive has_arg := no_argument | required_argument | optional_argument.

#[export] Instance has_arg_eq_dec : EqDecision has_arg.
Proof. solve_decision. Defined.

(** [struct option], with no flag. *)
Record opt := { o_name : list Z; o_has_arg : has_arg; o_val : Z }.

Definition event : Type := Z * option (list Z).

(** The character of a one-letter string. *)
Definition ch (s : string) : Z := default 0 (str s !! 0%nat).

(** '?' *)
Definition QUESTION : event := (63, None).

(** Whether and how a letter is in [optstring]: behind it, ':' or '::' ask for an
    argument. *)
Fixpoint short_kind (c : Z) (optstring : list Z) : option has_arg :=
  match optstring with
  | [] => None
  | x :: rest =>
      if (x =? c) && negb (c =? 58) && negb (c =? 59) then
        Some match rest with
             | 58 :: 58 :: _ => optional_argument
             | 58 :: _ => required_argument
             | _ => no_argument
             end
      else short_kind c rest
  end.

(** The letters of one argument; and the letter that waits for the next argument. *)
Fixpoint short_options (optstring : list Z) (chars : list Z) : list event * option Z :=
  match chars with
  | [] => ([], None)
  | c :: chars' =>
      let more e := let '(es, w) := short_options optstring chars' in (e :: es, w) in
      match short_kind c optstring with
      | None => more QUESTION
      | Some no_argument => more (c, None)
      | Some required_argument => match chars' with [] => ([], Some c) | _ => ([(c, Some chars')], None) end
      | Some optional_argument => ([(c, match chars' with [] => None | _ => Some chars' end)], None)
      end
  end.

(** The name and the value of [name=value]. *)
Fixpoint cut_value (s : list Z) : list Z * option (list Z) :=
  match s with
  | [] => ([], None)
  | c :: s' => if c =? 61 then ([], Some s') else let '(n, v) := cut_value s' in (c :: n, v)
  end.

Definition same_option (o p : opt) : bool :=
  bool_decide (o_has_arg o = o_has_arg p) && (o_val o =? o_val p).

(** An exact name, or a prefix of names that all mean the same. *)
Definition find_long (opts : list opt) (name : list Z) : option opt :=
  match filter (fun o => o_name o = name) opts with
  | o :: _ => Some o
  | [] =>
      match filter (fun o => take (length name) (o_name o) = name) opts with
      | o :: os => if forallb (same_option o) os then Some o else None
      | [] => None
      end
  end.

(** A long option that is complete, or one that waits for the next argument. *)
Definition long_option (opts : list opt) (body : list Z) : event + Z :=
  let '(name, value) := cut_value body in
  match find_long opts name with
  | None => inl QUESTION
  | Some o =>
      match o_has_arg o, value with
      | no_argument, Some _ => inl QUESTION
      | no_argument, None => inl (o_val o, None)
      | required_argument, None => inr (o_val o)
      | _, _ => inl (o_val o, value)
      end
  end.

Fixpoint getopt_long (optstring : list Z) (opts : list opt) (args : list (list Z)) : list event * list (list Z) :=
  match args with
  | [] => ([], [])
  | a :: rest =>
      let after es r := let '(es', ops) := getopt_long optstring opts r in (es ++ es', ops) in
      match a with
      | 45 :: 45 :: [] => ([], rest)
      | 45 :: 45 :: body =>
          match long_option opts body with
          | inl e => after [e] rest
          | inr c => match rest with v :: rest' => after [(c, Some v)] rest' | [] => ([QUESTION], []) end
          end
      | 45 :: c0 :: cs =>
          let '(es, waits) := short_options optstring (c0 :: cs) in
          match waits with
          | None => after es rest
          | Some c => match rest with
                      | v :: rest' => after (es ++ [(c, Some v)]) rest'
                      | [] => (es ++ [QUESTION], [])
                      end
          end
      | _ => let '(es, ops) := getopt_long optstring opts rest in (es, a :: ops)
      end
  end.

(** * Lemmas *)

(** The ways to write options and operands that the manual gives: a letter, a letter
    with its argument behind it or in the next place, a full long name, with '=' or
    the next place; operands in between; and what follows "--". *)
Inductive spelled (optstring : list Z) (opts : list opt) : list (list Z) -> list event -> list (list Z) -> Prop :=
| sp_nil : spelled optstring opts [] [] []
| sp_rest ops : spelled optstring opts ([45; 45] :: ops) [] ops
| sp_operand a args es ops : head a <> Some 45 -> spelled optstring opts args es ops ->
    spelled optstring opts (a :: args) es (a :: ops)
| sp_short_flag c args es ops : c <> 45 -> short_kind c optstring = Some no_argument ->
    spelled optstring opts args es ops -> spelled optstring opts ([45; c] :: args) ((c, None) :: es) ops
| sp_short_next c v args es ops : c <> 45 -> short_kind c optstring = Some required_argument ->
    spelled optstring opts args es ops -> spelled optstring opts ([45; c] :: v :: args) ((c, Some v) :: es) ops
| sp_short_here c v args es ops : c <> 45 -> v <> [] -> short_kind c optstring = Some required_argument ->
    spelled optstring opts args es ops -> spelled optstring opts ((45 :: c :: v) :: args) ((c, Some v) :: es) ops
| sp_long_flag o args es ops : o ∈ opts -> o_has_arg o = no_argument ->
    spelled optstring opts args es ops -> spelled optstring opts ((45 :: 45 :: o_name o) :: args) ((o_val o, None) :: es) ops
| sp_long_next o v args es ops : o ∈ opts -> o_has_arg o = required_argument ->
    spelled optstring opts args es ops ->
    spelled optstring opts ((45 :: 45 :: o_name o) :: v :: args) ((o_val o, Some v) :: es) ops
| sp_long_here o v args es ops : o ∈ opts -> o_has_arg o = required_argument ->
    spelled optstring opts args es ops ->
    spelled optstring opts ((45 :: 45 :: o_name o ++ 61 :: v) :: args) ((o_val o, Some v) :: es) ops.

(** A table with names of its own, none of them empty or with a '='. *)
Record table_ok (opts : list opt) : Prop := {
  tk_names : NoDup (o_name <$> opts);
  tk_plain : Forall (fun o => o_name o <> [] /\ 61 ∉ o_name o) opts
}.

Lemma cut_value_plain name r : 61 ∉ name -> cut_value (name ++ r) = (name ++ (cut_value r).1, (cut_value r).2).
Proof.
  induction name as [| c name IH]; intros H; cbn [cut_value app]; [by destruct (cut_value r) |].
  rewrite not_elem_of_cons in H. destruct H as [H1 H2]. destruct (Z.eqb_spec c 61); [congruence |].
  by rewrite (IH H2).
Qed.

Lemma find_long_exact opts o : table_ok opts -> o ∈ opts -> find_long opts (o_name o) = Some o.
Proof.
  intros [Hn _] Ho. unfold find_long.
  assert (Hin : o ∈ filter (fun p => o_name p = o_name o) opts) by (by apply list_elem_of_filter).
  destruct (filter _ opts) as [| p ps] eqn:E; [by apply not_elem_of_nil in Hin |]. f_equal.
  assert (Hp : p ∈ filter (fun p => o_name p = o_name o) opts) by (rewrite E; apply list_elem_of_here).
  apply list_elem_of_filter in Hp as [Hname Hp].
  apply list_elem_of_lookup in Ho as [i Hi]. apply list_elem_of_lookup in Hp as [j Hj].
  assert (i = j) as ->; [| congruence].
  apply (NoDup_lookup _ i j (o_name o) Hn); rewrite list_lookup_fmap; [by rewrite Hi | by rewrite Hj; cbn; rewrite Hname].
Qed.

Lemma long_option_name opts o r : table_ok opts -> o ∈ opts -> r = [] \/ head r = Some 61 ->
  exists c s, o_name o ++ r = c :: s /\
  long_option opts (o_name o ++ r) = match o_has_arg o, (cut_value r).2 with
      | no_argument, Some _ => inl QUESTION
      | no_argument, None => inl (o_val o, None)
      | required_argument, None => inr (o_val o)
      | _, _ => inl (o_val o, (cut_value r).2)
      end.
Proof.
  intros Ht Ho Hr. pose proof (tk_plain _ Ht) as Hp. rewrite list.Forall_forall in Hp. destruct (Hp o Ho) as [Hne Heq].
  unfold long_option. rewrite (cut_value_plain _ _ Heq).
  assert ((cut_value r).1 = []) as ->.
  { destruct Hr as [-> | Hr]; [done |]. destruct r as [| x r]; [done |]. injection Hr as ->. done. }
  rewrite app_nil_r, find_long_exact by done. destruct (o_name o) as [| c s]; [done |]. by exists c, (s ++ r).
Qed.

Lemma short_option_one optstring c v :
  short_options optstring (c :: v) =
    match short_kind c optstring with
    | Some required_argument => match v with [] => ([], Some c) | _ => ([(c, Some v)], None) end
    | Some optional_argument => ([(c, match v with [] => None | _ => Some v end)], None)
    | Some no_argument => let '(es, w) := short_options optstring v in ((c, None) :: es, w)
    | None => let '(es, w) := short_options optstring v in (QUESTION :: es, w)
    end.
Proof. done. Qed.

(** An argument that begins with one dash. *)
Lemma getopt_short optstring opts c cs rest : c <> 45 ->
  getopt_long optstring opts ((45 :: c :: cs) :: rest) =
    (let '(es, waits) := short_options optstring (c :: cs) in
     match waits with
     | None => let '(es', ops) := getopt_long optstring opts rest in (es ++ es', ops)
     | Some w => match rest with
                 | v :: rest' => let '(es', ops) := getopt_long optstring opts rest' in ((es ++ [(w, Some v)]) ++ es', ops)
                 | [] => (es ++ [QUESTION], [])
                 end
     end).
Proof.
  intros Hc. cbn [getopt_long].
  destruct c as [| p | p]; [done | | done].
  do 6 (destruct p as [p | p |]; try done).
Qed.

(** What is spelled as the manual says is understood. *)
Lemma getopt_spelled optstring opts args es ops :
  table_ok opts -> spelled optstring opts args es ops -> getopt_long optstring opts args = (es, ops).
Proof.
  intros Ht. induction 1 as [| | a args es ops Ha _ IH | c args es ops Hc Hk _ IH | c v args es ops Hc Hk _ IH
    | c v args es ops Hc Hv Hk _ IH | o args es ops Ho Hk _ IH | o v args es ops Ho Hk _ IH | o v args es ops Ho Hk _ IH].
  - done.
  - done.
  - cbn [getopt_long]. rewrite IH. destruct a as [| x a]; [done |]. destruct x as [| p | p]; [done | | done].
    do 6 (destruct p as [p | p |]; try done).
  - rewrite getopt_short, short_option_one, Hk by done. cbn [short_options]. by rewrite IH.
  - rewrite getopt_short, short_option_one, Hk by done. cbn. by rewrite IH.
  - rewrite getopt_short, short_option_one, Hk by done. destruct v as [| x v]; [done |]. by rewrite IH.
  - destruct (long_option_name opts o [] Ht Ho (or_introl eq_refl)) as (c & s & E & EL).
    rewrite app_nil_r, Hk in *. rewrite E in *. cbn [getopt_long]. rewrite EL. cbn [cut_value snd]. by rewrite IH.
  - destruct (long_option_name opts o [] Ht Ho (or_introl eq_refl)) as (c & s & E & EL).
    rewrite app_nil_r, Hk in *. rewrite E in *. cbn [getopt_long]. rewrite EL. cbn [cut_value snd]. by rewrite IH.
  - destruct (long_option_name opts o (61 :: v) Ht Ho (or_intror eq_refl)) as (c & s & E & EL).
    rewrite Hk in EL. rewrite E in *. cbn [getopt_long]. rewrite EL. cbn. by rewrite IH.
Qed.
