(* ===== verification/Options.v ===== *)
(** * Options, commands and help texts

    Models the tables of src/src/common/mode.h, src/src/server/mode.c and
    src/src/proxy-main.c. *)

From S2P Require Import Prelude IoUtil Parse Text Getopt.

Open Scope Z_scope.

Definition GETOPT_ARG (x : list Z) (s : Z) : opt := {| o_name := x; o_has_arg := required_argument; o_val := s |}.
Definition GETOPT_FLAG (x : list Z) (v : Z) : opt := {| o_name := x; o_has_arg := no_argument; o_val := v |}.
Definition GETOPT_OPTARG (x : list Z) (s : Z) : opt := {| o_name := x; o_has_arg := optional_argument; o_val := s |}.

Definition OPT_HELP : list Z := str "help".
Definition OPT_ADDR : list Z := str "addr".
Definition OPT_BIND : list Z := str "bind".
Definition OPT_PORT : list Z := str "port".
Definition OPT_FILE : list Z := str "file".
Definition OPT_SOCK : list Z := str "sock".
Definition OPT_FROM : list Z := str "from".
Definition OPT_SIZE : list Z := str "size".
Definition OPT_DENY : list Z := str "default-deny".
Definition OPT_CACHE : list Z := str "cache".
Definition OPT_UNLINK : list Z := str "unlink".
Definition OPT_CONNECT_ADDR : list Z := str "conn-addr".
Definition OPT_CONNECT_PORT : list Z := str "conn-port".
Definition OPT_KILLSWITCH : list Z := str "killswitch".
Definition OPT_MAX_SPEED : list Z := str "max-speed".
Definition OPT_VERBOSE : list Z := str "verbose".
Definition OPT_QUIET : list Z := str "quiet".
Definition SOPT_VERBOSE : list Z := str "v".
Definition SOPT_QUIET : list Z := str "q".

Definition CMD_SERVE : list Z := str "serve".
Definition CMD_LISTEN : list Z := str "listen".
Definition CMD_READ : list Z := str "read".
Definition CMD_WRITE : list Z := str "write".
Definition CMD_ACL : list Z := str "acl".
Definition CMD_MIRROR : list Z := str "mirror".
Definition CMD_MIRROR_SPEED : list Z := str "mirror-speed".
Definition CMD_BREAK : list Z := str "break".
Definition CMD_STATUS : list Z := str "status".
Definition CMD_HELP : list Z := str "help".
Definition LEN_CMD_MAX : nat := 13.

Definition IS_CMD (x c : list Z) : bool := strneq LEN_CMD_MAX x c.

Definition GETOPT_HELP : opt := GETOPT_FLAG OPT_HELP (ch "h").
Definition GETOPT_DENY : opt := GETOPT_FLAG OPT_DENY (ch "d").
Definition GETOPT_ADDR : opt := GETOPT_ARG OPT_ADDR (ch "l").
Definition GETOPT_PORT : opt := GETOPT_ARG OPT_PORT (ch "p").
Definition GETOPT_FILE : opt := GETOPT_ARG OPT_FILE (ch "f").
Definition GETOPT_SOCK : opt := GETOPT_ARG OPT_SOCK (ch "s").
Definition GETOPT_FROM : opt := GETOPT_ARG OPT_FROM (ch "F").
Definition GETOPT_SIZE : opt := GETOPT_ARG OPT_SIZE (ch "S").
Definition GETOPT_BIND : opt := GETOPT_ARG OPT_BIND (ch "b").
Definition GETOPT_CACHE : opt := GETOPT_OPTARG OPT_CACHE (ch "c").
Definition GETOPT_UNLINK : opt := GETOPT_ARG OPT_UNLINK (ch "u").
Definition GETOPT_CONNECT_ADDR : opt := GETOPT_ARG OPT_CONNECT_ADDR (ch "C").
Definition GETOPT_CONNECT_PORT : opt := GETOPT_ARG OPT_CONNECT_PORT (ch "P").
Definition GETOPT_KILLSWITCH : opt := GETOPT_ARG OPT_KILLSWITCH (ch "k").
Definition GETOPT_MAX_SPEED : opt := GETOPT_ARG OPT_MAX_SPEED (ch "m").
Definition GETOPT_VERBOSE : opt := GETOPT_FLAG OPT_VERBOSE (ch "v").
Definition GETOPT_QUIET : opt := GETOPT_FLAG OPT_QUIET (ch "q").

(** Without DEBUG. *)
Definition VERBOSE_LOG_LEVEL : Z := 1.
Definition QUIET_LOG_LEVEL : Z := 4.

(** ** Help texts *)

Definition NL : list Z := [10].
Definition TAB : list Z := [9].

Definition VERBOSE_LINE : list Z :=
  TAB ++ str "--" ++ OPT_VERBOSE ++ str ",-" ++ SOPT_VERBOSE ++ TAB ++ TAB ++ str "Output debug information." ++ NL.
Definition QUIET_LINE : list Z :=
  TAB ++ str "--" ++ OPT_QUIET ++ str ",-" ++ SOPT_QUIET ++ TAB ++ TAB ++ str "Output only fatal information." ++ NL.
Definition HELP_LINE : list Z := TAB ++ str "--" ++ OPT_HELP ++ str ",-h       " ++ TAB ++ str "This text." ++ NL.
Definition SOCK_LINE : list Z :=
  TAB ++ str "--" ++ OPT_SOCK ++ str ",-s <SOCK>" ++ TAB ++ str "Path to the control socket." ++ NL.
Definition BIND_LINE : list Z :=
  TAB ++ str "--" ++ OPT_BIND ++ str ",-b <BIND-ADDR>" ++ TAB ++
  str "Bind the local socket to a particular IP address." ++ NL.
Definition MAX_SPEED_LINE : list Z :=
  TAB ++ str "--" ++ OPT_MAX_SPEED ++ str ",-m <bps>" ++ TAB ++ str "Maximum speed of the migration, in bytes/sec." ++ NL.

(** ** The commands *)

Definition serve_options : list opt :=
  [GETOPT_HELP; GETOPT_ADDR; GETOPT_PORT; GETOPT_FILE; GETOPT_SOCK; GETOPT_DENY; GETOPT_QUIET;
   GETOPT_KILLSWITCH; GETOPT_VERBOSE].
Definition serve_short_options : list Z := str "hl:p:f:s:dk" ++ SOPT_QUIET ++ SOPT_VERBOSE.
Definition serve_help_text : list Z :=
  str "Usage: flexnbd " ++ CMD_SERVE ++ str " <options> [<acl address>*]" ++ NL ++ NL ++
  str "Serve FILE from ADDR:PORT, with an optional control socket at SOCK." ++ NL ++ NL ++ HELP_LINE ++ TAB ++
  str "--" ++ OPT_ADDR ++ str ",-l <ADDR>" ++ TAB ++ str "The address to serve on." ++ NL ++ TAB ++ str "--" ++
  OPT_PORT ++ str ",-p <PORT>" ++ TAB ++ str "The port to serve on." ++ NL ++ TAB ++ str "--" ++ OPT_FILE ++
  str ",-f <FILE>" ++ TAB ++ str "The file to serve." ++ NL ++ TAB ++ str "--" ++ OPT_DENY ++ str ",-d" ++
  TAB ++ str "Deny connections by default unless in ACL." ++ NL ++ TAB ++ str "--" ++ OPT_KILLSWITCH ++
  str ",-k  " ++ TAB ++ str "Kill the server if a request takes 120 seconds." ++ NL ++ SOCK_LINE ++
  VERBOSE_LINE ++ QUIET_LINE.

Definition listen_options : list opt :=
  [GETOPT_HELP; GETOPT_ADDR; GETOPT_PORT; GETOPT_FILE; GETOPT_SOCK; GETOPT_DENY; GETOPT_QUIET; GETOPT_VERBOSE].
Definition listen_short_options : list Z := str "hl:p:f:s:d" ++ SOPT_QUIET ++ SOPT_VERBOSE.
Definition listen_help_text : list Z :=
  str "Usage: flexnbd " ++ CMD_LISTEN ++ str " <options> [<acl_address>*]" ++ NL ++ NL ++
  str "Listen for an incoming migration on ADDR:PORT." ++ HELP_LINE ++ TAB ++ str "--" ++ OPT_ADDR ++
  str ",-l <ADDR>" ++ TAB ++ str "The address to listen on." ++ NL ++ TAB ++ str "--" ++ OPT_PORT ++
  str ",-p <PORT>" ++ TAB ++ str "The port to listen on." ++ NL ++ TAB ++ str "--" ++ OPT_FILE ++
  str ",-f <FILE>" ++ TAB ++ str "The file to serve." ++ NL ++ TAB ++ str "--" ++ OPT_DENY ++ str ",-d" ++
  TAB ++ str "Deny connections by default unless in ACL." ++ NL ++ SOCK_LINE ++ VERBOSE_LINE ++ QUIET_LINE.

Definition read_options : list opt :=
  [GETOPT_HELP; GETOPT_ADDR; GETOPT_PORT; GETOPT_FROM; GETOPT_SIZE; GETOPT_BIND; GETOPT_QUIET; GETOPT_VERBOSE].
Definition read_short_options : list Z := str "hl:p:F:S:b:" ++ SOPT_QUIET ++ SOPT_VERBOSE.
Definition read_help_text : list Z :=
  str "Usage: flexnbd " ++ CMD_READ ++ str " <options>" ++ NL ++ NL ++
  str "Read SIZE bytes from a server at ADDR:PORT to stdout, starting at OFFSET." ++ NL ++ NL ++ HELP_LINE ++
  TAB ++ str "--" ++ OPT_ADDR ++ str ",-l <ADDR>" ++ TAB ++ str "The address to read from." ++ NL ++ TAB ++
  str "--" ++ OPT_PORT ++ str ",-p <PORT>" ++ TAB ++ str "The port to read from." ++ NL ++ TAB ++ str "--" ++
  OPT_FROM ++ str ",-F <OFFSET>" ++ TAB ++ str "Byte offset to read from." ++ NL ++ TAB ++ str "--" ++
  OPT_SIZE ++ str ",-S <SIZE>" ++ TAB ++ str "Bytes to read." ++ NL ++ BIND_LINE ++ VERBOSE_LINE ++ QUIET_LINE.

Definition write_options : list opt := read_options.
Definition write_short_options : list Z := read_short_options.
Definition write_help_text : list Z :=
  str "Usage: flexnbd " ++ CMD_WRITE ++ str " <options>" ++ NL ++ NL ++
  str "Write SIZE bytes from stdin to a server at ADDR:PORT, starting at OFFSET." ++ NL ++ NL ++ HELP_LINE ++
  TAB ++ str "--" ++ OPT_ADDR ++ str ",-l <ADDR>" ++ TAB ++ str "The address to write to." ++ NL ++ TAB ++
  str "--" ++ OPT_PORT ++ str ",-p <PORT>" ++ TAB ++ str "The port to write to." ++ NL ++ TAB ++ str "--" ++
  OPT_FROM ++ str ",-F <OFFSET>" ++ TAB ++ str "Byte offset to write from." ++ NL ++ TAB ++ str "--" ++
  OPT_SIZE ++ str ",-S <SIZE>" ++ TAB ++ str "Bytes to write." ++ NL ++ BIND_LINE ++ VERBOSE_LINE ++ QUIET_LINE.

Definition acl_options : list opt :=
  [GETOPT_HELP; GETOPT_SOCK; GETOPT_QUIET; GETOPT_VERBOSE].
Definition acl_short_options : list Z := str "hs:" ++ SOPT_QUIET ++ SOPT_VERBOSE.
Definition acl_help_text : list Z :=
  str "Usage: flexnbd " ++ CMD_ACL ++ str " <options> [<acl address>+]" ++ NL ++ NL ++
  str "Set the access control list for a server with control socket SOCK." ++ NL ++ NL ++ HELP_LINE ++
  SOCK_LINE ++ VERBOSE_LINE ++ QUIET_LINE.

Definition mirror_speed_options : list opt :=
  [GETOPT_HELP; GETOPT_SOCK; GETOPT_MAX_SPEED; GETOPT_QUIET; GETOPT_VERBOSE].
Definition mirror_speed_short_options : list Z := str "hs:m:" ++ SOPT_QUIET ++ SOPT_VERBOSE.
Definition mirror_speed_help_text : list Z :=
  str "Usage: flexnbd " ++ CMD_MIRROR_SPEED ++ str " <options>" ++ NL ++ NL ++
  str "Set the maximum speed of a migration from a mirring server listening on SOCK." ++ NL ++ NL ++
  HELP_LINE ++ SOCK_LINE ++ MAX_SPEED_LINE ++ VERBOSE_LINE ++ QUIET_LINE.

Definition mirror_options : list opt :=
  [GETOPT_HELP; GETOPT_SOCK; GETOPT_ADDR; GETOPT_PORT; GETOPT_UNLINK; GETOPT_BIND; GETOPT_QUIET; GETOPT_VERBOSE].
Definition mirror_short_options : list Z := str "hs:l:p:ub:" ++ SOPT_QUIET ++ SOPT_VERBOSE.
Definition mirror_help_text : list Z :=
  str "Usage: flexnbd " ++ CMD_MIRROR ++ str " <options>" ++ NL ++ NL ++
  str "Start mirroring from the server with control socket SOCK to one at ADDR:PORT." ++ NL ++ NL ++
  HELP_LINE ++ TAB ++ str "--" ++ OPT_ADDR ++ str ",-l <ADDR>" ++ TAB ++ str "The address to mirror to." ++
  NL ++ TAB ++ str "--" ++ OPT_PORT ++ str ",-p <PORT>" ++ TAB ++ str "The port to mirror to." ++ NL ++
  SOCK_LINE ++ TAB ++ str "--" ++ OPT_UNLINK ++ str ",-u" ++ TAB ++ str "Unlink the local file when done." ++
  NL ++ BIND_LINE ++ VERBOSE_LINE ++ QUIET_LINE.

Definition break_options : list opt :=
  [GETOPT_HELP; GETOPT_SOCK; GETOPT_QUIET; GETOPT_VERBOSE].
Definition break_short_options : list Z := str "hs:" ++ SOPT_QUIET ++ SOPT_VERBOSE.
Definition break_help_text : list Z :=
  str "Usage: flexnbd " ++ CMD_BREAK ++ str " <options>" ++ NL ++ NL ++
  str "Stop mirroring from the server with control socket SOCK." ++ NL ++ NL ++ HELP_LINE ++ SOCK_LINE ++
  VERBOSE_LINE ++ QUIET_LINE.

Definition status_options : list opt :=
  [GETOPT_HELP; GETOPT_SOCK; GETOPT_QUIET; GETOPT_VERBOSE].
Definition status_short_options : list Z := str "hs:" ++ SOPT_QUIET ++ SOPT_VERBOSE.
Definition status_help_text : list Z :=
  str "Usage: flexnbd " ++ CMD_STATUS ++ str " <options>" ++ NL ++ NL ++
  str "Get the status for a server with control socket SOCK." ++ NL ++ NL ++ HELP_LINE ++ SOCK_LINE ++
  VERBOSE_LINE ++ QUIET_LINE.

Definition help_help_text : list Z :=
  str "Usage: flexnbd <cmd> [cmd options]" ++ NL ++ NL ++ str "Commands:" ++ NL ++ TAB ++
  str "flexnbd serve" ++ NL ++ TAB ++ str "flexnbd listen" ++ NL ++ TAB ++ str "flexnbd read" ++ NL ++ TAB ++
  str "flexnbd write" ++ NL ++ TAB ++ str "flexnbd acl" ++ NL ++ TAB ++ str "flexnbd mirror" ++ NL ++ TAB ++
  str "flexnbd mirror-speed" ++ NL ++ TAB ++ str "flexnbd break" ++ NL ++ TAB ++ str "flexnbd status" ++ NL ++
  TAB ++ str "flexnbd help" ++ NL ++ NL ++ str "See flexnbd help <cmd> for further info" ++ NL.

(** ** The proxy *)

Definition proxy_options : list opt :=
  [GETOPT_HELP; GETOPT_ADDR; GETOPT_PORT; GETOPT_CONNECT_ADDR; GETOPT_CONNECT_PORT; GETOPT_BIND; GETOPT_CACHE;
   GETOPT_QUIET; GETOPT_VERBOSE].
Definition proxy_short_options : list Z := str "hl:p:C:P:b:" ++ SOPT_QUIET ++ SOPT_VERBOSE.
Definition proxy_help_text : list Z :=
  str "Usage: flexnbd-proxy <options>" ++ NL ++ NL ++
  str "Resiliently proxy an NBD connection between client and server" ++ NL ++
  str "We can listen on TCP or UNIX socket, but only connect to TCP servers." ++ NL ++ NL ++ HELP_LINE ++
  TAB ++ str "--" ++ OPT_ADDR ++ str ",-l <ADDR>" ++ TAB ++ str "The address we will bind to as a proxy." ++
  NL ++ TAB ++ str "--" ++ OPT_PORT ++ str ",-p <PORT>" ++ TAB ++
  str "The port we will bind to as a proxy, if required." ++ NL ++ TAB ++ str "--" ++ OPT_CONNECT_ADDR ++
  str ",-C <ADDR>" ++ TAB ++ str "Address of the proxied server." ++ NL ++ TAB ++ str "--" ++
  OPT_CONNECT_PORT ++ str ",-P <PORT>" ++ TAB ++ str "Port of the proxied server." ++ NL ++ TAB ++ str "--" ++
  OPT_BIND ++ str ",-b <ADDR>" ++ TAB ++ str "The address we connect from, as a proxy." ++ NL ++ TAB ++
  str "--" ++ OPT_CACHE ++ str ",-c[=<CACHE-BYTES>]" ++ TAB ++ str "Use a RAM read cache of the given size." ++
  NL ++ QUIET_LINE ++ VERBOSE_LINE.

Definition proxy_default_cache_size : list Z := str "4096".

(** ** How a program ends

    An outcome has the bytes sent to a control socket, the exit status, and what the
    program itself prints; [getopt_long]'s own messages are not part of it. *)

Record outcome := { sent : list Z; exit_status : Z; printed : list Z; errors : list Z }.

(** The help on stdout and [exit(0)]; [exit_err]. *)
Definition exit_help (text : list Z) : outcome := {| sent := []; exit_status := 0; printed := text ++ NL; errors := [] |}.
Definition exit_err (text : list Z) : outcome := {| sent := []; exit_status := 1; printed := []; errors := text ++ NL |}.

(** A message printed before [exit_err]. *)
Definition complain (msg : list Z) (o : outcome) : outcome :=
  {| sent := sent o; exit_status := exit_status o; printed := printed o; errors := msg ++ NL ++ errors o |}.

(** The [while (1)] loop over the options. *)
Fixpoint read_params {P} (read : Z -> option (list Z) -> P -> P + outcome) (es : list event) (p : P) : P + outcome :=
  match es with
  | [] => inl p
  | (c, optarg) :: es' =>
      match read c optarg p with
      | inl p => read_params read es' p
      | inr o => inr o
      end
  end.

Definition missing (o : option (list Z)) : bool := match o with None => true | Some _ => false end.

Definition quits (status : bool) : outcome :=
  {| sent := []; exit_status := if status then 0 else 1; printed := []; errors := [] |}.

(** The log level the program starts with. *)
Definition log_level : Z := 2.

(** * Lemmas *)

(** Comparing thirteen bytes of a command name is comparing the names. *)
Lemma IS_CMD_exact x c : (length x < LEN_CMD_MAX)%nat -> IS_CMD x c = streq x c.
Proof. apply strneq_eq. Qed.

(** The tables are well formed. *)
Lemma tables_ok :
  Forall table_ok [serve_options; listen_options; read_options; acl_options; mirror_speed_options; mirror_options;
    break_options; status_options; proxy_options].
Proof.
  assert (H : forall opts, bool_decide (NoDup (o_name <$> opts)) &&
      forallb (fun o => bool_decide (o_name o <> [] /\ 61 ∉ o_name o)) opts = true -> table_ok opts).
  { intros opts Hb. apply andb_true_iff in Hb as [H1 H2]. constructor; [by apply bool_decide_eq_true in H1 |].
    apply list.Forall_forall. intros o Ho. apply Is_true_true, forallb_True in H2. rewrite list.Forall_forall in H2.
    specialize (H2 o Ho). by apply bool_decide_spec in H2. }
  repeat (apply Forall_cons_2; [apply H; vm_compute; reflexivity |]). apply Forall_nil_2.
Qed.
