(* ===== verification/Mode.v ===== *)
(** * The command line of the server program

    Models src/src/server/mode.c and src/src/main.c: a command, its options, the checks,
    and what is then run. *)

From S2P Require Import Prelude Bitset NbdTypes IoUtil SockUtil Parse ReadWrite Text Getopt Options.
From S2P Require Import Acl Mbox Serve Mirror Status Control Remote Flexnbd.

Open Scope Z_scope.

(** ** The options of each command *)

Record serve_args := {
  srv_ip_addr : option (list Z);
  srv_ip_port : option (list Z);
  srv_file : option (list Z);
  srv_sock : option (list Z);
  srv_deny : bool;
  srv_killswitch : bool;
  srv_log_level : Z
}.

#[export] Instance serve_args_eta : Settable serve_args := fun p =>
  Build_serve_args (srv_ip_addr p) (srv_ip_port p) (srv_file p) (srv_sock p) (srv_deny p) (srv_killswitch p) (srv_log_level p).

Definition no_serve_args : serve_args :=
  {| srv_ip_addr := None; srv_ip_port := None; srv_file := None; srv_sock := None; srv_deny := false;
     srv_killswitch := false; srv_log_level := log_level |}.

Definition read_serve_param (c : Z) (optarg : option (list Z)) (p : serve_args) : serve_args + outcome :=
  if c =? ch "h" then inr (exit_help serve_help_text)
  else if c =? ch "l" then inl (p <| srv_ip_addr := optarg |>)
  else if c =? ch "p" then inl (p <| srv_ip_port := optarg |>)
  else if c =? ch "f" then inl (p <| srv_file := optarg |>)
  else if c =? ch "s" then inl (p <| srv_sock := optarg |>)
  else if c =? ch "d" then inl (p <| srv_deny := true |>)
  else if c =? ch "q" then inl (p <| srv_log_level := QUIET_LOG_LEVEL |>)
  else if c =? ch "v" then inl (p <| srv_log_level := VERBOSE_LOG_LEVEL |>)
  else if c =? ch "k" then inl (p <| srv_killswitch := true |>)
  else inr (exit_err serve_help_text).

Record listen_args := {
  lst_ip_addr : option (list Z);
  lst_ip_port : option (list Z);
  lst_file : option (list Z);
  lst_sock : option (list Z);
  lst_deny : bool;
  lst_log_level : Z
}.

#[export] Instance listen_args_eta : Settable listen_args := fun p =>
  Build_listen_args (lst_ip_addr p) (lst_ip_port p) (lst_file p) (lst_sock p) (lst_deny p) (lst_log_level p).

Definition no_listen_args : listen_args :=
  {| lst_ip_addr := None; lst_ip_port := None; lst_file := None; lst_sock := None; lst_deny := false;
     lst_log_level := log_level |}.

Definition read_listen_param (c : Z) (optarg : option (list Z)) (p : listen_args) : listen_args + outcome :=
  if c =? ch "h" then inr (exit_help listen_help_text)
  else if c =? ch "l" then inl (p <| lst_ip_addr := optarg |>)
  else if c =? ch "p" then inl (p <| lst_ip_port := optarg |>)
  else if c =? ch "f" then inl (p <| lst_file := optarg |>)
  else if c =? ch "s" then inl (p <| lst_sock := optarg |>)
  else if c =? ch "d" then inl (p <| lst_deny := true |>)
  else if c =? ch "q" then inl (p <| lst_log_level := QUIET_LOG_LEVEL |>)
  else if c =? ch "v" then inl (p <| lst_log_level := VERBOSE_LOG_LEVEL |>)
  else inr (exit_err listen_help_text).

Record readwrite_args := {
  rwa_ip_addr : option (list Z);
  rwa_ip_port : option (list Z);
  rwa_bind_addr : option (list Z);
  rwa_from : option (list Z);
  rwa_size : option (list Z);
  rwa_log_level : Z
}.

#[export] Instance readwrite_args_eta : Settable readwrite_args := fun p =>
  Build_readwrite_args (rwa_ip_addr p) (rwa_ip_port p) (rwa_bind_addr p) (rwa_from p) (rwa_size p) (rwa_log_level p).

Definition no_readwrite_args : readwrite_args :=
  {| rwa_ip_addr := None; rwa_ip_port := None; rwa_bind_addr := None; rwa_from := None; rwa_size := None;
     rwa_log_level := log_level |}.

Definition read_readwrite_param (err_text : list Z) (c : Z) (optarg : option (list Z)) (p : readwrite_args) : readwrite_args + outcome :=
  if c =? ch "h" then inr (exit_help err_text)
  else if c =? ch "l" then inl (p <| rwa_ip_addr := optarg |>)
  else if c =? ch "p" then inl (p <| rwa_ip_port := optarg |>)
  else if c =? ch "F" then inl (p <| rwa_from := optarg |>)
  else if c =? ch "S" then inl (p <| rwa_size := optarg |>)
  else if c =? ch "b" then inl (p <| rwa_bind_addr := optarg |>)
  else if c =? ch "q" then inl (p <| rwa_log_level := QUIET_LOG_LEVEL |>)
  else if c =? ch "v" then inl (p <| rwa_log_level := VERBOSE_LOG_LEVEL |>)
  else inr (exit_err err_text).

Record sock_args := {
  sck_sock : option (list Z);
  sck_log_level : Z
}.

#[export] Instance sock_args_eta : Settable sock_args := fun p =>
  Build_sock_args (sck_sock p) (sck_log_level p).

Definition no_sock_args : sock_args := {| sck_sock := None; sck_log_level := log_level |}.

Definition read_sock_param (help_text : list Z) (c : Z) (optarg : option (list Z)) (p : sock_args) : sock_args + outcome :=
  if c =? ch "h" then inr (exit_help help_text)
  else if c =? ch "s" then inl (p <| sck_sock := optarg |>)
  else if c =? ch "q" then inl (p <| sck_log_level := QUIET_LOG_LEVEL |>)
  else if c =? ch "v" then inl (p <| sck_log_level := VERBOSE_LOG_LEVEL |>)
  else inr (exit_err help_text).

Definition read_acl_param := read_sock_param acl_help_text.
Definition read_status_param := read_sock_param status_help_text.

Definition read_break_param (c : Z) (optarg : option (list Z)) (p : sock_args) : sock_args + outcome :=
  if c =? ch "h" then inr (exit_help break_help_text)
  else if c =? ch "s" then inl (p <| sck_sock := optarg |>)
  else if c =? ch "q" then inl (p <| sck_log_level := QUIET_LOG_LEVEL |>)
  else if c =? ch "v" then inl (p <| sck_log_level := VERBOSE_LOG_LEVEL |>)
  else inr (exit_err break_help_text).

Record speed_args := {
  spd_sock : option (list Z);
  spd_speed : option (list Z);
  spd_log_level : Z
}.

#[export] Instance speed_args_eta : Settable speed_args := fun p =>
  Build_speed_args (spd_sock p) (spd_speed p) (spd_log_level p).

Definition no_speed_args : speed_args := {| spd_sock := None; spd_speed := None; spd_log_level := log_level |}.

Definition read_mirror_speed_param (c : Z) (optarg : option (list Z)) (p : speed_args) : speed_args + outcome :=
  if c =? ch "h" then inr (exit_help mirror_speed_help_text)
  else if c =? ch "s" then inl (p <| spd_sock := optarg |>)
  else if c =? ch "m" then inl (p <| spd_speed := optarg |>)
  else if c =? ch "q" then inl (p <| spd_log_level := QUIET_LOG_LEVEL |>)
  else if c =? ch "v" then inl (p <| spd_log_level := VERBOSE_LOG_LEVEL |>)
  else inr (exit_err mirror_speed_help_text).

Record mirror_opts := {
  mir_sock : option (list Z);
  mir_ip_addr : option (list Z);
  mir_ip_port : option (list Z);
  mir_unlink : bool;
  mir_bind_addr : option (list Z);
  mir_log_level : Z
}.

#[export] Instance mirror_opts_eta : Settable mirror_opts := fun p =>
  Build_mirror_opts (mir_sock p) (mir_ip_addr p) (mir_ip_port p) (mir_unlink p) (mir_bind_addr p) (mir_log_level p).

Definition no_mirror_opts : mirror_opts :=
  {| mir_sock := None; mir_ip_addr := None; mir_ip_port := None; mir_unlink := false; mir_bind_addr := None;
     mir_log_level := log_level |}.

Definition read_mirror_param (c : Z) (optarg : option (list Z)) (p : mirror_opts) : mirror_opts + outcome :=
  if c =? ch "h" then inr (exit_help mirror_help_text)
  else if c =? ch "s" then inl (p <| mir_sock := optarg |>)
  else if c =? ch "l" then inl (p <| mir_ip_addr := optarg |>)
  else if c =? ch "p" then inl (p <| mir_ip_port := optarg |>)
  else if c =? ch "u" then inl (p <| mir_unlink := true |>)
  else if c =? ch "b" then inl (p <| mir_bind_addr := optarg |>)
  else if c =? ch "q" then inl (p <| mir_log_level := QUIET_LOG_LEVEL |>)
  else if c =? ch "v" then inl (p <| mir_log_level := VERBOSE_LOG_LEVEL |>)
  else inr (exit_err mirror_help_text).

(** ** What the commands run *)

(** What the runs get from outside: the server's environment and thread, the answers
    and the socket of a connection, [rand()], standard input, what [open] and the two
    [lseek64] of a file answer with its data, and the answers and the response of a
    control socket. *)
Record mode_env := {
  en_signals : signal_answers;
  en_serve : serve_env;
  en_self : Z;
  en_connect : connect_answers;
  en_conn : conn;
  en_rand1 : Z;
  en_rand2 : Z;
  en_fuel : nat;
  en_stdin : list rd_event;
  en_open : list Z -> Z * Z * Z * list rd_event;
  en_socket : Z;
  en_connected : Z;
  en_response : list rd_event
}.

Definition ADDR_PORT : list Z := str "both --addr and --port are required.".
Definition NEED_FILE : list Z := str "--file is required".
Definition FROM_SIZE : list Z := str "both --from and --size are required.".
Definition NEED_SOCK : list Z := str "--sock is required.".
Definition NEED_SPEED : list Z := str "--max-speed is required.".

(** The complaints that apply, in order, and the help. *)
Definition refuse (checks : list (bool * list Z)) (help : list Z) : option outcome :=
  match filter (fun c => c.1 = true) checks with
  | [] => None
  | cs => Some (foldr (fun c o => complain c.2 o) (exit_err help) cs)
  end.

(** A remote command: what is sent, and how the program ends. *)
Definition run_remote (e : mode_env) (command : list Z) (argv : list (option (list Z))) : res outcome :=
  '(status, stream, text) ← do_remote_command (en_socket e) (en_connected e) (en_response e);
  Ok {| sent := remote_request command argv; exit_status := status;
        printed := match stream with Stdout => text | Stderr => [] end;
        errors := match stream with Stdout => [] | Stderr => text end |}.

Section Modes.
Context (pton4 pton6 : list Z -> option (list Z)) (e : mode_env).

Definition mode_serve (args : list (list Z)) : res outcome :=
  let '(es, operands) := getopt_long serve_short_options serve_options args in
  match read_params read_serve_param es no_serve_args with
  | inr o => Ok o
  | inl p =>
      match refuse [(missing (srv_ip_addr p) || missing (srv_ip_port p), ADDR_PORT); (missing (srv_file p), NEED_FILE)]
              serve_help_text with
      | Some o => Ok o
      | None =>
          fx ← flexnbd_create_serving pton4 pton6 (en_signals e) (default [] (srv_ip_addr p)) (default [] (srv_ip_port p))
                 (srv_sock p) (srv_deny p) operands (Z.to_nat MAX_NBD_CLIENTS) (srv_killswitch p);
          '(success, _) ← flexnbd_serve (en_self e) (en_serve e) fx;
          Ok (quits success)
      end
  end.

Definition mode_listen (args : list (list Z)) : res outcome :=
  let '(es, operands) := getopt_long listen_short_options listen_options args in
  match read_params read_listen_param es no_listen_args with
  | inr o => Ok o
  | inl p =>
      match refuse [(missing (lst_ip_addr p) || missing (lst_ip_port p), ADDR_PORT); (missing (lst_file p), NEED_FILE)]
              listen_help_text with
      | Some o => Ok o
      | None =>
          fx ← flexnbd_create_listening pton4 pton6 (en_signals e) (default [] (lst_ip_addr p)) (default [] (lst_ip_port p))
                 (lst_sock p) (lst_deny p) operands;
          '(success, _) ← flexnbd_serve (en_self e) (en_serve e) fx;
          Ok (quits success)
      end
  end.

(** [char] is signed. *)
Definition first_char (s : list Z) : Z := match s with [] => 0 | b :: _ => if b <? 128 then b else b - 256 end.

Definition params_readwrite (write_not_read : bool) (s_ip_address s_port s_bind_address s_from s_length_or_filename : option (list Z))
    : res mode_readwrite_params :=
  ip ← of_opt SFatal s_ip_address;
  port ← of_opt SFatal s_port;
  from ← of_opt SFatal s_from;
  len ← of_opt SFatal s_length_or_filename;
  to ← parse_ip_to_sockaddr pton4 pton6 zero_sockaddr ip;
  to ← of_opt SFatal to;
  bind ← match s_bind_address with
         | None => Ok zero_sockaddr
         | Some b => a ← parse_ip_to_sockaddr pton4 pton6 zero_sockaddr b; of_opt SFatal a
         end;
  to ← parse_port port to;
  let signed_from := atol from in
  if signed_from <? 0 then Stop SFatal
  else
    let out len fd :=
      {| rw_connect_to := to; rw_connect_from := bind; rw_from := signed_from; rw_len := u32 len; rw_data_fd := fd |} in
    if write_not_read then
      if first_char len - 48 <? 10 then Ok (out (atol len) 0)
      else
        let '(fd, signed_len, rewound, _) := en_open e len in
        if fd <? 0 then Stop SFatal
        else if signed_len <? 0 then Stop SFatal
        else if rewound <? 0 then Stop SFatal
        else Ok (out signed_len fd)
    else Ok (out (atol len) 1).

(** The checks of [mode_read] and [mode_write]. *)
Definition readwrite_checks (help : list Z) (p : readwrite_args) : option outcome :=
  refuse [(missing (rwa_ip_addr p) || missing (rwa_ip_port p), ADDR_PORT);
          (missing (rwa_from p) || missing (rwa_size p), FROM_SIZE)] help.

Definition mode_read (args : list (list Z)) : res outcome :=
  let '(es, _) := getopt_long read_short_options read_options args in
  match read_params (read_readwrite_param read_help_text) es no_readwrite_args with
  | inr o => Ok o
  | inl p =>
      match readwrite_checks read_help_text p with
      | Some o => Ok o
      | None =>
          params ← params_readwrite false (rwa_ip_addr p) (rwa_ip_port p) (rwa_bind_addr p) (rwa_from p) (rwa_size p);
          client ← socket_connect true (en_connect e);
          data ← (do_read (en_fuel e) (en_rand1 e) (en_rand2 e) client params (en_conn e)).1;
          Ok {| sent := []; exit_status := 0; printed := data; errors := [] |}
      end
  end.

Definition mode_write (args : list (list Z)) : res outcome :=
  let '(es, _) := getopt_long write_short_options write_options args in
  match read_params (read_readwrite_param write_help_text) es no_readwrite_args with
  | inr o => Ok o
  | inl p =>
      match readwrite_checks write_help_text p with
      | Some o => Ok o
      | None =>
          params ← params_readwrite true (rwa_ip_addr p) (rwa_ip_port p) (rwa_bind_addr p) (rwa_from p) (rwa_size p);
          client ← socket_connect true (en_connect e);
          let data := if rw_data_fd params =? 0 then en_stdin e else (en_open e (default [] (rwa_size p))).2 in
          _ ← (do_write (en_fuel e) (en_rand1 e) (en_rand2 e) client params data (en_conn e)).1;
          Ok (quits true)
      end
  end.

Definition mode_acl (args : list (list Z)) : res outcome :=
  let '(es, operands) := getopt_long acl_short_options acl_options args in
  match read_params read_acl_param es no_sock_args with
  | inr o => Ok o
  | inl p =>
      if missing (sck_sock p) then Ok (complain NEED_SOCK (exit_err acl_help_text))
      else run_remote e (str "acl") (Some <$> operands)
  end.

Definition mode_mirror_speed (args : list (list Z)) : res outcome :=
  let '(es, _) := getopt_long mirror_speed_short_options mirror_speed_options args in
  match read_params read_mirror_speed_param es no_speed_args with
  | inr o => Ok o
  | inl p =>
      if missing (spd_sock p) then Ok (complain NEED_SOCK (exit_err mirror_speed_help_text))
      else if missing (spd_speed p) then Ok (complain NEED_SPEED (exit_err mirror_speed_help_text))
      else run_remote e (str "mirror_max_bps") [spd_speed p]
  end.

Definition mode_mirror (args : list (list Z)) : res outcome :=
  let '(es, _) := getopt_long mirror_short_options mirror_options args in
  match read_params read_mirror_param es no_mirror_opts with
  | inr o => Ok o
  | inl p =>
      match refuse [(missing (mir_sock p), NEED_SOCK); (missing (mir_ip_addr p) || missing (mir_ip_port p), ADDR_PORT)]
              mirror_help_text with
      | Some o => Ok o
      | None =>
          let remote_argv := [mir_ip_addr p; mir_ip_port p; Some (if mir_unlink p then str "unlink" else str "exit")] in
          run_remote e (str "mirror")
            (if missing (mir_bind_addr p) then remote_argv else remote_argv ++ [mir_bind_addr p])
      end
  end.

Definition mode_break (args : list (list Z)) : res outcome :=
  let '(es, operands) := getopt_long break_short_options break_options args in
  match read_params read_break_param es no_sock_args with
  | inr o => Ok o
  | inl p =>
      if missing (sck_sock p) then Ok (complain NEED_SOCK (exit_err break_help_text))
      else run_remote e (str "break") (Some <$> operands)
  end.

Definition mode_status (args : list (list Z)) : res outcome :=
  let '(es, operands) := getopt_long status_short_options status_options args in
  match read_params read_status_param es no_sock_args with
  | inr o => Ok o
  | inl p =>
      if missing (sck_sock p) then Ok (complain NEED_SOCK (exit_err status_help_text))
      else run_remote e (str "status") (Some <$> operands)
  end.

Definition mode_help (args : list (list Z)) : outcome :=
  match args with
  | [] => exit_help help_help_text
  | cmd :: _ =>
      if IS_CMD CMD_SERVE cmd then exit_help serve_help_text
      else if IS_CMD CMD_LISTEN cmd then exit_help listen_help_text
      else if IS_CMD CMD_READ cmd then exit_help read_help_text
      else if IS_CMD CMD_WRITE cmd then exit_help write_help_text
      else if IS_CMD CMD_ACL cmd then exit_help acl_help_text
      else if IS_CMD CMD_MIRROR cmd then exit_help mirror_help_text
      else if IS_CMD CMD_STATUS cmd then exit_help status_help_text
      else exit_err help_help_text
  end.

(** [args] are the arguments behind the command. *)
Definition mode (mode : list Z) (args : list (list Z)) : res outcome :=
  if IS_CMD CMD_SERVE mode then mode_serve args
  else if IS_CMD CMD_LISTEN mode then mode_listen args
  else if IS_CMD CMD_READ mode then mode_read args
  else if IS_CMD CMD_WRITE mode then mode_write args
  else if IS_CMD CMD_ACL mode then mode_acl args
  else if IS_CMD CMD_MIRROR_SPEED mode then mode_mirror_speed args
  else if IS_CMD CMD_MIRROR mode then mode_mirror args
  else if IS_CMD CMD_BREAK mode then mode_break args
  else if IS_CMD CMD_STATUS mode then mode_status args
  else if IS_CMD CMD_HELP mode then Ok (mode_help args)
  else let o := mode_help args in
       Ok {| sent := sent o; exit_status := 1; printed := printed o; errors := errors o |}.

(** [main], with the arguments behind the program's name. *)
Definition main (argv : list (list Z)) : res outcome :=
  match argv with
  | [] => Ok (exit_err help_help_text)
  | m :: args => mode m args
  end.
End Modes.

(** * Lemmas *)

(** The argument of the last option with letter [c], and whether there is one. *)
Definition last_arg (c : Z) (es : list event) (start : option (list Z)) : option (list Z) :=
  foldl (fun a ev => if ev.1 =? c then ev.2 else a) start es.

Definition given (c : Z) (es : list event) : bool := existsb (fun ev => ev.1 =? c) es.

(** Compare letters. *)
Ltac letters :=
  repeat match goal with
  | |- context [ch ?a =? ch ?b] =>
      let v := eval vm_compute in (ch a =? ch b) in change (ch a =? ch b) with v
  end; cbn iota.

Definition log_arg (es : list event) (start : Z) : Z :=
  foldl (fun l ev => if ev.1 =? ch "q" then QUIET_LOG_LEVEL else if ev.1 =? ch "v" then VERBOSE_LOG_LEVEL else l) start es.

Definition mirror_letters : list Z := [ch "s"; ch "l"; ch "p"; ch "u"; ch "b"; ch "q"; ch "v"].

Lemma read_mirror_events es : forall p,
  Forall (fun ev => ev.1 ∈ mirror_letters) es ->
  read_params read_mirror_param es p =
    inl {| mir_sock := last_arg (ch "s") es (mir_sock p); mir_ip_addr := last_arg (ch "l") es (mir_ip_addr p);
           mir_ip_port := last_arg (ch "p") es (mir_ip_port p); mir_unlink := mir_unlink p || given (ch "u") es;
           mir_bind_addr := last_arg (ch "b") es (mir_bind_addr p); mir_log_level := log_arg es (mir_log_level p) |}.
Proof.
  unfold last_arg, given, log_arg.
  induction es as [| [c v] es IH]; intros p Hall; cbn [read_params foldl existsb fst snd].
  { rewrite orb_false_r. by destruct p. }
  apply Forall_cons_1 in Hall as [Hc Hall]. cbn [fst] in Hc. unfold mirror_letters in Hc.
  unfold read_mirror_param at 1.
  rewrite !elem_of_cons in Hc. destruct Hc as [-> | [-> | [-> | [-> | [-> | [-> | [-> | Hc]]]]]]];
    [letters; rewrite (IH _ Hall); cbn; rewrite ?orb_false_r, ?orb_true_r; reflexivity .. |].
  by apply not_elem_of_nil in Hc.
Qed.

Lemma spelled_letters optstring opts args es ops :
  spelled optstring opts args es ops ->
  Forall (fun ev => short_kind ev.1 optstring <> None \/ ev.1 ∈ o_val <$> opts) es.
Proof.
  induction 1; try done; try (constructor; [| done]).
  all: try (left; cbn; congruence).
  all: right; apply list_elem_of_fmap; by eexists.
Qed.

(** The letters of a short option string, without the colons. *)
Lemma short_kind_elem c optstring : short_kind c optstring <> None -> c ∈ optstring.
Proof.
  induction optstring as [| x rest IH]; cbn [short_kind]; [done |].
  destruct (Z.eqb_spec x c) as [-> | Hne]; cbn [andb]; [intros _; apply list_elem_of_here |].
  intros H. apply list_elem_of_further. by apply IH.
Qed.

Lemma mirror_spelled_letters args es ops :
  spelled mirror_short_options mirror_options args es ops -> ch "h" ∉ es.*1 -> Forall (fun ev => ev.1 ∈ mirror_letters) es.
Proof.
  intros Hs Hh. apply spelled_letters in Hs. induction Hs as [| [c v] es Hc _ IH]; [done |].
  cbn in Hh. rewrite not_elem_of_cons in Hh. destruct Hh as [Hh Hhs]. constructor; [| by apply IH].
  cbn [fst] in *.
  assert (Hin : c = 58 /\ short_kind c mirror_short_options <> None \/ c ∈ ch "h" :: mirror_letters).
  { destruct Hc as [Hc | Hc].
    - pose proof (short_kind_elem _ _ Hc) as Hin.
      change mirror_short_options with [ch "h"; ch "s"; 58; ch "l"; 58; ch "p"; 58; ch "u"; ch "b"; 58; ch "q"; ch "v"] in Hin.
      unfold mirror_letters. rewrite !elem_of_cons in *. naive_solver.
    - right. change (o_val <$> mirror_options) with [ch "h"; ch "s"; ch "l"; ch "p"; ch "u"; ch "b"; ch "q"; ch "v"] in Hc.
      exact Hc. }
  destruct Hin as [[-> H] | Hin]; [by destruct H |]. rewrite elem_of_cons in Hin. destruct Hin as [-> | Hin]; done.
Qed.

(** ** Dispatch *)

(** The commands by their exact names. *)
Definition command_table (pton4 pton6 : list Z -> option (list Z)) (e : mode_env)
    : list (list Z * (list (list Z) -> res outcome)) :=
  [(str "serve", mode_serve pton4 pton6 e); (str "listen", mode_listen pton4 pton6 e);
   (str "read", mode_read pton4 pton6 e); (str "write", mode_write pton4 pton6 e);
   (str "acl", mode_acl e); (str "mirror-speed", mode_mirror_speed e); (str "mirror", mode_mirror e);
   (str "break", mode_break e); (str "status", mode_status e); (str "help", fun args => Ok (mode_help args))].

Fixpoint find_command {A} (name : list Z) (t : list (list Z * A)) : option A :=
  match t with
  | [] => None
  | (n, a) :: t' => if streq n name then Some a else find_command name t'
  end.

(** The commands that have a help text of their own, and the text asked for. *)
Definition help_table : list (list Z * list Z) :=
  [(str "serve", serve_help_text); (str "listen", listen_help_text); (str "read", read_help_text);
   (str "write", write_help_text); (str "acl", acl_help_text); (str "mirror", mirror_help_text);
   (str "status", status_help_text)].

Definition help_asked (args : list (list Z)) : option (list Z) :=
  match args with [] => Some help_help_text | a :: _ => find_command a help_table end.

Lemma IS_CMD_names x c :
  x ∈ [CMD_SERVE; CMD_LISTEN; CMD_READ; CMD_WRITE; CMD_ACL; CMD_MIRROR_SPEED; CMD_MIRROR; CMD_BREAK; CMD_STATUS; CMD_HELP] ->
  IS_CMD x c = streq x c.
Proof.
  intros Hx. apply IS_CMD_exact. revert x Hx. apply list.Forall_forall. repeat (constructor; [vm_compute; lia |]). constructor.
Qed.

(** A port that [parse_port] accepts. *)
Lemma port_sets s a a' : parse_port s a = Ok a' -> 0 <= atoi s <= 65535 /\ a' = a <| sin_port := htobe16 (atoi s) |>.
Proof. unfold parse_port. destruct (_ || _) eqn:E; [done |]. intros [= <-]. split; [lia | done]. Qed.

(** * Properties *)

(** C31: the program runs the command whose name it is given, and only that one: the
    comparison of the first thirteen bytes tells the ten names apart from each other
    and from every other word, also "mirror" from "mirror-speed". For another word it
    sends nothing, exits with 1 and prints help: on stdout the text of the command
    that its first argument names, or the general text when there is no argument, and
    on stderr the general text when the argument names no command that has a text. *)
Theorem command_dispatch_exact pton4 pton6 e name args :
  match find_command name (command_table pton4 pton6 e) with
  | Some run => main pton4 pton6 e (name :: args) = run args
  | None => main pton4 pton6 e (name :: args) = Ok {| sent := []; exit_status := 1;
      printed := match help_asked args with Some text => text ++ NL | None => [] end;
      errors := match help_asked args with Some _ => [] | None => help_help_text ++ NL end |}
  end.
Proof.
  cbn [main]. unfold mode. rewrite !IS_CMD_names by by_decide.
  unfold command_table. cbn [find_command].
  fold CMD_SERVE CMD_LISTEN CMD_READ CMD_WRITE CMD_ACL CMD_MIRROR_SPEED CMD_MIRROR CMD_BREAK CMD_STATUS CMD_HELP.
  repeat (match goal with |- context [streq ?x name] => destruct (streq x name); [reflexivity |] end).
  unfold help_asked, mode_help. destruct args as [| a args]; [reflexivity |].
  rewrite !IS_CMD_names by by_decide. unfold help_table. cbn [find_command].
  fold CMD_SERVE CMD_LISTEN CMD_READ CMD_WRITE CMD_ACL CMD_MIRROR CMD_STATUS.
  repeat (match goal with |- context [streq ?x a] => destruct (streq x a); [reflexivity |] end). reflexivity.
Qed.

(** C24: [flexnbd mirror] means what its options say, in any order and each spelled as
    [-x ARG], [-xARG], [--name ARG] or [--name=ARG]: the last address, port, socket and
    bind address count. The program sends the control socket a mirror command and exits
    with the status it answers; and the control socket, in whatever pieces the command
    arrives, reads from it a mirror to that address and port, from that bind address, at
    full speed, which unlinks the file exactly when [-u] was given, and exits otherwise.
    The address, the port and the bind address are lines of 1 to 255 characters, and the
    addresses and the port parse. ([--unlink] counts as [-u] only with a word behind it,
    which it takes as an argument: [documented_unlink_refused].) *)
Theorem mirror_command_line pton4 pton6 e args es ops sock addr port status stream text to from :
  spelled mirror_short_options mirror_options args es ops -> ch "h" ∉ es.*1 ->
  last_arg (ch "s") es None = Some sock -> last_arg (ch "l") es None = Some addr -> last_arg (ch "p") es None = Some port ->
  do_remote_command (en_socket e) (en_connected e) (en_response e) = Ok (status, stream, text) ->
  parse_ip_to_sockaddr pton4 pton6 zero_sockaddr addr = Ok (Some to) -> 0 <= atoi port <= 65535 ->
  parse_bind pton4 pton6 (last_arg (ch "b") es None) = Ok (Some from) ->
  Forall (line_ok 256) (addr :: port :: option_list (last_arg (ch "b") es None)) ->
  let lines := addr :: port :: (if given (ch "u") es then str "unlink" else str "exit") ::
               option_list (last_arg (ch "b") es None) in
  (exists o, main pton4 pton6 e (CMD_MIRROR :: args) = Ok o /\ exit_status o = status /\
     sent o = send_lines (str "mirror" :: lines) /\
     forall self fuel ce rx s, Forall data_event rx -> incoming rx = sent o -> (5 < fuel)%nat ->
       control_respond pton4 pton6 self fuel ce rx s =
         '(_, out, s') ← control_mirror pton4 pton6 self (ce_mirror ce) lines s; Ok (out, control_client_cleanup self s')) /\
  parse_mirror pton4 pton6 lines =
    Ok (inr {| connect_to := to <| sin_port := htobe16 (atoi port) |>; connect_from := from; max_Bps := UINT64_MAX;
               action := if given (ch "u") es then ACTION_UNLINK else ACTION_EXIT |}).
Proof.
  intros Hsp Hh Hs Hl Hp Hrun Hto Hport Hbind Hlines lines. split.
  - assert (Htbl : table_ok mirror_options) by apply (Forall_lookup_1 _ _ 5 _ tables_ok eq_refl).
    cbn [main]. change (mode pton4 pton6 e CMD_MIRROR args) with (mode_mirror e args). unfold mode_mirror.
    rewrite (getopt_spelled _ _ _ _ _ Htbl Hsp), read_mirror_events by (by apply (mirror_spelled_letters args es ops)).
    cbn [mir_sock mir_ip_addr mir_ip_port mir_unlink mir_bind_addr no_mirror_opts]. rewrite Hs, Hl, Hp. cbn [orb].
    change (refuse _ _) with (@None outcome). cbn iota. unfold run_remote. rewrite Hrun. cbn [mbind res_bind].
    eexists. split; [reflexivity |]. split; [done |]. cbn [sent].
    assert (Hsent : forall l, l = Some <$> lines -> remote_request (str "mirror") l = send_lines (str "mirror" :: lines))
      by (intros l ->; apply remote_request_lines).
    rewrite Hsent by (unfold lines; by destruct (last_arg (ch "b") es None)). split; [done |].
    intros self fuel ce rx s Hrx Hin Hf. rewrite <- remote_request_lines in Hin.
    rewrite (control_respond_lines pton4 pton6 self fuel ce (str "mirror") lines rx s); try done.
    + unfold lines. apply Forall_cons_1 in Hlines as [L1 Hlines]. apply Forall_cons_1 in Hlines as [L2 L3].
      repeat (apply Forall_cons_2; [try done |]); [by split_and!; [discriminate | by_decide | by_decide | vm_compute; lia] | | done].
      destruct (given _ _); by split_and!; [discriminate | by_decide | by_decide | vm_compute; lia].
    + unfold lines. destruct (last_arg (ch "b") es None); cbn; lia.
  - unfold lines, parse_mirror. rewrite Hto. cbn [mbind res_bind].
    replace (atoi port <? 0) with false by lia. replace (65535 <? atoi port) with false by lia. cbn [orb].
    set (act := if given _ _ then _ else _). cbn [lookup list_lookup].
    assert (parse_action (Some act) = Some (if given (ch "u") es then ACTION_UNLINK else ACTION_EXIT)) as ->.
    { unfold act. by destruct (given _ _). }
    destruct (last_arg (ch "b") es None) as [b |];
      [change (option_list (Some b)) with [b] | change (option_list (@None (list Z))) with (@nil (list Z))];
      cbn [lookup list_lookup]; by rewrite Hbind.
Qed.

(** C32: the parameters of [read] and [write] fit their C types whatever the strings
    are: when [params_readwrite] accepts them, the address has a family and bytes, the
    port is the given number in network order, the offset is the given number and not
    negative as a 64-bit one, and the length fits 32 bits. With this the range check
    of [do_read] and [do_write] applies to every command line. *)
Theorem readwrite_params_typed pton4 pton6 e w ip port bind from len p :
  pton_ok pton4 4 -> pton_ok pton6 16 ->
  params_readwrite pton4 pton6 e w (Some ip) (Some port) bind (Some from) (Some len) = Ok p ->
  addr_ok (rw_connect_to p) /\ be16toh (sin_port (rw_connect_to p)) = atoi port /\ 0 <= atoi port < 2 ^ 16 /\
  rw_from p = atol from /\ 0 <= rw_from p < 2 ^ 63 /\ 0 <= rw_len p < 2 ^ 32 /\
  (w = false -> rw_len p = u32 (atol len) /\ rw_data_fd p = 1).
Proof.
  intros H4 H6 H. unfold params_readwrite in H. cbn [of_opt mbind res_bind] in H.
  apply bind_Ok in H as (to & Hto & H). destruct to as [to |]; [| done]. cbn [of_opt mbind res_bind] in H.
  apply bind_Ok in H as (b & _ & H). apply bind_Ok in H as (to' & Hport & H).
  destruct (port_sets port to to' Hport) as (Hr & ->).
  pose proof (parse_ip_ok pton4 pton6 H4 H6 _ _ Hto) as Hok.
  destruct (atol from <? 0) eqn:Ef; [done |].
  assert (Hat : atol from < 2 ^ 63) by (unfold atol; destruct (signed_digits from); unfold clamp_long; lia).
  assert (Hall : forall n fd, p = {| rw_connect_to := to <| sin_port := htobe16 (atoi port) |>; rw_connect_from := b;
      rw_from := atol from; rw_len := u32 n; rw_data_fd := fd |} ->
    addr_ok (rw_connect_to p) /\ be16toh (sin_port (rw_connect_to p)) = atoi port /\ 0 <= atoi port < 2 ^ 16 /\
    rw_from p = atol from /\ 0 <= rw_from p < 2 ^ 63 /\ 0 <= rw_len p < 2 ^ 32).
  { intros n fd ->. cbn [rw_connect_to rw_from rw_len sin_port set_field].
    split_and!; try apply Hok; try lia; try apply u32_range.
    apply bswap_involutive. cbn. lia. }
  destruct w; [destruct (first_char len - 48 <? 10) |].
  - injection H as H. symmetry in H. split_and!; try apply (Hall _ _ H); done.
  - destruct (en_open e len) as [[[fd n] r] d]. destruct (fd <? 0); [done |]. destruct (n <? 0); [done |].
    destruct (r <? 0); [done |]. injection H as H. symmetry in H. split_and!; try apply (Hall _ _ H); done.
  - injection H as H. symmetry in H. split_and!; try apply (Hall _ _ H). intros _. by rewrite H.
Qed.

(** An environment whose control socket says that the mirror started. *)
Definition sample_env : mode_env :=
  {| en_signals := {| sa_sigmask := 0; sa_signalfd := 5; sa_sigaction := 0 |};
     en_serve := {| sv_create := 0;
                    sv_open := {| oi_socket := 3; oi_reuseaddr := 0; oi_nodelay := 0; oi_bind := [{| a_ret := 0; a_errno := 0 |}];
                                  oi_listen := 0 |};
                    sv_file := 4; sv_file_size := 8192; sv_builder := 0; sv_rounds := []; sv_join := fun _ => 0;
                    sv_super := fun s => Ok s; sv_thread := fun c => Ok c; sv_joined := 0 |};
     en_self := 1;
     en_connect := {| ck_socket := 3; ck_bind := 0; ck_errno := 0; ck_unblocking := 0; ck_connects := []; ck_selects := [];
                      ck_getsockopt := 0; ck_so_error := 0; ck_blocking := 0 |};
     en_conn := {| sk_rx := []; sk_wq := []; sk_tx := []; sk_errno := 0; sk_selects := [] |};
     en_rand1 := 1; en_rand2 := 2; en_fuel := 5; en_stdin := []; en_open := fun _ => (6, 100, 0, []);
     en_socket := 4; en_connected := 0; en_response := [RdBytes (str "0: Mirror started" ++ NL)] |}.

(** flexnbd mirror -u --addr=0 -p4777 --sock ctl *)
Definition sample_mirror_line : list (list Z) := [str "-u"; str "--addr=0"; str "-p4777"; str "--sock"; str "ctl"].

Definition sample_mirror_events : list event :=
  [(ch "u", None); (ch "l", Some (str "0")); (ch "p", Some (str "4777")); (ch "s", Some (str "ctl"))].

Lemma sample_spelled : spelled mirror_short_options mirror_options sample_mirror_line sample_mirror_events [].
Proof.
  unfold sample_mirror_line, sample_mirror_events.
  apply (sp_short_flag _ _ (ch "u")); [done | done |].
  apply (sp_long_here _ _ GETOPT_ADDR (str "0")); [do 2 apply list_elem_of_further; apply list_elem_of_here | done |].
  apply (sp_short_here _ _ (ch "p") (str "4777")); [done | done | done |].
  apply (sp_long_next _ _ GETOPT_SOCK (str "ctl")); [apply list_elem_of_further, list_elem_of_here | done |].
  apply sp_nil.
Qed.

Lemma mirror_command_line_witness :
  let lines := [str "0"; str "4777"; str "unlink"] in
  (exists o, main (fun _ => None) (fun _ => None) sample_env (CMD_MIRROR :: sample_mirror_line) = Ok o /\
     exit_status o = 0 /\ sent o = send_lines (str "mirror" :: lines) /\
     forall self fuel ce rx s, Forall data_event rx -> incoming rx = sent o -> (5 < fuel)%nat ->
       control_respond (fun _ => None) (fun _ => None) self fuel ce rx s =
         '(_, out, s') ← control_mirror (fun _ => None) (fun _ => None) self (ce_mirror ce) lines s;
         Ok (out, control_client_cleanup self s')) /\
  parse_mirror (fun _ => None) (fun _ => None) lines =
    Ok (inr {| connect_to := (zero_sockaddr <| family := AF_INET |>) <| sin_port := htobe16 4777 |>; connect_from := None;
               max_Bps := UINT64_MAX; action := ACTION_UNLINK |}).
Proof.
  apply (mirror_command_line (fun _ => None) (fun _ => None) sample_env sample_mirror_line sample_mirror_events []
    (str "ctl") (str "0") (str "4777") 0 Stdout (str "Mirror started" ++ NL) (zero_sockaddr <| family := AF_INET |>) None).
  - exact sample_spelled.
  - by_decide.
  - reflexivity.
  - reflexivity.
  - reflexivity.
  - vm_compute. reflexivity.
  - reflexivity.
  - vm_compute. split; discriminate.
  - reflexivity.
  - repeat constructor; try by_decide; vm_compute; lia.
Defined.

Lemma readwrite_params_typed_witness :
  exists p, params_readwrite example_pton4 (fun _ => None) sample_env false (Some (str "10.0.0.0")) (Some (str "4777")) None
    (Some (str "512")) (Some (str "4294967808")) = Ok p /\
  addr_ok (rw_connect_to p) /\ be16toh (sin_port (rw_connect_to p)) = 4777 /\ 0 <= 4777 < 2 ^ 16 /\
  rw_from p = 512 /\ 0 <= rw_from p < 2 ^ 63 /\ 0 <= rw_len p < 2 ^ 32 /\ (false = false -> rw_len p = 512 /\ rw_data_fd p = 1).
Proof.
  eexists. split; [vm_compute; reflexivity |].
  apply (readwrite_params_typed example_pton4 (fun _ => None) sample_env false (str "10.0.0.0") (str "4777") None
    (str "512") (str "4294967808")).
  - exact example_pton4_ok.
  - intros s a. discriminate.
  - vm_compute. reflexivity.
Defined.

(** [--killswitch] and [--unlink] are in the tables as options with an argument, while
    [-k] and [-u], and the documentation, have none: the long forms take the next word. *)
Theorem long_flag_takes_argument entry rest es ops :
  head entry <> Some 45 -> getopt_long serve_short_options serve_options rest = (es, ops) ->
  getopt_long serve_short_options serve_options (str "-k" :: entry :: rest) = ((ch "k", None) :: es, entry :: ops) /\
  getopt_long serve_short_options serve_options (str "--killswitch" :: entry :: rest) = ((ch "k", Some entry) :: es, ops).
Proof.
  intros He Hr. change (str "-k") with [45; 107]. change (str "--killswitch") with (45 :: 45 :: OPT_KILLSWITCH). split.
  - rewrite getopt_short by done. change (short_options serve_short_options [107]) with ([(ch "k", @None (list Z))], @None Z).
    cbn iota. cbn [getopt_long]. rewrite Hr. destruct entry as [| x a]; [done |]. destruct x as [| p | p]; [done | | done].
    do 6 (destruct p as [p | p |]; try done).
  - cbn [getopt_long OPT_KILLSWITCH]. change (getopt_long serve_short_options serve_options
      ((45 :: 45 :: OPT_KILLSWITCH) :: entry :: rest)) with
      (let '(es', ops) := getopt_long serve_short_options serve_options rest in ([(ch "k", Some entry)] ++ es', ops)).
    by rewrite Hr.
Qed.

(** The documented synopsis of [flexnbd mirror] with [--unlink] at the end is refused. *)
Theorem documented_unlink_refused pton4 pton6 e addr port sock :
  main pton4 pton6 e [str "mirror"; str "--addr"; addr; str "--port"; port; str "--sock"; sock; str "--unlink"] =
    Ok (exit_err mirror_help_text).
Proof. reflexivity. Qed.

(** A file to be written whose name begins with '/' or '.' is taken for a number: it
    is never opened, and what is sent is the first zero bytes of standard input. *)
Theorem path_taken_for_length pton4 pton6 e ip port from path p :
  params_readwrite pton4 pton6 e true (Some ip) (Some port) None (Some from) (Some (47 :: path)) = Ok p ->
  rw_len p = 0 /\ rw_data_fd p = 0.
Proof.
  intros H. unfold params_readwrite in H. cbn [of_opt mbind res_bind] in H.
  apply bind_Ok in H as (to & _ & H). apply bind_Ok in H as (to' & _ & H). cbn [mbind res_bind] in H.
  apply bind_Ok in H as (to'' & _ & H). destruct (atol from <? 0); [done |]. by injection H as <-.
Qed.
