(* ===== verification/ProxyMain.v ===== *)
(** * The proxy program

    Models src/src/proxy-main.c: the options, and the run of the proxy. *)

From S2P Require Import Prelude Bitset NbdTypes IoUtil SockUtil Parse ReadWrite Text Getopt Options Prefetch Proxy.

Open Scope Z_scope.

Record proxy_args := {
  prx_downstream_addr : option (list Z);
  prx_downstream_port : option (list Z);
  prx_upstream_addr : option (list Z);
  prx_upstream_port : option (list Z);
  prx_bind_addr : option (list Z);
  prx_cache_bytes : option (list Z);
  prx_log_level : Z
}.

#[export] Instance proxy_args_eta : Settable proxy_args := fun p =>
  Build_proxy_args (prx_downstream_addr p) (prx_downstream_port p) (prx_upstream_addr p) (prx_upstream_port p)
    (prx_bind_addr p) (prx_cache_bytes p) (prx_log_level p).

Definition no_proxy_args : proxy_args :=
  {| prx_downstream_addr := None; prx_downstream_port := None; prx_upstream_addr := None; prx_upstream_port := None;
     prx_bind_addr := None; prx_cache_bytes := None; prx_log_level := log_level |}.

Definition read_proxy_param (c : Z) (optarg : option (list Z)) (p : proxy_args) : proxy_args + outcome :=
  if c =? ch "h" then inr (exit_help proxy_help_text)
  else if c =? ch "l" then inl (p <| prx_downstream_addr := optarg |>)
  else if c =? ch "p" then inl (p <| prx_downstream_port := optarg |>)
  else if c =? ch "C" then inl (p <| prx_upstream_addr := optarg |>)
  else if c =? ch "P" then inl (p <| prx_upstream_port := optarg |>)
  else if c =? ch "b" then inl (p <| prx_bind_addr := optarg |>)
  else if c =? ch "c" then inl (p <| prx_cache_bytes := Some (default proxy_default_cache_size optarg) |>)
  else if c =? ch "q" then inl (p <| prx_log_level := QUIET_LOG_LEVEL |>)
  else if c =? ch "v" then inl (p <| prx_log_level := VERBOSE_LOG_LEVEL |>)
  else inr (exit_err proxy_help_text).

(** What the run gets from outside: the environment's timeout, and what [do_proxy] gets. *)
Record proxy_env := {
  pe_timeout : option (list Z);
  pe_connect : connect_answers;
  pe_conn : conn;
  pe_listen : listen_input;
  pe_rounds : list accept_pass
}.

Definition proxy_main (pton4 pton6 : list Z -> option (list Z)) (e : proxy_env) (args : list (list Z)) : res outcome :=
  let '(es, _) := getopt_long proxy_short_options proxy_options args in
  match read_params read_proxy_param es no_proxy_args with
  | inr o => Ok o
  | inl a =>
      match prx_downstream_addr a, prx_upstream_addr a, prx_upstream_port a with
      | None, _, _ => Ok (complain (str "--addr is required.") (exit_err proxy_help_text))
      | Some down_addr, Some up_addr, Some up_port =>
          p ← proxy_create pton4 pton6 down_addr (prx_downstream_port a) up_addr up_port (prx_bind_addr a)
                (prx_cache_bytes a) (pe_timeout e);
          '(success, _) ← do_proxy (pe_connect e) (pe_conn e) (pe_listen e) (pe_rounds e) p;
          Ok (quits (negb (success =? 0)))
      | _, _, _ => Ok (complain (str "both --conn-addr and --conn-port are required.") (exit_err proxy_help_text))
      end
  end.

(** The handler of SIGTERM, SIGQUIT and SIGINT: the proxy once it is there, and the exit status. *)
Definition my_exit (proxy : option proxier) : option proxier * Z :=
  (match proxy with Some p => Some (proxy_cleanup p) | None => None end, 0).

(** * Lemmas *)

Lemma accept_loop_never_returns rounds : forall p p', proxy_accept_loop rounds p <> Ok p'.
Proof.
  induction rounds as [| a rounds IH]; intros p p' H; cbn [proxy_accept_loop] in H; [done |].
  apply bind_Ok in H as (p1 & _ & H). by apply IH in H.
Qed.

(** [do_proxy] returns only when the first connection failed. *)
Lemma do_proxy_returns ck k l rounds p n p' :
  do_proxy ck k l rounds p = Ok (n, p') -> n = 1 /\ exists fd p1, socket_connect (bind p) ck = Ok fd /\
    proxy_connect_to_upstream fd k p = Ok (false, p1).
Proof.
  intros H. unfold do_proxy in H. apply bind_Ok in H as (fd & Hfd & H). apply bind_Ok in H as ([ok p1] & Hc & H).
  destruct ok; cbn [negb] in H.
  - apply bind_Ok in H as (p2 & _ & H). apply bind_Ok in H as (p3 & H3 & _). by apply accept_loop_never_returns in H3.
  - injection H as <- _. split; [done |]. by exists fd, p1.
Qed.

(** * Properties *)

(** When the upstream server cannot be reached at the start, the proxy exits with
    status 0: [do_proxy] returns 1 for the failure and [main] takes it for success. *)
Theorem failed_start_exits_zero pton4 pton6 e args es ops a down_addr up_addr up_port p fd p1 :
  getopt_long proxy_short_options proxy_options args = (es, ops) ->
  read_params read_proxy_param es no_proxy_args = inl a ->
  prx_downstream_addr a = Some down_addr -> prx_upstream_addr a = Some up_addr -> prx_upstream_port a = Some up_port ->
  proxy_create pton4 pton6 down_addr (prx_downstream_port a) up_addr up_port (prx_bind_addr a) (prx_cache_bytes a)
    (pe_timeout e) = Ok p ->
  socket_connect (bind p) (pe_connect e) = Ok fd -> proxy_connect_to_upstream fd (pe_conn e) p = Ok (false, p1) ->
  exists o, proxy_main pton4 pton6 e args = Ok o /\ exit_status o = 0.
Proof.
  intros Hg Hr H1 H2 H3 Hc Hfd Hu. unfold proxy_main. rewrite Hg, Hr, H1, H2, H3, Hc. cbn [mbind res_bind].
  unfold do_proxy. rewrite Hfd. cbn [mbind res_bind]. rewrite Hu. cbn [mbind res_bind negb]. by eexists.
Qed.

(** [-c], which the help and the documentation give as the short form of [--cache], is
    not in the string of short options. *)
Theorem short_cache_refused pton4 pton6 e rest :
  proxy_main pton4 pton6 e (str "-c" :: rest) = Ok (exit_err proxy_help_text).
Proof.
  unfold proxy_main. change (str "-c") with [45; 99]. rewrite getopt_short by done.
  change (short_options proxy_short_options [99]) with ([QUESTION], @None Z). cbn iota.
  by destruct (getopt_long _ _ rest) as [es ops].
Qed.
